(* ===== verification/_CoqProject ===== *)
-Q . S2P
Prelude.v
CMonad.v
LinuxApi.v
Uart16550.v
LinuxRs232.v
E1000.v
E1000Card.v
E1000Init.v
E1000Spec.v
E1000Traffic.v
E1000Irq.v
E1000Pci.v
E1000Life.v
LinuxChardev.v
UiTest.v
ChardevStack.v
Ac97.v
MySerial.v
WinHello.v
ObsdApi.v
ObsdRs232.v
Rl8029.v
Lkm.v
CodeWorker.v
TypeReorder.v
ConfigMatcher.v
LinkSession.v
LinkCache.v
RegisterMask.v
RegisterUart.v
FrontCheck.v
MiddleCheck.v
MiddleSound.v
BackCheck.v
BackSound.v
