(* ===== verification/Prelude.v ===== *)
(** * Rathaxes: a verification library of the drivers and the compiler

    Rathaxes compiles descriptions of device drivers to C.  The C code of the
    repository is the drivers under src/doc/systems, written by hand against
    three kernels, from which the languages of the compiler were drawn.  This
    library models all of them as they are written, proves what they do to
    their devices, to the memory and to the resources of the kernel, and where
    the code does less than it means to, proves that too.  Of the compiler, a
    set of scripts under src/rathaxes/compiler, it models the parts that
    compute rather than parse or print: the reordering of C types, the
    matching of configurations, the session of the linker and its caches on
    disk, the fields of registers, and the type checks of the front, middle and
    back ends.

    ** The parts

    Each driver is a client of a kernel and of a device, and is entered by the
    kernel only: the entry points below are its operations.  The drivers share
    no code; the serial drivers share their device.  One driver has a client in
    the repository, a test program.

    - Prelude.v (this file): integer conversions of C on 32-bit machines and
      bit lemmas, byte buffers with bounds, the tactics [ilia] and [zbits].
    - CMonad.v: the effects.  A driver is a computation over its C state and
      the trace of its external calls; the class [Kernel] decides what the calls
      answer; a computation ends [Ok], in a [Fault] or in a [Hang].  Weakest
      preconditions ([wp]: completes and satisfies; [wlp]: the same but for
      hanging), loop rules, a deduction of faults, the growth of the trace
      ([grows]) and the counting of resources held ([hold_all], [held]).
    - LinuxApi.v: error numbers, the encoding of ioctl commands, strings.
    - ObsdApi.v: error numbers, device numbers, and the entry point of a
      loadable module of OpenBSD with what it is to announce ([announces]).
    - Uart16550.v: the class [PortIO] of the components with port accesses, and
      the reference UART, a register file computed from a trace.  It
      is a specification that models no code.
    - LinuxRs232.v: linux/rs232_polling.  rs232_define.h, rs232.h; setreg,
      rs232_read, rs232_write, rs232_ioctl, rs232_open, rs232_release of
      rs232.c; rs232_init and rs232_exit of rs232_mod.c.
    - E1000.v: e1000/Linux, all of e1000.h, e1000_reg_primitive.h and mod.c,
      from the layouts of the descriptors to the operations of the network
      device and of the PCI driver.  Its theorems are split by use:
      E1000Card.v (the reference card and the rules of the primitives),
      E1000Init.v (initialisation), E1000Spec.v (opening and closing),
      E1000Traffic.v (e1000_start_xmit and e1000_read), E1000Irq.v (handler and
      intr_task), E1000Pci.v (probe and remove), E1000Life.v (all of them, in
      the order in which a kernel calls them).
    - LinuxChardev.v: linux/chardev, the device that stores a string
      (userland_interface.c and its headers).
    - UiTest.v: linux/chardev/ui_test.c, a program that exercises that device,
      against the interface [StringDevice]; ChardevStack.v: the driver as an
      instance of the interface, and the program on the driver.
    - Ac97.v: linux/ac97/rtx_ac97.c, probe and remove of a sound card.
    - ObsdRs232.v: openbsd/rs323_polling, rs232.h, rs232.c and rs232_mod.c.
    - Rl8029.v: openbsd/rl8029, the driver of an Ethernet card: attachment,
      ioctl, watchdog (if_ne2000.c, and the registers of rl8029.h it uses).
    - Lkm.v: openbsd/chardev (ui.c, ui_mod.c) and openbsd/lkm/hello.c, modules
      that print.  WinHello.v: windows/lkm, Modules Wdm (wdm/hello.c) and Wdf
      (wdf/wdf_hello.c).
    - MySerial.v: windows/rs232_polling/MySerial, the serial driver for WDF:
      uart.c, device.c with its reader thread, pnp.c, read.c, write.c, ioctl.c,
      driver.c.
    - CodeWorker.v: what the scripts of the compiler use of their language,
      CodeWorker: outcomes of a call, arrays, the comparison of values.
    - TypeReorder.v: passes/common/rtxResolve_TypeReordering.inc.cws, the
      whole file.
    - ConfigMatcher.v: linker/rtxLink_ConfigMatcher.inc.cws, the comparisons of
      typing/rules_types, and the functions of node/rtxNode.inc.cws that build
      constraints, serials and configurations.
    - LinkSession.v: linker/rtxLink.inc.cws, registration and merging of
      linker/rtxLink_Session.inc.cws, selection of linker/rtxLink_Query.inc.cws;
      it calls the matcher.
    - LinkCache.v: the caches on disk of rtxLink_Session.inc.cws, loaded, saved
      and installed, and the commands of rathaxes.cws that do so; it merges by
      LinkSession.v.
    - RegisterMask.v: misc/rtxTools.inc.cws (bit arrays and masks) and
      rtxTypeCheck_Register of typing/routines/rtxTypingRoutines_Front.inc.cws.
      RegisterUart.v puts it beside LinuxRs232.v: the description of the line
      control register in the compiler's tests, and the driver's constants.
    - FrontCheck.v: passes/front/rtxTypeCheck.inc.cws, the rest of
      rtxTypingRoutines_Front.inc.cws, the search of sequences of
      rtxTypingRoutines_Common.inc.cws, the typing of calls of
      node/rtxNode.inc.cws, rtxLink_LoadItem for trees.
    - MiddleCheck.v: passes/mid/rtxTypeCheck.inc.cws, rtxTypingRoutines_Mid.inc.cws,
      the search of pointcuts of rtxTypingRoutines_Common.inc.cws and the tables
      of node/rtxNodeMiddle.inc.cws.  The interfaces of a file refer to each
      other and are filled while they are read: they are in a store.
      MiddleSound.v holds its theorems.
    - BackCheck.v: passes/back/rtxTypeCheck.inc.cws, rtxTypingRoutines_Back.inc.cws
      and the last functions of the other two: templates, and their place
      holders, against interfaces; it searches sequences by FrontCheck.v, types
      and pointcuts by MiddleCheck.v, and each reads what it needs of one tree
      ([view_disk]).  The tests run it after the check of the middle end, on the
      trees that check leaves.  BackSound.v holds its theorems.

    The compiler uses them so: the templates and chunks of the parsed files are
    registered in a session, under the constraints of the blocks that hold them,
    or merged into it from a cache; the middle end, interfaces, is checked with
    those of the session it inherits from; the back end, templates, is checked
    against the interfaces they implement; the front end, a device with registers
    and sequences, is checked against the interfaces of the session; the
    configuration of the driver selects templates and chunks of the session;
    the C types they declare are reordered before the block is printed.

    A definition bears the name of the function, structure or macro it models.
    Where a function is long, the parts of it that are loops or phases are
    definitions of their own, named after it.

    ** The model

    State.  The variables of a driver, static and global, are a record
    (rs232_state, e1000_state, chardev_state, ac97_state, rl8029_softc,
    serial_state, ui_state) and structures that the kernel allocates are keyed
    by address, so that a pointer that outlives its object faults.  Memory that
    a call fills is what the environment answers ([k_out]): the content of a
    fresh block, bytes from user space, an EEPROM word.

    Environment.  The kernels, the framework of Windows and the devices are
    not in the repository: they are the parameter [Kernel], which may answer a
    call in any way that depends on the trace before it.  A theorem without
    further hypotheses holds whatever the kernel answers.  What a theorem
    needs beyond that is a named hypothesis (disjoint areas of an allocator, a
    register that keeps what is written, a status that becomes ready), and its
    witness runs the theorem on a concrete kernel.  Macros and functions of a
    kernel whose effect the code relies on (DISPATCH, snd_card_free, minor,
    ALIGN, the numbers of commands) are class parameters with the laws their
    documentation states.

    Integers are Z with the conversions of C written out ([u8], [u16], [u32],
    [s8], [s32]) wherever the code's types cut a value; long is 32 bits, as the
    drivers' casts assume.

    Scripts.  All values of CodeWorker are strings, and a variable is a tree;
    a node is a record of the attributes that the scripts read, an array a list
    of entries in the order of insertion ([arr]), references to array entries
    are their keys.  A call returns, or calls [error], which the model does not
    catch.  What [<] says of two values belongs to the interpreter: it is the
    class [ValueOrder], its laws [ValueOrderLaws] (a strict total order, right
    on digits), with the order of strings as an instance.  Arithmetic, between
    [$ ... $], is that of integers; the number it makes of a digit read from a
    pattern is the class [Arith].  The trees of interfaces on disk, and the paths,
    are the class [Disk] for the checks, which read different parts of a tree; for the caches,
    which change files, the files are a state ([disk]), and the paths, the digest
    and what may be written the class [Library].

    Fuel.  The loops over a table or a ring have the bound of the code.  The
    loops that wait for a device ([while_], [iter]) take fuel and end in
    [Hang] when it is used up; a completed loop is not changed by more
    ([iter_fuel_mono]).  [wp] theorems assume a status that becomes ready
    within the fuel and prove that the code completes: rs232_read needs more
    rounds than sleeps and bytes, the EEPROM and the Windows transmitter the
    number of polls until ready.  The walk of TypeReorder.v has a fuel of its
    own, [walk_fuel], and reorder_terminates proves that it is never short: a
    nested call that goes on brings its type closer to managed, in two steps at
    most.  valueToHex has a round for each bit, which
    register_check_spec proves enough; the search of sequences takes fuel as an
    argument, and sequence_search_terminates gives one that is enough when
    inheritance has no cycle; that of types has the height of the tree of
    inheritance for a fuel (interface_type_resolution). Theorems by [wlp] hold
    on any fuel: the safety of loops that may wait for ever.

    Sequences.  Where operations may come in any order, the states are those
    an inductive relation reaches ([Ac97.reachable], by probes and removals;
    [Rl8029.reachable], from attachment by any event; [LinkSession.reachable],
    by registrations and merges) and the invariant is proved by induction on it.

    Concurrency.  E1000Irq.v splits the tasklet at its accesses to the word
    it shares with the interrupt handler (the split is proved to be the
    tasklet), so that the handler can run between two steps.  MySerial.v takes
    the critical sections of the reader thread and of the read requests, which
    one lock serialises, as steps in any order.

    ** The theorems

    Serial lines.  Opening programs the reference UART (rate, word, parity);
    the divisor latch after each rate command, the shifted high byte of the
    Linux driver included; reading delivers the bytes of the line in order and
    whatever followed them in the block; writing sends a prefix; every
    request of the Windows driver is completed once; its buffer refines a
    queue.  The OpenBSD driver refines the set of ports in use; its table of
    devices is one field short, and opening programs what that makes of it.

    e1000.  Opening programs the card and both rings on every path; closing
    gives back what opening took; a sequence of packets goes around the send
    ring; the calls that reading makes on each outcome, which end, for a packet,
    with the tail moved and then the packet handed to the network stack; the
    receive buffers are too small for the ring; causes of interrupts are reported, but
    for one that arrives as the tasklet clears the word; what
    probe and remove hold and leak, and the fault of a second remove; the life
    of a card from probe to remove.

    String device.  Every operation preserves the invariant of the buffer, the
    exceptions being a resize below the stored size and a resize without memory;
    the round trip of write and read; what loading and unloading leak.  The
    test program prints its transcript on every device that keeps the interface,
    and the driver does.

    Sound.  Any sequence of probes and removals keeps cards, chips and enabled
    devices in step; every error path of probe gives back what it took; indices
    are not reused.

    rl8029.  The invariant of the reachable states; what each path of attachment
    holds; the priority level around every event; the bounds of the MTU; the
    flags and multicast requests that the code can no longer serve.

    Modules.  What each entry point of OpenBSD announces and answers.

    Compiler: reordering.  It ends on every block, cyclic types included; the
    result is a permutation of the chunks; without cycles, and where the
    definition of a type is its last mention, every chunk follows those that
    declare what it uses.  Two blocks, one with a cycle through a pointer and
    one that names a type after its definition, are put in an order that is
    not that of C.

    Compiler: matching.  The decision in terms of the sources, constraints and
    definitions of variables; the comparisons of serials as one lexicographic
    comparison, of serials and numbers as orders; well-typed constraints never
    call [error]; building a configuration rejects a double definition, only.
    Bounds: the sizes of serials are compared as values, so the theorems take
    less than ten units and separators; a longer one is not below itself only
    where the interpreter compares them as numbers.

    Compiler: session.  The positions a template keeps are those of chunks that
    are there, in every session reached; merging appends views of templates
    without changing what they resolve to; a template selected is the only one
    compatible; a template registered twice can no longer be selected nor
    merged; the global code of a second block is lost.

    Compiler: caches.  A save makes a list of copies ([implements_temp]), and the
    next run loads the templates with the files; a later run may take over the
    file names of an earlier one; a local cache with code cannot be installed.

    Compiler: registers.  Which descriptions are accepted, and the masks and
    values computed for them; values of separate fields can be written together
    and read back; setreg of the serial driver writes the fields so described,
    whose constants for the line control register the compiler recomputes.

    Compiler: front end.  A prototype is resolved exactly when what it may stand
    for has one name; the search ends on inheritance without cycles, and does
    not on a cycle; what an accepted device has.

    Compiler: middle end.  Every name that an accepted file uses, in an interface
    outside of a [with], denotes a type or a pointcut of the interface or of one it
    inherits from, and what it declares is in the tables; what is in a [with] is not
    looked at; a type without a scope is found exactly when the
    interfaces that have it have one name, parents that are read from the disk
    on the way included.  The scope of a pointcut is not looked at in an
    interface without parents; an interface that is its own parent is accepted,
    and the search of a type does not end on it.

    Compiler: back end.  A template of a type is accepted exactly when it conforms
    to the declaration; an accepted template of a sequence has what the declaration
    that it resolves to demands, and what its place holders refer to is declared;
    of several pointcuts that match, the first is
    taken; a file is accepted when one of its blocks is.

    ** What is simplified

    - Registers of a card are keyed by address: a write at an unaligned address
      is a register of its own (the zeroes written to the multicast table).
    - A load from or a store to DMA memory is a call, as the card shares it.
    - The text of a debug message is kept; accents are spelled in ASCII.
    - A user pointer is opaque: copies move bytes or fail, as the kernel answers.
    - MySerial has one device, and its context is the C state.
    - Nodes of the compiler's trees lack what Cnorm adds to every node (the
      location) and what no modelled function reads.  The session that an
      [error] of registration leaves behind is not kept: every caller then ends
      the run.  The same holds for what a rejected register has been given.
    - rtxLink_selectUniqueTemplate ends by replacing the copy it selected with a
      reference to the entry of the session; the model keeps the copy.
    - cutString of an empty value gives one empty part.
    - The qualifier of a sequence, which the code stores beside the templates of
      the list, is not kept.

    ** What is not modelled

    - What is a comment in the source: the transfers and ioctl commands of
      openbsd/rs323_polling (the functions print and answer 0), and
      UartEnableInterrupts of MySerial.
    - Tables that register entry points (file_operations, cdevsw, pci_driver,
      cfattach) and constants that no function uses: a table only says which
      function the kernel calls.
    - The passes that prepare the check of the back end: the place holders of a
      chunk are given with the types that rtxMeta and rtxIntrospect infer, by the
      grammars of Cnorm.
    - The rest of src/rathaxes/compiler: the grammars, which extend those of Cnorm
      (not in the repository); the passes that resolve templates and the
      mapping of types, which run scripts that the compiler writes itself;
      the command line but for the cache commands.  The samples are inputs of
      the compiler. *)

From Stdlib Require Export ZArith Lia List Bool.
From stdpp Require Export base numbers list gmap strings.

#[export] Set Default Proof Using "Type".
#[export] Set Default Goal Selector "!".

Declare Scope c_scope.
Delimit Scope c_scope with c.

#[global] Open Scope Z_scope.

(** ** C integer conversions (ILP32) *)

Definition wrap (w z : Z) : Z := z mod 2 ^ w.

Definition u8 (z : Z) : Z := z mod 256.
Definition u16 (z : Z) : Z := z mod 65536.
Definition u32 (z : Z) : Z := z mod 4294967296.

(** Conversion to a signed type of [w] bits: the value in
    [-2^(w-1), 2^(w-1)) congruent to [z]. *)
Definition signed (w z : Z) : Z := (z + 2 ^ (w - 1)) mod 2 ^ w - 2 ^ (w - 1).

Definition s8 (z : Z) : Z := signed 8 z.
Definition s32 (z : Z) : Z := signed 32 z.

(** C truth value of an integer expression. *)
Definition truth (z : Z) : bool := negb (z =? 0).

Lemma truth_spec z : reflect (z <> 0) (truth z).
Proof. unfold truth. destruct (Z.eqb_spec z 0); cbn [negb]; constructor; auto. Qed.

Lemma truth_true z : truth z = true -> z <> 0.
Proof. by destruct (truth_spec z). Qed.

Lemma truth_false z : truth z = false -> z = 0.
Proof. destruct (truth_spec z); [done|lia]. Qed.

Ltac unfold_ints := unfold u8, u16, u32, s8, s32, signed in *; change (2 ^ (8 - 1)) with 128 in *;
  change (2 ^ 8) with 256 in *; change (2 ^ (32 - 1)) with 2147483648 in *;
  change (2 ^ 32) with 4294967296 in *.

(** Linear arithmetic through the conversions. *)
Ltac ilia := unfold_ints; Z.div_mod_to_equations; lia.

Lemma u8_range z : 0 <= u8 z < 256.
Proof. ilia. Qed.

Lemma u16_range z : 0 <= u16 z < 65536.
Proof. ilia. Qed.

Lemma u32_range z : 0 <= u32 z < 4294967296.
Proof. ilia. Qed.

Lemma u8_id z : 0 <= z < 256 -> u8 z = z.
Proof. apply Z.mod_small. Qed.

Lemma u16_id z : 0 <= z < 65536 -> u16 z = z.
Proof. apply Z.mod_small. Qed.

Lemma u32_id z : 0 <= z < 4294967296 -> u32 z = z.
Proof. apply Z.mod_small. Qed.

Lemma u8_idem z : u8 (u8 z) = u8 z.
Proof. apply u8_id, u8_range. Qed.

Lemma u32_idem z : u32 (u32 z) = u32 z.
Proof. apply u32_id, u32_range. Qed.

Lemma s32_id z : -2147483648 <= z < 2147483648 -> s32 z = z.
Proof. intros; ilia. Qed.

Lemma s32_range z : -2147483648 <= s32 z < 2147483648.
Proof. ilia. Qed.

Lemma s32_idem z : s32 (s32 z) = s32 z.
Proof. apply s32_id, s32_range. Qed.

Lemma u32_s32 z : u32 (s32 z) = u32 z.
Proof. ilia. Qed.

Create HintDb cint.
Create Rewrite HintDb cint.
Create HintDb cbuf.

#[export] Hint Resolve u8_range u16_range u32_range s32_range : cint.
#[export] Hint Rewrite u8_idem u32_idem s32_idem u32_s32 : cint.
#[export] Hint Rewrite u8_id u16_id u32_id s32_id using lia : cint.

(** ** Bits *)

Lemma u8_testbit z i : 0 <= i -> Z.testbit (u8 z) i = (i <? 8) && Z.testbit z i.
Proof.
  intros Hi. unfold u8. change 256 with (2 ^ 8).
  destruct (Z.ltb_spec i 8).
  - by rewrite Z.mod_pow2_bits_low.
  - by rewrite Z.mod_pow2_bits_high by lia.
Qed.

Lemma u32_testbit z i : 0 <= i -> Z.testbit (u32 z) i = (i <? 32) && Z.testbit z i.
Proof.
  intros Hi. unfold u32. change 4294967296 with (2 ^ 32).
  destruct (Z.ltb_spec i 32).
  - by rewrite Z.mod_pow2_bits_low.
  - by rewrite Z.mod_pow2_bits_high by lia.
Qed.

Lemma bounded_testbit w z i : 0 <= z < 2 ^ w -> 0 <= w <= i -> Z.testbit z i = false.
Proof.
  intros Hz Hi. rewrite <- (Z.mod_small z (2 ^ w)) by done.
  by apply Z.mod_pow2_bits_high.
Qed.

(** Two integers whose bits agree are equal; the bits of the operators are
    rewritten away and what is left is propositional. *)
Ltac zbits i Hi :=
  apply Z.bits_inj'; intros i Hi;
  repeat first
    [ rewrite u8_testbit by done | rewrite u32_testbit by done
    | rewrite Z.lor_spec | rewrite Z.land_spec | rewrite Z.lxor_spec
    | rewrite Z.ldiff_spec | rewrite Z.lnot_spec by done ].

Lemma u8_land a b : u8 (Z.land a b) = Z.land (u8 a) (u8 b).
Proof. zbits i Hi. by destruct (i <? 8), (Z.testbit a i), (Z.testbit b i). Qed.

Lemma u8_lor a b : u8 (Z.lor a b) = Z.lor (u8 a) (u8 b).
Proof. zbits i Hi. by destruct (i <? 8), (Z.testbit a i), (Z.testbit b i). Qed.

Lemma u32_lor a b : u32 (Z.lor a b) = Z.lor (u32 a) (u32 b).
Proof. zbits i Hi. by destruct (i <? 32), (Z.testbit a i), (Z.testbit b i). Qed.

Lemma u32_land a b : u32 (Z.land a b) = Z.land (u32 a) (u32 b).
Proof. zbits i Hi. by destruct (i <? 32), (Z.testbit a i), (Z.testbit b i). Qed.

(** A decidable statement about bytes holds of every byte when it evaluates
    to [true] on the 256 of them. *)
Lemma byte_forall (P : Z -> bool) :
  forallb P (seqZ 0 256) = true -> forall b, 0 <= b < 256 -> P b = true.
Proof.
  rewrite forallb_forall. intros H b Hb. apply H, list_elem_of_In, elem_of_seqZ. lia.
Qed.

(** ** Byte buffers: lists indexed by C integers *)

Abbreviation bytes := (list Z).

Definition zlen {A} (l : list A) : Z := Z.of_nat (length l).

(** [b[i]], [None] outside the block. *)
Definition buf_get {A} (b : list A) (i : Z) : option A :=
  if 0 <=? i then b !! Z.to_nat i else None.

(** [b[i] = v]. *)
Definition buf_set {A} (b : list A) (i : Z) (v : A) : option (list A) :=
  if (0 <=? i) && (i <? zlen b) then Some (<[Z.to_nat i := v]> b) else None.

(** The [n] elements from offset [off]. *)
Definition buf_slice {A} (b : list A) (off n : Z) : option (list A) :=
  if (0 <=? off) && (0 <=? n) && (off + n <=? zlen b)
  then Some (take (Z.to_nat n) (drop (Z.to_nat off) b)) else None.

(** [memcpy (b + off, src, len src)]. *)
Definition buf_blit {A} (b : list A) (off : Z) (src : list A) : option (list A) :=
  if (0 <=? off) && (off + zlen src <=? zlen b)
  then Some (take (Z.to_nat off) b ++ src ++ drop (Z.to_nat off + length src) b)
  else None.

Lemma zlen_nonneg {A} (l : list A) : 0 <= zlen l.
Proof. unfold zlen. lia. Qed.

Lemma zlen_app {A} (l k : list A) : zlen (l ++ k) = zlen l + zlen k.
Proof. unfold zlen. rewrite length_app. lia. Qed.

Lemma buf_set_Some {A} (b : list A) i v :
  0 <= i < zlen b -> buf_set b i v = Some (<[Z.to_nat i := v]> b).
Proof.
  intros [H1 H2]. unfold buf_set.
  by rewrite (proj2 (Z.leb_le _ _) H1), (proj2 (Z.ltb_lt _ _) H2).
Qed.

Lemma buf_get_Some {A} (b : list A) i : 0 <= i < zlen b -> exists v, buf_get b i = Some v.
Proof.
  intros [H1 H2]. unfold buf_get, zlen in *. rewrite (proj2 (Z.leb_le _ _) H1).
  apply lookup_lt_is_Some_2. lia.
Qed.

Lemma buf_set_None {A} (b : list A) i v :
  ~ (0 <= i < zlen b) -> buf_set b i v = None.
Proof.
  intros H. unfold buf_set. destruct (Z.leb_spec 0 i), (Z.ltb_spec i (zlen b)); auto; lia.
Qed.

Lemma buf_set_len {A} (b b' : list A) i v : buf_set b i v = Some b' -> zlen b' = zlen b.
Proof.
  unfold buf_set, zlen. case_match; [|done]. intros [= <-]. by rewrite length_insert.
Qed.

Lemma buf_slice_Some {A} (b : list A) off n :
  0 <= off -> 0 <= n -> off + n <= zlen b ->
  buf_slice b off n = Some (take (Z.to_nat n) (drop (Z.to_nat off) b)).
Proof.
  intros H1 H2 H3. unfold buf_slice.
  by rewrite (proj2 (Z.leb_le _ _) H1), (proj2 (Z.leb_le _ _) H2), (proj2 (Z.leb_le _ _) H3).
Qed.

Lemma buf_slice_None {A} (b : list A) off n :
  0 <= off -> zlen b < off + n -> buf_slice b off n = None.
Proof.
  intros H1 H2. unfold buf_slice.
  by rewrite (proj2 (Z.leb_gt _ _) H2), andb_false_r.
Qed.

Lemma buf_slice_len {A} (b r : list A) off n :
  buf_slice b off n = Some r -> zlen r = n.
Proof.
  unfold buf_slice, zlen. case_match eqn:H; [|done]. intros [= <-].
  apply andb_prop in H as [H H3]. apply andb_prop in H as [H1 H2].
  apply Z.leb_le in H1, H2, H3. rewrite length_take, length_drop. unfold zlen in H3. lia.
Qed.

Lemma buf_blit_Some {A} (b : list A) off src :
  0 <= off -> off + zlen src <= zlen b ->
  buf_blit b off src =
    Some (take (Z.to_nat off) b ++ src ++ drop (Z.to_nat off + length src) b).
Proof.
  intros H1 H2. unfold buf_blit.
  by rewrite (proj2 (Z.leb_le _ _) H1), (proj2 (Z.leb_le _ _) H2).
Qed.

Lemma buf_blit_None {A} (b : list A) off src :
  zlen b < off + zlen src -> buf_blit b off src = None.
Proof.
  intros H. unfold buf_blit. by rewrite (proj2 (Z.leb_gt _ _) H), andb_false_r.
Qed.

Lemma buf_blit_len {A} (b b' : list A) off src :
  buf_blit b off src = Some b' -> zlen b' = zlen b.
Proof.
  unfold buf_blit, zlen. case_match eqn:H; [|done]. intros [= <-].
  apply andb_prop in H as [H1 H2]. apply Z.leb_le in H1, H2. unfold zlen in H2.
  rewrite !length_app, length_take, length_drop. lia.
Qed.

(** What was copied in is read back. *)
Lemma buf_slice_blit {A} (b b' : list A) off src :
  buf_blit b off src = Some b' -> buf_slice b' off (zlen src) = Some src.
Proof.
  intros H. pose proof (buf_blit_len _ _ _ _ H) as Hl. unfold buf_blit in H.
  case_match eqn:C; [|done]. injection H as <-.
  apply andb_prop in C as [H1 H2]. apply Z.leb_le in H1, H2.
  rewrite buf_slice_Some by (try apply zlen_nonneg; lia).
  f_equal. unfold zlen in *. rewrite Nat2Z.id.
  rewrite drop_app_length' by (rewrite length_take; lia).
  by rewrite take_app_length.
Qed.

(** A shorter slice at the same offset is a prefix of the longer one. *)
Lemma buf_slice_prefix {A} (b r : list A) off n m :
  0 <= m <= n -> buf_slice b off n = Some r ->
  buf_slice b off m = Some (take (Z.to_nat m) r).
Proof.
  intros Hm H. unfold buf_slice in H.
  case_match eqn:C; [|done]. injection H as <-.
  apply andb_prop in C as [C H3]. apply andb_prop in C as [H1 H2].
  apply Z.leb_le in H1, H2, H3.
  rewrite buf_slice_Some by lia. by rewrite take_take, Nat.min_l by lia.
Qed.

(** Storing at the end of a prefix extends the prefix. *)
Lemma take_S_insert {A} (l : list A) i x :
  (i < length l)%nat -> take (S i) (<[i := x]> l) = take i l ++ [x].
Proof.
  intros H. rewrite (take_S_r _ _ x) by (by apply list_lookup_insert_eq).
  by rewrite take_insert_ge by lia.
Qed.

Lemma drop_S_insert {A} (l : list A) i x : drop (S i) (<[i := x]> l) = drop (S i) l.
Proof. by rewrite drop_insert_lt by lia. Qed.

(** ** Arguments of a printed message *)

Inductive parg :=
| PInt (z : Z)
| PBytes (b : bytes)
| PStr (s : string)
| PPtr (p : Z)     (* the C string at an address *)
| PName (dev : Z)  (* the name of a network device *).

#[export] Instance parg_eq_dec : EqDecision parg.
Proof. solve_decision. Defined.

#[export] Hint Resolve zlen_nonneg buf_set_len buf_slice_len buf_blit_len : cbuf.
