(* ===== verification/CMonad.v ===== *)
(** * The effects of a driver

    A driver is C code between a kernel and a device, neither of which is part
    of the repository.  A component declares one constructor per external
    function it calls (its [call] type) and its functions become computations
    of the monad [M call S]: they thread the C state [S] of the component and
    the trace of the calls made so far, newest first.  What a call answers is
    decided by a [Kernel], a parameter of every definition: two functions of
    the trace and the call, so that any deterministic environment, however it
    depends on what the driver did before, is an instance, and quantifying over
    the instance quantifies over all of them.

    A computation ends [Ok], in a [Fault] (a division by zero, an access outside an object, or
    through a null or dangling pointer) or in [Hang], a loop that used up its fuel. *)

From S2P Require Import Prelude.

(** The answers of the environment: [k_ret h c] is the value call [c] returns
    after the trace [h], [k_out h c i] the [i]-th cell of the memory it fills
    (the initial content of an allocation, bytes copied from user space, an
    output parameter). *)
Class Kernel (call : Type) := {
  k_ret : list (call * Z) -> call -> Z;
  k_out : list (call * Z) -> call -> Z -> Z
}.

Inductive fault := BadPointer | OutOfBounds | DivByZero.

#[export] Instance fault_eq_dec : EqDecision fault.
Proof. solve_decision. Defined.

Record state (call S : Type) := mkState { loc : S; tr : list (call * Z) }.
Arguments mkState {call S}.
Arguments loc {call S}.
Arguments tr {call S}.

Inductive outcome (call S A : Type) :=
| Ok (a : A) (s : state call S)
| Fault (f : fault) (s : state call S)
| Hang (s : state call S).
Arguments Ok {call S A}.
Arguments Fault {call S A}.
Arguments Hang {call S A}.

Definition M (call S A : Type) : Type := state call S -> outcome call S A.

Section Monad.
Context {call S : Type} {K : Kernel call}.

Definition ret {A} (a : A) : M call S A := fun s => Ok a s.

Definition bind {A B} (m : M call S A) (k : A -> M call S B) : M call S B :=
  fun s =>
    match m s with
    | Ok a s' => k a s'
    | Fault f s' => Fault f s'
    | Hang s' => Hang s'
    end.

Definition get : M call S S := fun s => Ok (loc s) s.

Definition gets {A} (f : S -> A) : M call S A := fun s => Ok (f (loc s)) s.

Definition modify (f : S -> S) : M call S unit :=
  fun s => Ok tt (mkState (f (loc s)) (tr s)).

Definition fail {A} (f : fault) : M call S A := fun s => Fault f s.

Definition hang {A} : M call S A := fun s => Hang s.

(** A partial operation on memory. *)
Definition guard {A} (f : fault) (o : option A) : M call S A :=
  match o with Some a => ret a | None => fail f end.

(** A call whose answer the code uses, at the C type [conv] converts to. *)
Definition ask (conv : Z -> Z) (c : call) : M call S Z :=
  fun s => let r := conv (k_ret (tr s) c) in Ok r (mkState (loc s) ((c, r) :: tr s)).

(** A call to a [void] function. *)
Definition post (c : call) : M call S unit :=
  fun s => Ok tt (mkState (loc s) ((c, 0) :: tr s)).

(** The [n] bytes that call [c] delivers when it is made after trace [t]. *)
Definition delivery (t : list (call * Z)) (c : call) (n : Z) : bytes :=
  map (fun i => u8 (k_out t c i)) (seqZ 0 n).

(** The [n] bytes that call [c] delivers when it is made now. *)
Definition delivered (c : call) (n : Z) : M call S bytes :=
  fun s => Ok (delivery (tr s) c n) s.

(** The output parameter that call [c] fills when it is made now. *)
Definition filled (conv : Z -> Z) (c : call) (i : Z) : M call S Z :=
  fun s => Ok (conv (k_out (tr s) c i)) s.

(** ** Loops *)

(** [for (i = lo; i < lo + n; ++i) body i]. *)
Fixpoint for_ (n : nat) (lo : Z) (body : Z -> M call S unit) : M call S unit :=
  match n with
  | O => ret tt
  | Datatypes.S n => bind (body lo) (fun _ => for_ n (lo + 1) body)
  end.

(** A loop whose variables are in [A]: each round says whether to go on. *)
Fixpoint iter {A B} (fuel : nat) (body : A -> M call S (A + B)) (a : A) : M call S B :=
  match fuel with
  | O => hang
  | Datatypes.S fuel =>
      bind (body a) (fun r =>
        match r with inl a' => iter fuel body a' | inr b => ret b end)
  end.

(** [while (cond) body] *)
Definition while_ (fuel : nat) (cond : M call S bool) (body : M call S unit) : M call S unit :=
  iter fuel
    (fun _ : unit => bind cond (fun b : bool =>
       if b then bind body (fun _ => ret (inl tt)) else ret (inr tt))) tt.
End Monad.

Notation "'let!' x ':=' m 'in' k" := (bind m (fun x => k))
  (at level 10, x name, m at level 200, k at level 200,
   format "'[v' 'let!'  x  ':='  m  'in' '/' k ']'") : c_scope.
Notation "m ;; k" := (bind m (fun _ => k)) : c_scope.
#[global] Open Scope c_scope.

(** ** Weakest preconditions

    [wpx h m Q s]: started in [s], [m] never faults, [Q] holds of its result
    when it completes, and it uses up its fuel only if [h] holds.  [wp] is the
    total reading (it completes), [wlp] the partial one. *)
Definition wpx {call S A} (h : Prop) (m : M call S A)
    (Q : A -> state call S -> Prop) (s : state call S) : Prop :=
  match m s with Ok a s' => Q a s' | Fault _ _ => False | Hang _ => h end.

Abbreviation wp := (wpx False).
Abbreviation wlp := (wpx True).

Section Wp.
Context {call S : Type} {K : Kernel call}.
Implicit Types (s : state call S) (h : Prop).

Lemma wp_ok {A} h (m : M call S A) Q s a s' : m s = Ok a s' -> Q a s' -> wpx h m Q s.
Proof. unfold wpx. by intros ->. Qed.

Lemma wp_inv {A} (m : M call S A) Q s :
  wp m Q s -> exists a s', m s = Ok a s' /\ Q a s'.
Proof. unfold wpx. destruct (m s); try done. eauto. Qed.

Lemma wp_ok_inv {A} h (m : M call S A) Q s a s' : wpx h m Q s -> m s = Ok a s' -> Q a s'.
Proof. unfold wpx. by intros ? E; rewrite E in *. Qed.

Lemma wp_no_fault {A} h (m : M call S A) Q s f s' : wpx h m Q s -> m s <> Fault f s'.
Proof. unfold wpx. intros H E. by rewrite E in H. Qed.

Lemma wp_mono {A} h (m : M call S A) (P Q : A -> state call S -> Prop) s :
  wpx h m P s -> (forall a s', P a s' -> Q a s') -> wpx h m Q s.
Proof. unfold wpx. destruct (m s); auto. Qed.

Lemma wp_wlp {A} (m : M call S A) Q s : wp m Q s -> wlp m Q s.
Proof. unfold wpx. by destruct (m s). Qed.

(** A computation that may only hang, and has no result, hangs. *)
Lemma wlp_hangs {A} (m : M call S A) s :
  wlp m (fun _ _ => False) s -> exists s', m s = Hang s'.
Proof. unfold wpx. destruct (m s); try done. eauto. Qed.

Lemma wp_conj {A} h (m : M call S A) (P Q : A -> state call S -> Prop) s :
  wpx h m P s -> wlp m Q s -> wpx h m (fun a s' => P a s' /\ Q a s') s.
Proof. unfold wpx. by destruct (m s). Qed.

Lemma wp_bind {A B} h (m : M call S A) (k : A -> M call S B) Q s :
  wpx h m (fun a => wpx h (k a) Q) s -> wpx h (bind m k) Q s.
Proof. unfold wpx, bind. by destruct (m s). Qed.

Lemma wp_assoc {A B C} h (m : M call S A) (k : A -> M call S B) (l : B -> M call S C) Q s :
  wpx h (bind m k) (fun b => wpx h (l b) Q) s -> wpx h (bind m (fun a => bind (k a) l)) Q s.
Proof. unfold wpx, bind. destruct (m s) as [a s'| |]; [|done..]. by destruct (k a s'). Qed.

Lemma wp_ret {A} h (a : A) (Q : A -> state call S -> Prop) s : Q a s -> wpx h (ret a) Q s.
Proof. done. Qed.

Lemma wp_get h (Q : S -> state call S -> Prop) s : Q (loc s) s -> wpx h get Q s.
Proof. done. Qed.

Lemma wp_gets {A} h (f : S -> A) (Q : A -> state call S -> Prop) s :
  Q (f (loc s)) s -> wpx h (gets f) Q s.
Proof. done. Qed.

Lemma wp_modify h f (Q : unit -> state call S -> Prop) s :
  Q tt (mkState (f (loc s)) (tr s)) -> wpx h (modify f) Q s.
Proof. done. Qed.

Lemma wp_guard {A} h f (o : option A) (Q : A -> state call S -> Prop) s a :
  o = Some a -> Q a s -> wpx h (guard f o) Q s.
Proof. by intros ->. Qed.

Lemma wp_ask h conv c (Q : Z -> state call S -> Prop) s :
  (let r := conv (k_ret (tr s) c) in Q r (mkState (loc s) ((c, r) :: tr s))) ->
  wpx h (ask conv c) Q s.
Proof. done. Qed.

Lemma wp_post h c (Q : unit -> state call S -> Prop) s :
  Q tt (mkState (loc s) ((c, 0) :: tr s)) -> wpx h (post c) Q s.
Proof. done. Qed.

Lemma wp_delivered h c n (Q : bytes -> state call S -> Prop) s :
  Q (delivery (tr s) c n) s -> wpx h (delivered c n) Q s.
Proof. done. Qed.

Lemma wp_filled h conv c i (Q : Z -> state call S -> Prop) s :
  Q (conv (k_out (tr s) c i)) s -> wpx h (filled conv c i) Q s.
Proof. done. Qed.

(** A computation that ends in fault [f]. *)
Definition faults {A} (f : fault) (m : M call S A) s : Prop := exists s', m s = Fault f s'.

Lemma faults_now {A B} f (m : M call S A) (k : A -> M call S B) s :
  faults f m s -> faults f (bind m k) s.
Proof. intros [s' E]. exists s'. unfold bind. by rewrite E. Qed.

Lemma faults_later {A B} f (m : M call S A) (k : A -> M call S B) s :
  wp m (fun a => faults f (k a)) s -> faults f (bind m k) s.
Proof. unfold wpx, faults, bind. by destruct (m s). Qed.

(** The rule of the bounded loop: an invariant indexed by the counter. *)
Lemma wp_for (I : Z -> state call S -> Prop) h n lo body (Q : unit -> state call S -> Prop) s :
  I lo s ->
  (forall i s, lo <= i < lo + Z.of_nat n -> I i s -> wpx h (body i) (fun _ => I (i + 1)) s) ->
  (forall s, I (lo + Z.of_nat n) s -> Q tt s) ->
  wpx h (for_ n lo body) Q s.
Proof.
  revert lo s. induction n as [|n IH]; intros lo s HI Hb HQ; simpl.
  - apply wp_ret, HQ. by rewrite Z.add_0_r.
  - apply wp_bind. eapply wp_mono; [apply Hb; [lia|done]|].
    intros [] s' HI'. apply IH; [done| |].
    + intros i s'' Hi. apply Hb. lia.
    + intros s'' H. apply HQ. by replace (lo + Z.of_nat (Datatypes.S n))
        with (lo + 1 + Z.of_nat n) by lia.
Qed.

(** The rule of the unbounded loop: an invariant and a measure that every
    round decreases; the fuel must exceed the measure unless hanging is
    allowed. *)
Lemma wp_iter {A B} (I : A -> state call S -> Prop) (meas : A -> state call S -> nat)
    h fuel body a (Q : B -> state call S -> Prop) s :
  I a s -> h \/ (meas a s < fuel)%nat ->
  (forall a s, I a s ->
     wpx h (body a) (fun r s' =>
       match r with
       | inl a' => I a' s' /\ (meas a' s' < meas a s)%nat
       | inr b => Q b s'
       end) s) ->
  wpx h (iter fuel body a) Q s.
Proof.
  revert a s. induction fuel as [|fuel IH]; intros a s HI Hm Hb;
    [destruct Hm; [done|lia]|]; simpl.
  apply wp_bind. eapply wp_mono; [by apply Hb|].
  intros [a'|b] s'; [|intros HQ; by apply wp_ret].
  intros [HI' Hlt]. apply IH; [done| |done]. destruct Hm; [by left|right; lia].
Qed.

(** Where hanging is allowed no measure is needed. *)
Lemma wlp_iter {A B} h (I : A -> state call S -> Prop) fuel body a
    (Q : B -> state call S -> Prop) s :
  h -> I a s ->
  (forall a s, I a s ->
     wpx h (body a) (fun r s' => match r with inl a' => I a' s' | inr b => Q b s' end) s) ->
  wpx h (iter fuel body a) Q s.
Proof.
  intros Hh. revert a s. induction fuel as [|fuel IH]; intros a s HI Hb; [done|]; simpl.
  apply wp_bind. eapply wp_mono; [by apply Hb|].
  intros [a'|b] s' H; [by apply IH|by apply wp_ret].
Qed.

Lemma wp_while (I : state call S -> Prop) (meas : state call S -> nat) h fuel cond body
    (Q : unit -> state call S -> Prop) s :
  I s -> h \/ (meas s < fuel)%nat ->
  (forall s, I s -> wpx h cond (fun b s' =>
     if (b : bool) then wpx h body (fun _ s'' => I s'' /\ (meas s'' < meas s)%nat) s'
     else Q tt s') s) ->
  wpx h (while_ fuel cond body) Q s.
Proof.
  intros HI Hm Hb. apply (wp_iter (fun _ => I) (fun _ => meas)); [done|done|].
  intros _ s' HI'. apply wp_bind. eapply wp_mono; [by apply Hb|].
  intros [] s'' H; [|by apply wp_ret].
  apply wp_bind. eapply wp_mono; [done|]. intros [] s3 H3. by apply wp_ret.
Qed.

Lemma wlp_while h (I : state call S -> Prop) fuel cond body
    (Q : unit -> state call S -> Prop) s :
  h -> I s ->
  (forall s, I s -> wpx h cond (fun b s' =>
     if (b : bool) then wpx h body (fun _ => I) s' else Q tt s') s) ->
  wpx h (while_ fuel cond body) Q s.
Proof.
  intros Hh HI Hb. apply (wlp_iter h (fun _ => I)); [done..|].
  intros _ s' HI'. apply wp_bind. eapply wp_mono; [by apply Hb|].
  intros [] s'' H; [|by apply wp_ret].
  apply wp_bind. eapply wp_mono; [done|]. intros [] s3 H3. by apply wp_ret.
Qed.

(** A completed loop is not changed by more fuel. *)
Lemma iter_fuel_mono {A B} f g (body : A -> M call S (A + B)) a s b s' :
  iter f body a s = Ok b s' -> (f <= g)%nat -> iter g body a s = Ok b s'.
Proof.
  revert g a s. induction f as [|f IH]; intros [|g] a s H Hle; try done; [lia|].
  cbn [iter] in *. unfold bind in *.
  destruct (body a s) as [[a'|b'] s1| |]; try done. apply IH; [done|lia].
Qed.

(** A loop whose rounds always ask for another one uses up any fuel. *)
Lemma iter_hangs {A B} (I : A -> state call S -> Prop) fuel
    (body : A -> M call S (A + B)) a s :
  I a s ->
  (forall a s, I a s -> exists a' s', body a s = Ok (inl a') s' /\ I a' s') ->
  exists s', iter fuel body a s = Hang s'.
Proof.
  intros HI Hb. revert a s HI. induction fuel as [|fuel IH]; intros a s HI; [by eexists|].
  destruct (Hb a s HI) as (a' & s1 & E & HI'). cbn [iter]. unfold bind. rewrite E. eauto.
Qed.

(** Monad laws. *)
Lemma bind_assoc {A B C} (m : M call S A) (k : A -> M call S B) (l : B -> M call S C) s :
  bind (bind m k) l s = bind m (fun a => bind (k a) l) s.
Proof. unfold bind. by destruct (m s). Qed.

Lemma bind_ext {A B} (m : M call S A) (k l : A -> M call S B) s :
  (forall a s', k a s' = l a s') -> bind m k s = bind m l s.
Proof. intros H. unfold bind. by destruct (m s). Qed.

Lemma bind_ok {A B} (m : M call S A) (k : A -> M call S B) s a s' :
  m s = Ok a s' -> bind m k s = k a s'.
Proof. unfold bind. by intros ->. Qed.

Lemma for_app n m lo (body : Z -> M call S unit) s :
  for_ (n + m) lo body s =
  bind (for_ n lo body) (fun _ => for_ m (lo + Z.of_nat n) body) s.
Proof.
  revert lo s. induction n as [|n IH]; intros lo s; simpl.
  - unfold bind, ret. by rewrite Z.add_0_r.
  - unfold bind in *. destruct (body lo s) as [[] s'| |]; try done.
    rewrite IH. by replace (lo + 1 + Z.of_nat n) with (lo + Z.of_nat (Datatypes.S n)) by lia.
Qed.
End Wp.

Section Delivery.
Context {call : Type} {K : Kernel call}.

Lemma zlen_delivery t c n : 0 <= n -> zlen (delivery t c n) = n.
Proof. intros. unfold zlen, delivery. rewrite length_map, length_seqZ. lia. Qed.

Lemma delivery_bytes t c n : Forall (fun x => 0 <= x < 256) (delivery t c n).
Proof.
  apply Forall_forall. intros x Hx. apply list_elem_of_In, in_map_iff in Hx.
  destruct Hx as (i & <- & _). apply u8_range.
Qed.

Lemma delivery_lookup t c n i :
  0 <= i < n -> delivery t c n !! Z.to_nat i = Some (u8 (k_out t c i)).
Proof.
  intros Hi. unfold delivery. rewrite list_lookup_fmap, lookup_seqZ_lt by lia.
  simpl. do 3 f_equal. lia.
Qed.
End Delivery.

(** Postconditions are compared pointwise, and [wpx] is monotone in them. *)
#[export] Instance wpx_proper {call S A} :
  Proper (impl ==> eq ==> pointwise_relation _ (pointwise_relation _ impl) ==> eq ==> impl)
    (@wpx call S A).
Proof.
  intros h h' Hh m ? <- P Q HPQ s ? <-. unfold wpx.
  destruct (m s); [apply HPQ|done|exact Hh].
Qed.

(** [step] takes one primitive of a straight-line computation; [steps] as many
    as there are.  A guard, a loop or a conditional stops it. *)
Ltac step :=
  lazymatch goal with
  | |- wpx _ (bind _ _) _ _ => apply wp_bind
  | |- wpx _ (ret _) _ _ => apply wp_ret
  | |- wpx _ get _ _ => apply wp_get
  | |- wpx _ (gets _) _ _ => apply wp_gets
  | |- wpx _ (modify _) _ _ => apply wp_modify
  | |- wpx _ (ask _ _) _ _ => apply wp_ask; cbv zeta
  | |- wpx _ (post _) _ _ => apply wp_post
  | |- wpx _ (filled _ _ _) _ _ => apply wp_filled
  | |- wpx _ (delivered _ _) _ _ => apply wp_delivered
  | |- wpx _ (guard _ (Some _)) _ _ => apply wp_ret
  end; cbn [loc tr].
Ltac steps := repeat step.

(** Use a lemma about the next computation. *)
Ltac use H := eapply wp_mono; [eapply H|]; cbn beta.

(** ** Growth of the trace

    [grows P t t']: the calls made between [t] and [t'] all satisfy [P]. *)
Definition grows {call} (P : call -> Prop) (t t' : list (call * Z)) : Prop :=
  exists l, t' = l ++ t /\ Forall (fun e => P (fst e)) l.

Section Grows.
Context {call : Type} (P : call -> Prop).
Implicit Types (t : list (call * Z)).

Lemma grows_refl t : grows P t t.
Proof. by exists []. Qed.

Lemma grows_cons c r t t' : P c -> grows P t t' -> grows P t ((c, r) :: t').
Proof. intros Hc (l & -> & Hl). exists ((c, r) :: l). by split; [|constructor]. Qed.

Lemma grows_trans t1 t2 t3 : grows P t1 t2 -> grows P t2 t3 -> grows P t1 t3.
Proof.
  intros (l & -> & Hl) (k & -> & Hk). exists (k ++ l). by rewrite app_assoc, Forall_app.
Qed.

Lemma grows_In e t t' : grows P t t' -> In e t -> In e t'.
Proof. intros (l & -> & _) H. apply in_or_app. by right. Qed.

Lemma grows_Forall t t' :
  Forall (fun e => P (fst e)) t -> grows P t t' -> Forall (fun e => P (fst e)) t'.
Proof. intros H (l & -> & Hl). by rewrite Forall_app. Qed.
End Grows.

Create HintDb grows.
#[export] Hint Resolve grows_refl grows_cons grows_trans : grows.

(** The calls added by straight-line code, one by one. *)
Ltac grow := repeat (apply grows_cons; [done|]); first [apply grows_refl | eassumption].

(** ** Resources

    Which calls of a component take something from the kernel and which give
    it back; [held r t] counts what a trace still holds of [r]. *)
Class Resources (call R : Type) `{EqDecision R} := {
  acquires : call * Z -> option R;
  releases : call * Z -> option R
}.

Section Held.
Context {call R : Type} `{Resources call R}.

Fixpoint held (r : R) (t : list (call * Z)) : Z :=
  match t with
  | [] => 0
  | e :: t =>
      held r t + (if bool_decide (acquires e = Some r) then 1 else 0)
               - (if bool_decide (releases e = Some r) then 1 else 0)
  end.

Lemma held_neutral r e t :
  acquires e = None -> releases e = None -> held r (e :: t) = held r t.
Proof. intros Ha Hr. simpl. rewrite Ha, Hr. simpl. lia. Qed.

Lemma held_acquire r r' e t :
  acquires e = Some r' -> releases e = None ->
  held r (e :: t) = held r t + (if bool_decide (r' = r) then 1 else 0).
Proof.
  intros Ha Hr. simpl. rewrite Ha, Hr. simpl.
  rewrite (bool_decide_ext (Some r' = Some r) (r' = r)) by naive_solver. lia.
Qed.

Lemma held_release r r' e t :
  acquires e = None -> releases e = Some r' ->
  held r (e :: t) = held r t - (if bool_decide (r' = r) then 1 else 0).
Proof.
  intros Ha Hr. simpl. rewrite Ha, Hr. simpl.
  rewrite (bool_decide_ext (Some r' = Some r) (r' = r)) by naive_solver. lia.
Qed.

(** [1] when the resources are the same, and how many of a list are [x]. *)
Definition hold1 (x y : R) : Z := if bool_decide (x = y) then 1 else 0.
Definition hold_all (l : list R) (x : R) : Z := foldr (fun r n => hold1 r x + n) 0 l.

Lemma hold_all_app l k x : hold_all (l ++ k) x = hold_all l x + hold_all k x.
Proof. induction l as [|y l IH]; [done|]. unfold hold_all in *. cbn [foldr app]. lia. Qed.

Lemma held_take x y e t :
  releases e = None -> acquires e = Some y -> held x (e :: t) = held x t + hold1 y x.
Proof. intros. by apply held_acquire. Qed.

Lemma held_give x y e t :
  acquires e = None -> releases e = Some y -> held x (e :: t) = held x t - hold1 y x.
Proof. intros. by apply held_release. Qed.

(** What no call of a trace took is not held after it. *)
Lemma held_none r t : Forall (fun e => acquires e <> Some r) t -> held r t <= 0.
Proof.
  induction 1 as [|e t He _ IH]; [done|]. cbn [held].
  rewrite (bool_decide_eq_false_2 (acquires e = Some r)) by done. case_bool_decide; lia.
Qed.

Lemma hold1_same x : hold1 x x = 1.
Proof. unfold hold1. by rewrite bool_decide_eq_true_2. Qed.

Lemma hold1_other x y : x <> y -> hold1 x y = 0.
Proof. intros. unfold hold1. by rewrite bool_decide_eq_false_2. Qed.

Lemma held_maybe x r e t :
  releases e = None -> acquires e = r ->
  held x (e :: t) = held x t + (match r with Some y => hold1 y x | None => 0 end).
Proof.
  intros Hr Ha. destruct r as [y|].
  - by rewrite (held_acquire x y).
  - rewrite held_neutral by done. lia.
Qed.
End Held.
