(* ===== verification/LinuxApi.v ===== *)
(** * What the Linux drivers share of the kernel's interface

    The error numbers the drivers return, the encoding of ioctl command
    numbers (a parameter: the macros of <linux/ioctl.h> are not part of the
    repository) and C strings. *)

From S2P Require Import Prelude CMonad.

Definition EPERM := 1.
Definition ENOENT := 2.
Definition EIO := 5.
Definition ENOMEM := 12.
Definition EFAULT := 14.
Definition ENODEV := 19.
Definition EINVAL := 22.
Definition CAP_SYS_RAWIO := 17.

(** The command encoding: direction, magic, number, size of the argument.
    The drivers rely on commands of different numbers being different. *)
Class IoctlAbi := {
  ioc : Z -> Z -> Z -> Z -> Z;
  ioc_inj d t n s d' t' n' s' :
    0 <= n < 256 -> 0 <= n' < 256 -> ioc d t n s = ioc d' t' n' s' -> n = n'
}.

Definition IOC_NONE := 0.
Definition IOC_WRITE := 1.
Definition IOC_READ := 2.

Definition _IO `{IoctlAbi} (t n : Z) : Z := ioc IOC_NONE t n 0.
Definition _IOR `{IoctlAbi} (t n size : Z) : Z := ioc IOC_READ t n size.
Definition _IOW `{IoctlAbi} (t n size : Z) : Z := ioc IOC_WRITE t n size.

(** The asm-generic layout, as an instance for the witnesses. *)
Definition generic_ioc (d t n s : Z) : Z := d * 1073741824 + s * 65536 + t * 256 + n.

Lemma generic_ioc_inj d t n s d' t' n' s' :
  0 <= n < 256 -> 0 <= n' < 256 -> generic_ioc d t n s = generic_ioc d' t' n' s' -> n = n'.
Proof. unfold generic_ioc. lia. Qed.

Definition generic_ioctl_abi : IoctlAbi :=
  {| ioc := generic_ioc; ioc_inj := generic_ioc_inj |}.

Lemma ioc_neqb `{IoctlAbi} d t n s d' t' n' s' :
  0 <= n < 256 -> 0 <= n' < 256 -> n <> n' -> (ioc d t n s =? ioc d' t' n' s') = false.
Proof. intros ?? Hn. apply Z.eqb_neq. intros E. by eapply Hn, ioc_inj. Qed.

(** Decide every test between two commands of the goal. *)
Ltac ioctl_cases :=
  rewrite ?Z.eqb_refl; repeat (rewrite ioc_neqb by lia); rewrite ?Z.eqb_refl.

(** Rounding up to a multiple: the ALIGN macro of <linux/kernel.h>, a parameter
    with the law its documentation states. *)
Class AlignMacro := {
  ALIGN : Z -> Z -> Z;
  ALIGN_spec x a :
    0 <= x -> 0 < a -> x <= ALIGN x a < x + a /\ ALIGN x a mod a = 0
}.

Lemma ALIGN_multiple `{AlignMacro} x a : 0 <= x -> 0 < a -> x mod a = 0 -> ALIGN x a = x.
Proof.
  intros Hx Ha Hm. destruct (ALIGN_spec x a Hx Ha) as [Hb Hm'].
  assert ((ALIGN x a - x) mod a = 0) as E by (by rewrite Zminus_mod, Hm, Hm').
  rewrite Z.mod_small in E by lia. lia.
Qed.

(** The least multiple of [a] above [x], as an instance. *)
Lemma round_up_spec x a :
  0 <= x -> 0 < a -> x <= (x + a - 1) / a * a < x + a /\ ((x + a - 1) / a * a) mod a = 0.
Proof.
  intros Hx Ha. rewrite Z.mod_mul by lia.
  pose proof (Z.div_mod (x + a - 1) a ltac:(lia)).
  pose proof (Z.mod_pos_bound (x + a - 1) a ltac:(lia)). lia.
Qed.

Definition round_up : AlignMacro :=
  {| ALIGN x a := (x + a - 1) / a * a; ALIGN_spec := round_up_spec |}.

(** The two halves of a device number, as printed (<linux/kdev_t.h>). *)
Definition MAJOR (dev : Z) : Z := Z.shiftr dev 20.
Definition MINOR (dev : Z) : Z := Z.land dev 0xFFFFF.

(** ** C strings *)

(** The characters of a C string: up to the first NUL, [None] when the block
    holds none (the reader runs past its end). *)
Fixpoint cstr (b : bytes) : option bytes :=
  match b with
  | [] => None
  | c :: b => if c =? 0 then Some [] else (fun r => c :: r) <$> cstr b
  end.

Lemma cstr_terminated (b : bytes) : Exists (fun c => c = 0) b -> exists r, cstr b = Some r.
Proof.
  induction 1 as [c b ->|c b _ [r IH]]; simpl; [by eexists|].
  rewrite IH. destruct (c =? 0); by eexists.
Qed.

Lemma cstr_set0 (b : bytes) i b' : buf_set b i 0 = Some b' -> exists r, cstr b' = Some r.
Proof.
  unfold buf_set, zlen. case_match eqn:C; [|done]. intros [= <-].
  apply andb_prop in C as [H1 H2]. apply Z.leb_le in H1. apply Z.ltb_lt in H2.
  apply cstr_terminated, Exists_exists. exists 0. split; [|done].
  apply list_elem_of_lookup. exists (Z.to_nat i). apply list_lookup_insert_eq. lia.
Qed.

(** The bytes of a string literal. *)
Definition str_bytes (s : string) : bytes :=
  map (fun c => Z.of_N (Ascii.N_of_ascii c)) (String.list_ascii_of_string s).

Lemma str_bytes_range s : Forall (fun c => 0 <= c < 256) (str_bytes s).
Proof.
  apply Forall_forall. intros c Hc. apply list_elem_of_In, in_map_iff in Hc.
  destruct Hc as (a & <- & _). pose proof (Ascii.N_ascii_bounded a). lia.
Qed.

(** A C string made of bytes other than NUL. *)
Lemma cstr_app (b r : bytes) : Forall (fun c => c <> 0) b -> cstr (b ++ 0 :: r) = Some b.
Proof.
  induction 1 as [|c b Hc _ IH]; [done|]. cbn [app cstr].
  destruct (Z.eqb_spec c 0); [done|]. by rewrite IH.
Qed.
