(* ===== verification/Uart16550.v ===== *)
(** * Port input/output and the reference UART

    The three serial drivers of the repository (Linux, OpenBSD, Windows) reach
    the same device through one-byte port accesses.  [PortIO] is the interface
    a component offers to this file: which of its calls are port accesses.
    Against it stands a reference model of the device, the 16550 register file
    as uart.h of the Windows driver documents it (registers by offset, two of
    them switched by the DLAB bit of LCR).  It is a fold over the trace of a
    driver, so that a theorem about a driver can say how it leaves the device
    programmed; it is a specification and models no code. *)

From S2P Require Import Prelude CMonad.

Inductive port_op := PIn (port : Z) | POut (v port : Z).

Class PortIO (call : Type) := {
  pin : Z -> call;
  pout : Z -> Z -> call;
  as_port : call -> option port_op;
  as_port_pin p : as_port (pin p) = Some (PIn p);
  as_port_pout v p : as_port (pout v p) = Some (POut v p)
}.

Section PortOps.
Context {call S : Type} {P : PortIO call} {K : Kernel call}.

(** A byte is read from, or written to, a port. *)
Definition port_in (port : Z) : M call S Z := ask u8 (pin port).
Definition port_out (v port : Z) : M call S unit := post (pout (u8 v) port).
End PortOps.

(** ** The register file *)

Record uart := mkUart {
  dll : Z; dlm : Z;          (* divisor latch *)
  ier : Z; fcr : Z; lcr : Z; mcr : Z; scr : Z;
  sent : bytes               (* what was written to THR, newest first *)
}.

Definition dlab (u : uart) : bool := Z.testbit (lcr u) 7.
Definition divisor (u : uart) : Z := dll u + 256 * dlm u.

Definition uart_write (off v : Z) (u : uart) : uart :=
  let '(mkUart l m i f c o s t) := u in
  match off with
  | 0 => if dlab u then mkUart v m i f c o s t else mkUart l m i f c o s (v :: t)
  | 1 => if dlab u then mkUart l v i f c o s t else mkUart l m v f c o s t
  | 2 => mkUart l m i v c o s t
  | 3 => mkUart l m i f v o s t
  | 4 => mkUart l m i f c v s t
  | 7 => mkUart l m i f c o v t
  | _ => u
  end.

(** The registers that read back what was written to them. *)
Definition uart_read (off : Z) (u : uart) : option Z :=
  match off with
  | 0 => if dlab u then Some (dll u) else None
  | 1 => Some (if dlab u then dlm u else ier u)
  | 3 => Some (lcr u)
  | 4 => Some (mcr u)
  | 7 => Some (scr u)
  | _ => None
  end.

Definition uart_op (base : Z) (op : port_op) (u : uart) : uart :=
  match op with
  | PIn _ => u
  | POut v port => uart_write (port - base) v u
  end.

Section Device.
Context {call : Type} {P : PortIO call}.
Variables (base : Z) (u0 : uart).

Definition uart_event (e : call * Z) (u : uart) : uart :=
  match as_port (fst e) with Some op => uart_op base op u | None => u end.

(** The device after a trace, from [u0]. *)
Definition uart_of (h : list (call * Z)) : uart := foldr uart_event u0 h.

Lemma uart_of_out v off r h :
  uart_of ((pout v (base + off), r) :: h) = uart_write off v (uart_of h).
Proof.
  simpl. unfold uart_event. simpl. rewrite as_port_pout. simpl.
  by replace (base + off - base) with off by lia.
Qed.

Lemma uart_of_in p r h : uart_of ((pin p, r) :: h) = uart_of h.
Proof. simpl. unfold uart_event. simpl. by rewrite as_port_pin. Qed.

Lemma uart_of_other c r h : as_port c = None -> uart_of ((c, r) :: h) = uart_of h.
Proof. intros H. simpl. unfold uart_event. simpl. by rewrite H. Qed.

(** The kernel answers a read of a latched register with its content. *)
Definition uart_answers (K : Kernel call) : Prop :=
  forall h off v, uart_read off (uart_of h) = Some v -> k_ret h (pin (base + off)) = v.

(** The divisor latch holds two bytes. *)
Definition latch_wf (u : uart) : Prop := 0 <= dll u < 256 /\ 0 <= dlm u < 256.
End Device.

Create Rewrite HintDb uart.
#[export] Hint Rewrite @uart_of_out @uart_of_in : uart.
#[export] Hint Rewrite @uart_of_other using done : uart.

(** A kernel that answers port reads from the reference device, and [other]
    for the rest: the instance of the witnesses. *)
Definition uart_kernel {call} {P : PortIO call} (base : Z) (u0 : uart)
    (other : list (call * Z) -> call -> Z) (out : list (call * Z) -> call -> Z -> Z) : Kernel call :=
  {| k_ret h c :=
       match as_port c with
       | Some (PIn p) =>
           match uart_read (p - base) (uart_of base u0 h) with
           | Some v => v
           | None => other h c
           end
       | _ => other h c
       end;
     k_out := out |}.

Lemma uart_kernel_answers {call} {P : PortIO call} base u0 other out :
  uart_answers base u0 (uart_kernel (call := call) base u0 other out).
Proof.
  intros h off v H. simpl. rewrite as_port_pin.
  replace (base + off - base) with off by lia. by rewrite H.
Qed.
