(* ===== verification/LinuxRs232.v ===== *)
(** * The Linux polling driver of the serial port

    doc/systems/linux/rs232_polling: rs232_define.h (registers and commands),
    rs232.h (the device structure and the debug macro), rs232.c (the file
    operations) and rs232_mod.c (load and unload).  Theorems on the bit
    arithmetic of [setreg], on how open and the ioctl commands leave the
    reference UART, on the read and write loops and on the resources that
    loading and unloading take and give back. *)

From S2P Require Import Prelude CMonad LinuxApi Uart16550.


(** ** rs232_define.h *)

Definition RBR := 0.
Definition THR := 0.
Definition DLL := 0.
Definition IER := 1.
Definition DLM := 1.
Definition IIR := 2.
Definition FCR := 2.
Definition LCR := 3.
Definition MCR := 4.
Definition LSR := 5.
Definition MSR := 6.
Definition SCR := 7.
(* bits MASK *)
(* on LCR *)
Definition LCR_WDL := 0x03.
Definition LCR_STP := 0x04.
Definition LCR_PAR := 0x38.
Definition LCR_BRK := 0x40.
Definition LCR_DLAB := 0x80.
(* on LSR *)
Definition LSR_DATA_AVAILABLE := 0x01.
Definition LSR_OVERRUN_ERR := 0x02.
Definition LSR_PARITY_ERR := 0x04.
Definition LSR_FRAMING_ERR := 0x08.
Definition LSR_BREAK_SIG_RCV := 0x10.
Definition LSR_THR_EMPTY := 0x20.
Definition LSR_THR_IDL := 0x40.
Definition LSR_FIFO_ERR := 0x80.
(* on FCR *)
Definition FCR_FIFO_AVALABILITY := 0x01.
Definition FCR_RECIEVE := 0x02.
Definition FCR_TRANS := 0x04.
Definition FCR_DMA_MODE := 0x08.
(* bits value to set *)
(* LCR register *)
Definition LCR_5_BIT_WORD := 0x00.
Definition LCR_6_BIT_WORD := 0x01.
Definition LCR_7_BIT_WORD := 0x02.
Definition LCR_8_BIT_WORD := 0x03.
Definition LCR_1_STOP_BIT := 0x00.
Definition LCR_2_STOP_BIT := 0x04.
Definition LCR_NO_PARITY := 0x00.
Definition LCR_ODD_PARITY := 0x08.
Definition LCR_EVEN_PARITY := 0x18.
Definition LCR_BREAK_SIG_ENABLE := 0x40.
Definition LCR_BREAK_SIG_DISABLE := 0x00.
Definition LCR_DLAB_LATCH_MODE := 0x80.
Definition LCR_DLAB_RW_MODE := 0x00.
(* IER interrupt enable register *)
Definition IER_NONE := 0x00.
(* FCR *)
Definition FCR_DISABLE := 0x00.
Definition FCR_ENABLE := 0x01.
Definition FCR_CLEAR_RCV := 0x02.
Definition FCR_CLEAR_TR := 0x04.
(* LATCH registers *)
Definition DLL_9600 := 0x0c.
Definition DLM_9600 := 0x00.
Definition DLL_115200 := 0x01.
Definition DLM_115200 := 0x00.
(* for userside ioctl *)
Definition DIVISOR_115200 := 0x0001.
Definition DIVISOR_9600 := 0x000c.
Definition DIVISOR_38400 := 0x0003.

(* the ioctl commands; sizeof(int) = 4, sizeof(rsconf) = 12 *)
Definition RS_IOCTL_MAGIC := 0xf5.
Definition RS_BAUDRATESET `{IoctlAbi} := _IOW RS_IOCTL_MAGIC 1 4.
Definition RS_BAUDRATEGET `{IoctlAbi} := _IO RS_IOCTL_MAGIC 2.
Definition RS_WORDLENGTHSET `{IoctlAbi} := _IOW RS_IOCTL_MAGIC 3 4.
Definition RS_STOPBITSET `{IoctlAbi} := _IOW RS_IOCTL_MAGIC 4 4.
Definition RS_PARITYSET `{IoctlAbi} := _IOW RS_IOCTL_MAGIC 5 4.
Definition RS_CONFSET `{IoctlAbi} := _IOW RS_IOCTL_MAGIC 6 12.

(** The [rsconf] structure: the offsets of its fields in user memory. *)
Record rsconf := mkConf { conf_wl : Z; conf_div : Z; conf_par : option Z (* never set *) }.
Definition rsconf_wl_offset := 0.
Definition rsconf_div_offset := 4.

(** ** The external functions

    [Printk] stands for the debug macro's printk (without the fixed prefix the
    macro adds); its format strings are those of the source, escapes included. *)

Inductive call :=
| Inb (port : Z)
| Outb (v port : Z)
| Msleep (ms : Z)
| Printk (fmt : string) (args : list parg)
| Kmalloc (size : Z)
| Kfree (p : Z)
| CopyToUser (to : Z) (from : bytes) (size : Z)
| CopyFromUser (from size : Z)
| Capable (cap : Z)
| GetUser (addr : Z)
| RequestRegion (start n : Z) (name : string)
| ReleaseRegion (start n : Z)
| ResourceStart (resource : Z)
| AllocChrdevRegion (minor count : Z) (name : string)
| UnregisterChrdevRegion (dev count : Z)
| CdevInit
| CdevAdd (dev count : Z)
| CdevDel.

#[export, refine] Instance rs232_ports : PortIO call := {
  pin := Inb;
  pout := Outb;
  as_port c := match c with Inb p => Some (PIn p) | Outb v p => Some (POut v p) | _ => None end
}.
Proof. all: done. Defined.

(** ** The device structure (rs232.h) *)

Record cdev := mkCdev { cdev_owner : bool; cdev_dev : Z; cdev_count : Z }.

Record rs232_t := mkRs232 {
  device_name : option string;
  iobase : Z;
  resource : Z;
  rs_cdev : cdev
}.

(** The state of the driver: the global [rsdev], and the [private_data] of the
    open file, either null or the address of [rsdev]. *)
Record rs232_state := mkSt { rsdev : rs232_t; private_data : bool }.

Definition set_rsdev (f : rs232_t -> rs232_t) (s : rs232_state) : rs232_state :=
  mkSt (f (rsdev s)) (private_data s).
Definition set_private_data (b : bool) (s : rs232_state) : rs232_state :=
  mkSt (rsdev s) b.

Definition debug := 1.

Definition setreg_fmt : string :=
  "setting register@0x%x\n\t\tmask\t0x%x\n\t\treg\t0x%x\n\t\tvalue\t0x%x\n\t\t new reg\t0x%x\n".

(** [new_reg = ((~mask&reg)|value)], an unsigned char. *)
Definition newreg (value mask reg : Z) : Z :=
  u8 (Z.lor (Z.land (Z.lnot mask) reg) value).

Section Driver.
Context {K : Kernel call} {A : IoctlAbi}.

Local Abbreviation M := (M call rs232_state).

Definition dbg (fmt : string) (args : list parg) : M unit :=
  if truth debug then post (Printk fmt args) else ret tt.

(** A message one argument of which is itself a port read. *)
Definition dbg_inb (fmt : string) (a : Z) (port : Z) : M unit :=
  if truth debug
  then let! v := port_in port in post (Printk fmt [PInt a; PInt v])
  else ret tt.

(** [dev = filp->private_data], dereferenced by what follows. *)
Definition filp_dev : M rs232_t :=
  let! s := get in
  if private_data s then ret (rsdev s) else fail BadPointer.

Definition kmalloc (size : Z) : M (option (Z * bytes)) :=
  let! content := delivered (Kmalloc size) size in
  let! p := ask u32 (Kmalloc size) in
  ret (if truth p then Some (p, content) else None).

(** ** rs232.c *)

Definition setreg (value mask ioport : Z) : M unit :=
  let! reg := port_in ioport in
  let new_reg := newreg value mask reg in
  dbg setreg_fmt [PInt ioport; PInt mask; PInt reg; PInt value; PInt new_reg] ;;
  port_out new_reg ioport.

(** [while((!(inb(dev->iobase + LSR) & LSR_DATA_AVAILABLE))) msleep(100);] *)
Definition read_wait (fuel : nat) (dev : rs232_t) : M unit :=
  while_ fuel
    (let! lsr := port_in (iobase dev + LSR) in
     ret (negb (truth (Z.land lsr LSR_DATA_AVAILABLE))))
    (post (Msleep 100)).

(** One round of the read loop: its condition, then its body. *)
Definition read_round (dev : rs232_t) (size : Z) (kc : bytes * Z) :
    M ((bytes * Z) + (bytes * Z)) :=
  let '(kbuff, cnt) := kc in
  let! go :=
    (if u32 cnt <? size
     then let! lsr := port_in (iobase dev + LSR) in
          ret (truth (Z.land lsr LSR_DATA_AVAILABLE))
     else ret false) in
  if (go : bool)
  then let! c := port_in (iobase dev) in
       let! kbuff := guard OutOfBounds (buf_set kbuff cnt c) in
       let! c := guard OutOfBounds (buf_get kbuff cnt) in
       dbg "read one char %c" [PInt (s8 c)] ;;
       ret (inl (kbuff, s32 (cnt + 1)))
  else ret (inr (kbuff, cnt)).

Definition rs232_read (fuel : nat) (ubuff size : Z) : M Z :=
  dbg "" [] ;;
  let! kbuff := kmalloc (u32 (1 * size + 1)) in
  match kbuff with
  | None => dbg "not enought memory !" [] ;; ret (- ENOMEM)
  | Some (p, kbuff) =>
      let! dev := filp_dev in
      read_wait fuel dev ;;
      let! r := iter fuel (read_round dev size) (kbuff, 0) in
      let '(kbuff, cnt) := r in
      let! kbuff := guard OutOfBounds (buf_set kbuff cnt 0) in
      let! str := guard OutOfBounds (cstr kbuff) in
      dbg "kernel readed buffer <%s>" [PBytes str] ;;
      let! from := guard OutOfBounds (buf_slice kbuff 0 size) in
      let! rt := ask s32 (CopyToUser ubuff from size) in
      if truth rt
      then dbg "\tERROR\t corrupt userland pointer" [] ;; post (Kfree p) ;; ret (-1)
      else post (Kfree p) ;; ret cnt
  end.

(** [while (!(inb(dev->iobase + LSR) && LSR_THR_IDL)) msleep(100);] *)
Definition write_wait (fuel : nat) (dev : rs232_t) : M unit :=
  while_ fuel
    (let! lsr := port_in (iobase dev + LSR) in
     ret (negb (truth lsr && truth LSR_THR_IDL)))
    (post (Msleep 100)).

Definition write_round (dev : rs232_t) (size : Z) (kbuff : bytes) (cnt : Z) : M (Z + Z) :=
  let! go :=
    (if u32 cnt <? size
     then let! lsr := port_in (iobase dev + LSR) in
          ret (truth lsr && truth LSR_THR_EMPTY)
     else ret false) in
  if (go : bool)
  then let! c := guard OutOfBounds (buf_get kbuff cnt) in
       port_out c (iobase dev + THR) ;;
       post (Msleep 5) ;;
       ret (inl (s32 (cnt + 1)))
  else ret (inr cnt).

Definition rs232_write (fuel : nat) (ubuff size : Z) : M Z :=
  dbg "" [] ;;
  let! kbuff := kmalloc (u32 (1 * size + 1)) in
  match kbuff with
  | None => dbg "not enought memory !" [] ;; ret (- ENOMEM)
  | Some (p, kbuff) =>
      let! data := delivered (CopyFromUser ubuff size) size in
      let! rt := ask s32 (CopyFromUser ubuff size) in
      (* rt counts the bytes that were not copied *)
      let! kbuff := guard OutOfBounds
        (buf_blit kbuff 0 (take (Z.to_nat (size - u32 rt)) data)) in
      if truth rt
      then dbg "\tERROR\t corrupt userland pointer" [] ;; post (Kfree p) ;; ret (-1)
      else
      let! dev := filp_dev in
      let! kbuff := guard OutOfBounds (buf_set kbuff size 0) in
      let! str := guard OutOfBounds (cstr kbuff) in
      dbg "got buffer from userland <%s>" [PBytes str] ;;
      dbg "write @ 0x%x" [PInt (iobase dev + THR)] ;;
      write_wait fuel dev ;;
      let! cnt := iter fuel (write_round dev size kbuff) 0 in
      dbg "end" [] ;;
      post (Kfree p) ;;
      ret cnt
  end.

(** The two writes of the divisor latch, and the two reads. *)
Definition rs232_ioctl (cmd arg : Z) : M Z :=
  let! dev := filp_dev in
  dbg "" [] ;;
  if cmd =? RS_BAUDRATESET then
    let! cap := ask s32 (Capable CAP_SYS_RAWIO) in
    if negb (truth cap) then ret (- EPERM) else
    dbg "set baudrate value: 0x%lx" [PInt arg] ;;
    setreg LCR_DLAB_LATCH_MODE LCR_DLAB (iobase dev + LCR) ;;
    port_out (Z.land arg 0x00FF) (iobase dev + DLL) ;;
    port_out (Z.shiftr (Z.land arg 0xFF00) 4) (iobase dev + DLM) ;;
    setreg LCR_DLAB_RW_MODE LCR_DLAB (iobase dev + LCR) ;;
    ret 0
  else if cmd =? RS_WORDLENGTHSET then
    let! cap := ask s32 (Capable CAP_SYS_RAWIO) in
    if negb (truth cap) then ret (- EPERM) else
    dbg "set word length value: 0x%lx" [PInt arg] ;;
    setreg (u8 arg) LCR_WDL (iobase dev + LCR) ;;
    ret 0
  else if cmd =? RS_BAUDRATEGET then
    dbg "get baudrate value: 0x%lx" [PInt arg] ;;
    setreg LCR_DLAB_LATCH_MODE LCR_DLAB (iobase dev + LCR) ;;
    let! retval := port_in (iobase dev + DLM) in
    let retval := s32 (Z.shiftl retval 4) in
    let! d := port_in (iobase dev + DLL) in
    let retval := s32 (retval + Z.land d 0x00FF) in
    setreg LCR_DLAB_RW_MODE LCR_DLAB (iobase dev + LCR) ;;
    ret retval
  else if cmd =? RS_CONFSET then
    let! cap := ask s32 (Capable CAP_SYS_RAWIO) in
    if negb (truth cap) then ret (- EPERM) else
    let! wl := ask s32 (GetUser (u32 (arg + rsconf_wl_offset))) in
    let! div := ask s32 (GetUser (u32 (arg + rsconf_div_offset))) in
    let conf := mkConf wl div None in
    dbg "set word length value: 0x%lx" [PInt arg] ;;
    setreg (u8 (conf_wl conf)) LCR_WDL (iobase dev + LCR) ;;
    dbg "set baudrate value: 0x%lx" [PInt (conf_wl conf)] ;;
    setreg LCR_DLAB_LATCH_MODE LCR_DLAB (iobase dev + LCR) ;;
    port_out (Z.land (conf_div conf) 0x00FF) (iobase dev + DLL) ;;
    port_out (Z.shiftr (Z.land (conf_div conf) 0xFF00) 4) (iobase dev + DLM) ;;
    setreg LCR_DLAB_RW_MODE LCR_DLAB (iobase dev + LCR) ;;
    (* falls through to the default case *)
    ret (- EINVAL)
  else ret (- EINVAL).

Definition rs232_open : M Z :=
  dbg "" [] ;;
  modify (set_private_data true) ;;
  let! dev := filp_dev in
  dbg "private data<%s>" [PStr (default ""%string (device_name dev))] ;;
  dbg "+---------------------------------------------------------" [] ;;
  setreg LCR_DLAB_LATCH_MODE LCR_DLAB (iobase dev + LCR) ;;
  dbg_inb "|\tregister LCR@0x%x = 0x%x" (iobase dev) (iobase dev + LCR) ;;
  port_out DLL_9600 (iobase dev + DLL) ;;
  dbg_inb "|\tregister DLL@0x%x = 0x%x" (iobase dev) (iobase dev + DLL) ;;
  port_out DLM_9600 (iobase dev + DLM) ;;
  dbg_inb "|\tregister DLM@0x%x = 0x%x" (iobase dev) (iobase dev + DLM) ;;
  setreg
    (Z.lor (Z.lor (Z.lor (Z.lor LCR_7_BIT_WORD LCR_1_STOP_BIT) LCR_NO_PARITY)
      LCR_BREAK_SIG_DISABLE) LCR_DLAB_RW_MODE)
    (Z.lor (Z.lor (Z.lor (Z.lor LCR_WDL LCR_STP) LCR_PAR) LCR_BRK) LCR_DLAB)
    (iobase dev + LCR) ;;
  dbg_inb "|\tregister LCR@0x%x = 0x%x" (iobase dev) (iobase dev + LCR) ;;
  setreg 0x01 0xff (iobase dev + FCR) ;;
  dbg_inb "|\tregister FCR@0x%x = 0x%x" (iobase dev + FCR) (iobase dev + FCR) ;;
  dbg "+---------------------------------------------------------" [] ;;
  port_out IER_NONE (iobase dev + IER) ;;
  ret 0.

Definition rs232_release : M Z := ret 0.

(** ** rs232_mod.c *)

Definition rsname : string := "rathaxes_rs232".

Definition rs232_init : M Z :=
  let rsminor := 0 in
  let rsnbr := 1 in
  dbg "" [] ;;
  modify (set_rsdev (fun d => mkRs232 (device_name d) 0x3f8 (resource d) (rs_cdev d))) ;;
  let! dev := gets rsdev in
  dbg "request_region(rsdev.iobase[%x], 8, rsdev.device_name[%s])" [PInt (iobase dev); PStr rsname] ;;
  let! rsioport := ask u32 (RequestRegion (iobase dev) 8 rsname) in
  dbg "rsioport addrsee: 0x%p\n" [PInt rsioport] ;;
  modify (set_rsdev (fun d => mkRs232 (device_name d) (iobase d) rsioport (rs_cdev d))) ;;
  if negb (truth rsioport) then
    dbg "ioport aleready in use !" [] ;; ret (- ENODEV)
  else
  dbg "nice ioport register" [] ;;
  let! rsdevnbr := filled u32 (AllocChrdevRegion rsminor rsnbr rsname) 0 in
  let! rt := ask s32 (AllocChrdevRegion rsminor rsnbr rsname) in
  if truth rt then
    dbg "\tERROR\tchardev alloc returned %d" [PInt rt] ;; ret (-1)
  else
  dbg "major %d\tminor %d" [PInt (MAJOR rsdevnbr); PInt (MINOR rsdevnbr)] ;;
  post CdevInit ;;
  modify (set_rsdev (fun d =>
    mkRs232 (Some rsname) (iobase d) (resource d) (mkCdev true rsdevnbr rsnbr))) ;;
  let! dev := gets rsdev in
  let! rt := ask s32 (CdevAdd (cdev_dev (rs_cdev dev)) (cdev_count (rs_cdev dev))) in
  if rt <? 0 then
    dbg "cannot add cdev in kernell !!" [] ;; ret (-1)
  else ret 0.

Definition rs232_exit : M unit :=
  let! dev := gets rsdev in
  let c := rs_cdev dev in
  dbg "unregister_chrdev_region(devnbr[%u], count[%u]" [PInt (cdev_dev c); PInt (cdev_count c)] ;;
  post CdevDel ;;
  post (UnregisterChrdevRegion (cdev_dev c) (cdev_count c)) ;;
  (if truth debug
   then (if truth (resource dev) then ret tt else fail BadPointer) ;;
        let! start := ask u32 (ResourceStart (resource dev)) in
        post (Printk "release region(%x, %d)" [PInt start; PInt (cdev_count c)])
   else ret tt) ;;
  (if truth (resource dev) then ret tt else fail BadPointer) ;;
  let! start := ask u32 (ResourceStart (resource dev)) in
  post (ReleaseRegion start 8).
End Driver.

(** ** The bit arithmetic of setreg *)

Lemma setreg_wp {K : Kernel call} h value mask ioport s Q :
  (let reg := u8 (k_ret (tr s) (Inb ioport)) in
   let new := newreg value mask reg in
   Q tt (mkState (loc s)
     ((Outb new ioport, 0)
      :: (Printk setreg_fmt
            [PInt ioport; PInt mask; PInt reg; PInt value; PInt new], 0)
      :: (Inb ioport, reg) :: tr s))) ->
  wpx h (setreg value mask ioport) Q s.
Proof. unfold setreg, port_in, port_out, dbg. simpl truth. intros H. steps.
  unfold newreg in *. by rewrite u8_idem. Qed.

(** The new value of a register, bit by bit: the table in the comment above
    [setreg], whose rows are (m, r, v). *)
Lemma newreg_bits mask reg value i :
  0 <= i < 8 -> 0 <= reg < 256 ->
  Z.testbit (newreg value mask reg) i =
  if Z.testbit mask i then Z.testbit value i
  else Z.testbit reg i || Z.testbit value i.
Proof.
  intros Hi Hr. unfold newreg. rewrite u8_testbit by lia. rewrite (proj2 (Z.ltb_lt i 8)) by lia.
  rewrite Z.lor_spec, Z.land_spec, Z.lnot_spec by lia. by destruct (Z.testbit mask i).
Qed.

(** [setreg] on a register of the reference UART that reads back. *)
Lemma setreg_uart {K : Kernel call} base u0 h value mask off v s Q :
  uart_answers base u0 K ->
  uart_read off (uart_of base u0 (tr s)) = Some v ->
  (forall s', loc s' = loc s ->
     uart_of base u0 (tr s') =
       uart_write off (newreg value mask (u8 v)) (uart_of base u0 (tr s)) ->
     Q tt s') ->
  wpx h (setreg value mask (base + off)) Q s.
Proof.
  intros HK Hv HQ. apply setreg_wp. cbv zeta. apply HQ; [done|]. cbn [tr].
  change (Outb ?v ?p) with (pout (call := call) v p).
  change (Inb ?p) with (pin (call := call) p).
  autorewrite with uart. by rewrite (HK _ _ _ Hv).
Qed.

(** [setreg] under a full mask writes the value, whatever it reads. *)
Lemma setreg_full {K : Kernel call} base u0 h value off s Q :
  (forall s', loc s' = loc s ->
     uart_of base u0 (tr s') = uart_write off (u8 value) (uart_of base u0 (tr s)) ->
     Q tt s') ->
  wpx h (setreg value 0xff (base + off)) Q s.
Proof.
  intros HQ. apply setreg_wp. cbv zeta. apply HQ; [done|]. cbn [tr].
  change (Outb ?v ?p) with (pout (call := call) v p).
  change (Inb ?p) with (pin (call := call) p).
  autorewrite with uart. f_equal. apply Z.bits_inj'. intros i Hi.
  unfold newreg. rewrite !u8_testbit by done. destruct (Z.ltb_spec i 8); [|done]. simpl.
  rewrite Z.lor_spec, Z.land_spec, Z.lnot_spec by done.
  change 255 with (Z.ones 8). by rewrite Z.ones_spec_low by lia.
Qed.

Lemma port_out_uart {K : Kernel call} base u0 h v off (s : state call rs232_state)
    (Q : unit -> state call rs232_state -> Prop) :
  (forall s', loc s' = loc s ->
     uart_of base u0 (tr s') = uart_write off (u8 v) (uart_of base u0 (tr s)) -> Q tt s') ->
  wpx h (port_out v (base + off)) Q s.
Proof.
  intros HQ. unfold port_out. steps. apply HQ; [done|]. cbn [tr]. by autorewrite with uart.
Qed.

Lemma port_in_uart {K : Kernel call} base u0 h off v (s : state call rs232_state)
    (Q : Z -> state call rs232_state -> Prop) :
  uart_answers base u0 K ->
  uart_read off (uart_of base u0 (tr s)) = Some v ->
  (forall s', loc s' = loc s -> uart_of base u0 (tr s') = uart_of base u0 (tr s) -> Q (u8 v) s') ->
  wpx h (port_in (base + off)) Q s.
Proof.
  intros HK Hv HQ. unfold port_in. steps.
  change (Inb (base + off)) with (pin (call := call) (base + off)).
  rewrite (HK _ _ _ Hv). apply HQ; [done|]. cbn [tr]. by autorewrite with uart.
Qed.

Lemma dbg_wp {K : Kernel call} h fmt args s (Q : unit -> state call rs232_state -> Prop) :
  Q tt (mkState (loc s) ((Printk fmt args, 0) :: tr s)) -> wpx h (dbg fmt args) Q s.
Proof. intros HQ. unfold dbg. simpl truth. by steps. Qed.

(** A message leaves the device alone. *)
Lemma dbg_quiet {K : Kernel call} base u0 h fmt args s Q :
  (forall s', loc s' = loc s -> uart_of base u0 (tr s') = uart_of base u0 (tr s) -> Q tt s') ->
  wpx h (dbg fmt args) Q s.
Proof. intros HQ. unfold dbg. simpl truth. steps. by apply HQ. Qed.

Lemma dbg_inb_quiet {K : Kernel call} base u0 h fmt a port s Q :
  (forall s', loc s' = loc s -> uart_of base u0 (tr s') = uart_of base u0 (tr s) -> Q tt s') ->
  wpx h (dbg_inb fmt a port) Q s.
Proof. intros HQ. unfold dbg_inb, port_in. simpl truth. steps. by apply HQ. Qed.

Lemma filp_dev_wp h (s : state call rs232_state) Q :
  private_data (loc s) = true -> Q (rsdev (loc s)) s -> wpx h filp_dev Q s.
Proof. unfold filp_dev. intros H HQ. steps. by rewrite H. Qed.

(** After the DLAB bit was set, or cleared, through its mask. *)
Lemma dlab_set l : Z.testbit (newreg 0x80 0x80 (u8 l)) 7 = true.
Proof. by rewrite newreg_bits by (auto using u8_range; lia). Qed.

Lemma dlab_clear l : Z.testbit (newreg 0 0x80 (u8 l)) 7 = false.
Proof. by rewrite newreg_bits by (auto using u8_range; lia). Qed.

(** Setting DLAB and clearing it again clears it, and only it. *)
Lemma dlab_round l :
  newreg 0 0x80 (u8 (newreg 0x80 0x80 (u8 l))) = Z.land l 0x7f.
Proof.
  apply Z.bits_inj'. intros i Hi. rewrite Z.land_spec.
  destruct (Z.ltb_spec i 8).
  - rewrite newreg_bits, u8_testbit, newreg_bits, Z.bits_0, orb_false_r
      by (auto using u8_range; lia).
    rewrite u8_testbit by done. rewrite (proj2 (Z.ltb_lt i 8)) by lia.
    assert (i = 0 \/ i = 1 \/ i = 2 \/ i = 3 \/ i = 4 \/ i = 5 \/ i = 6 \/ i = 7)
      as Hc by lia.
    repeat destruct Hc as [->|Hc]; try subst i; simpl; by rewrite ?andb_true_r, ?andb_false_r, ?orb_false_r.
  - rewrite (bounded_testbit 7 0x7f) by lia. rewrite andb_false_r.
    apply (bounded_testbit 8); [apply u8_range|lia].
Qed.

Lemma newreg_range value mask reg : 0 <= newreg value mask reg < 256.
Proof. apply u8_range. Qed.

(** The bits of a new register value are known through these lemmas only. *)
#[global] Opaque newreg.

(** ** The programming of the device

    [urun] executes the driver against the reference UART: the goal starts
    from a state whose device is a known register file [HU], and each access
    updates it. *)
Ltac dsteps := repeat first [step | apply dbg_wp; cbn [loc tr]].

Ltac unorm U :=
  unfold DLL, DLM, IER, FCR, LCR, THR in U; cbn [uart_write] in U; unfold dlab in U; cbn [lcr] in U;
  rewrite ?dlab_set, ?dlab_clear in U.

Ltac uread HU :=
  cbn [tr]; rewrite ?uart_of_other by done; rewrite HU; unfold uart_read, dlab; cbn [Z.opp lcr dll dlm ier];
  rewrite ?dlab_set, ?dlab_clear; reflexivity.

Ltac ustep base u0 HK HL HU :=
  let s := fresh "s" in let L := fresh "L" in let U := fresh "U" in
  lazymatch goal with
  | |- wpx _ (setreg _ ?m _) _ _ =>
      let m' := eval compute in m in
      lazymatch m' with
      | 255 => change m with 255; apply (setreg_full base u0)
      | _ => eapply (setreg_uart base u0); [exact HK|uread HU|]
      end
  | |- wpx _ (port_out _ _) _ _ => apply (port_out_uart base u0)
  | |- wpx _ (port_in _) _ _ => eapply (port_in_uart base u0); [exact HK|uread HU|]
  | |- wpx _ (dbg _ _) _ _ => apply (dbg_quiet base u0)
  | |- wpx _ (dbg_inb _ _ _) _ _ => apply (dbg_inb_quiet base u0)
  end;
  intros s L U; cbn [loc tr] in L, U;
  rewrite ?uart_of_other in U by done; rewrite HU in U; rewrite ?HL in L; unorm U; clear HL HU;
  rename L into HL; rename U into HU; unfold set_private_data in HL; cbn [rsdev private_data] in HL.

Ltac urun base u0 HK HL HU := repeat first [step | ustep base u0 HK HL HU].

(** C5: Against the reference UART, rs232_open returns 0, sets private_data
    and leaves the divisor latch at 12 (9600 baud), LCR at 7 data bits, one
    stop bit, no parity, DLAB off, the FIFO enabled and interrupts disabled,
    whatever the registers held, and sends no byte. *)
Theorem rs232_open_programs_uart {K : Kernel call} u0 (s : state call rs232_state) :
  let dev := rsdev (loc s) in
  let u := uart_of (iobase dev) u0 (tr s) in
  uart_answers (iobase dev) u0 K ->
  wp rs232_open (fun r s' =>
    r = 0 /\ loc s' = mkSt dev true /\
    uart_of (iobase dev) u0 (tr s') =
      mkUart DLL_9600 DLM_9600 IER_NONE 0x01 LCR_7_BIT_WORD (mcr u) (scr u) (sent u)) s.
Proof.
  destruct (loc s) as [dev p] eqn:HL. intros dev0 u HK. subst dev0 u. cbn [rsdev] in *.
  destruct (uart_of _ u0 (tr s)) as [l m i f c o x t] eqn:HU.
  unfold rs232_open. cbn [mcr scr sent].
  urun (iobase dev) u0 HK HL HU.
  apply filp_dev_wp; [done|]. cbn [loc]. rewrite HL. cbn [rsdev set_private_data].
  urun (iobase dev) u0 HK HL HU.
  split_and!; [done|done|]. exact HU.
Qed.

Lemma latch_low arg : u8 (Z.land arg 0x00FF) = arg mod 256.
Proof.
  change 0x00FF with (Z.ones 8). rewrite Z.land_ones by lia. change (2 ^ 8) with 256. ilia.
Qed.

(** The high byte is shifted by 4 where a divisor latch needs 8. *)
Lemma latch_high arg : u8 (Z.shiftr (Z.land arg 0xFF00) 4) = 16 * ((arg / 256) mod 16).
Proof.
  assert (Z.land arg 0xFF00 = 256 * ((arg / 256) mod 256)) as ->.
  { change 0xFF00 with (Z.shiftl (Z.ones 8) 8).
    apply Z.bits_inj'. intros i Hi.
    rewrite Z.land_spec, Z.shiftl_spec by done.
    replace (256 * ((arg / 256) mod 256)) with (Z.shiftl ((arg / 256) mod 2 ^ 8) 8)
      by (rewrite Z.shiftl_mul_pow2 by lia; change (2 ^ 8) with 256; lia).
    rewrite Z.shiftl_spec by done. destruct (Z.ltb_spec i 8).
    { rewrite !(Z.testbit_neg_r _ (i - 8)) by lia. by rewrite andb_false_r. }
    rewrite <- Z.land_ones, Z.land_spec by lia. f_equal.
    change 256 with (2 ^ 8). rewrite Z.div_pow2_bits by lia. f_equal. lia. }
  rewrite Z.shiftr_div_pow2 by lia. change (2 ^ 4) with 16. ilia.
Qed.

Definition may_rawio (K : Kernel call) : Prop :=
  forall h, truth (s32 (k_ret h (Capable CAP_SYS_RAWIO))) = true.

Ltac cmds :=
  unfold RS_BAUDRATESET, RS_WORDLENGTHSET, RS_BAUDRATEGET, RS_CONFSET, _IO, _IOW;
  repeat (first [rewrite Z.eqb_refl | rewrite ioc_neqb by lia]).

(** Start an ioctl on an open file against the reference device. *)
Ltac ioctl_start s K HL HU Hp :=
  let l := fresh "l" in let m := fresh "m" in let i := fresh "i" in
  let f := fresh "f" in let c := fresh "c" in let o := fresh "o" in
  let x := fresh "x" in let t := fresh "t" in
  destruct (loc s) as [dev p] eqn:HL; cbn [rsdev private_data] in *; subst p;
  destruct (uart_of _ _ (tr s)) as [l m i f c o x t] eqn:HU;
  unfold rs232_ioctl; step; apply filp_dev_wp; [by rewrite HL|];
  rewrite HL; cbn [rsdev]; cbn [lcr ier fcr mcr scr sent].

(** The word-length mask covers the two low bits; the value is not masked. *)
Lemma newreg_wdl v c i :
  0 <= i < 8 ->
  Z.testbit (newreg (u8 v) LCR_WDL (u8 c)) i =
  if i <? 2 then Z.testbit v i else Z.testbit c i || Z.testbit v i.
Proof.
  intros Hi. rewrite newreg_bits by (auto using u8_range).
  rewrite !u8_testbit by lia. rewrite (proj2 (Z.ltb_lt i 8)) by lia. simpl.
  assert (i = 0 \/ i = 1 \/ i = 2 \/ i = 3 \/ i = 4 \/ i = 5 \/ i = 6 \/ i = 7)
    as Hc by lia.
  by repeat destruct Hc as [->|Hc]; try subst i.
Qed.

Section Ioctl.
Context (K : Kernel call) (A : IoctlAbi) (u0 : uart) (s : state call rs232_state).
Let dev := rsdev (loc s).
Let u := uart_of (iobase dev) u0 (tr s).
Hypothesis Hopen : private_data (loc s) = true.
Hypothesis Huart : uart_answers (iobase dev) u0 K.

Lemma set_baud_wp arg Q :
  may_rawio K ->
  (forall s', loc s' = loc s ->
     uart_of (iobase dev) u0 (tr s') =
       mkUart (arg mod 256) (16 * ((arg / 256) mod 16)) (ier u) (fcr u)
         (Z.land (lcr u) 0x7f) (mcr u) (scr u) (sent u) -> Q 0 s') ->
  wp (rs232_ioctl RS_BAUDRATESET arg) Q s.
Proof using Hopen Huart.
  intros Hcap HQ. unfold u, dev in *. clear u dev.
  ioctl_start s K HL HU Hp. cmds.
  step. ustep (iobase dev) u0 Huart HL HU. step. step. rewrite Hcap. cbn [negb].
  urun (iobase dev) u0 Huart HL HU.
  rewrite latch_low, latch_high, dlab_round in HU. by apply HQ.
Qed.

Lemma get_baud_wp arg Q :
  latch_wf u ->
  (forall s', loc s' = loc s ->
     uart_of (iobase dev) u0 (tr s') =
       mkUart (dll u) (dlm u) (ier u) (fcr u) (Z.land (lcr u) 0x7f) (mcr u) (scr u) (sent u) ->
     Q (dll u + 16 * dlm u) s') ->
  wp (rs232_ioctl RS_BAUDRATEGET arg) Q s.
Proof using Hopen Huart.
  intros Hwf HQ. unfold u, dev in *. clear u dev.
  ioctl_start s K HL HU Hp. cmds.
  urun (iobase dev) u0 Huart HL HU.
  rewrite dlab_round in HU. destruct Hwf as [Hl Hm]. cbn [dll dlm] in Hl, Hm, HQ.
  match goal with |- Q ?r _ => replace r with (l + 16 * m); [by apply HQ|] end.
  rewrite !u8_id by lia. change 0x00FF with (Z.ones 8). rewrite Z.land_ones, Z.shiftl_mul_pow2 by lia.
  change (2 ^ 8) with 256. change (2 ^ 4) with 16. 
  rewrite Z.mod_small, (s32_id (m * 16)), s32_id by lia. lia.
Qed.

Lemma set_word_wp arg Q :
  may_rawio K ->
  (forall s', loc s' = loc s ->
     uart_of (iobase dev) u0 (tr s') =
       mkUart (dll u) (dlm u) (ier u) (fcr u) (newreg (u8 arg) LCR_WDL (u8 (lcr u)))
         (mcr u) (scr u) (sent u) -> Q 0 s') ->
  wp (rs232_ioctl RS_WORDLENGTHSET arg) Q s.
Proof using Hopen Huart.
  intros Hcap HQ. unfold u, dev in *. clear u dev.
  ioctl_start s K HL HU Hp. cmds.
  step. ustep (iobase dev) u0 Huart HL HU. step. step. rewrite Hcap. cbn [negb].
  urun (iobase dev) u0 Huart HL HU. by apply HQ.
Qed.
End Ioctl.

Section IoctlTheorems.
Context (K : Kernel call) (A : IoctlAbi) (u0 : uart) (s : state call rs232_state).
Let dev := rsdev (loc s).
Let u := uart_of (iobase dev) u0 (tr s).

(** The RS_BAUDRATESET command (privileged, file open, argument of 16
    bits) returns 0, leaves the divisor latch holding arg mod 256 and
    16*((arg/256) mod 16), keeps the other registers and clears DLAB; the
    latched divisor is the requested one exactly when arg < 256, because the
    high byte is shifted by 4 instead of 8. *)
Theorem rs232_baudrateset_latch arg :
  private_data (loc s) = true -> uart_answers (iobase dev) u0 K -> may_rawio K ->
  0 <= arg < 65536 ->
  wp (rs232_ioctl RS_BAUDRATESET arg) (fun r s' =>
    r = 0 /\ loc s' = loc s /\
    let u' := uart_of (iobase dev) u0 (tr s') in
    u' = mkUart (arg mod 256) (16 * ((arg / 256) mod 16)) (ier u) (fcr u)
           (Z.land (lcr u) 0x7f) (mcr u) (scr u) (sent u) /\
    (divisor u' = arg <-> arg < 256)) s.
Proof.
  intros Ho Hu Hc Ha. apply (set_baud_wp _ _ u0); [done..|]. intros s' HL HU.
  fold dev in HU. fold u in HU. rewrite HU, HL. cbv zeta. split_and!; try done.
  unfold divisor. cbn [dll dlm].
  clear -Ha. split; intros; Z.div_mod_to_equations; lia.
Qed.

(** RS_BAUDRATEGET after a privileged RS_BAUDRATESET of arg returns arg
    mod 4096: the two wrong shifts cancel for arguments below 4096 and lose
    the high nibble of the others. *)
Theorem rs232_baudrate_roundtrip arg arg' :
  private_data (loc s) = true -> uart_answers (iobase dev) u0 K -> may_rawio K ->
  0 <= arg ->
  wp (bind (rs232_ioctl RS_BAUDRATESET arg) (fun _ => rs232_ioctl RS_BAUDRATEGET arg'))
     (fun r _ => r = arg mod 4096) s.
Proof.
  intros Ho Hu Hc Ha. apply wp_bind. apply (set_baud_wp _ _ u0); [done..|]. intros s' HL HU.
  apply (get_baud_wp _ _ u0); rewrite ?HL, ?HU; [done..| |].
  - unfold latch_wf. cbn [dll dlm]. clear. Z.div_mod_to_equations; lia.
  - intros s2 _ _. cbn [dll dlm]. clear -Ha. Z.div_mod_to_equations; lia.
Qed.

(** RS_WORDLENGTHSET (privileged) sets the two word-length bits of LCR
    to the argument's and or-s every other bit of the argument's low byte
    into LCR, so that an argument above 3 changes stop bits, parity, break
    or DLAB; divisor and data are untouched. *)
Theorem rs232_wordlengthset_bits arg :
  private_data (loc s) = true -> uart_answers (iobase dev) u0 K -> may_rawio K ->
  wp (rs232_ioctl RS_WORDLENGTHSET arg) (fun r s' =>
    let u' := uart_of (iobase dev) u0 (tr s') in
    r = 0 /\
    (forall i, 0 <= i < 8 ->
       Z.testbit (lcr u') i =
       if i <? 2 then Z.testbit arg i else Z.testbit (lcr u) i || Z.testbit arg i) /\
    divisor u' = divisor u /\ sent u' = sent u) s.
Proof.
  intros Ho Hu Hc. apply (set_word_wp _ _ u0); [done..|]. intros s' HL HU.
  fold dev in HU. fold u in HU. rewrite HU. split_and!; try done.
  intros i Hi. by apply newreg_wdl.
Qed.

(** RS_CONFSET (privileged) programs word length and divisor latch from
    the user's structure and clears DLAB, yet returns -EINVAL, because its
    case falls through to the default. *)
Theorem rs232_confset_einval arg wl div :
  private_data (loc s) = true -> uart_answers (iobase dev) u0 K -> may_rawio K ->
  (forall h, s32 (k_ret h (GetUser (u32 (arg + rsconf_wl_offset)))) = wl) ->
  (forall h, s32 (k_ret h (GetUser (u32 (arg + rsconf_div_offset)))) = div) ->
  wp (rs232_ioctl RS_CONFSET arg) (fun r s' =>
    r = - EINVAL /\
    exists c, (forall i, 0 <= i < 7 -> Z.testbit c i =
        if i <? 2 then Z.testbit wl i else Z.testbit (lcr u) i || Z.testbit wl i) /\
      Z.testbit c 7 = false /\
      uart_of (iobase dev) u0 (tr s') =
        mkUart (div mod 256) (16 * ((div / 256) mod 16)) (ier u) (fcr u) c
          (mcr u) (scr u) (sent u)) s.
Proof.
  intros Ho Hu Hc Hwl Hdiv. unfold u, dev in *. clear u dev.
  ioctl_start s K HL HU Hp. cmds.
  step. ustep (iobase dev) u0 Hu HL HU. step. step. rewrite Hc. cbn [negb].
  step. step. step. rewrite Hwl. step. rewrite Hdiv. cbv zeta. cbn [conf_wl conf_div].
  urun (iobase dev) u0 Hu HL HU. rewrite latch_low, latch_high, dlab_round in HU.
  split; [done|]. eexists. split_and!; [| |exact HU].
  - intros j Hj. rewrite Z.land_spec, newreg_wdl by lia. change 0x7f with (Z.ones 7).
    by rewrite Z.ones_spec_low, andb_true_r by lia.
  - by rewrite Z.land_spec, andb_false_r.
Qed.

(** Without CAP_SYS_RAWIO every setting command returns -EPERM, and any
    command but RS_BAUDRATEGET that is not one of them returns -EINVAL;
    neither changes the driver's state or a register of the device. *)
Theorem rs232_ioctl_rejects cmd arg :
  private_data (loc s) = true ->
  (forall h, truth (s32 (k_ret h (Capable CAP_SYS_RAWIO))) = false) ->
  cmd <> RS_BAUDRATEGET ->
  wp (rs232_ioctl cmd arg) (fun r s' =>
    r = (if bool_decide (cmd = RS_BAUDRATESET \/ cmd = RS_WORDLENGTHSET \/ cmd = RS_CONFSET)
         then - EPERM else - EINVAL) /\
    loc s' = loc s /\ uart_of (iobase dev) u0 (tr s') = u) s.
Proof.
  intros Ho Hc Hg. unfold rs232_ioctl. step. apply filp_dev_wp; [done|].
  dsteps.
  destruct (Z.eqb_spec cmd RS_BAUDRATESET) as [E|E1].
  { dsteps. rewrite Hc. cbn [negb]. steps. by rewrite bool_decide_eq_true_2 by tauto. }
  destruct (Z.eqb_spec cmd RS_WORDLENGTHSET) as [E|E2].
  { dsteps. rewrite Hc. cbn [negb]. steps. by rewrite bool_decide_eq_true_2 by tauto. }
  rewrite (proj2 (Z.eqb_neq _ _) Hg).
  destruct (Z.eqb_spec cmd RS_CONFSET) as [E|E3].
  { dsteps. rewrite Hc. cbn [negb]. steps. by rewrite bool_decide_eq_true_2 by tauto. }
  dsteps. by rewrite bool_decide_eq_false_2 by tauto.
Qed.
End IoctlTheorems.

(** ** The read and write loops *)

(** The bytes a trace read from the data port, newest first. *)
Definition rbr_reads (base : Z) (t : list (call * Z)) : bytes :=
  omap (fun e => match fst e with
                 | Inb p => if p =? base then Some (snd e) else None
                 | _ => None
                 end) t.

(** The bytes it wrote to the data port, newest first. *)
Definition thr_writes (base : Z) (t : list (call * Z)) : bytes :=
  omap (fun e => match fst e with
                 | Outb v p => if p =? base then Some v else None
                 | _ => None
                 end) t.

Lemma rbr_reads_status base t off v :
  off <> 0 -> rbr_reads base ((Inb (base + off), v) :: t) = rbr_reads base t.
Proof. intros H. simpl. by rewrite (proj2 (Z.eqb_neq _ _)) by lia. Qed.

Lemma rbr_reads_data base t v :
  rbr_reads base ((Inb base, v) :: t) = v :: rbr_reads base t.
Proof. simpl. by rewrite Z.eqb_refl. Qed.

Lemma rbr_reads_other base c v t :
  as_port c = None -> rbr_reads base ((c, v) :: t) = rbr_reads base t.
Proof. by destruct c. Qed.

(** How often a trace slept. *)
Fixpoint sleeps (t : list (call * Z)) : nat :=
  match t with
  | [] => 0
  | (Msleep _, _) :: t => S (sleeps t)
  | _ :: t => sleeps t
  end.

Section Loops.
Context {K : Kernel call}.

(** The line reports received data once the driver has slept [n] times. *)
Definition data_ready_after (n : nat) (dev : rs232_t) : Prop :=
  forall t, (n <= sleeps t)%nat -> Z.testbit (k_ret t (Inb (iobase dev + LSR))) 0 = true.

Lemma kmalloc_wp h size (s : state call rs232_state) Q :
  (forall p, u32 p <> 0 ->
     Q (Some (u32 p, delivery (tr s) (Kmalloc size) size))
       (mkState (loc s) ((Kmalloc size, u32 p) :: tr s))) ->
  (u32 (k_ret (tr s) (Kmalloc size)) = 0 ->
     Q None (mkState (loc s) ((Kmalloc size, 0) :: tr s))) ->
  wpx h (kmalloc size) Q s.
Proof.
  intros HS HN. unfold kmalloc. steps.
  destruct (truth_spec (u32 (k_ret (tr s) (Kmalloc size)))) as [E|E]; [by apply HS|].
  replace (u32 (k_ret (tr s) (Kmalloc size))) with 0 in * by lia. by apply HN.
Qed.

Definition read_inv (l0 : rs232_state) (dev : rs232_t) (size : Z) (junk r0 : bytes)
    (kc : bytes * Z) (s : state call rs232_state) : Prop :=
  loc s = l0 /\ 0 <= snd kc <= size /\ zlen (fst kc) = size + 1 /\
  rbr_reads (iobase dev) (tr s) = rev (take (Z.to_nat (snd kc)) (fst kc)) ++ r0 /\
  drop (Z.to_nat (snd kc)) (fst kc) = drop (Z.to_nat (snd kc)) junk.

Ltac inv_split := unfold read_inv; cbn [fst snd loc tr]; split_and!; try done; try lia.

Lemma read_round_wp h l0 dev size junk r0 kc s :
  size < 2147483647 -> read_inv l0 dev size junk r0 kc s ->
  wpx h (read_round dev size kc) (fun r s' =>
    match r with
    | inl kc' => read_inv l0 dev size junk r0 kc' s' /\
                 (Z.to_nat (size - snd kc') < Z.to_nat (size - snd kc))%nat
    | inr kc' => read_inv l0 dev size junk r0 kc' s'
    end) s.
Proof.
  destruct kc as [kbuff cnt]. intros Hsz (HL & Hc & Hk & Hr & Hd). cbn [fst snd] in *.
  unfold read_round, port_in. rewrite u32_id by lia. step.
  destruct (Z.ltb_spec cnt size) as [Hlt|]; [|steps; by inv_split].
  steps. destruct (truth _); steps; [|inv_split; by rewrite rbr_reads_status].
  rewrite buf_set_Some by lia. steps. unfold buf_get.
  rewrite (proj2 (Z.leb_le 0 cnt)), list_lookup_insert_eq by (unfold zlen in *; lia).
  steps. apply dbg_wp. steps. rewrite s32_id by lia.
  assert (Z.to_nat (cnt + 1) = S (Z.to_nat cnt)) as E by lia. inv_split.
  - rewrite <- Hk. by eapply buf_set_len, buf_set_Some; lia.
  - rewrite E, take_S_insert, rev_app_distr by (unfold zlen in *; lia).
    rewrite rbr_reads_other by done. cbn [pin rs232_ports].
    rewrite rbr_reads_data, rbr_reads_status, Hr by done. done.
  - rewrite E, drop_S_insert, <- (Nat.add_1_r (Z.to_nat cnt)), <- !drop_drop. by rewrite Hd.
Qed.

(** Waiting changes nothing but the trace, and reads no data; it ends within
    [n] rounds when the status is ready after [n] sleeps. *)
Lemma read_wait_wp h n fuel dev s Q :
  h \/ ((n < fuel)%nat /\ data_ready_after n dev) ->
  (forall s', loc s' = loc s -> rbr_reads (iobase dev) (tr s') = rbr_reads (iobase dev) (tr s) ->
     Q tt s') ->
  wpx h (read_wait fuel dev) Q s.
Proof.
  intros Hh HQ. unfold read_wait.
  set (I := fun s' => loc s' = loc s /\
           rbr_reads (iobase dev) (tr s') = rbr_reads (iobase dev) (tr s)).
  assert (forall s1 r, I s1 -> I (mkState (loc s1) ((Inb (iobase dev + LSR), r) :: tr s1)))
    as HI by (intros s1 r [HL HR]; split; [done|]; cbn [tr]; by rewrite <- HR, rbr_reads_status).
  destruct Hh as [Hh|[Hn Hr]].
  - apply (wlp_while h I); [done|done|]. intros s1 H1. unfold port_in. steps.
    destruct (truth _); cbn [negb].
    + apply HQ; [exact (proj1 (HI s1 _ H1))|exact (proj2 (HI s1 _ H1))].
    + steps. exact (HI s1 _ H1).
  - apply (wp_while I (fun s' => n - sleeps (tr s'))%nat); [done|right; lia|].
    intros s1 H1. unfold port_in. steps.
    destruct (truth_spec (Z.land (u8 (k_ret (tr s1) (pin (iobase dev + LSR)))) LSR_DATA_AVAILABLE))
      as [Ht|Ht]; cbn [negb].
    + apply HQ; [exact (proj1 (HI s1 _ H1))|exact (proj2 (HI s1 _ H1))].
    + steps. split; [exact (HI s1 _ H1)|]. cbn [sleeps pin rs232_ports].
      enough (sleeps (tr s1) < n)%nat by lia.
      destruct (Nat.lt_ge_cases (sleeps (tr s1)) n) as [|Hge]; [done|]. exfalso. apply Ht.
      assert (Z.testbit (Z.land (u8 (k_ret (tr s1) (pin (iobase dev + LSR))))
        LSR_DATA_AVAILABLE) 0 = true) as Hb.
      { rewrite Z.land_spec, u8_testbit by lia. cbn [pin rs232_ports]. by rewrite Hr. }
      intros E. by rewrite E in Hb.
Qed.

(** What a user reads: the bytes of the line, a NUL, then whatever the
    allocator left in the buffer. *)
Definition read_result (s : state call rs232_state) (dev : rs232_t) (ubuff size : Z)
    (r : Z) (s' : state call rs232_state) : Prop :=
  loc s' = loc s /\
  (r = - ENOMEM /\ rbr_reads (iobase dev) (tr s') = rbr_reads (iobase dev) (tr s) \/
   exists cnt from rt, 0 <= cnt <= size /\ zlen from = size /\
     In (CopyToUser ubuff from size, rt) (tr s') /\
     r = (if rt =? 0 then cnt else -1) /\
     rbr_reads (iobase dev) (tr s') =
       rev (take (Z.to_nat cnt) from) ++ rbr_reads (iobase dev) (tr s) /\
     (cnt < size -> from !! Z.to_nat cnt = Some 0) /\
     forall i, cnt < i < size ->
       from !! Z.to_nat i =
         Some (u8 (k_out ((Printk "" [], 0) :: tr s) (Kmalloc (size + 1)) i))).

(** The block handed to copy_to_user. *)
Lemma read_image (kbuff junk : bytes) cnt size :
  0 <= cnt <= size -> zlen kbuff = size + 1 ->
  drop (Z.to_nat cnt) kbuff = drop (Z.to_nat cnt) junk ->
  let from := take (Z.to_nat size) (<[Z.to_nat cnt := 0]> kbuff) in
  zlen from = size /\ take (Z.to_nat cnt) from = take (Z.to_nat cnt) kbuff /\
  (cnt < size -> from !! Z.to_nat cnt = Some 0) /\
  forall i, cnt < i < size -> from !! Z.to_nat i = junk !! Z.to_nat i.
Proof.
  unfold zlen. intros Hc Hk Hd. cbv zeta. split_and!.
  - rewrite length_take, length_insert. lia.
  - by rewrite take_take, Nat.min_l, take_insert_ge by lia.
  - intros Hlt. rewrite lookup_take_lt by lia. apply list_lookup_insert_eq. lia.
  - intros i Hi. rewrite lookup_take_lt, list_lookup_insert_ne by lia.
    replace (Z.to_nat i) with (Z.to_nat cnt + (Z.to_nat i - Z.to_nat cnt))%nat by lia.
    by rewrite <- !lookup_drop, Hd.
Qed.

(** The tail of the function: copy to the user and free. *)
Lemma read_copy_wp h ubuff from size p cnt (s : state call rs232_state) Q :
  (forall rt s', loc s' = loc s ->
     In (CopyToUser ubuff from size, rt) (tr s') ->
     (forall base, rbr_reads base (tr s') = rbr_reads base (tr s)) ->
     Q (if rt =? 0 then cnt else -1) s') ->
  wpx h (let! rt := ask s32 (CopyToUser ubuff from size) in
         if truth rt
         then dbg "\tERROR\t corrupt userland pointer" [] ;; post (Kfree p) ;; ret (-1)
         else post (Kfree p) ;; ret cnt) Q s.
Proof.
  intros HQ. steps. unfold truth. set (rt := s32 _). specialize (HQ rt).
  destruct (rt =? 0); cbn [negb].
  - steps. apply HQ; [done| |done]. cbn [tr]. by right; left.
  - step. apply dbg_wp. steps. apply HQ; [done| |done]. cbn [tr]. by do 2 right; left.
Qed.

Lemma rs232_read_wp h n fuel ubuff size s :
  private_data (loc s) = true -> 0 <= size < 2147483647 ->
  h \/ ((n < fuel)%nat /\ (size < Z.of_nat fuel) /\ data_ready_after n (rsdev (loc s))) ->
  wpx h (rs232_read fuel ubuff size) (read_result s (rsdev (loc s)) ubuff size) s.
Proof.
  intros Ho Hs Hh. unfold rs232_read. step. apply dbg_wp. step.
  rewrite u32_id by lia. replace (1 * size + 1) with (size + 1) by lia.
  apply kmalloc_wp.
  2:{ intros _. step. apply dbg_wp. steps. split; [done|]. left. done. }
  intros p Hp. cbn [tr]. set (junk := delivery _ _ _).
  step. apply filp_dev_wp; [done|]. cbn [loc]. step. set (dev := rsdev (loc s)) in *.
  apply (read_wait_wp h n); [tauto|]. intros s1 HL1 HR1. cbn [loc tr] in HL1, HR1.
  rewrite !rbr_reads_other in HR1 by done.
  step. eapply (wp_iter (read_inv (loc s) dev size junk (rbr_reads (iobase dev) (tr s)))
    (fun kc _ => Z.to_nat (size - snd kc))).
  { inv_split. by apply zlen_delivery; lia. }
  { destruct Hh as [|(_ & Hf & _)]; [by left|right]. cbn [snd]. lia. }
  { intros kc s2 H2. eapply wp_mono; [by apply read_round_wp; [lia|exact H2]|].
    intros [kc'|[kbuff cnt]] s3 H3; [done|]. clear Hh kc s2 H2.
    destruct H3 as (HL & Hc & Hk & Hr & Hd). cbn [fst snd] in *.
    rewrite buf_set_Some by lia. steps.
    destruct (cstr_set0 kbuff cnt (<[Z.to_nat cnt:=0]> kbuff)) as [str ->];
      [by apply buf_set_Some; lia|].
    dsteps.
    destruct (read_image kbuff junk cnt size) as (Hf1 & Hf2 & Hf3 & Hf4); [done..|].
    rewrite buf_slice_Some by (unfold zlen in *; rewrite ?length_insert; lia).
    rewrite drop_0. step. step. apply read_copy_wp. intros rt s4 HL4 HIn Hrb.
    split; [cbn [loc] in *; congruence|]. right. exists cnt, (take (Z.to_nat size) (<[Z.to_nat cnt:=0]> kbuff)), rt.
    split_and!; try done; try lia.
    + rewrite Hrb, Hf2. exact Hr.
    + intros i Hi. rewrite Hf4 by done. apply delivery_lookup. lia.
  }
Qed.
End Loops.

Lemma thr_writes_other base c v t :
  (forall b p, c <> Outb b p) -> thr_writes base ((c, v) :: t) = thr_writes base t.
Proof. destruct c; try done. intros H. exfalso. eapply H; reflexivity. Qed.

Lemma thr_writes_data base t b r :
  thr_writes base ((Outb b (base + THR), r) :: t) = b :: thr_writes base t.
Proof. simpl. unfold THR. by rewrite (proj2 (Z.eqb_eq _ _)) by lia. Qed.

Section Writes.
Context {K : Kernel call}.

(** Some status bit always reads as set. *)
Definition status_nonzero (dev : rs232_t) : Prop :=
  forall t, u8 (k_ret t (Inb (iobase dev + LSR))) <> 0.

Definition write_inv (l0 : rs232_state) (dev : rs232_t) (size : Z) (kbuff w0 : bytes)
    (cnt : Z) (s : state call rs232_state) : Prop :=
  loc s = l0 /\ 0 <= cnt <= size /\
  thr_writes (iobase dev) (tr s) = rev (take (Z.to_nat cnt) kbuff) ++ w0.

Lemma write_round_wp h l0 dev size kbuff w0 cnt s :
  size < 2147483647 -> zlen kbuff = size + 1 -> Forall (fun x => 0 <= x < 256) kbuff ->
  write_inv l0 dev size kbuff w0 cnt s ->
  wpx h (write_round dev size kbuff cnt) (fun r s' =>
    match r with
    | inl cnt' => write_inv l0 dev size kbuff w0 cnt' s' /\
                  (Z.to_nat (size - cnt') < Z.to_nat (size - cnt))%nat
    | inr cnt' => write_inv l0 dev size kbuff w0 cnt' s' /\
                  (status_nonzero dev -> cnt' = size)
    end) s.
Proof.
  intros Hsz Hk Hb (HL & Hc & Hw). unfold write_round, port_in. rewrite u32_id by lia. step.
  destruct (Z.ltb_spec cnt size) as [Hlt|]; [|steps; split; [done|lia]].
  steps. destruct (truth_spec (u8 (k_ret (tr s) (pin (iobase dev + LSR))))) as [Ht|Ht];
    simpl; steps.
  2:{ split; [split_and!; try done; lia|intros H; by destruct (Ht (H (tr s)))]. }
  destruct (lookup_lt_is_Some_2 kbuff (Z.to_nat cnt)) as [c Hcl]; [unfold zlen in *; lia|].
  unfold buf_get. rewrite (proj2 (Z.leb_le 0 cnt)), Hcl by lia. unfold port_out. steps.
  rewrite s32_id by lia. unfold write_inv. cbn [loc tr].
  split_and!; try done; try lia. cbn [pin pout rs232_ports].
  rewrite thr_writes_other, thr_writes_data, thr_writes_other, Hw by done.
  rewrite Forall_lookup in Hb. rewrite u8_id by (by eapply Hb).
  replace (Z.to_nat (cnt + 1)) with (S (Z.to_nat cnt)) by lia.
  by rewrite (take_S_r _ _ _ Hcl), rev_app_distr.
Qed.

Lemma write_wait_wp h fuel dev s Q :
  h \/ ((0 < fuel)%nat /\ status_nonzero dev) ->
  (forall s', loc s' = loc s -> thr_writes (iobase dev) (tr s') = thr_writes (iobase dev) (tr s) ->
     Q tt s') ->
  wpx h (write_wait fuel dev) Q s.
Proof.
  intros Hh HQ. unfold write_wait.
  set (I := fun s' => loc s' = loc s /\
           thr_writes (iobase dev) (tr s') = thr_writes (iobase dev) (tr s)).
  assert (forall s1, I s1 -> wpx h
    (let! lsr := port_in (iobase dev + LSR) in ret (negb (truth lsr && truth LSR_THR_IDL)))
    (fun b s' => I s' /\ (status_nonzero dev -> b = false)) s1) as Hcond.
  { intros s1 [HL HW]. unfold port_in. steps. split; [by split|]. intros Hz.
    specialize (Hz (tr s1)). cbn [pin rs232_ports] in *.
    by destruct (truth_spec (u8 (k_ret (tr s1) (Inb (iobase dev + LSR))))). }
  destruct Hh as [Hh|[Hn Hz]].
  - apply (wlp_while h I); [done|done|]. intros s1 H1. eapply wp_mono; [by apply Hcond|].
    intros [] s2 [[HL2 HW2] _]; [|by apply HQ]. steps. by split.
  - apply (wp_while I (fun _ => 0%nat)); [done|by right|]. intros s1 H1.
    eapply wp_mono; [by apply Hcond|].
    intros b s2 [[HL2 HW2] Hf]. rewrite (Hf Hz). by apply HQ.
Qed.

(** What a write does: a failed allocation, a failed copy, or a prefix of the
    user's bytes on the line. *)
Definition write_result (s : state call rs232_state) (dev : rs232_t) (ubuff size : Z)
    (data : bytes) (r : Z) (s' : state call rs232_state) : Prop :=
  loc s' = loc s /\
  ((r = - ENOMEM \/ r = -1) /\
     thr_writes (iobase dev) (tr s') = thr_writes (iobase dev) (tr s) \/
   0 <= r <= size /\
     thr_writes (iobase dev) (tr s') =
       rev (take (Z.to_nat r) data) ++ thr_writes (iobase dev) (tr s) /\
     (status_nonzero dev -> r = size)).

(** The user's buffer: what every copy of it delivers. *)
Definition user_bytes (ubuff size : Z) (data : bytes) : Prop :=
  forall t, delivery t (CopyFromUser ubuff size) size = data.

Lemma write_send_wp h fuel dev size kbuff p s Q :
  0 <= size < 2147483647 -> zlen kbuff = size + 1 -> Forall (fun x => 0 <= x < 256) kbuff ->
  h \/ (size < Z.of_nat fuel /\ status_nonzero dev) ->
  (forall r s', loc s' = loc s -> 0 <= r <= size ->
     thr_writes (iobase dev) (tr s') =
       rev (take (Z.to_nat r) kbuff) ++ thr_writes (iobase dev) (tr s) ->
     (status_nonzero dev -> r = size) -> Q r s') ->
  wpx h (write_wait fuel dev ;;
         let! cnt := iter fuel (write_round dev size kbuff) 0 in
         dbg "end" [] ;; post (Kfree p) ;; ret cnt) Q s.
Proof.
  intros Hs Hk Hb Hh HQ. step. apply write_wait_wp.
  { destruct Hh as [|[Hf Hz]]; [by left|right; split; [lia|done]]. }
  intros s1 HL1 HW1. step.
  apply (wp_iter (write_inv (loc s) dev size kbuff (thr_writes (iobase dev) (tr s)))
    (fun cnt _ => Z.to_nat (size - cnt))).
  { unfold write_inv. by split_and!; [|lia|lia|]. }
  { destruct Hh as [|[Hf _]]; [by left|right; lia]. }
  intros cnt s2 H2. eapply wp_mono; [apply write_round_wp; [lia|done|done|exact H2]|].
  intros [cnt'|cnt'] s3 H3; [done|]. destruct H3 as [(HL3 & Hc3 & HW3) Hz].
  step. apply dbg_wp. steps. apply HQ; [done|done| |done].
  cbn [tr]. by rewrite !thr_writes_other.
Qed.
End Writes.

(** ** Theorems on read and write *)

(** C4: rs232_read never faults on an open file with size < 2^31-1, in any
    kernel and on any fuel; when it returns, it failed to allocate without
    consuming a byte, or copied to the user exactly the bytes it consumed
    from the line, in order, followed (when the line ran dry first) by a NUL
    and then by the uninitialised bytes kmalloc returned, up to the full
    size. *)
Theorem rs232_read_delivers {K : Kernel call} fuel ubuff size (s : state call rs232_state) :
  private_data (loc s) = true -> 0 <= size < 2147483647 ->
  wlp (rs232_read fuel ubuff size) (read_result s (rsdev (loc s)) ubuff size) s.
Proof. intros. apply (rs232_read_wp True 0); auto. Qed.

(** C34: rs232_read completes with a result when the line reports data after
    at most n sleeps, given more fuel than n and than the size. *)
Theorem rs232_read_terminates {K : Kernel call} n fuel ubuff size (s : state call rs232_state) :
  private_data (loc s) = true -> 0 <= size < 2147483647 ->
  data_ready_after n (rsdev (loc s)) -> (n < fuel)%nat -> size < Z.of_nat fuel ->
  exists r s', rs232_read fuel ubuff size s = Ok r s'.
Proof.
  intros. edestruct (wp_inv (rs232_read fuel ubuff size)) as (r & s' & E & _); [|eauto].
  apply (rs232_read_wp False n); auto.
Qed.

(** When the data-available bit never reads as set and the allocation
    succeeds, rs232_read polls for ever: it hangs on every fuel. *)
Theorem rs232_read_blocks {K : Kernel call} fuel ubuff size (s : state call rs232_state) :
  private_data (loc s) = true ->
  (forall t, Z.testbit (k_ret t (Inb (iobase (rsdev (loc s)) + LSR))) 0 = false) ->
  (forall t n, u32 (k_ret t (Kmalloc n)) <> 0) ->
  exists s', rs232_read fuel ubuff size s = Hang s'.
Proof.
  intros Ho Hl Hm. apply wlp_hangs. unfold rs232_read. step. apply dbg_wp. step.
  apply kmalloc_wp; [|intros E; by destruct (Hm (tr (mkState (loc s)
    ((Printk "" [], 0) :: tr s))) (u32 (1 * size + 1)))].
  intros p Hp. step. apply filp_dev_wp; [done|]. step. cbn [loc].
  apply (wlp_while True (fun _ => True)); [done|done|]. intros s1 _. unfold port_in. steps.
  destruct (truth_spec (Z.land (u8 (k_ret (tr s1) (pin (iobase (rsdev (loc s)) + LSR))))
    LSR_DATA_AVAILABLE)) as [Ht|Ht]; cbn [negb]; [|by steps].
  exfalso. apply Ht. change LSR_DATA_AVAILABLE with (Z.ones 1).
  rewrite Z.land_ones by lia. change (2 ^ 1) with 2.
  rewrite <- Z.bit0_mod, u8_testbit by lia. cbn [pin rs232_ports]. by rewrite Hl.
Qed.

(** The user's bytes, copied to the block and terminated. *)
Lemma write_image (junk data : bytes) size :
  zlen junk = size + 1 -> zlen data = size ->
  buf_set (data ++ drop (length data) junk) size 0 = Some (data ++ [0]).
Proof.
  unfold zlen. intros Hj Hd.
  destruct (drop (length data) junk) as [|x [|y l]] eqn:E;
    apply (f_equal length) in E; rewrite length_drop in E; simpl in E; try lia.
  rewrite buf_set_Some by (unfold zlen; rewrite length_app; simpl; lia).
  replace (Z.to_nat size) with (length data + 0)%nat by lia. by rewrite insert_app_r.
Qed.

Lemma rs232_write_wp {K : Kernel call} h fuel ubuff size data (s : state call rs232_state) :
  private_data (loc s) = true -> 0 <= size < 2147483647 ->
  user_bytes ubuff size data ->
  h \/ (size < Z.of_nat fuel /\ status_nonzero (rsdev (loc s))) ->
  wpx h (rs232_write fuel ubuff size) (fun r s' =>
    write_result s (rsdev (loc s)) ubuff size data r s' /\
    ((forall t n, u32 (k_ret t (Kmalloc n)) <> 0) ->
     (forall t, k_ret t (CopyFromUser ubuff size) = 0) -> 0 <= r)) s.
Proof.
  intros Ho Hs Hu Hh. unfold rs232_write. step. apply dbg_wp. step.
  rewrite u32_id by lia. replace (1 * size + 1) with (size + 1) by lia.
  apply kmalloc_wp.
  2:{ intros E. step. apply dbg_wp. steps. split.
      - split; [done|]. left. split; [by left|done].
      - intros Hm. by destruct (Hm _ _ E). }
  intros p Hp. set (junk := delivery _ _ _).
  assert (zlen junk = size + 1) as Hj by (apply zlen_delivery; lia).
  assert (zlen data = size) as Hd by (rewrite <- (Hu []); apply zlen_delivery; lia).
  step. step. rewrite Hu. step. step.
  set (rt := s32 _). set (part := take _ data).
  assert (zlen part <= size) as Hpl by (unfold part, zlen in *; rewrite length_take; lia).
  step. rewrite buf_blit_Some by lia. step.
  destruct (truth_spec rt) as [Hrt|Hrt].
  { step. apply dbg_wp. steps. split.
    - split; [done|]. left. split; [by right|done].
    - intros _ Hc. exfalso. apply Hrt. unfold rt. by rewrite Hc. }
  assert (part = data) as ->.
  { unfold part. replace rt with 0 by lia. apply take_ge. unfold zlen in *. rewrite u32_id; lia. }
  change (take (Z.to_nat 0) junk ++ data ++ drop (Z.to_nat 0 + length data) junk)
    with (data ++ drop (length data) junk). rewrite write_image by done.
  step. apply filp_dev_wp; [done|]. cbn [loc]. steps.
  destruct (cstr_terminated (data ++ [0])) as [str ->]; [apply Exists_app; right; by left|].
  step. step. apply dbg_wp. step. apply dbg_wp. cbn [loc tr].
  apply write_send_wp; [done| | |done|].
  { unfold zlen in *. rewrite length_app. simpl. lia. }
  { apply Forall_app. split; [rewrite <- (Hu []); apply delivery_bytes|]. by constructor; [lia|]. }
  cbn [loc tr]. rewrite !thr_writes_other by done. intros r s' HL Hr Hw Hz. split; [|lia].
  split; [done|]. right. split_and!; try done; try lia.
  by rewrite Hw, take_app_le by (unfold zlen in *; lia).
Qed.

(** rs232_write never faults on an open file with size < 2^31-1; when
    it returns, either the allocation or the copy failed and nothing was
    sent, or its result r is between 0 and size and the first r bytes of the
    user's buffer went to the transmit register in order; r is size when the
    line status never reads zero. *)
Theorem rs232_write_sends_prefix {K : Kernel call} fuel ubuff size data
    (s : state call rs232_state) :
  private_data (loc s) = true -> 0 <= size < 2147483647 -> user_bytes ubuff size data ->
  wlp (rs232_write fuel ubuff size)
    (write_result s (rsdev (loc s)) ubuff size data) s.
Proof.
  intros. eapply wp_mono; [eapply (rs232_write_wp True); eauto|]. by intros ? ? [].
Qed.

(** With the line status stuck at data-available, so that the
    transmitter is never empty nor idle, rs232_write nevertheless sends the
    whole buffer and reports success: its conditions use && where & is
    meant. *)
Theorem rs232_write_ignores_transmitter {K : Kernel call} fuel ubuff size data
    (s : state call rs232_state) :
  private_data (loc s) = true -> 0 <= size < 2147483647 -> user_bytes ubuff size data ->
  size < Z.of_nat fuel ->
  (forall t n, u32 (k_ret t (Kmalloc n)) <> 0) ->
  (forall t, k_ret t (CopyFromUser ubuff size) = 0) ->
  (forall t, k_ret t (Inb (iobase (rsdev (loc s)) + LSR)) = LSR_DATA_AVAILABLE) ->
  wp (rs232_write fuel ubuff size) (fun r s' =>
    r = size /\ thr_writes (iobase (rsdev (loc s))) (tr s') =
      rev data ++ thr_writes (iobase (rsdev (loc s))) (tr s)) s.
Proof.
  intros Ho Hs Hu Hf Hm Hc Hl.
  assert (status_nonzero (rsdev (loc s))) as Hz by (intros t; by rewrite Hl).
  eapply wp_mono; [eapply (rs232_write_wp False); eauto|].
  intros r s' [[_ [[[-> | ->] _]|(Hr & Hw & Hsz)]] Hpos]; [by destruct (Hpos Hm Hc)..|].
  specialize (Hsz Hz) as ->. split; [done|]. rewrite Hw, take_ge; [done|].
  assert (zlen data = size) as Hd by (rewrite <- (Hu []); apply zlen_delivery; lia).
  unfold zlen in Hd. lia.
Qed.

(** ** Loading and unloading *)

Inductive rs_resource := Region (start n : Z) | Chrdev (count : Z) | Cdev | Memory (p : Z).

#[export] Instance rs_resource_eq_dec : EqDecision rs_resource.
Proof. solve_decision. Defined.

#[export] Instance rs232_resources : Resources call rs_resource := {
  acquires e :=
    match e with
    | (RequestRegion start n _, p) => if truth p then Some (Region start n) else None
    | (AllocChrdevRegion _ n _, r) => if truth r then None else Some (Chrdev n)
    | (CdevAdd _ _, r) => if r <? 0 then None else Some Cdev
    | (Kmalloc _, p) => if truth p then Some (Memory p) else None
    | _ => None
    end;
  releases e :=
    match e with
    | (ReleaseRegion start n, _) => Some (Region start n)
    | (UnregisterChrdevRegion _ n, _) => Some (Chrdev n)
    | (CdevDel, _) => Some Cdev
    | (Kfree p, _) => Some (Memory p)
    | _ => None
    end
}.

(** The start of the region that a resource stands for: what the latest
    request that returned this resource asked for. *)
Fixpoint region_start (t : list (call * Z)) (p : Z) : option Z :=
  match t with
  | [] => None
  | (RequestRegion start _ _, q) :: t => if q =? p then Some start else region_start t p
  | _ :: t => region_start t p
  end.

(** The kernel keeps it in the resource. *)
Definition region_start_kept (K : Kernel call) : Prop :=
  forall t p start, region_start t p = Some start -> k_ret t (ResourceStart p) = start.

(** Count what a concrete trace holds; the tests on the answers are decided by
    the hypotheses. *)
Ltac res_side :=
  cbn [acquires releases rs232_resources]; repeat case_match; first [reflexivity|congruence].
Ltac held_count :=
  repeat first
    [ rewrite held_neutral by res_side
    | erewrite held_acquire by res_side
    | erewrite held_release by res_side ].

Ltac bool_cases := repeat case_bool_decide; subst; try congruence; try lia; try (exfalso; intuition congruence).

Section ModuleLife.
Context {K : Kernel call}.

(** The three ways a load ends, with what the module then holds. *)
Definition init_outcome (s : state call rs232_state) (r : Z) (s' : state call rs232_state) : Prop :=
  let h x := held x (tr s') - held x (tr s) in
  (r = - ENODEV /\ forall x, h x = 0) \/
  (r = -1 /\ h (Region 0x3f8 8) = 1 /\ h Cdev = 0 /\ (h (Chrdev 1) = 0 \/ h (Chrdev 1) = 1)) \/
  (r = 0 /\ (forall x, h x =
     if bool_decide (x = Region 0x3f8 8 \/ x = Chrdev 1 \/ x = Cdev) then 1 else 0) /\
   truth (resource (rsdev (loc s'))) = true /\
   cdev_count (rs_cdev (rsdev (loc s'))) = 1 /\
   region_start (tr s') (resource (rsdev (loc s'))) = Some 0x3f8).

Ltac state_cbn :=
  unfold set_rsdev; cbn [loc tr rsdev iobase resource rs_cdev device_name cdev_dev cdev_count].

Lemma rs232_init_wp h (s : state call rs232_state) :
  wpx h rs232_init (init_outcome s) s.
Proof.
  unfold rs232_init. step. apply dbg_wp. steps. apply dbg_wp. steps. apply dbg_wp. steps.
  state_cbn. set (p := u32 _). destruct (truth p) eqn:Ep; cbn [negb].
  2:{ step. apply dbg_wp. steps. left. split; [done|]. intros x. cbn [tr]. held_count. lia. }
  step. apply dbg_wp. steps. set (rt := s32 _). destruct (truth rt) eqn:Er.
  { step. apply dbg_wp. steps. right; left. cbn [tr]. held_count. bool_cases. }
  step. apply dbg_wp. steps. state_cbn. set (ra := s32 _). destruct (ra <? 0) eqn:Ea.
  { step. apply dbg_wp. steps. right; left. cbn [tr]. held_count. bool_cases. }
  steps. right; right. split; [done|]. state_cbn. split; [|split_and!; try done].
  - intros x. held_count. bool_cases.
  - cbn [tr region_start]. by rewrite Z.eqb_refl.
Qed.

Lemma rs232_exit_wp h (s : state call rs232_state) Q :
  region_start_kept K ->
  let d := rsdev (loc s) in
  truth (resource d) = true ->
  region_start (tr s) (resource d) = Some 0x3f8 ->
  (forall s', (forall x, held x (tr s') = held x (tr s) -
      (if bool_decide (x = Region 0x3f8 8 \/ x = Chrdev (cdev_count (rs_cdev d)) \/ x = Cdev)
       then 1 else 0)) -> Q tt s') ->
  wpx h rs232_exit Q s.
Proof.
  intros Hk d Ht Hst HQ. unfold rs232_exit. steps. apply dbg_wp. steps.
  fold d. rewrite Ht. simpl truth. steps. apply HQ. intros x. cbn [tr].
  rewrite !(Hk _ _ 0x3f8) by done.
  change (u32 0x3f8) with 0x3f8. held_count. bool_cases.
Qed.

(** rs232_init ends in one of three ways: -ENODEV holding nothing, -1
    with the I/O region still held (and possibly the device number), or 0
    holding exactly the region, the device number and the character device.
    *)
Theorem rs232_init_resources (s : state call rs232_state) :
  wp rs232_init (init_outcome s) s.
Proof. apply rs232_init_wp. Qed.

(** After a successful rs232_init, rs232_exit gives back everything:
    every resource is held as often as before loading, provided the kernel
    keeps in a resource the start it was requested with. *)
Theorem rs232_init_exit_balanced (s : state call rs232_state) :
  region_start_kept K ->
  wp rs232_init (fun r s1 =>
    r = 0 -> wp rs232_exit (fun _ s2 => forall x, held x (tr s2) = held x (tr s)) s1) s.
Proof.
  intros Hk. eapply wp_mono; [apply rs232_init_wp|].
  intros r s1 [[-> _]|[[-> _]|(-> & Hh & Ht & Hc & Hin)]] Hr; [done..|].
  apply rs232_exit_wp; [done..|]. intros s2 H2 x. rewrite H2, Hc. specialize (Hh x). lia.
Qed.
End ModuleLife.

(** setreg reads the port once and writes to it exactly the byte of the
    table above its definition: a bit under the mask takes the value's bit,
    a bit outside the mask keeps the register's bit or-ed with the value's.
    *)
Theorem setreg_truth_table {K : Kernel call} value mask ioport (s : state call rs232_state) :
  wp (setreg value mask ioport) (fun _ s' =>
    loc s' = loc s /\
    exists reg new msg,
      tr s' = (Outb new ioport, 0) :: (Printk setreg_fmt msg, 0)
              :: (Inb ioport, reg) :: tr s /\
      0 <= new < 256 /\
      forall i, 0 <= i < 8 ->
        Z.testbit new i =
        if Z.testbit mask i then Z.testbit value i
        else Z.testbit reg i || Z.testbit value i) s.
Proof.
  apply setreg_wp. cbv zeta. split; [done|]. do 3 eexists. split; [done|]. split.
  - apply newreg_range.
  - intros i Hi. by apply newreg_bits; [|apply u8_range].
Qed.

(** ** Witnesses: the device at its reset values, a kernel that grants all *)

Definition dev0 : rs232_t := mkRs232 (Some rsname) 0x3f8 1 (mkCdev true 0 1).
Definition st0 : state call rs232_state := mkState (mkSt dev0 true) [].
Definition uart0 : uart := mkUart 0 0 0 0 0x1b 0 0 [].

Definition answers0 (lsr : Z) (t : list (call * Z)) (c : call) : Z :=
  match c with
  | Inb _ => lsr
  | Kmalloc _ => 4096
  | Capable _ => 1
  | RequestRegion _ _ _ => 1
  | ResourceStart p => default 0 (region_start t p)
  | GetUser a => if a =? 4096 then 3 else 0x0180
  | _ => 0
  end.

(** User memory holds its own addresses. *)
Definition kernel0 (lsr : Z) : Kernel call :=
  uart_kernel 0x3f8 uart0 (answers0 lsr) (fun _ _ i => i).

Definition unprivileged : Kernel call := {| k_ret _ _ := 0; k_out _ _ _ := 0 |}.

Lemma kernel0_uart lsr : uart_answers 0x3f8 uart0 (kernel0 lsr).
Proof. apply uart_kernel_answers. Qed.

Example rs232_open_witness :
  wp (@rs232_open (kernel0 0)) (fun r s' =>
    r = 0 /\ loc s' = mkSt dev0 true /\
    uart_of 0x3f8 uart0 (tr s') = mkUart 12 0 0 1 2 0 0 []) st0.
Proof. apply (@rs232_open_programs_uart (kernel0 0) uart0 st0). apply kernel0_uart. Defined.

Example rs232_baudrateset_witness :
  wp (@rs232_ioctl (kernel0 0) generic_ioctl_abi (@RS_BAUDRATESET generic_ioctl_abi) 0x0180)
    (fun r s' => r = 0 /\ loc s' = loc st0 /\
       let u' := uart_of 0x3f8 uart0 (tr s') in
       u' = mkUart 0x80 0x10 0 0 0x1b 0 0 [] /\ (divisor u' = 0x0180 <-> 0x0180 < 256)) st0.
Proof.
  apply (rs232_baudrateset_latch (kernel0 0) generic_ioctl_abi uart0 st0 0x0180);
    [done|apply kernel0_uart|done|lia].
Defined.

Example rs232_baudrate_roundtrip_witness :
  wp (bind (@rs232_ioctl (kernel0 0) generic_ioctl_abi (@RS_BAUDRATESET generic_ioctl_abi) 0x1180)
       (fun _ => @rs232_ioctl (kernel0 0) generic_ioctl_abi (@RS_BAUDRATEGET generic_ioctl_abi) 0))
     (fun r _ => r = 0x180) st0.
Proof.
  apply (rs232_baudrate_roundtrip (kernel0 0) generic_ioctl_abi uart0 st0 0x1180 0);
    [done|apply kernel0_uart|done|lia].
Defined.

(** With argument 0x80 the word-length command switches DLAB on. *)
Example rs232_wordlengthset_witness :
  wp (@rs232_ioctl (kernel0 0) generic_ioctl_abi (@RS_WORDLENGTHSET generic_ioctl_abi) 0x80)
    (fun r s' =>
       let u' := uart_of 0x3f8 uart0 (tr s') in
       r = 0 /\
       (forall i, 0 <= i < 8 ->
          Z.testbit (lcr u') i =
          if i <? 2 then Z.testbit 0x80 i else Z.testbit 0x1b i || Z.testbit 0x80 i) /\
       divisor u' = 0 /\ sent u' = []) st0.
Proof.
  apply (rs232_wordlengthset_bits (kernel0 0) generic_ioctl_abi uart0 st0 0x80);
    [done|apply kernel0_uart|done].
Defined.

Example rs232_confset_witness :
  wp (@rs232_ioctl (kernel0 0) generic_ioctl_abi (@RS_CONFSET generic_ioctl_abi) 4096)
    (fun r s' =>
       r = - EINVAL /\
       exists c, (forall i, 0 <= i < 7 -> Z.testbit c i =
           if i <? 2 then Z.testbit 3 i else Z.testbit 0x1b i || Z.testbit 3 i) /\
         Z.testbit c 7 = false /\
         uart_of 0x3f8 uart0 (tr s') = mkUart 0x80 0x10 0 0 c 0 0 []) st0.
Proof.
  apply (rs232_confset_einval (kernel0 0) generic_ioctl_abi uart0 st0 4096 3 0x0180);
    [done|apply kernel0_uart|done|done|done].
Defined.

Example rs232_ioctl_rejects_witness :
  wp (@rs232_ioctl unprivileged generic_ioctl_abi (@RS_CONFSET generic_ioctl_abi) 4096)
    (fun r s' => r = - EPERM /\ loc s' = loc st0 /\ uart_of 0x3f8 uart0 (tr s') = uart0) st0.
Proof.
  apply (rs232_ioctl_rejects unprivileged generic_ioctl_abi uart0 st0
    (@RS_CONFSET generic_ioctl_abi) 4096); done.
Defined.

Example rs232_read_delivers_witness :
  wlp (@rs232_read (kernel0 1) 10 8192 4) (@read_result (kernel0 1) st0 dev0 8192 4) st0.
Proof. apply (@rs232_read_delivers (kernel0 1) 10 8192 4 st0); [done|lia]. Defined.

Example rs232_read_terminates_witness :
  exists r s', @rs232_read (kernel0 1) 10 8192 4 st0 = Ok r s'.
Proof. apply (@rs232_read_terminates (kernel0 1) 0 10 8192 4 st0); [done|lia|done|lia|lia]. Defined.

Example rs232_read_blocks_witness : exists s', @rs232_read (kernel0 0) 10 8192 4 st0 = Hang s'.
Proof. apply (@rs232_read_blocks (kernel0 0) 10 8192 4 st0); done. Defined.

Example rs232_write_sends_prefix_witness :
  wlp (@rs232_write (kernel0 0x60) 10 8192 4)
    (@write_result (kernel0 0x60) st0 dev0 8192 4 [0; 1; 2; 3]) st0.
Proof.
  apply (@rs232_write_sends_prefix (kernel0 0x60) 10 8192 4 [0; 1; 2; 3] st0); [done|lia|done].
Defined.

(** The transmitter is busy throughout (LSR = 1), and the four bytes are sent. *)
Example rs232_write_ignores_transmitter_witness :
  wp (@rs232_write (kernel0 1) 10 8192 4)
    (fun r s' => r = 4 /\ thr_writes 0x3f8 (tr s') = [3; 2; 1; 0]) st0.
Proof.
  apply (@rs232_write_ignores_transmitter (kernel0 1) 10 8192 4 [0; 1; 2; 3] st0);
    [done|lia|done|lia|done..].
Defined.

Example rs232_init_exit_witness :
  wp (@rs232_init (kernel0 0)) (fun r s1 =>
    r = 0 -> wp (@rs232_exit (kernel0 0)) (fun _ s2 => forall x, held x (tr s2) = held x []) s1) st0.
Proof.
  apply (@rs232_init_exit_balanced (kernel0 0) st0).
  intros t p start H. cbn. by rewrite H.
Defined.

