(* ===== verification/E1000.v ===== *)
(** * The Linux driver of the Intel e1000 Ethernet card

    doc/systems/e1000/Linux: e1000.h (descriptors, registers, the EEPROM),
    e1000_reg_primitive.h (register access) and mod.c (everything else).

    Registers are memory at [bar]; every access is a [Readl] or [Writel] call.
    The descriptor rings and packet buffers are DMA memory, which the card
    changes at any time: a load asks the environment, a store is a call, and
    both fault outside the areas that dma_alloc_coherent returned.  Pointers
    have 32 bits, as the code assumes. *)

From S2P Require Import Prelude CMonad LinuxApi.

(** ** e1000.h *)

(** The layout of a C structure of unsigned fields: each field at the next
    multiple of its size, the whole padded to the largest. *)
Fixpoint struct_end (at_ : Z) (fields : list Z) : Z :=
  match fields with
  | [] => at_
  | sz :: fields => struct_end ((at_ + sz - 1) / sz * sz + sz) fields
  end.

Definition offset_of (fields : list Z) (i : nat) : Z :=
  let at_ := struct_end 0 (take i fields) in
  let sz := nth i fields 1 in
  (at_ + sz - 1) / sz * sz.

Definition sizeof (fields : list Z) : Z :=
  let al := foldr Z.max 1 fields in
  (struct_end 0 fields + al - 1) / al * al.

(** address_l, address_h, length, checksum, status, errors, special *)
Definition t_recv_desc : list Z := [4; 4; 2; 2; 1; 1; 2].
Definition recv_address_l := offset_of t_recv_desc 0.
Definition recv_length := offset_of t_recv_desc 2.
Definition recv_status := offset_of t_recv_desc 4.

(** address_l, address_h, length, checksum_offset, command, status,
    checksum_start, special *)
Definition t_send_desc : list Z := [4; 4; 2; 2; 1; 1; 1; 2].
Definition send_address_l := offset_of t_send_desc 0.
Definition send_length := offset_of t_send_desc 2.
Definition send_command := offset_of t_send_desc 4.
Definition send_status := offset_of t_send_desc 5.

Definition NB_RCV_DESC := 256.
Definition NB_SND_DESC := 256.
Definition BUF_SIZE_BY_DESC := 2048.

(** The [recv] and [send] parts of the private data. *)
Record ring := mkRing {
  descriptors : Z; dma_desc : Z; size_desc : Z;
  buff : Z; dma_buff : Z; size_buff : Z
}.

Record t_e1000_data := mkData {
  pci : Z; netdev : Z; bar : Z; irq : Z;
  waiting_intr : Z;
  recv : ring; send : ring
}.

(* enum e_register *)
Definition CTRL_REG := 0x00000.
Definition STAT_REG := 0x00008.
Definition EEPROM_READ := 0x00014.
Definition FCAL_REG := 0x00028.
Definition FCAH_REG := 0x0002c.
Definition FCT_REG := 0x00030.
Definition FCTTV_REG := 0x00170.
Definition MTA_REG := 0x05200.
Definition CRCERRS_REG := 0x04000.
Definition NB_STAT_REG := 64.
Definition RDBAL_REG := 0x02800.
Definition RDBAH_REG := 0x02804.
Definition RDLEN_REG := 0x02808.
Definition RDH_REG := 0x02810.
Definition RDT_REG := 0x02818.
Definition RCTL_REG := 0x00100.
Definition TCTL_REG := 0x00400.
Definition TDBAL_REG := 0x03800.
Definition TDBAH_REG := 0x03804.
Definition TDLEN_REG := 0x03808.
Definition TDH_REG := 0x03810.
Definition TDT_REG := 0x03818.
Definition RAL_REG := 0x05400.
Definition RAH_REG := 0x05404.
Definition IMS_REG := 0x000D0.
Definition ICR_REG := 0x000C0.

(* enum e_register_value, as the unsigned values written *)
Definition CTRL_ASDE := 0x20.
Definition CTRL_LRST := 0x8.
Definition CTRL_SLU := 0x40.
Definition CTRL_ILOS := 0x80.
Definition CTRL_RST := 0x4000000.
Definition CTRL_VMDE := 0x40000000.
Definition CTRL_PHYRST := 0x80000000.
Definition RCTL_ENABLE := 0x2.
Definition RCTL_BSIZE := 0x30000.
Definition RCTL_BSEX := 0x2000000.
Definition RCTL_MPE := 0x10.
Definition TCTL_ENABLE := 0x2.
Definition TCTL_PAD_PACK := 0x8.
Definition TCTL_CT := 0xF0.
Definition RAH_AV := 0x80000000.
Definition IMS_TXDW := 0x1.
Definition IMS_TXQE := 0x2.
Definition IMS_LSC := 0x4.
Definition IMS_RX0 := 0x40.
Definition IMS_RXT0 := 0x80.
Definition RX_EOP := 0x2.
Definition TX_EOP := 0x1.
Definition TX_IFCS := 0x2.
Definition TX_RS := 0x8.

(** ** The external functions *)

Inductive call :=
| Readl (addr : Z)
| Writel (v addr : Z)
| DmaLoad (addr size : Z)
| DmaStore (addr size v : Z)
| DmaCopyIn (addr : Z) (src : bytes)          (* memcpy to DMA memory *)
| DmaCopyOut (addr n : Z)                     (* memcpy from DMA memory *)
| DmaSet (addr v n : Z)                       (* memset of DMA memory *)
| Printk (fmt : string) (args : list parg)
| PrintkRatelimit
| TaskletInit (data arg : Z)
| TaskletSchedule (data : Z)
| TaskletDisable (data : Z)
| RequestIrq (irq data : Z)
| FreeIrq (irq data : Z)
| NetifStartQueue (dev : Z)
| NetifStopQueue (dev : Z)
| DmaSetMask (pci mask : Z)
| DmaAllocCoherent (pci size : Z)
| DmaFreeCoherent (pci size ptr dma : Z)
| DevAllocSkb (len : Z)
| SkbPut (skb len : Z)
| SkbFill (skb : Z) (data : bytes)            (* memcpy to the skb's tail *)
| EthTypeTrans (skb dev : Z)
| NetifRx (skb dev proto ip_summed : Z)         (* with the fields set on the skb *)
| AllocEtherdev                              (* of sizeof(t_e1000_data) *)
| SetNetdevDev (dev pci : Z)
| RegisterNetdev (dev : Z)
| UnregisterNetdev (dev : Z)
| FreeNetdev (dev : Z)
| PciEnableDevice (pci : Z)
| PciDisableDevice (pci : Z)
| PciRequestRegion (pci bar : Z) (name : string)
| PciReleaseRegion (pci bar : Z)
| PciIoremapBar (pci bar : Z)
| PciIrq (pci : Z)                            (* the field dev->irq *)
| PciRegisterDriver
| PciUnregisterDriver.

(** A network device the driver allocated: its private data and the two fields
    the driver sets. *)
Record net_device := mkDev {
  priv : t_e1000_data;
  netdev_ops : bool;
  dev_addr : bool (* whether dev_addr is the driver's [mac_address] *)
}.

(** The globals of mod.c, the live network devices by address, and the DMA
    areas the driver owns (address, size). *)
Record e1000_state := mkE {
  card : Z;
  mac_address : bytes;
  devs : gmap Z net_device;
  areas : list (Z * Z)
}.

Definition ring0 : ring := mkRing 0 0 0 0 0 0.
Definition data0 : t_e1000_data := mkData 0 0 0 0 0 ring0 ring0.

(** The socket buffer of a transmission. *)
Record sk_buff := mkSkb { nr_frags : Z; skb_data : bytes; skb_len : Z }.

Definition IRQ_NONE := 0.
Definition IRQ_HANDLED := 1.
Definition NETDEV_TX_OK := 0.
Definition CHECKSUM_UNNECESSARY := 1.

Section Driver.
Context {K : Kernel call} {Al : AlignMacro}.

Local Abbreviation M := (M call e1000_state).

Definition printk (fmt : string) (args : list parg) : M unit := post (Printk fmt args).

(** ** Memory *)

(** The private data of a live device. *)
Definition netdev_priv (dev : Z) : M t_e1000_data :=
  let! s := get in
  match devs s !! dev with
  | Some d => ret (priv d)
  | None => fail BadPointer
  end.

Definition upd_dev (dev : Z) (f : net_device -> net_device) (s : e1000_state) : e1000_state :=
  mkE (card s) (mac_address s) (alter f dev (devs s)) (areas s).

(** An assignment to a field of [*data]. *)
Definition set_priv (dev : Z) (f : t_e1000_data -> t_e1000_data) : M unit :=
  let! _ := netdev_priv dev in
  modify (upd_dev dev (fun d => mkDev (f (priv d)) (netdev_ops d) (dev_addr d))).

Definition upd_recv (f : ring -> ring) (d : t_e1000_data) : t_e1000_data :=
  mkData (pci d) (netdev d) (bar d) (irq d) (waiting_intr d) (f (recv d)) (send d).
Definition upd_send (f : ring -> ring) (d : t_e1000_data) : t_e1000_data :=
  mkData (pci d) (netdev d) (bar d) (irq d) (waiting_intr d) (recv d) (f (send d)).
Definition set_waiting (w : Z) (d : t_e1000_data) : t_e1000_data :=
  mkData (pci d) (netdev d) (bar d) (irq d) w (recv d) (send d).

(** Whether [n] bytes at [addr] lie in a DMA area. *)
Definition in_areas (l : list (Z * Z)) (addr n : Z) : bool :=
  existsb (fun a => (fst a <=? addr) && (addr + n <=? fst a + snd a)) l.

Definition dma_check (addr n : Z) : M unit :=
  let! s := get in
  if in_areas (areas s) addr n then ret tt else fail OutOfBounds.

Definition dma_load (conv : Z -> Z) (addr size : Z) : M Z :=
  dma_check addr size ;; ask conv (DmaLoad addr size).
Definition dma_store (addr size v : Z) : M unit :=
  dma_check addr size ;; post (DmaStore addr size v).

(** ** e1000_reg_primitive.h; [data] is the address of the device *)

Definition e1000_get_register (data reg : Z) : M Z :=
  let! d := netdev_priv data in ret (u32 (bar d + reg)).

Definition e1000_read_register (data reg : Z) : M Z :=
  let! a := e1000_get_register data reg in ask u32 (Readl a).

Definition writel (v addr : Z) : M unit := post (Writel (u32 v) addr).

Definition e1000_set_register_preserve (data reg value : Z) : M unit :=
  let! old := e1000_read_register data reg in
  let! a := e1000_get_register data reg in
  writel (Z.lor old value) a.

Definition e1000_set_register (data reg value : Z) : M unit :=
  let! a := e1000_get_register data reg in
  writel value a.

Definition e1000_unset_register_preserve (data reg value : Z) : M unit :=
  let! old := e1000_read_register data reg in
  let! a := e1000_get_register data reg in
  writel (Z.land old (Z.lnot value)) a.

(** e1000.h: a word of the EEPROM. *)
Definition e1000_read_eeprom (fuel : nat) (data addr : Z) : M Z :=
  e1000_set_register data EEPROM_READ (Z.lor (Z.shiftl addr 8) 1) ;;
  let! res := iter fuel (fun _ : unit =>
    let! r := e1000_read_register data EEPROM_READ in
    let res := s32 r in
    ret (if negb (truth (Z.land res (Z.shiftl 1 4))) then inl tt else inr res)) tt in
  ret (Z.shiftr res 16).

(** ** mod.c: status, interrupts *)

Definition speed_s : list string := ["10Mb/s"; "100Mb/s"; "1000Mb/s"; "1000Mb/s"]%string.

Definition e1000_print_status (data : Z) : M unit :=
  let! r := e1000_read_register data STAT_REG in
  let status := s32 r in
  printk "Status of the e1000 card:\n" [] ;;
  printk "\tStatus: %i\n" [PInt status] ;;
  printk "\tMode: %s\n" [PStr (if truth (Z.land status 1) then "Full" else "Half")] ;;
  printk "\tLink: %s\n" [PStr (if truth (Z.land status 2) then "UP" else "Down")] ;;
  printk "\tTransmission: %s\n" [PStr (if truth (Z.land status 4) then "Paused" else "Ok")] ;;
  printk "\tInterface: %s\n" [PStr (if Z.land status 3 =? 3 then "UP" else "Down")] ;;
  let speed := Z.shiftr (Z.land status (Z.shiftl 3 6)) 6 in
  let! name := guard OutOfBounds (buf_get speed_s speed) in
  printk "\tSpeed: Mode: %i -> %s\n" [PInt speed; PStr name].

Definition handler (irq data : Z) : M Z :=
  printk "INTERRUPT HANDLER\n" [] ;;
  let! intr := e1000_read_register data ICR_REG in
  if negb (truth intr) then
    printk "There isn't interrupt to process\n" [] ;; ret IRQ_NONE
  else
  printk "There is interrupt to process\n" [] ;;
  let! d := netdev_priv data in
  set_priv data (set_waiting (s32 (Z.lor (waiting_intr d) intr))) ;;
  post (TaskletSchedule data) ;;
  ret IRQ_HANDLED.

(** The argument is overwritten with the global. *)
Definition intr_task (pdata : Z) : M unit :=
  let! dev := gets card in
  printk "coucou Tasklet\n" [] ;;
  let! d := netdev_priv dev in
  if negb (truth (waiting_intr d)) then ret tt else
  let! d := netdev_priv dev in
  (if truth (Z.land (waiting_intr d) (Z.lor IMS_RX0 IMS_RXT0))
   then printk "Packet received\n" [] else ret tt) ;;
  let! d := netdev_priv dev in
  (if truth (Z.land (waiting_intr d) (Z.lor IMS_TXDW IMS_TXQE))
   then printk "Packet has been sent or the transmit queue is empty\n" [] else ret tt) ;;
  let! d := netdev_priv dev in
  (if truth (Z.land (waiting_intr d) IMS_LSC)
   then printk "The link status changed\n" [] ;; e1000_print_status dev else ret tt) ;;
  set_priv dev (set_waiting 0).

Definition init_interrupt (dev : Z) : M Z :=
  let! d := netdev_priv dev in
  post (TaskletInit dev dev) ;;
  let! rt := ask s32 (RequestIrq (irq d) dev) in
  (if negb (truth rt)
   then e1000_set_register dev IMS_REG
          (Z.lor (Z.lor (Z.lor (Z.lor IMS_TXDW IMS_TXQE) IMS_LSC) IMS_RX0) IMS_RXT0)
   else printk "Not registered interrupt\n" []) ;;
  ret rt.

Definition uninit_interrupt (dev : Z) : M unit :=
  let! d := netdev_priv dev in
  post (FreeIrq (irq d) dev) ;;
  post (TaskletDisable dev).

(** ** mod.c: transmission and reception *)

Definition e1000_start_xmit (skb : sk_buff) (dev : Z) : M Z :=
  printk "e1000_start_xmit called\n" [] ;;
  if truth (nr_frags skb) then
    printk "Packet fragmented\n" [] ;; ret NETDEV_TX_OK
  else
  let! d := netdev_priv dev in
  let! tail := e1000_read_register dev TDT_REG in
  let tail_desc := u32 (descriptors (send d) + tail * sizeof t_send_desc) in
  let! src := guard OutOfBounds (buf_slice (skb_data skb) 0 (skb_len skb)) in
  let dst := u32 (u32 (buff (send d)) + u32 (tail * BUF_SIZE_BY_DESC)) in
  dma_check dst (skb_len skb) ;;
  post (DmaCopyIn dst src) ;;
  printk "Transmit:\n\tTail: %i\n\tLen: %i\n" [PInt tail; PInt (skb_len skb)] ;;
  dma_store (tail_desc + send_length) 2 (u16 (skb_len skb)) ;;
  dma_store (tail_desc + send_command) 1 (Z.lor (Z.lor TX_EOP TX_IFCS) TX_RS) ;;
  dma_store (tail_desc + send_status) 1 0 ;;
  let tail := u32 (tail + 1) mod NB_SND_DESC in
  e1000_set_register dev TDT_REG tail ;;
  ret NETDEV_TX_OK.

(** The hexadecimal dump: [for (i = 0; i < desc->length; ++i) printk("%#x ",
    *ptr++)], the length reloaded at every round, [ptr] stepping by 4. *)
Definition read_dump (fuel : nat) (desc ptr : Z) : M unit :=
  iter fuel (fun i =>
    let! len := dma_load u16 (desc + recv_length) 2 in
    if i <? len
    then let! w := dma_load u32 (ptr + 4 * i) 4 in
         printk "%#x " [PInt w] ;; ret (inl (i + 1))
    else ret (inr tt)) 0.

Definition e1000_read (fuel : nat) (dev : Z) : M unit :=
  printk "Read a packet\n" [] ;;
  let! d := netdev_priv dev in
  let! tail := e1000_read_register dev RDT_REG in
  let tail := u32 (tail + 1) mod NB_RCV_DESC in
  let desc := u32 (descriptors (recv d) + tail * sizeof t_recv_desc) in
  printk "Tail: %i\n" [PInt tail] ;;
  let! status := dma_load u8 (desc + recv_status) 1 in
  if negb (truth (Z.land status RX_EOP)) then
    printk "No packet to read\n" []
  else
  let! len := dma_load u16 (desc + recv_length) 2 in
  let! skb := ask u32 (DevAllocSkb len) in
  if negb (truth skb) then
    (let! l := ask s32 PrintkRatelimit in
     if truth l then printk "Could not allocate socket buffer\n" [] else ret tt)
  else
  let src := u32 (u32 (buff (recv d)) + u32 (tail * BUF_SIZE_BY_DESC)) in
  let! len1 := dma_load u16 (desc + recv_length) 2 in
  post (SkbPut skb len1) ;;
  let! len2 := dma_load u16 (desc + recv_length) 2 in
  dma_check src len2 ;;
  let! packet := delivered (DmaCopyOut src len2) len2 in
  post (DmaCopyOut src len2) ;;
  post (SkbFill skb packet) ;;
  printk "--------------------------\n" [] ;;
  read_dump fuel desc src ;;
  printk "--------------------------\n" [] ;;
  let! proto := ask u16 (EthTypeTrans skb dev) in
  e1000_set_register dev RDT_REG tail ;;
  post (NetifRx skb dev proto CHECKSUM_UNNECESSARY).


(** ** mod.c: the MAC address *)

Definition upd_mac (m : bytes) (s : e1000_state) : e1000_state :=
  mkE (card s) m (devs s) (areas s).

Definition mac_set (i v : Z) : M unit :=
  let! s := get in
  let! m := guard OutOfBounds (buf_set (mac_address s) i (u8 v)) in
  modify (upd_mac m).

Definition le16 (a b : Z) : Z := Z.lor a (Z.shiftl b 8).
Definition le32 (a b c d : Z) : Z := Z.lor (le16 a b) (Z.shiftl (le16 c d) 16).

(** [*(uint32_t * )&mac_address[i]], [*(uint16_t * )&mac_address[i]]: the
    machines the driver is for are little-endian. *)
Definition mac_u16 (i : Z) : M Z :=
  let! m := gets mac_address in
  let! a := guard OutOfBounds (buf_get m i) in
  let! b := guard OutOfBounds (buf_get m (i + 1)) in
  ret (le16 a b).

Definition mac_u32 (i : Z) : M Z :=
  let! l := mac_u16 i in
  let! h := mac_u16 (i + 2) in
  ret (Z.lor l (Z.shiftl h 16)).

Definition e1000_set_mac_address (fuel : nat) : M unit :=
  let! card_ := gets card in
  let data := card_ in
  for_ 3 0 (fun i =>
    let! tmp := e1000_read_eeprom fuel data i in
    mac_set (i * 2) (Z.land tmp 0xFF) ;;
    mac_set (i * 2 + 1) (Z.shiftr (Z.land tmp 0xFF00) 8)) ;;
  let! ral := mac_u32 0 in
  e1000_set_register data RAL_REG ral ;;
  let! rah := mac_u16 4 in
  e1000_set_register data RAH_REG rah ;;
  e1000_set_register_preserve data RAH_REG RAH_AV ;;
  e1000_set_register_preserve data RCTL_REG RCTL_MPE ;;
  modify (upd_dev card_ (fun d => mkDev (priv d) (netdev_ops d) true)).

(** ** mod.c: the rings *)

Definition set_desc (p dma : Z) (r : ring) : ring :=
  mkRing p dma (size_desc r) (buff r) (dma_buff r) (size_buff r).
Definition set_size_desc (n : Z) (r : ring) : ring :=
  mkRing (descriptors r) (dma_desc r) n (buff r) (dma_buff r) (size_buff r).
Definition set_buff (p dma : Z) (r : ring) : ring :=
  mkRing (descriptors r) (dma_desc r) (size_desc r) p dma (size_buff r).
Definition set_size_buff (n : Z) (r : ring) : ring :=
  mkRing (descriptors r) (dma_desc r) (size_desc r) (buff r) (dma_buff r) n.

Definition upd_areas (f : list (Z * Z) -> list (Z * Z)) (s : e1000_state) : e1000_state :=
  mkE (card s) (mac_address s) (devs s) (f (areas s)).

(** The address of a fresh area and its bus address; the latter keeps its old
    value when there is none. *)
Definition dma_alloc_coherent (pci_ size old : Z) : M (Z * Z) :=
  let c := DmaAllocCoherent pci_ size in
  let! dma := filled u32 c 0 in
  let! p := ask u32 c in
  if truth p
  then modify (upd_areas (cons (p, size))) ;; ret (p, dma)
  else ret (p, old).

Definition dma_free_coherent (pci_ size p dma : Z) : M unit :=
  post (DmaFreeCoherent pci_ size p dma) ;;
  modify (upd_areas (List.filter (fun a => negb (fst a =? p)))).

Definition dma_memset (p v n : Z) : M unit :=
  dma_check p n ;; post (DmaSet p v n).

(** The receive half of init_queue up to the loop over the descriptors: [false]
    when an area is missing. *)
Definition init_recv_areas (dev : Z) : M bool :=
  let! d := netdev_priv dev in
  set_priv dev (upd_recv (set_size_desc (u32 (sizeof t_recv_desc * NB_RCV_DESC)))) ;;
  let! d := netdev_priv dev in
  set_priv dev (upd_recv (set_size_desc (u32 (ALIGN (size_desc (recv d)) 4096)))) ;;
  let! d := netdev_priv dev in
  let! a := dma_alloc_coherent (pci d) (size_desc (recv d)) (dma_desc (recv d)) in
  set_priv dev (upd_recv (set_desc (fst a) (snd a))) ;;
  set_priv dev (upd_recv (set_size_buff (u32 (BUF_SIZE_BY_DESC * NB_RCV_DESC)))) ;;
  let! d := netdev_priv dev in
  set_priv dev (upd_recv (set_size_buff (u32 (ALIGN (size_desc (recv d)) 4096)))) ;;
  let! d := netdev_priv dev in
  let! a := dma_alloc_coherent (pci d) (size_buff (recv d)) (dma_buff (recv d)) in
  set_priv dev (upd_recv (set_buff (fst a) (snd a))) ;;
  let! d := netdev_priv dev in
  ret (truth (descriptors (recv d)) && truth (buff (recv d))).

Definition init_send_areas (dev : Z) : M bool :=
  set_priv dev (upd_send (set_size_desc (u32 (sizeof t_send_desc * NB_SND_DESC)))) ;;
  let! d := netdev_priv dev in
  set_priv dev (upd_send (set_size_desc (u32 (ALIGN (size_desc (send d)) 4096)))) ;;
  let! d := netdev_priv dev in
  let! a := dma_alloc_coherent (pci d) (size_desc (send d)) (dma_desc (send d)) in
  set_priv dev (upd_send (set_desc (fst a) (snd a))) ;;
  set_priv dev (upd_send (set_size_buff (u32 (BUF_SIZE_BY_DESC * NB_SND_DESC)))) ;;
  let! d := netdev_priv dev in
  set_priv dev (upd_send (set_size_buff (u32 (ALIGN (size_buff (send d)) 4096)))) ;;
  let! d := netdev_priv dev in
  let! a := dma_alloc_coherent (pci d) (size_buff (send d)) (dma_buff (send d)) in
  set_priv dev (upd_send (set_buff (fst a) (snd a))) ;;
  let! d := netdev_priv dev in
  ret (truth (descriptors (send d)) && truth (buff (send d))).

(** memset of a ring, then the buffer address of each descriptor: [sz] is the
    size of a descriptor, [off] the offset of its [address_l]. *)
Definition init_descriptors (dev : Z) (part : t_e1000_data -> ring) (n : nat) (sz off : Z) : M unit :=
  let! d := netdev_priv dev in
  dma_memset (descriptors (part d)) 0 (size_desc (part d)) ;;
  for_ n 0 (fun i =>
    let! d := netdev_priv dev in
    dma_store (descriptors (part d) + i * sz + off) 4
      (u32 (dma_buff (part d) + i * BUF_SIZE_BY_DESC))).

Definition init_recv_registers (dev : Z) : M unit :=
  let! d := netdev_priv dev in
  e1000_set_register dev RDBAL_REG (dma_desc (recv d)) ;;
  e1000_set_register dev RDBAH_REG 0 ;;
  e1000_set_register dev RDLEN_REG (size_desc (recv d)) ;;
  e1000_set_register dev RDH_REG 0 ;;
  e1000_set_register dev RDT_REG (NB_RCV_DESC - 1) ;;
  e1000_unset_register_preserve dev RCTL_REG RCTL_BSIZE ;;
  e1000_unset_register_preserve dev RCTL_REG RCTL_BSEX.

Definition init_send_registers (dev : Z) : M unit :=
  let! d := netdev_priv dev in
  e1000_set_register dev TDBAL_REG (dma_desc (send d)) ;;
  e1000_set_register dev TDBAH_REG 0 ;;
  e1000_set_register dev TDLEN_REG (size_desc (send d)) ;;
  e1000_set_register dev TDH_REG 0 ;;
  e1000_set_register dev TDT_REG 0 ;;
  e1000_set_register_preserve dev TCTL_REG (Z.lor (Z.lor TCTL_ENABLE TCTL_PAD_PACK) TCTL_CT) ;;
  e1000_set_register_preserve dev RCTL_REG RCTL_ENABLE.

Definition init_queue (dev : Z) : M Z :=
  let! d := netdev_priv dev in
  let! err := ask s32 (DmaSetMask (pci d) (2 ^ 32 - 1)) in
  if truth err then ret err else
  let! ok := init_recv_areas dev in
  if negb ok then ret (- ENOMEM) else
  init_descriptors dev recv (Z.to_nat NB_RCV_DESC) (sizeof t_recv_desc) recv_address_l ;;
  init_recv_registers dev ;;
  let! ok := init_send_areas dev in
  if negb ok then ret (- ENOMEM) else
  init_descriptors dev send (Z.to_nat NB_SND_DESC) (sizeof t_send_desc) send_address_l ;;
  init_send_registers dev ;;
  e1000_print_status dev ;;
  ret 0.

Definition uninit_queue (dev : Z) : M unit :=
  e1000_unset_register_preserve dev RCTL_REG RCTL_ENABLE ;;
  e1000_unset_register_preserve dev TCTL_REG TCTL_ENABLE ;;
  let! d := netdev_priv dev in
  dma_free_coherent (pci d) (size_desc (recv d)) (descriptors (recv d)) (dma_desc (recv d)) ;;
  let! d := netdev_priv dev in
  dma_free_coherent (pci d) (size_buff (recv d)) (buff (recv d)) (dma_buff (recv d)) ;;
  let! d := netdev_priv dev in
  dma_free_coherent (pci d) (size_desc (send d)) (descriptors (send d)) (dma_desc (send d)) ;;
  let! d := netdev_priv dev in
  dma_free_coherent (pci d) (size_buff (send d)) (buff (send d)) (dma_buff (send d)).

(** ** mod.c: the hardware *)

(** The registers that init_hw programs before the MAC address. *)
Definition init_registers (dev : Z) : M unit :=
  e1000_set_register_preserve dev CTRL_REG (Z.lor CTRL_ASDE CTRL_SLU) ;;
  e1000_unset_register_preserve dev CTRL_REG CTRL_LRST ;;
  e1000_unset_register_preserve dev CTRL_REG CTRL_PHYRST ;;
  e1000_unset_register_preserve dev CTRL_REG CTRL_ILOS ;;
  e1000_set_register dev FCAL_REG 0 ;;
  e1000_set_register dev FCAH_REG 0 ;;
  e1000_set_register dev FCT_REG 0 ;;
  e1000_set_register dev FCTTV_REG 0 ;;
  e1000_unset_register_preserve dev CTRL_REG CTRL_VMDE ;;
  for_ 128 0 (fun i => e1000_set_register dev (MTA_REG + i) 0) ;;
  for_ (Z.to_nat NB_STAT_REG) 0 (fun i =>
    let! _ := e1000_read_register dev (CRCERRS_REG + i * 4) in ret tt).

(** init_hw up to the rings. *)
Definition init_hw_setup (fuel : nat) (dev : Z) : M unit :=
  let! _ := netdev_priv dev in
  printk "Inititalize HW\n" [] ;;
  e1000_print_status dev ;;
  init_registers dev ;;
  printk "HW initialized\n" [] ;;
  e1000_print_status dev ;;
  printk "Set mac address\n" [] ;;
  e1000_set_mac_address fuel.

Definition init_hw (fuel : nat) (dev : Z) : M Z :=
  init_hw_setup fuel dev ;;
  printk "Init queues\n" [] ;;
  let! r := init_queue dev in
  if truth r then ret r else
  printk "Init interrupt\n" [] ;;
  let! r := init_interrupt dev in
  if truth r then ret r else ret 0.

Definition uninit_hw (dev : Z) : M unit :=
  uninit_interrupt dev ;;
  uninit_queue dev ;;
  e1000_set_register dev CTRL_REG CTRL_RST.

Definition e1000_open (fuel : nat) (dev : Z) : M Z :=
  printk "Open the e1000 card\n" [] ;;
  let! r := init_hw fuel dev in
  if truth r then ret r else
  printk "Start queue\n" [] ;;
  post (NetifStartQueue dev) ;;
  ret 0.

Definition e1000_close (dev : Z) : M Z :=
  printk "Close the e1000 card\n" [] ;;
  post (NetifStopQueue dev) ;;
  uninit_hw dev ;;
  ret 0.

(** ** mod.c: the PCI driver *)

Definition upd_card (c : Z) (s : e1000_state) : e1000_state :=
  mkE c (mac_address s) (devs s) (areas s).
Definition upd_devs (f : gmap Z net_device -> gmap Z net_device) (s : e1000_state) : e1000_state :=
  mkE (card s) (mac_address s) (f (devs s)) (areas s).

(** A new network device has zeroed private data. *)
Definition alloc_etherdev : M Z :=
  let! c := ask u32 AllocEtherdev in
  (if truth c then modify (upd_devs (<[c := mkDev data0 false false]>)) else ret tt) ;;
  ret c.

Definition register_hw (dev : Z) : M Z :=
  if dev =? 0 then printk "Error  dev == 0\n" [] ;; ret (- EFAULT) else
  let! c := alloc_etherdev in
  modify (upd_card c) ;;
  if negb (truth c) then ret (- ENOMEM) else
  post (SetNetdevDev c dev) ;;
  modify (upd_dev c (fun d => mkDev (priv d) true (dev_addr d))) ;;
  let! r := ask s32 (RegisterNetdev c) in
  if truth r then
    printk "Error when registring e1000 driver: %s\n" [PName c] ;; ret (- EFAULT)
  else
  printk "Ethernet card has name: %s\n" [PName c] ;;
  ret 0.

Definition unload_hw : M unit :=
  let! c := gets card in
  if truth c
  then let! _ := netdev_priv c in
       post (UnregisterNetdev c) ;;
       post (FreeNetdev c) ;;
       modify (upd_devs (delete c))
  else ret tt.

Definition probe (dev : Z) : M Z :=
  let! err := register_hw dev in
  if truth err
  then printk "An error occured when registering e1000 driver\n" [] ;; ret err else
  let! err := ask s32 (PciEnableDevice dev) in
  if truth err then ret err else
  let! err := ask s32 (PciRequestRegion dev 0 "e1000_BAR_0") in
  if truth err then ret err else
  let! c := gets card in
  set_priv c (fun _ => data0) ;;
  let! b := ask u32 (PciIoremapBar dev 0) in
  set_priv c (fun d => mkData (pci d) (netdev d) b (irq d) (waiting_intr d) (recv d) (send d)) ;;
  set_priv c (fun d => mkData (pci d) c (bar d) (irq d) (waiting_intr d) (recv d) (send d)) ;;
  set_priv c (fun d => mkData dev (netdev d) (bar d) (irq d) (waiting_intr d) (recv d) (send d)) ;;
  let! n := ask u32 (PciIrq dev) in
  set_priv c (fun d => mkData (pci d) (netdev d) (bar d) n (waiting_intr d) (recv d) (send d)) ;;
  ret 0.

Definition remove (dev : Z) : M unit :=
  printk "remove called\n" [] ;;
  unload_hw ;;
  post (PciReleaseRegion dev 0) ;;
  post (PciDisableDevice dev).

Definition init : M Z :=
  printk "HELLO WORLD\n" [] ;;
  let! err := ask s32 PciRegisterDriver in
  if truth err
  then printk "An error occured when registering e1000 driver\n" [] ;; ret err
  else ret 0.

Definition cleanup : M unit :=
  printk "BYE WORLD\n" [] ;;
  post PciUnregisterDriver.
End Driver.
