(* ===== verification/E1000Card.v ===== *)
(** * The e1000 card as a register file, and the rules of the driver's primitives

    A reference card for E1000.v: the value of a register is what was last
    written to it, and descriptor memory is read off the trace in the same way.
    The rules say what each primitive adds to the trace; [added] frames
    everything a longer computation does not touch. *)

From S2P Require Import Prelude CMonad LinuxApi E1000.

(** ** Registers and memory of a trace *)

(** The value last written at an address. *)
Fixpoint last_write (a : Z) (t : list (call * Z)) : option Z :=
  match t with
  | [] => None
  | (Writel v a', _) :: t => if a' =? a then Some (u32 v) else last_write a t
  | _ :: t => last_write a t
  end.

(** The value last stored at a DMA address, through a store or a memset. *)
Fixpoint last_store (a : Z) (t : list (call * Z)) : option Z :=
  match t with
  | [] => None
  | (DmaStore a' _ v, _) :: t => if a' =? a then Some v else last_store a t
  | (DmaSet a' v n, _) :: t =>
      if (a' <=? a) && (a <? a' + n) then Some v else last_store a t
  | _ :: t => last_store a t
  end.

(** Registers at different offsets of a card are different addresses. *)
Lemma reg_eqb b o o' :
  0 <= o < 0x20000 -> 0 <= o' < 0x20000 -> (u32 (b + o) =? u32 (b + o')) = (o =? o').
Proof. intros. destruct (Z.eqb_spec o o') as [->|]; [apply Z.eqb_refl|]. apply Z.eqb_neq. ilia. Qed.

(** A register that keeps what is written to it, from its value [v0] at reset. *)
Definition storage `{Kernel call} (a v0 : Z) : Prop :=
  forall t, u32 (k_ret t (Readl a)) = default v0 (last_write a t).

(** ** What a computation adds to the trace *)

Definition added (P : call -> Prop) (s s' : state call e1000_state) : Prop :=
  grows P (tr s) (tr s').

(** ** What the driver holds *)

(** The DMA areas a trace still holds. *)
Fixpoint live_areas (t : list (call * Z)) : list (Z * Z) :=
  match t with
  | [] => []
  | (DmaAllocCoherent _ n, p) :: t => if truth p then (p, n) :: live_areas t else live_areas t
  | (DmaFreeCoherent _ _ p _, _) :: t => List.filter (fun a => negb (fst a =? p)) (live_areas t)
  | _ :: t => live_areas t
  end.

(** What dma_alloc_coherent documents: an area is inside the 32-bit space and
    apart from those the driver holds. *)
Class DmaLaws `{Kernel call} := {
  dma_fits t c n :
    0 < n -> let p := u32 (k_ret t (DmaAllocCoherent c n)) in p <> 0 -> p + n <= 2 ^ 32;
  dma_disjoint t c n p m :
    0 < n -> let q := u32 (k_ret t (DmaAllocCoherent c n)) in q <> 0 ->
    In (p, m) (live_areas t) -> q + n <= p \/ p + m <= q
}.

Inductive resource :=
| RDma (p : Z)
| RIrq (data : Z)
| RNetdev (dev : Z)
| RRegistered (dev : Z)
| REnabled (pci : Z)
| RRegion (pci : Z)
| RMap (addr : Z).

#[export] Instance resource_eq_dec : EqDecision resource.
Proof. solve_decision. Defined.

#[export] Instance e1000_resources : Resources call resource := {|
  acquires e :=
    match e with
    | (DmaAllocCoherent _ _, p) => if truth p then Some (RDma p) else None
    | (RequestIrq _ d, r) => if truth r then None else Some (RIrq d)
    | (AllocEtherdev, p) => if truth p then Some (RNetdev p) else None
    | (RegisterNetdev d, r) => if truth r then None else Some (RRegistered d)
    | (PciEnableDevice d, r) => if truth r then None else Some (REnabled d)
    | (PciRequestRegion d _ _, r) => if truth r then None else Some (RRegion d)
    | (PciIoremapBar _ _, p) => if truth p then Some (RMap p) else None
    | _ => None
    end;
  releases e :=
    match e with
    | (DmaFreeCoherent _ _ p _, _) => Some (RDma p)
    | (FreeIrq _ d, _) => Some (RIrq d)
    | (FreeNetdev d, _) => Some (RNetdev d)
    | (UnregisterNetdev d, _) => Some (RRegistered d)
    | (PciDisableDevice d, _) => Some (REnabled d)
    | (PciReleaseRegion d _, _) => Some (RRegion d)
    | _ => None
    end
|}.

(** The calls that neither acquire nor release. *)
Definition neutral (c : call) : Prop :=
  forall r, acquires (c, r) = None /\ releases (c, r) = None.

(** The calls that leave card, memory and kernel resources alone. *)
Definition looks (c : call) : Prop :=
  match c with Readl _ | Printk _ _ => True | _ => False end.

(** The calls that change at most the registers of [l], of the card at [b]. *)
Definition sets (b : Z) (l : list Z) (c : call) : Prop :=
  looks c \/ exists v o, In o l /\ c = Writel v (u32 (b + o)).

Section Added.
Implicit Types s : state call e1000_state.

Lemma added_refl P s : added P s s.
Proof. by exists []. Qed.

Lemma added_trans P s s' s'' : added P s s' -> added P s' s'' -> added P s s''.
Proof.
  intros (l & E & Hl) (l' & E' & Hl'). exists (l' ++ l). rewrite E', E, app_assoc.
  split; [done|]. by apply Forall_app.
Qed.

Lemma added_mono (P P' : call -> Prop) s s' :
  (forall c, P c -> P' c) -> added P s s' -> added P' s s'.
Proof. intros H (l & E & Hl). exists l. split; [done|]. eapply Forall_impl; [done|]. auto. Qed.

Lemma added_cons P s S c r t :
  added P s (mkState S t) -> P c -> added P s (mkState S ((c, r) :: t)).
Proof. intros (l & E & Hl) Hc. exists ((c, r) :: l). cbn [tr] in *. rewrite E. auto. Qed.

Lemma added_loc P s S S' t : added P s (mkState S t) -> added P s (mkState S' t).
Proof. done. Qed.

Lemma looks_sets b l c : looks c -> sets b l c.
Proof. by left. Qed.

Lemma sets_mono b l l' c : (forall o, In o l -> In o l') -> sets b l c -> sets b l' c.
Proof. intros H [?|(v & o & ? & ->)]; [by left|]. right. eauto 6. Qed.

Lemma sets_in b l v o : In o l -> sets b l (Writel v (u32 (b + o))).
Proof. right. eauto. Qed.

Lemma last_write_app a l t :
  Forall (fun e => forall v, fst e <> Writel v a) l -> last_write a (l ++ t) = last_write a t.
Proof.
  induction 1 as [|[c r] l Hc _ IH]; [done|]. simpl. destruct c; try done.
  destruct (Z.eqb_spec addr a) as [->|]; [|done]. by destruct (Hc v).
Qed.

Lemma added_last_write P a s s' :
  added P s s' -> (forall v, ~ P (Writel v a)) -> last_write a (tr s') = last_write a (tr s).
Proof.
  intros (l & -> & Hl) HP. apply last_write_app. eapply Forall_impl; [done|].
  intros [c r] Hc v E. cbn in *. subst. by eapply HP.
Qed.

(** A write to a register of the card is a write to one of [l]. *)
Lemma sets_offset b l v o :
  sets b l (Writel v (u32 (b + o))) -> Forall (fun o => 0 <= o < 0x20000) (o :: l) -> In o l.
Proof.
  intros [[]|(v' & o' & Hi & E)] Hl. injection E as _ E. inversion Hl as [|?? Ho Hl']; subst.
  rewrite Forall_forall in Hl'.
  assert ((u32 (b + o) =? u32 (b + o')) = true) as E' by (rewrite E; apply Z.eqb_refl).
  rewrite reg_eqb in E'; [|done|by apply Hl', list_elem_of_In]. by apply Z.eqb_eq in E' as ->.
Qed.

(** Other registers keep their values. *)
Lemma sets_last_write b l o s s' :
  added (sets b l) s s' -> ~ In o l -> Forall (fun o => 0 <= o < 0x20000) (o :: l) ->
  last_write (u32 (b + o)) (tr s') = last_write (u32 (b + o)) (tr s).
Proof.
  intros H Hn Hl. eapply added_last_write; [done|]. intros v Hv. by eapply Hn, sets_offset.
Qed.

Lemma looks_last_write a s s' : added looks s s' -> last_write a (tr s') = last_write a (tr s).
Proof. intros H. eapply added_last_write; [exact H|]. by intros v []. Qed.

Lemma last_store_app a l t :
  Forall (fun e => match fst e with DmaStore _ _ _ | DmaSet _ _ _ => False | _ => True end) l ->
  last_store a (l ++ t) = last_store a t.
Proof. induction 1 as [|[c r] l Hc _ IH]; [done|]. simpl. by destruct c. Qed.

Lemma sets_last_store b l a s s' :
  added (sets b l) s s' -> last_store a (tr s') = last_store a (tr s).
Proof.
  intros (k & -> & Hk). apply last_store_app. eapply Forall_impl; [done|].
  intros [c r] [Hc|(v & o & _ & E)]; cbn in *; [by destruct c|by subst].
Qed.

Lemma added_held P r s s' :
  added P s s' -> (forall c, P c -> neutral c) -> held r (tr s') = held r (tr s).
Proof.
  intros (l & -> & Hl) HP. induction Hl as [|[c v] l Hc _ IH]; [done|].
  destruct (HP c Hc v). rewrite <- app_comm_cons, held_neutral by done. done.
Qed.

Lemma added_live P s s' :
  added P s s' -> (forall c, P c -> neutral c) -> live_areas (tr s') = live_areas (tr s).
Proof.
  intros (l & -> & Hl) HP. induction Hl as [|[c v] l Hc _ IH]; [done|].
  pose proof (HP c Hc 1) as [Ha Hr]. cbn [app live_areas fst] in *. by destruct c.
Qed.

Lemma looks_neutral c : looks c -> neutral c.
Proof. by destruct c. Qed.

Lemma sets_neutral b l c : sets b l c -> neutral c.
Proof. intros [?|(v & o & _ & ->)]; [by apply looks_neutral|done]. Qed.
End Added.

Create HintDb e1000.
#[export] Hint Resolve added_refl added_cons added_loc looks_sets sets_in : e1000.
#[export] Hint Extern 1 (looks _) => exact I : e1000.
#[export] Hint Extern 2 (In _ _) => progress (repeat (first [by left|right])) : e1000.

(** ** The rules of the primitives *)

(** The state with device [dev] replaced. *)
Definition setd (dev : Z) (nd : net_device) (s : e1000_state) : e1000_state :=
  mkE (card s) (mac_address s) (<[dev := nd]> (devs s)) (areas s).

Definition with_priv (d : t_e1000_data) (nd : net_device) : net_device :=
  mkDev d (netdev_ops nd) (dev_addr nd).

Section Rules.
Context {K : Kernel call} {Al : AlignMacro}.
Implicit Types (s : state call e1000_state) (h : Prop).

Lemma upd_dev_setd dev nd f S :
  devs S !! dev = Some nd -> upd_dev dev f S = setd dev (f nd) S.
Proof.
  intros H. unfold upd_dev, setd. f_equal. apply map_eq. intros j.
  destruct (decide (j = dev)) as [->|Hj];
    [by rewrite lookup_alter_eq, H, lookup_insert_eq|by rewrite lookup_alter_ne, lookup_insert_ne].
Qed.

Lemma setd_setd dev nd nd' S : setd dev nd (setd dev nd' S) = setd dev nd S.
Proof. unfold setd. cbn. by rewrite insert_insert_eq. Qed.

Lemma setd_id dev nd S : devs S !! dev = Some nd -> setd dev nd S = S.
Proof. intros H. unfold setd. rewrite insert_id by done. by destruct S. Qed.

Lemma lookup_setd dev nd S : devs (setd dev nd S) !! dev = Some nd.
Proof. apply lookup_insert_eq. Qed.

Lemma wp_netdev_priv h dev nd (Q : t_e1000_data -> state call e1000_state -> Prop) s :
  devs (loc s) !! dev = Some nd -> Q (priv nd) s -> wpx h (netdev_priv dev) Q s.
Proof. intros H HQ. unfold netdev_priv. steps. by rewrite H. Qed.

Lemma wp_set_priv h dev nd f (Q : unit -> state call e1000_state -> Prop) s :
  devs (loc s) !! dev = Some nd ->
  Q tt (mkState (setd dev (with_priv (f (priv nd)) nd) (loc s)) (tr s)) ->
  wpx h (set_priv dev f) Q s.
Proof.
  intros H HQ. unfold set_priv. step. eapply wp_netdev_priv; [done|]. steps.
  erewrite upd_dev_setd; done.
Qed.

Lemma wp_read_register h dev nd reg (Q : Z -> state call e1000_state -> Prop) s :
  devs (loc s) !! dev = Some nd ->
  (let a := u32 (bar (priv nd) + reg) in let r := u32 (k_ret (tr s) (Readl a)) in
   Q r (mkState (loc s) ((Readl a, r) :: tr s))) ->
  wpx h (e1000_read_register dev reg) Q s.
Proof.
  intros H HQ. unfold e1000_read_register, e1000_get_register.
  do 2 step. eapply wp_netdev_priv; [done|]. by steps.
Qed.

Lemma wp_set_register h dev nd reg v (Q : unit -> state call e1000_state -> Prop) s :
  devs (loc s) !! dev = Some nd ->
  Q tt (mkState (loc s) ((Writel (u32 v) (u32 (bar (priv nd) + reg)), 0) :: tr s)) ->
  wpx h (e1000_set_register dev reg v) Q s.
Proof.
  intros H HQ. unfold e1000_set_register, e1000_get_register, writel.
  do 2 step. eapply wp_netdev_priv; [done|]. by steps.
Qed.

Lemma wp_set_register_preserve h dev nd reg v (Q : unit -> state call e1000_state -> Prop) s :
  devs (loc s) !! dev = Some nd ->
  (let a := u32 (bar (priv nd) + reg) in let r := u32 (k_ret (tr s) (Readl a)) in
   Q tt (mkState (loc s) ((Writel (u32 (Z.lor r v)) a, 0) :: (Readl a, r) :: tr s))) ->
  wpx h (e1000_set_register_preserve dev reg v) Q s.
Proof.
  intros H HQ. unfold e1000_set_register_preserve. step.
  eapply wp_read_register; [done|]. cbv zeta. unfold e1000_get_register, writel.
  do 2 step. eapply wp_netdev_priv; [done|]. by steps.
Qed.

Lemma wp_unset_register_preserve h dev nd reg v (Q : unit -> state call e1000_state -> Prop) s :
  devs (loc s) !! dev = Some nd ->
  (let a := u32 (bar (priv nd) + reg) in let r := u32 (k_ret (tr s) (Readl a)) in
   Q tt (mkState (loc s)
     ((Writel (u32 (Z.land r (Z.lnot v))) a, 0) :: (Readl a, r) :: tr s))) ->
  wpx h (e1000_unset_register_preserve dev reg v) Q s.
Proof.
  intros H HQ. unfold e1000_unset_register_preserve. step.
  eapply wp_read_register; [done|]. cbv zeta. unfold e1000_get_register, writel.
  do 2 step. eapply wp_netdev_priv; [done|]. by steps.
Qed.

Lemma wp_printk h fmt args (Q : unit -> state call e1000_state -> Prop) s :
  Q tt (mkState (loc s) ((Printk fmt args, 0) :: tr s)) -> wpx h (printk fmt args) Q s.
Proof. done. Qed.

Lemma wp_dma_check h a n (Q : unit -> state call e1000_state -> Prop) s :
  in_areas (areas (loc s)) a n = true -> Q tt s -> wpx h (dma_check a n) Q s.
Proof. intros H HQ. unfold dma_check. steps. by rewrite H. Qed.

Lemma wp_dma_store h a n v (Q : unit -> state call e1000_state -> Prop) s :
  in_areas (areas (loc s)) a n = true ->
  Q tt (mkState (loc s) ((DmaStore a n v, 0) :: tr s)) -> wpx h (dma_store a n v) Q s.
Proof. intros H HQ. unfold dma_store. step. by apply wp_dma_check. Qed.

Lemma wp_dma_load h conv a n (Q : Z -> state call e1000_state -> Prop) s :
  in_areas (areas (loc s)) a n = true ->
  (let r := conv (k_ret (tr s) (DmaLoad a n)) in
   Q r (mkState (loc s) ((DmaLoad a n, r) :: tr s))) -> wpx h (dma_load conv a n) Q s.
Proof. intros H HQ. unfold dma_load. step. by apply wp_dma_check. Qed.

Lemma wp_dma_memset h a v n (Q : unit -> state call e1000_state -> Prop) s :
  in_areas (areas (loc s)) a n = true ->
  Q tt (mkState (loc s) ((DmaSet a v n, 0) :: tr s)) -> wpx h (dma_memset a v n) Q s.
Proof. intros H HQ. unfold dma_memset. step. by apply wp_dma_check. Qed.
End Rules.

Lemma in_areas_intro l a n p sz :
  In (p, sz) l -> p <= a -> a + n <= p + sz -> in_areas l a n = true.
Proof.
  intros H1 H2 H3. apply existsb_exists. exists (p, sz). split; [done|]. simpl.
  apply andb_true_iff. rewrite !Z.leb_le. lia.
Qed.

(** The device looked up is the one of a hypothesis or of the current state. *)
Ltac live :=
  cbn [loc]; first [ eassumption | apply lookup_setd ].

(** One call of a primitive. *)
Ltac estep :=
  lazymatch goal with
  | |- wpx _ (bind _ _) _ _ => apply wp_bind
  | |- wpx _ (netdev_priv _) _ _ => eapply wp_netdev_priv; [live|]
  | |- wpx _ (set_priv _ _) _ _ =>
      eapply wp_set_priv; [live|]; cbn [loc tr]; rewrite ?setd_setd
  | |- wpx _ (e1000_read_register _ _) _ _ => eapply wp_read_register; [live|]; cbv zeta
  | |- wpx _ (e1000_set_register _ _ _) _ _ => eapply wp_set_register; [live|]
  | |- wpx _ (e1000_set_register_preserve _ _ _) _ _ =>
      eapply wp_set_register_preserve; [live|]; cbv zeta
  | |- wpx _ (e1000_unset_register_preserve _ _ _) _ _ =>
      eapply wp_unset_register_preserve; [live|]; cbv zeta
  | |- wpx _ (printk _ _) _ _ => apply wp_printk
  | |- _ => step
  end; cbn [loc tr].
Ltac esteps := repeat estep.

(** ** Reading a symbolic trace *)

Ltac zconst := split; vm_compute; congruence.

(** Evaluate the comparisons of constants. *)
Ltac eval_eqb :=
  repeat match goal with
  | |- context [?a =? ?b] =>
      let v := eval vm_compute in (a =? b) in
      lazymatch v with true => idtac | false => idtac end;
      change (a =? b) with v; cbn [default]
  end.

(** Values of registers after explicit writes. *)
Ltac regs :=
  cbn [last_write tr]; rewrite ?reg_eqb by zconst; eval_eqb; unfold id; rewrite ?u32_idem.

(** The offsets are those of registers, and distinct. *)
Ltac offsets :=
  lazymatch goal with
  | |- ~ In _ _ => let H := fresh in intros H; vm_compute in H; intuition congruence
  | |- Forall _ _ => apply (bool_decide_eq_true_1 _); vm_compute; reflexivity
  end.
