(* ===== verification/E1000Init.v ===== *)
(** * The e1000 driver: initialisation

    What opening a card programs: the control bits, the MAC address read from
    the EEPROM, the two rings; on every path, errors included. *)

From S2P Require Import Prelude CMonad LinuxApi E1000 E1000Card.

Section Init.
Context {K : Kernel call} {Al : AlignMacro}.
Implicit Types (s : state call e1000_state) (nd : net_device).

(** ** Status and control registers *)

Lemma speed_bits z : 0 <= Z.shiftr (Z.land z (Z.shiftl 3 6)) 6 < 4.
Proof.
  rewrite Z.shiftr_land. change (Z.shiftr (Z.shiftl 3 6) 6) with (Z.ones 2).
  rewrite Z.land_ones by lia. apply Z.mod_pos_bound. lia.
Qed.

(** The four speeds of the table are the four values of the field. *)
Lemma speed_name z : exists name,
  buf_get speed_s (Z.shiftr (Z.land z (Z.shiftl 3 6)) 6) = Some name.
Proof.
  pose proof (speed_bits z) as H. set (i := Z.shiftr _ _) in *. clearbody i.
  assert (i = 0 \/ i = 1 \/ i = 2 \/ i = 3) as [-> | [-> | [-> | ->]]] by lia; by eexists.
Qed.

Lemma wp_print_status h dev nd (Q : unit -> state call e1000_state -> Prop) s :
  devs (loc s) !! dev = Some nd ->
  (forall s', loc s' = loc s -> added looks s s' -> Q tt s') ->
  wpx h (e1000_print_status dev) Q s.
Proof.
  intros Hd HQ. unfold e1000_print_status.
  set (z := Z.shiftl 3 6). esteps. destruct (speed_name (s32 (u32 (k_ret (tr s)
    (Readl (u32 (bar (priv nd) + STAT_REG))))))) as [name E].
  eapply wp_guard; [exact E|]. esteps. apply HQ; [done|]. destruct s. auto 20 with e1000.
Qed.

(** The value of the control register after init_registers. *)
Definition ctrl_after (v : Z) : Z :=
  Z.ldiff (Z.lor v (Z.lor CTRL_ASDE CTRL_SLU))
    (Z.lor (Z.lor CTRL_LRST CTRL_PHYRST) (Z.lor CTRL_ILOS CTRL_VMDE)).

Lemma ctrl_after_chain v :
  u32 (Z.land (u32 (Z.land (u32 (Z.land (u32 (Z.land
    (u32 (Z.lor v (Z.lor CTRL_ASDE CTRL_SLU))) (Z.lnot CTRL_LRST)))
    (Z.lnot CTRL_PHYRST))) (Z.lnot CTRL_ILOS))) (Z.lnot CTRL_VMDE)) = u32 (ctrl_after v).
Proof.
  unfold ctrl_after. zbits i Hi.
  destruct (i <? 32), (Z.testbit v i), (Z.testbit CTRL_ASDE i), (Z.testbit CTRL_SLU i),
    (Z.testbit CTRL_LRST i), (Z.testbit CTRL_PHYRST i), (Z.testbit CTRL_ILOS i),
    (Z.testbit CTRL_VMDE i); done.
Qed.

(** The registers init_registers may write. *)
Definition init_offsets : list Z :=
  CTRL_REG :: FCAL_REG :: FCAH_REG :: FCT_REG :: FCTTV_REG :: seqZ MTA_REG 128.

(** A loop that touches nothing but the card's registers. *)
Lemma wp_for_regs h b l S n lo body (Q : unit -> state call e1000_state -> Prop) s :
  loc s = S ->
  (forall i s, lo <= i < lo + Z.of_nat n -> loc s = S ->
     wpx h (body i) (fun _ s' => loc s' = S /\ added (sets b l) s s') s) ->
  (forall s', loc s' = S -> added (sets b l) s s' -> Q tt s') ->
  wpx h (for_ n lo body) Q s.
Proof.
  intros HS Hb HQ.
  apply (wp_for (fun _ s' => loc s' = S /\ added (sets b l) s s')).
  - auto with e1000.
  - intros i s1 Hi [H1 Ha]. eapply wp_mono; [by apply Hb|].
    intros _ s2 [? ?]. split; [done|]. by eapply added_trans.
  - intros s' []. by apply HQ.
Qed.

(** The loops of init_registers. *)
Lemma wp_clear_mta h dev nd (Q : unit -> state call e1000_state -> Prop) s :
  let b := bar (priv nd) in
  devs (loc s) !! dev = Some nd ->
  (forall s', loc s' = loc s -> added (sets b (seqZ MTA_REG 128)) s s' ->
     (forall i, 0 <= i < 128 -> last_write (u32 (b + (MTA_REG + i))) (tr s') = Some 0) ->
     Q tt s') ->
  wpx h (for_ 128 0 (fun i => e1000_set_register dev (MTA_REG + i) 0)) Q s.
Proof.
  intros b Hd HQ.
  apply (wp_for (fun i s' => loc s' = loc s /\ added (sets b (seqZ MTA_REG 128)) s s' /\
    forall j, 0 <= j < i -> last_write (u32 (b + (MTA_REG + j))) (tr s') = Some 0)).
  - split; [done|]. split; [apply added_refl|]. lia.
  - intros i [S t] Hi (HS & Ha & Hw). cbn [loc tr] in *. subst S.
    eapply wp_set_register; [done|]. fold b. cbn [loc tr]. split; [done|]. split.
    + apply added_cons; [done|]. apply sets_in, list_elem_of_In, elem_of_seqZ. lia.
    + intros j Hj. cbn [last_write]. unfold MTA_REG in *. rewrite reg_eqb by lia.
      destruct (Z.eqb_spec (20992 + i) (20992 + j)); [done|]. apply Hw. lia.
  - intros s' (? & ? & ?). apply HQ; done.
Qed.

Lemma wp_read_stats h dev nd (Q : unit -> state call e1000_state -> Prop) s :
  devs (loc s) !! dev = Some nd ->
  (forall s', loc s' = loc s -> added (sets (bar (priv nd)) []) s s' -> Q tt s') ->
  wpx h (for_ (Z.to_nat NB_STAT_REG) 0 (fun i =>
    let! _ := e1000_read_register dev (CRCERRS_REG + i * 4) in ret tt)) Q s.
Proof.
  intros Hd HQ. eapply (wp_for_regs _ _ _ (loc s)); [done| |done].
  intros i s1 _ HS. estep. eapply wp_read_register; [by rewrite HS|]. cbv zeta. esteps.
  split; [done|]. destruct s1. apply added_cons; [apply added_refl|]. by left.
Qed.

Lemma wp_init_registers h dev nd v0 (Q : unit -> state call e1000_state -> Prop) s :
  let b := bar (priv nd) in
  let at_ o := u32 (b + o) in
  devs (loc s) !! dev = Some nd ->
  storage (at_ CTRL_REG) v0 ->
  (forall s', loc s' = loc s -> added (sets b init_offsets) s s' ->
     last_write (at_ CTRL_REG) (tr s')
       = Some (u32 (ctrl_after (default v0 (last_write (at_ CTRL_REG) (tr s))))) ->
     (forall o, In o [FCAL_REG; FCAH_REG; FCT_REG; FCTTV_REG] ->
        last_write (at_ o) (tr s') = Some 0) ->
     (forall i, 0 <= i < 128 -> last_write (at_ (MTA_REG + i)) (tr s') = Some 0) ->
     Q tt s') ->
  wpx h (init_registers dev) Q s.
Proof.
  intros b at_ Hd HC HQ. unfold init_registers. esteps. fold b. fold (at_ CTRL_REG).
  fold (at_ FCAL_REG) (at_ FCAH_REG) (at_ FCT_REG) (at_ FCTTV_REG).
  match goal with |- wpx _ _ _ ?x => set (s1 := x) end.
  assert (added (sets b init_offsets) s s1) as Ha.
  { destruct s. repeat (apply added_cons; [|first [by left|apply sets_in; simpl; tauto]]).
    apply added_refl. }
  assert (last_write (at_ CTRL_REG) (tr s1)
    = Some (u32 (ctrl_after (default v0 (last_write (at_ CTRL_REG) (tr s)))))) as Hctrl.
  { unfold s1. rewrite !HC. unfold at_. regs. f_equal. apply ctrl_after_chain. }
  assert (forall o, In o [FCAL_REG; FCAH_REG; FCT_REG; FCTTV_REG] ->
    last_write (at_ o) (tr s1) = Some 0) as Hfc.
  { unfold s1, at_. intros o Ho. simpl in Ho.
    destruct Ho as [<-|[<-|[<-|[<-|[]]]]]; regs; done. }
  assert (loc s1 = loc s) as HS by done. clearbody s1.
  eapply wp_clear_mta; [by rewrite HS|]. fold b. intros s2 HS2 Ha2 Hmta.
  eapply wp_read_stats; [by rewrite HS2, HS|]. fold b. intros s3 HS3 Ha3.
  assert (forall o, ~ In o (seqZ MTA_REG 128) -> Forall (fun o => 0 <= o < 0x20000)
    (o :: seqZ MTA_REG 128) -> last_write (at_ o) (tr s3) = last_write (at_ o) (tr s1)) as Hk.
  { intros o H1 H2. unfold at_. rewrite (sets_last_write _ _ _ _ _ Ha3); [|by intros []|].
    - by apply (sets_last_write _ _ _ _ _ Ha2).
    - constructor; [by inversion H2|done]. }
  apply HQ.
  - congruence.
  - eapply added_trans; [exact Ha|]. eapply added_trans.
    + eapply added_mono; [|exact Ha2]. intros c. apply sets_mono. intros o Ho.
      unfold init_offsets. do 5 right. done.
    + eapply added_mono; [|exact Ha3]. intros c. by apply sets_mono.
  - rewrite Hk by offsets. done.
  - intros o Ho. rewrite Hk; [by apply Hfc| |];
      simpl in Ho; destruct Ho as [<-|[<-|[<-|[<-|[]]]]]; offsets.
  - intros i Hi. unfold at_. rewrite (sets_last_write _ _ _ _ _ Ha3); [by apply Hmta|by intros []|].
    constructor; [unfold MTA_REG; lia|done].
Qed.

(** ** The EEPROM and the MAC address *)

(** The answer that ends the polling of the EEPROM register at [a]: the first
    one with the done bit. *)
Fixpoint eeprom_poll (fuel : nat) (a : Z) (t : list (call * Z)) : option Z :=
  match fuel with
  | O => None
  | Datatypes.S fuel =>
      let r := u32 (k_ret t (Readl a)) in
      if Z.testbit r 4 then Some r else eeprom_poll fuel a ((Readl a, r) :: t)
  end.

Lemma done_bit r : truth (Z.land (s32 (u32 r)) (Z.shiftl 1 4)) = Z.testbit (u32 r) 4.
Proof.
  assert (Z.testbit (s32 (u32 r)) 4 = Z.testbit (u32 r) 4) as <-.
  { transitivity (Z.testbit (u32 (s32 (u32 r))) 4); [by rewrite u32_testbit|].
    by rewrite u32_s32, u32_idem. }
  generalize (s32 (u32 r)). intros z. destruct (Z.testbit z 4) eqn:E.
  - destruct (truth_spec (Z.land z (Z.shiftl 1 4))) as [|H]; [done|].
    destruct H. intros H0. apply (f_equal (fun x => Z.testbit x 4)) in H0.
    by rewrite Z.land_spec, E in H0.
  - replace (Z.land z (Z.shiftl 1 4)) with 0; [done|]. zbits i Hi.
    rewrite Z.bits_0. change (Z.shiftl 1 4) with (2 ^ 4). rewrite Z.pow2_bits_eqb by lia.
    destruct (Z.eqb_spec 4 i) as [<-|]; [by rewrite E|by rewrite andb_false_r].
Qed.

Lemma wp_read_eeprom h fuel dev nd addr r (Q : Z -> state call e1000_state -> Prop) s :
  let b := bar (priv nd) in
  let a := u32 (b + EEPROM_READ) in
  devs (loc s) !! dev = Some nd ->
  eeprom_poll fuel a ((Writel (u32 (Z.lor (Z.shiftl addr 8) 1)) a, 0) :: tr s) = Some r ->
  (forall s', loc s' = loc s -> added (sets b [EEPROM_READ]) s s' ->
     Q (Z.shiftr (s32 r) 16) s') ->
  wpx h (e1000_read_eeprom fuel dev addr) Q s.
Proof.
  intros b a Hd Hp HQ. unfold e1000_read_eeprom. estep. eapply wp_set_register; [done|].
  fold b. fold a. estep.
  assert (added (sets b [EEPROM_READ]) s (mkState (loc s)
    ((Writel (u32 (Z.lor (Z.shiftl addr 8) 1)) a, 0) :: tr s))) as Ha.
  { destruct s. apply added_cons; [apply added_refl|]. apply sets_in. by left. }
  revert Hp Ha. generalize ((Writel (u32 (Z.lor (Z.shiftl addr 8) 1)) a, 0) :: tr s).
  induction fuel as [|fuel IH]; intros t Hp Ha; [done|]. cbn [iter eeprom_poll] in *.
  estep. estep. eapply wp_read_register; [done|]. fold b. fold a. cbv zeta. esteps.
  rewrite done_bit. case_match; cbn [negb].
  - injection Hp as <-. esteps. apply HQ; [done|]. apply added_cons; [done|]. by left.
  - apply IH; [done|]. apply added_cons; [done|]. by left.
Qed.

(** The EEPROM of the card at [b] holds the words [w] and answers within
    [fuel] polls. *)
Definition eeprom_holds (fuel : nat) (b : Z) (w : Z -> Z) : Prop :=
  forall t i, 0 <= i < 3 ->
    last_write (u32 (b + EEPROM_READ)) t = Some (Z.lor (Z.shiftl i 8) 1) ->
    exists r, eeprom_poll fuel (u32 (b + EEPROM_READ)) t = Some r /\ Z.shiftr r 16 = w i.

Definition lo (w : Z) : Z := Z.land w 0xFF.
Definition hi (w : Z) : Z := Z.land (Z.shiftr w 8) 0xFF.

(** The address the card is programmed with. *)
Definition mac_of (w : Z -> Z) : bytes := [lo (w 0); hi (w 0); lo (w 1); hi (w 1); lo (w 2); hi (w 2)].

Lemma ones8_testbit i : 0 <= i -> Z.testbit 0xFF i = (i <? 8).
Proof.
  intros Hi. change 0xFF with (Z.ones 8). destruct (Z.ltb_spec i 8).
  - apply Z.ones_spec_low. lia.
  - apply Z.ones_spec_high. lia.
Qed.

Lemma le16_lo_hi w : 0 <= w < 65536 -> le16 (lo w) (hi w) = w.
Proof.
  intros Hw. unfold le16, lo, hi. zbits i Hi. rewrite Z.shiftl_spec, ones8_testbit by done.
  destruct (Z.ltb_spec i 8).
  - rewrite (Z.testbit_neg_r _ (i - 8)), orb_false_r, andb_true_r by lia. done.
  - rewrite Z.land_spec, ones8_testbit, Z.shiftr_spec, Z.sub_add, andb_false_r by lia. cbn [orb].
    destruct (Z.ltb_spec (i - 8) 8); [by rewrite andb_true_r|].
    rewrite (bounded_testbit 16) by lia. done.
Qed.

(** What the code keeps of the signed word it reads. *)
Lemma word_bytes r :
  0 <= r < 2 ^ 32 ->
  let tmp := Z.shiftr (s32 r) 16 in let w := Z.shiftr r 16 in
  0 <= w < 65536 /\ u8 (Z.land tmp 0xFF) = lo w /\ u8 (Z.shiftr (Z.land tmp 0xFF00) 8) = hi w.
Proof.
  intros Hr tmp w. unfold lo, hi. change 0xFF00 with (Z.shiftl (Z.ones 8) 8).
  rewrite Z.shiftr_land. change (Z.shiftr (Z.shiftl (Z.ones 8) 8) 8) with (Z.ones 8).
  change 0xFF with (Z.ones 8). rewrite !Z.land_ones by lia.
  subst tmp w. rewrite !Z.shiftr_div_pow2 by lia. unfold u8.
  change (2 ^ 8) with 256. change (2 ^ 16) with 65536. change (2 ^ 32) with 4294967296 in *.
  rewrite !Z.mod_mod by lia. unfold s32, signed. change (2 ^ (32 - 1)) with 2147483648.
  change (2 ^ 32) with 4294967296. 
  destruct (Z.ltb_spec r 2147483648).
  - rewrite (Z.mod_small (r + _)), Z.add_simpl_r by lia. split; [|done].
    Z.div_mod_to_equations; lia.
  - replace ((r + 2147483648) mod 4294967296) with (r - 2147483648) by ilia.
    replace (r - 2147483648 - 2147483648) with (r + (-65536) * 65536) by lia.
    rewrite Z.div_add by lia. split; [|split]; Z.div_mod_to_equations; lia.
Qed.

Lemma wp_mac_set h i v m (Q : unit -> state call e1000_state -> Prop) s :
  buf_set (mac_address (loc s)) i (u8 v) = Some m ->
  Q tt (mkState (upd_mac m (loc s)) (tr s)) -> wpx h (mac_set i v) Q s.
Proof. intros E HQ. unfold mac_set. steps. by rewrite E. Qed.

Lemma eeprom_poll_range fuel a t r : eeprom_poll fuel a t = Some r -> 0 <= r < 2 ^ 32.
Proof.
  revert t. induction fuel as [|fuel IH]; intros t; [done|]. cbn [eeprom_poll]. 
  case_match; [|apply IH]. intros [= <-]. apply u32_range.
Qed.

(** One round: word [i] goes to bytes [2i] and [2i + 1]. *)
Lemma wp_mac_word h fuel dev nd w i (Q : unit -> state call e1000_state -> Prop) s :
  let b := bar (priv nd) in
  devs (loc s) !! dev = Some nd ->
  eeprom_holds fuel b w -> 0 <= i < 3 -> zlen (mac_address (loc s)) = 32 ->
  (forall s', added (sets b [EEPROM_READ]) s s' -> 0 <= w i < 65536 ->
     loc s' = upd_mac (<[Z.to_nat (i * 2 + 1) := hi (w i)]>
       (<[Z.to_nat (i * 2) := lo (w i)]> (mac_address (loc s)))) (loc s) ->
     Q tt s') ->
  wpx h (let! tmp := e1000_read_eeprom fuel dev i in
         mac_set (i * 2) (Z.land tmp 0xFF) ;;
         mac_set (i * 2 + 1) (Z.shiftr (Z.land tmp 0xFF00) 8)) Q s.
Proof.
  intros b Hd Hw Hi Hl HQ. 
  set (t := (Writel (u32 (Z.lor (Z.shiftl i 8) 1)) (u32 (b + EEPROM_READ)), 0) :: tr s).
  assert (u32 (Z.lor (Z.shiftl i 8) 1) = Z.lor (Z.shiftl i 8) 1) as Eu.
  { assert (i = 0 \/ i = 1 \/ i = 2) as [->|[->| ->]] by lia; done. }
  destruct (Hw t i Hi) as (r & Hp & Hr).
  { unfold t. cbn. by rewrite Z.eqb_refl, u32_idem, Eu. }
  destruct (word_bytes r) as (Hwr & Hlo & Hhi); [by eapply eeprom_poll_range|].
  rewrite Hr in *. estep. eapply wp_read_eeprom; [done|exact Hp|]. fold b.
  intros [S' t'] HS Ha. cbn [loc] in HS. subst S'. estep.
  eapply wp_mac_set; [apply buf_set_Some; cbn; lia|]. rewrite Hlo.
  eapply wp_mac_set; [apply buf_set_Some; cbn; unfold zlen in *; rewrite length_insert; lia|].
  cbn [loc tr mac_address upd_mac]. rewrite Hhi. apply HQ; done.
Qed.

Definition mac_offsets : list Z := [EEPROM_READ; RAL_REG; RAH_REG; RCTL_REG].

Lemma wp_mac_u16 h i a b' (Q : Z -> state call e1000_state -> Prop) s :
  buf_get (mac_address (loc s)) i = Some a -> buf_get (mac_address (loc s)) (i + 1) = Some b' ->
  Q (le16 a b') s -> wpx h (mac_u16 i) Q s.
Proof. intros E1 E2 HQ. unfold mac_u16. steps. rewrite E1. steps. rewrite E2. by steps. Qed.

Lemma six_bytes {A} (l : list A) : 6 <= zlen l ->
  exists a0 a1 a2 a3 a4 a5, l = a0 :: a1 :: a2 :: a3 :: a4 :: a5 :: drop 6 l.
Proof.
  unfold zlen. intros H. destruct l as [|a0 [|a1 [|a2 [|a3 [|a4 [|a5 l]]]]]]; simpl in H; try lia.
  repeat eexists.
Qed.

(** The three rounds, and the rest of the function. *)
Lemma wp_mac_words h fuel dev nd w (Q : unit -> state call e1000_state -> Prop) s :
  let b := bar (priv nd) in
  devs (loc s) !! dev = Some nd ->
  eeprom_holds fuel b w -> zlen (mac_address (loc s)) = 32 ->
  (forall s', added (sets b [EEPROM_READ]) s s' -> (forall i, 0 <= i < 3 -> 0 <= w i < 65536) ->
     loc s' = upd_mac (mac_of w ++ drop 6 (mac_address (loc s))) (loc s) -> Q tt s') ->
  wpx h (for_ 3 0 (fun i =>
    let! tmp := e1000_read_eeprom fuel dev i in
    mac_set (i * 2) (Z.land tmp 0xFF) ;;
    mac_set (i * 2 + 1) (Z.shiftr (Z.land tmp 0xFF00) 8))) Q s.
Proof.
  intros b Hd Hw Hl HQ. cbn [for_].
  estep. eapply wp_mac_word; [done..|]. fold b. intros s1 Ha1 Hr1 E1.
  estep. eapply wp_mac_word; [by rewrite E1|done..| |].
  { rewrite E1. unfold zlen. cbn. by rewrite !length_insert. }
  fold b. intros s2 Ha2 Hr2 E2.
  estep. eapply wp_mac_word; [by rewrite E2, E1|done..| |].
  { rewrite E2, E1. unfold zlen. cbn. by rewrite !length_insert. }
  fold b. intros s3 Ha3 Hr3 E3. estep. apply HQ.
  - eapply added_trans; [exact Ha1|]. by eapply added_trans.
  - intros i Hi. assert (i = 0 \/ i = 1 \/ i = 2) as [->|[->| ->]] by lia; done.
  - rewrite E3, E2, E1. unfold upd_mac. cbn [mac_address card devs areas]. f_equal.
    destruct (six_bytes (mac_address (loc s))) as (a0&a1&a2&a3&a4&a5&->); [lia|]. done.
Qed.

Lemma wp_set_mac_address h fuel dev nd w rctl0 rah0 (Q : unit -> state call e1000_state -> Prop) s :
  let b := bar (priv nd) in
  let at_ o := u32 (b + o) in
  card (loc s) = dev -> devs (loc s) !! dev = Some nd ->
  eeprom_holds fuel b w -> zlen (mac_address (loc s)) = 32 ->
  storage (at_ RCTL_REG) rctl0 -> storage (at_ RAH_REG) rah0 ->
  (forall s',
     loc s' = setd dev (mkDev (priv nd) (netdev_ops nd) true)
                (upd_mac (mac_of w ++ drop 6 (mac_address (loc s))) (loc s)) ->
     added (sets b mac_offsets) s s' ->
     last_write (at_ RAL_REG) (tr s') = Some (Z.lor (w 0) (Z.shiftl (w 1) 16)) ->
     last_write (at_ RAH_REG) (tr s') = Some (Z.lor (w 2) RAH_AV) ->
     last_write (at_ RCTL_REG) (tr s')
       = Some (u32 (Z.lor (default rctl0 (last_write (at_ RCTL_REG) (tr s))) RCTL_MPE)) ->
     Q tt s') ->
  wpx h (e1000_set_mac_address fuel) Q s.
Proof.
  intros b at_ Hc Hd Hw Hl Hrc Hra HQ. unfold e1000_set_mac_address. esteps. rewrite Hc.
  eapply wp_mac_words; [done..|]. fold b. intros s1 Ha Hr E.
  set (m := mac_of w ++ drop 6 (mac_address (loc s))) in *.
  assert (devs (loc s1) !! dev = Some nd) as Hd1 by (by rewrite E).
  assert (forall i x, buf_get (mac_of w ++ drop 6 (mac_address (loc s))) i = x ->
    buf_get (mac_address (loc s1)) i = x) as Hg by (by rewrite E).
  estep. unfold mac_u32. estep. eapply wp_mac_u16; [apply Hg; reflexivity..|].
  estep. eapply wp_mac_u16; [apply Hg; reflexivity..|]. esteps. fold b.
  eapply wp_mac_u16; [apply Hg; reflexivity..|]. esteps. fold b.
  rewrite !le16_lo_hi by (apply Hr; lia).
  fold (at_ RAL_REG) (at_ RAH_REG) (at_ RCTL_REG).
  pose proof (Hr 0) as H0. pose proof (Hr 1) as H1. pose proof (Hr 2) as H2.
  apply HQ.
  - erewrite upd_dev_setd by exact Hd1. by rewrite E.
  - apply added_loc with (loc s1).
    repeat (apply added_cons; [|first [by left|apply sets_in; simpl; tauto]]).
    destruct s1. eapply added_mono; [|exact Ha]. intros c. apply sets_mono. simpl. tauto.
  - unfold at_. regs. f_equal. apply u32_id.
    rewrite <- (u32_id (w 0)), <- (u32_id (Z.shiftl (w 1) 16)), <- u32_lor
      by (rewrite ?Z.shiftl_mul_pow2; lia). apply u32_range.
  - rewrite !Hra. unfold at_. regs. f_equal.
    by rewrite u32_lor, u32_idem, ?u32_id by lia.
  - rewrite !Hrc. unfold at_. regs. do 4 f_equal.
    by rewrite (sets_last_write _ _ _ _ _ Ha) by offsets.
Qed.

(** ** The rings *)

Lemma recv_size : u32 (ALIGN (u32 (sizeof t_recv_desc * NB_RCV_DESC)) 4096) = 4096.
Proof.
  change (u32 (sizeof t_recv_desc * NB_RCV_DESC)) with 4096.
  by rewrite ALIGN_multiple by done.
Qed.

Lemma recv_buff_size : u32 (ALIGN 4096 4096) = 4096.
Proof. by rewrite ALIGN_multiple by done. Qed.

Lemma send_size : u32 (ALIGN (u32 (sizeof t_send_desc * NB_SND_DESC)) 4096) = 8192.
Proof.
  change (u32 (sizeof t_send_desc * NB_SND_DESC)) with 5120.
  destruct (ALIGN_spec 5120 4096) as [H1 H2]; [done..|].
  replace (ALIGN 5120 4096) with 8192; [done|]. Z.div_mod_to_equations; lia.
Qed.

Lemma send_buff_size : u32 (ALIGN (u32 (BUF_SIZE_BY_DESC * NB_SND_DESC)) 4096) = 524288.
Proof.
  change (u32 (BUF_SIZE_BY_DESC * NB_SND_DESC)) with 524288.
  by rewrite ALIGN_multiple by done.
Qed.

(** An area the allocator returned, when it returned one. *)
Definition own (p n : Z) (l : list (Z * Z)) : list (Z * Z) :=
  if truth p then (p, n) :: l else l.

Lemma wp_dma_alloc h c n old (Q : Z * Z -> state call e1000_state -> Prop) s :
  (forall p dma,
     p = u32 (k_ret (tr s) (DmaAllocCoherent c n)) ->
     Q (p, dma) (mkState (upd_areas (own p n) (loc s)) ((DmaAllocCoherent c n, p) :: tr s))) ->
  wpx h (dma_alloc_coherent c n old) Q s.
Proof.
  intros HQ. unfold dma_alloc_coherent. steps. set (p := u32 _) in *.
  specialize (HQ p). unfold own in HQ. destruct (truth p); steps; [by apply HQ|].
  replace (loc s) with (upd_areas (fun l => l) (loc s)) by (by destruct s as [[] ?]).
  by apply HQ.
Qed.

(** The private data with new rings. *)
Definition with_recv (r : ring) (nd : net_device) : net_device :=
  with_priv (upd_recv (fun _ => r) (priv nd)) nd.
Definition with_send (r : ring) (nd : net_device) : net_device :=
  with_priv (upd_send (fun _ => r) (priv nd)) nd.

Lemma upd_areas_setd f dev nd S : upd_areas f (setd dev nd S) = setd dev nd (upd_areas f S).
Proof. done. Qed.

Lemma wp_init_recv_areas h dev nd (Q : bool -> state call e1000_state -> Prop) s :
  let c := DmaAllocCoherent (pci (priv nd)) 4096 in
  devs (loc s) !! dev = Some nd ->
  (forall pr dr pb db,
     pr = u32 (k_ret (tr s) c) -> pb = u32 (k_ret ((c, pr) :: tr s) c) ->
     Q (truth pr && truth pb)
       (mkState (setd dev (with_recv (mkRing pr dr 4096 pb db 4096) nd)
                   (upd_areas (fun l => own pb 4096 (own pr 4096 l)) (loc s)))
                ((c, pb) :: (c, pr) :: tr s))) ->
  wpx h (init_recv_areas dev) Q s.
Proof.
  intros c Hd HQ. unfold init_recv_areas. esteps.
  cbn -[u32 ALIGN sizeof Z.mul devs]. rewrite recv_size.
  apply wp_dma_alloc. intros pr dr Epr. cbn [loc tr] in *. rewrite upd_areas_setd. esteps.
  cbn -[u32 ALIGN sizeof Z.mul devs]. rewrite recv_buff_size.
  apply wp_dma_alloc. intros pb db Epb. cbn [loc tr] in *. rewrite upd_areas_setd. esteps.
  by apply HQ.
Qed.

Lemma wp_init_send_areas h dev nd (Q : bool -> state call e1000_state -> Prop) s :
  let c := DmaAllocCoherent (pci (priv nd)) 8192 in
  let c' := DmaAllocCoherent (pci (priv nd)) 524288 in
  devs (loc s) !! dev = Some nd ->
  (forall ps ds pq dq,
     ps = u32 (k_ret (tr s) c) -> pq = u32 (k_ret ((c, ps) :: tr s) c') ->
     Q (truth ps && truth pq)
       (mkState (setd dev (with_send (mkRing ps ds 8192 pq dq 524288) nd)
                   (upd_areas (fun l => own pq 524288 (own ps 8192 l)) (loc s)))
                ((c', pq) :: (c, ps) :: tr s))) ->
  wpx h (init_send_areas dev) Q s.
Proof.
  intros c c' Hd HQ. unfold init_send_areas. esteps.
  cbn -[u32 ALIGN sizeof Z.mul devs]. rewrite send_size.
  apply wp_dma_alloc. intros ps ds Eps. cbn [loc tr] in *. rewrite upd_areas_setd. esteps.
  cbn -[u32 ALIGN sizeof Z.mul devs]. rewrite send_buff_size.
  apply wp_dma_alloc. intros pq dq Epq. cbn [loc tr] in *. rewrite upd_areas_setd. esteps.
  by apply HQ.
Qed.

(** Stores inside the area of [n] bytes at [p]. *)
Definition fills (p n : Z) (c : call) : Prop :=
  match c with
  | DmaStore a m _ | DmaSet a _ m => p <= a /\ a + m <= p + n /\ 0 < m
  | _ => False
  end.

Lemma fills_last_write p n a s s' :
  added (fills p n) s s' -> last_write a (tr s') = last_write a (tr s).
Proof. intros H. eapply added_last_write; [exact H|]. by intros v []. Qed.

Lemma fills_last_store p n a s s' :
  added (fills p n) s s' -> ~ (p <= a < p + n) -> last_store a (tr s') = last_store a (tr s).
Proof.
  intros (l & -> & Hl) Ha. induction Hl as [|[c r] l Hc _ IH]; [done|].
  cbn [app last_store]. destruct c; try done; cbn in Hc.
  - destruct (Z.eqb_spec addr a); [lia|done].
  - destruct (Z.leb_spec addr a), (Z.ltb_spec a (addr + n0)); try done; lia.
Qed.

Lemma wp_init_descriptors h dev nd part n sz off (Q : unit -> state call e1000_state -> Prop) s :
  let p := descriptors (part (priv nd)) in
  let len := size_desc (part (priv nd)) in
  devs (loc s) !! dev = Some nd ->
  In (p, len) (areas (loc s)) ->
  Z.of_nat n * sz <= len -> 0 < len -> 0 <= off -> off + 4 <= sz ->
  (forall s', loc s' = loc s -> added (fills p len) s s' ->
     (forall i, 0 <= i < Z.of_nat n ->
        last_store (p + i * sz + off) (tr s')
          = Some (u32 (dma_buff (part (priv nd)) + i * BUF_SIZE_BY_DESC))) ->
     Q tt s') ->
  wpx h (init_descriptors dev part n sz off) Q s.
Proof.
  intros p len Hd Hin Hn Hlen Hoff Hsz HQ. unfold init_descriptors. esteps.
  eapply wp_dma_memset; [eapply in_areas_intro; [exact Hin|fold p len; lia..]|].
  fold p len. set (s1 := mkState _ _).
  assert (added (fills p len) s s1) as Ha1.
  { destruct s. apply added_cons; [apply added_refl|]. cbn. lia. }
  apply (wp_for (fun i s' => loc s' = loc s /\ added (fills p len) s s' /\
    forall j, 0 <= j < i -> last_store (p + j * sz + off) (tr s')
      = Some (u32 (dma_buff (part (priv nd)) + j * BUF_SIZE_BY_DESC)))).
  - split; [done|]. split; [done|]. lia.
  - intros i [S t] Hi (HS & Ha & Hw). cbn [loc tr] in *. subst S. esteps.
    eapply wp_dma_store; [eapply in_areas_intro; [exact Hin|fold p len; nia..]|].
    fold p len. cbn [loc tr]. split; [done|]. split.
    + apply added_cons; [done|]. cbn. nia.
    + intros j Hj. cbn [last_store].
      destruct (Z.eqb_spec (p + i * sz + off) (p + j * sz + off)) as [E|].
      * replace j with i by nia. done.
      * apply Hw. assert (i <> j) by (intros ->; done). lia.
  - intros s' (HS & Ha & Hw). by apply HQ.
Qed.

Lemma wp_init_recv_registers h dev nd rctl0 (Q : unit -> state call e1000_state -> Prop) s :
  let b := bar (priv nd) in
  let at_ o := u32 (b + o) in
  let r := recv (priv nd) in
  devs (loc s) !! dev = Some nd -> storage (at_ RCTL_REG) rctl0 ->
  (forall s', loc s' = loc s ->
     added (sets b [RDBAL_REG; RDBAH_REG; RDLEN_REG; RDH_REG; RDT_REG; RCTL_REG]) s s' ->
     last_write (at_ RDBAL_REG) (tr s') = Some (u32 (dma_desc r)) ->
     last_write (at_ RDBAH_REG) (tr s') = Some 0 ->
     last_write (at_ RDLEN_REG) (tr s') = Some (u32 (size_desc r)) ->
     last_write (at_ RDH_REG) (tr s') = Some 0 ->
     last_write (at_ RDT_REG) (tr s') = Some 255 ->
     last_write (at_ RCTL_REG) (tr s')
       = Some (u32 (Z.ldiff (default rctl0 (last_write (at_ RCTL_REG) (tr s)))
                      (Z.lor RCTL_BSIZE RCTL_BSEX))) ->
     Q tt s') ->
  wpx h (init_recv_registers dev) Q s.
Proof.
  intros b at_ r Hd HR HQ. unfold init_recv_registers. esteps.
  fold b. fold (at_ RDBAL_REG) (at_ RDBAH_REG) (at_ RDLEN_REG) (at_ RDH_REG) (at_ RDT_REG)
    (at_ RCTL_REG). apply HQ; [done|..].
  { destruct s. repeat (apply added_cons; [|first [by left|apply sets_in; simpl; tauto]]).
    apply added_refl. }
  all: rewrite ?HR; unfold at_; regs; try done.
  f_equal. zbits i Hi. destruct (i <? 32), (Z.testbit (from_option _ _ _) i),
    (Z.testbit RCTL_BSIZE i), (Z.testbit RCTL_BSEX i); done.
Qed.

Lemma wp_init_send_registers h dev nd rctl0 tctl0 (Q : unit -> state call e1000_state -> Prop) s :
  let b := bar (priv nd) in
  let at_ o := u32 (b + o) in
  let r := send (priv nd) in
  devs (loc s) !! dev = Some nd ->
  storage (at_ RCTL_REG) rctl0 -> storage (at_ TCTL_REG) tctl0 ->
  (forall s', loc s' = loc s ->
     added (sets b [TDBAL_REG; TDBAH_REG; TDLEN_REG; TDH_REG; TDT_REG; TCTL_REG; RCTL_REG]) s s' ->
     last_write (at_ TDBAL_REG) (tr s') = Some (u32 (dma_desc r)) ->
     last_write (at_ TDBAH_REG) (tr s') = Some 0 ->
     last_write (at_ TDLEN_REG) (tr s') = Some (u32 (size_desc r)) ->
     last_write (at_ TDH_REG) (tr s') = Some 0 ->
     last_write (at_ TDT_REG) (tr s') = Some 0 ->
     last_write (at_ TCTL_REG) (tr s')
       = Some (u32 (Z.lor (default tctl0 (last_write (at_ TCTL_REG) (tr s)))
                      (Z.lor (Z.lor TCTL_ENABLE TCTL_PAD_PACK) TCTL_CT))) ->
     last_write (at_ RCTL_REG) (tr s')
       = Some (u32 (Z.lor (default rctl0 (last_write (at_ RCTL_REG) (tr s))) RCTL_ENABLE)) ->
     Q tt s') ->
  wpx h (init_send_registers dev) Q s.
Proof.
  intros b at_ r Hd HR HT HQ. unfold init_send_registers. esteps.
  fold b. fold (at_ TDBAL_REG) (at_ TDBAH_REG) (at_ TDLEN_REG) (at_ TDH_REG) (at_ TDT_REG)
    (at_ TCTL_REG) (at_ RCTL_REG). apply HQ; [done|..].
  { destruct s. repeat (apply added_cons; [|first [by left|apply sets_in; simpl; tauto]]).
    apply added_refl. }
  all: rewrite ?HR, ?HT; unfold at_; regs; done.
Qed.

Lemma fills_neutral p n c : fills p n c -> neutral c.
Proof. by destruct c. Qed.

(** A ring is programmed: the five registers from offset [base], and the
    buffer address in each of the 256 descriptors of [sz] bytes. *)
Definition ring_ready (b base sz tail : Z) (r : ring) (t : list (call * Z)) : Prop :=
  last_write (u32 (b + base)) t = Some (u32 (dma_desc r)) /\
  last_write (u32 (b + (base + 4))) t = Some 0 /\
  last_write (u32 (b + (base + 8))) t = Some (u32 (size_desc r)) /\
  last_write (u32 (b + (base + 0x10))) t = Some 0 /\
  last_write (u32 (b + (base + 0x18))) t = Some tail /\
  forall i, 0 <= i < 256 ->
    last_store (descriptors r + i * sz) t = Some (u32 (dma_buff r + i * BUF_SIZE_BY_DESC)).

Definition ring_offsets (base : Z) : list Z :=
  [base; base + 4; base + 8; base + 0x10; base + 0x18].

Lemma ring_ready_keep b base sz tail r t t' :
  ring_ready b base sz tail r t -> 0 < sz -> 256 * sz <= size_desc r ->
  (forall o, In o (ring_offsets base) -> last_write (u32 (b + o)) t' = last_write (u32 (b + o)) t) ->
  (forall a, descriptors r <= a < descriptors r + size_desc r -> last_store a t' = last_store a t) ->
  ring_ready b base sz tail r t'.
Proof.
  intros (H1 & H2 & H3 & H4 & H5 & H6) Hsz Hn Hw Hs. unfold ring_ready.
  repeat split; [rewrite Hw; [done|simpl; tauto]..|].
  intros i Hi. rewrite Hs by nia. by apply H6.
Qed.

(** init_queue: the two halves after their areas exist. *)
Lemma wp_program_recv h dev nd rctl0 r (Q : unit -> state call e1000_state -> Prop) s :
  let b := bar (priv nd) in
  devs (loc s) !! dev = Some nd -> recv (priv nd) = r -> size_desc r = 4096 ->
  In (descriptors r, 4096) (areas (loc s)) -> storage (u32 (b + RCTL_REG)) rctl0 ->
  (forall s', loc s' = loc s ->
     (exists s1, added (fills (descriptors r) 4096) s s1 /\
        added (sets b (RCTL_REG :: ring_offsets RDBAL_REG)) s1 s') ->
     ring_ready b RDBAL_REG 16 255 r (tr s') ->
     last_write (u32 (b + RCTL_REG)) (tr s')
       = Some (u32 (Z.ldiff (default rctl0 (last_write (u32 (b + RCTL_REG)) (tr s)))
                      (Z.lor RCTL_BSIZE RCTL_BSEX))) ->
     Q tt s') ->
  wpx h (init_descriptors dev recv (Z.to_nat NB_RCV_DESC) (sizeof t_recv_desc) recv_address_l ;;
         init_recv_registers dev) Q s.
Proof.
  intros b Hd Hr Hsz Hin HR HQ. estep.
  eapply wp_init_descriptors; [done|rewrite Hr, Hsz; done|rewrite Hr, Hsz; vm_compute; congruence|
    rewrite Hr, Hsz; lia|vm_compute; congruence|vm_compute; congruence|].
  rewrite Hr, Hsz. intros s1 HS1 Ha1 Hd1. cbn beta.
  eapply wp_init_recv_registers; [by rewrite HS1|done|]. fold b. rewrite Hr.
  intros s2 HS2 Ha2 H1 H2 H3 H4 H5 H6.
  assert (added (sets b (RCTL_REG :: ring_offsets RDBAL_REG)) s1 s2) as Ha2'.
  { eapply added_mono; [|exact Ha2]. intros c. apply sets_mono. intros o Ho.
    vm_compute in Ho |- *. tauto. }
  apply HQ; [congruence|by exists s1| |].
  - unfold ring_ready. repeat split; [done..|]. intros i Hi.
    rewrite (sets_last_store _ _ _ _ _ Ha2).
    specialize (Hd1 i Hi). change (sizeof t_recv_desc) with 16 in Hd1.
    change recv_address_l with 0 in Hd1. by rewrite Z.add_0_r in Hd1.
  - by rewrite H6, (fills_last_write _ _ _ _ _ Ha1).
Qed.

Lemma wp_program_send h dev nd rctl0 tctl0 r (Q : unit -> state call e1000_state -> Prop) s :
  let b := bar (priv nd) in
  devs (loc s) !! dev = Some nd -> send (priv nd) = r -> size_desc r = 8192 ->
  In (descriptors r, 8192) (areas (loc s)) ->
  storage (u32 (b + RCTL_REG)) rctl0 -> storage (u32 (b + TCTL_REG)) tctl0 ->
  (forall s', loc s' = loc s ->
     (exists s1, added (fills (descriptors r) 8192) s s1 /\
        added (sets b (RCTL_REG :: TCTL_REG :: ring_offsets TDBAL_REG)) s1 s') ->
     ring_ready b TDBAL_REG 20 0 r (tr s') ->
     last_write (u32 (b + RCTL_REG)) (tr s')
       = Some (u32 (Z.lor (default rctl0 (last_write (u32 (b + RCTL_REG)) (tr s))) RCTL_ENABLE)) ->
     last_write (u32 (b + TCTL_REG)) (tr s')
       = Some (u32 (Z.lor (default tctl0 (last_write (u32 (b + TCTL_REG)) (tr s)))
                      (Z.lor (Z.lor TCTL_ENABLE TCTL_PAD_PACK) TCTL_CT))) ->
     Q tt s') ->
  wpx h (init_descriptors dev send (Z.to_nat NB_SND_DESC) (sizeof t_send_desc) send_address_l ;;
         init_send_registers dev) Q s.
Proof.
  intros b Hd Hr Hsz Hin HR HT HQ. estep.
  eapply wp_init_descriptors; [done|rewrite Hr, Hsz; done|rewrite Hr, Hsz; vm_compute; congruence|
    rewrite Hr, Hsz; lia|vm_compute; congruence|vm_compute; congruence|].
  rewrite Hr, Hsz. intros s1 HS1 Ha1 Hd1. cbn beta.
  eapply wp_init_send_registers; [by rewrite HS1|done..|]. fold b. rewrite Hr.
  intros s2 HS2 Ha2 H1 H2 H3 H4 H5 H6 H7.
  assert (added (sets b (RCTL_REG :: TCTL_REG :: ring_offsets TDBAL_REG)) s1 s2) as Ha2'.
  { eapply added_mono; [|exact Ha2]. intros c. apply sets_mono. intros o Ho.
    vm_compute in Ho |- *. tauto. }
  apply HQ; [congruence|by exists s1| | |].
  - unfold ring_ready. repeat split; [done..|]. intros i Hi.
    rewrite (sets_last_store _ _ _ _ _ Ha2).
    specialize (Hd1 i Hi). change (sizeof t_send_desc) with 20 in Hd1.
    change send_address_l with 0 in Hd1. by rewrite Z.add_0_r in Hd1.
  - by rewrite H7, (fills_last_write _ _ _ _ _ Ha1).
  - by rewrite H6, (fills_last_write _ _ _ _ _ Ha1).
Qed.

(** ** init_queue on every path *)

(** An area of memory that an address of 32 bits reaches. *)
Definition reachable_area (a : Z * Z) : Prop := 0 <= fst a /\ fst a + snd a <= 2 ^ 32.

(** Between [s] and [s'] the driver gains the DMA areas [l] and nothing else. *)
Definition gains (l : list (Z * Z)) (s s' : state call e1000_state) : Prop :=
  areas (loc s') = l ++ areas (loc s) /\
  live_areas (tr s') = l ++ live_areas (tr s) /\ Forall reachable_area l /\
  forall r, held r (tr s') = held r (tr s) +
    match r with RDma p => zlen (List.filter (fun a => fst a =? p) l) | _ => 0 end.

Lemma gains_nil P s s' :
  added P s s' -> (forall c, P c -> neutral c) -> areas (loc s') = areas (loc s) ->
  gains [] s s'.
Proof.
  intros Ha HP E. split; [done|]. split; [by eapply added_live|]. split; [done|].
  intros r. rewrite (added_held _ _ _ _ Ha HP). destruct r; unfold zlen; simpl; lia.
Qed.

Lemma gains_trans l l' s s' s'' : gains l s s' -> gains l' s' s'' -> gains (l' ++ l) s s''.
Proof.
  intros (E1 & L1 & F1 & H1) (E2 & L2 & F2 & H2). split; [by rewrite E2, E1, app_assoc|].
  split; [by rewrite L2, L1, app_assoc|]. split; [by apply Forall_app|].
  intros r. rewrite H2, H1. destruct r; [|lia..].
  unfold zlen. rewrite List.filter_app, length_app. lia.
Qed.

Lemma gains_alloc {L : DmaLaws} c n p S S' t t' :
  areas S' = own p n (areas S) -> 0 < n -> p = u32 (k_ret t' (DmaAllocCoherent c n)) ->
  gains (own p n []) (mkState S t) (mkState S' ((DmaAllocCoherent c n, p) :: t)).
Proof.
  intros E Hn Hp. unfold own in *. unfold gains. cbn [loc tr live_areas].
  destruct (truth p) eqn:Ep; rewrite E; (split; [done|]); (split; [done|]);
    (split; [|intros r]).
  - apply Forall_singleton. pose proof (u32_range (k_ret t' (DmaAllocCoherent c n))).
    split; cbn [fst snd]; [lia|]. rewrite Hp. apply dma_fits; [done|]. rewrite <- Hp.
    by apply truth_true.
  - rewrite (held_acquire r (RDma p)); [|cbn; by rewrite Ep|done].
    destruct (decide (RDma p = r)) as [<-|Hr].
    + rewrite bool_decide_eq_true_2 by done. cbn [List.filter fst]. by rewrite Z.eqb_refl.
    + rewrite bool_decide_eq_false_2 by congruence. destruct r; [|lia..].
      cbn [List.filter fst]. destruct (Z.eqb_spec p p0); [congruence|done].
  - done.
  - rewrite held_neutral; [|cbn; by rewrite Ep|done].
    destruct r; unfold zlen; cbn [List.filter length]; lia.
Qed.

Lemma gains_alloc2 {L : DmaLaws} c n c' m p q S S' t t1 t2 :
  areas S' = own q m (own p n (areas S)) -> 0 < n -> 0 < m ->
  p = u32 (k_ret t1 (DmaAllocCoherent c n)) -> q = u32 (k_ret t2 (DmaAllocCoherent c' m)) ->
  gains (own q m (own p n [])) (mkState S t)
    (mkState S' ((DmaAllocCoherent c' m, q) :: (DmaAllocCoherent c n, p) :: t)).
Proof.
  intros E Hn Hm Hp Hq. replace (own q m (own p n [])) with (own q m [] ++ own p n [])
    by (unfold own; by destruct (truth q)).
  eapply gains_trans; [|by eapply (gains_alloc c' m q (upd_areas (own p n) S))].
  by eapply gains_alloc.
Qed.

Lemma own_length q m p n :
  truth p && truth q = false -> (length (own q m (own p n [])) <= 1)%nat.
Proof. unfold own. destruct (truth q), (truth p); simpl; (done || lia). Qed.

(** The calls of init_queue, when it writes the registers of [l]. *)
Definition queue_call (b : Z) (l : list Z) (c : call) : Prop :=
  sets b l c \/ (exists p n, fills p n c) \/
  (exists p n, c = DmaAllocCoherent p n) \/ exists p m, c = DmaSetMask p m.

Lemma queue_call_last_write b l o s s' :
  added (queue_call b l) s s' -> ~ In o l -> Forall (fun o => 0 <= o < 0x20000) (o :: l) ->
  last_write (u32 (b + o)) (tr s') = last_write (u32 (b + o)) (tr s).
Proof.
  intros H Hn Hl. eapply added_last_write; [done|].
  intros v [Hv|[(?&?&[])|[(?&?&E)|(?&?&E)]]]; [|done..]. by eapply Hn, sets_offset.
Qed.

Lemma queue_call_mono b l l' s s' :
  added (queue_call b l) s s' -> (forall o, In o l -> In o l') -> added (queue_call b l') s s'.
Proof.
  intros H Hl. eapply added_mono; [|exact H]. intros c [?|?]; [left|by right].
  by eapply sets_mono.
Qed.

Lemma queue_call_step b l p n l' s s1 s2 s3 :
  added (queue_call b l) s s1 -> added (fills p n) s1 s2 -> added (sets b l') s2 s3 ->
  (forall o, In o l' -> In o l) -> added (queue_call b l) s s3.
Proof.
  intros H1 H2 H3 Hl. eapply added_trans; [exact H1|]. eapply added_trans.
  - eapply added_mono; [|exact H2]. intros c Hc. right. left. eauto.
  - eapply added_mono; [|exact H3]. intros c Hc. left. by eapply sets_mono.
Qed.

(** A successful init_queue: both rings programmed, transmitter and receiver
    enabled. *)
Definition queues_ready (b rctl tctl : Z) (rr sr : ring) (t : list (call * Z)) : Prop :=
  ring_ready b RDBAL_REG 16 255 rr t /\ ring_ready b TDBAL_REG 20 0 sr t /\
  last_write (u32 (b + RCTL_REG)) t
    = Some (u32 (Z.lor (u32 (Z.ldiff rctl (Z.lor RCTL_BSIZE RCTL_BSEX))) RCTL_ENABLE)) /\
  last_write (u32 (b + TCTL_REG)) t
    = Some (u32 (Z.lor tctl (Z.lor (Z.lor TCTL_ENABLE TCTL_PAD_PACK) TCTL_CT))).

Definition queue_offsets : list Z :=
  RCTL_REG :: TCTL_REG :: ring_offsets RDBAL_REG ++ ring_offsets TDBAL_REG.

(** The outcome of init_queue. *)
Definition init_queue_post (dev : Z) (nd : net_device) (rctl0 tctl0 : Z)
    (s : state call e1000_state) (r : Z) (s' : state call e1000_state) : Prop :=
  let b := bar (priv nd) in
  let old v0 o := default v0 (last_write (u32 (b + o)) (tr s)) in
  (forall o, ~ In o queue_offsets -> 0 <= o < 0x20000 ->
     last_write (u32 (b + o)) (tr s') = last_write (u32 (b + o)) (tr s)) /\
  exists l, gains l s s' /\
  ((r = 0 /\ exists pr dr pb db ps ds pq dq,
     let rr := mkRing pr dr 4096 pb db 4096 in
     let sr := mkRing ps ds 8192 pq dq 524288 in
     l = [(pq, 524288); (ps, 8192); (pb, 4096); (pr, 4096)] /\
     loc s' = setd dev (with_send sr (with_recv rr nd)) (upd_areas (app l) (loc s)) /\
     queues_ready b (old rctl0 RCTL_REG) (old tctl0 TCTL_REG) rr sr (tr s'))
   \/ (r <> 0 /\ (length l <= 3)%nat /\ (forall f a t, tr s' <> (Printk f a, 0) :: t) /\
       (exists rr sr, loc s' = setd dev (with_send sr (with_recv rr nd)) (upd_areas (app l) (loc s))) /\
       last_write (u32 (b + TCTL_REG)) (tr s') = last_write (u32 (b + TCTL_REG)) (tr s))).

Definition recv_offsets : list Z := RCTL_REG :: ring_offsets RDBAL_REG.

Lemma gains_program p n b l s s1 s2 :
  added (fills p n) s s1 -> added (sets b l) s1 s2 -> areas (loc s2) = areas (loc s) ->
  gains [] s s2.
Proof.
  intros H1 H2 E. eapply (gains_nil (fun c => fills p n c \/ sets b l c)); [| |exact E].
  - eapply added_trans; (eapply added_mono; [|eassumption]); auto.
  - intros c [?|?]; [by eapply fills_neutral|by eapply sets_neutral].
Qed.

(** A return before the transmitter is programmed. *)
Lemma init_queue_fails dev nd rctl0 tctl0 s r l s' rr sr :
  r <> 0 -> added (queue_call (bar (priv nd)) recv_offsets) s s' -> gains l s s' ->
  (length l <= 3)%nat -> (forall f a t, tr s' <> (Printk f a, 0) :: t) ->
  loc s' = setd dev (with_send sr (with_recv rr nd)) (upd_areas (app l) (loc s)) ->
  init_queue_post dev nd rctl0 tctl0 s r s'.
Proof.
  intros Hr A G Hl Hp E. split.
  - intros o Ho Hb. eapply queue_call_last_write; [exact A| |].
    + intros Hi. apply Ho. vm_compute in Hi |- *. tauto.
    + constructor; [done|offsets].
  - exists l. split; [done|]. right. split; [done|]. split; [done|]. split; [done|]. split; [eauto|].
    eapply queue_call_last_write; [exact A|offsets..].
Qed.

Lemma recv_in_queue o : In o recv_offsets -> In o queue_offsets.
Proof. vm_compute. tauto. Qed.

(** init_queue from the transmission setup on, the receive ring [rr] being
    programmed. *)
Definition send_half (dev : Z) : M call e1000_state Z :=
  let! ok := init_send_areas dev in
  if negb ok then ret (- ENOMEM) else
  init_descriptors dev send (Z.to_nat NB_SND_DESC) (sizeof t_send_desc) send_address_l ;;
  init_send_registers dev ;;
  e1000_print_status dev ;;
  ret 0.

Lemma wp_send_half {L : DmaLaws} dev nd rctl0 tctl0 rr (Q : Z -> state call e1000_state -> Prop) s :
  let b := bar (priv nd) in
  let old v0 o := default v0 (last_write (u32 (b + o)) (tr s)) in
  devs (loc s) !! dev = Some nd ->
  storage (u32 (b + RCTL_REG)) rctl0 -> storage (u32 (b + TCTL_REG)) tctl0 ->
  ring_ready b RDBAL_REG 16 255 rr (tr s) -> size_desc rr = 4096 ->
  In (descriptors rr, 4096) (live_areas (tr s)) ->
  (forall ps ds pq dq s', let sr := mkRing ps ds 8192 pq dq 524288 in
     loc s' = setd dev (with_send sr nd) (upd_areas (app [(pq, 524288); (ps, 8192)]) (loc s)) ->
     gains [(pq, 524288); (ps, 8192)] s s' -> added (queue_call b queue_offsets) s s' ->
     ring_ready b RDBAL_REG 16 255 rr (tr s') -> ring_ready b TDBAL_REG 20 0 sr (tr s') ->
     last_write (u32 (b + RCTL_REG)) (tr s')
       = Some (u32 (Z.lor (old rctl0 RCTL_REG) RCTL_ENABLE)) ->
     last_write (u32 (b + TCTL_REG)) (tr s')
       = Some (u32 (Z.lor (old tctl0 TCTL_REG) (Z.lor (Z.lor TCTL_ENABLE TCTL_PAD_PACK) TCTL_CT))) ->
     Q 0 s') ->
  (forall l sr s', (length l <= 1)%nat -> (forall f a t, tr s' <> (Printk f a, 0) :: t) -> gains l s s' -> added (queue_call b recv_offsets) s s' ->
     loc s' = setd dev (with_send sr nd) (upd_areas (app l) (loc s)) -> Q (- ENOMEM) s') ->
  wp (send_half dev) Q s.
Proof.
  intros b old Hd HR HT Rr Hsz Hlive HQ HF. unfold send_half. estep.
  eapply wp_init_send_areas; [exact Hd|]. intros ps ds pq dq Eps Epq.
  set (sr := mkRing ps ds 8192 pq dq 524288). set (s1 := mkState _ _).
  assert (gains (own pq 524288 (own ps 8192 [])) s s1) as G1 by (destruct s; by eapply gains_alloc2).
  assert (forall l, added (queue_call b l) s s1) as A1.
  { intros l. do 2 (apply added_cons; [|right; right; left; by repeat eexists]).
    by exists []. }
  destruct (truth ps && truth pq) eqn:Es; esteps.
  2: { eapply (HF _ sr); [by apply own_length|done|exact G1|apply A1|].
       cbn [s1 loc]. f_equal. unfold upd_areas, own. by destruct (truth ps), (truth pq). }
  apply andb_prop in Es as [Es Eq]. unfold own in G1; rewrite Es, Eq in G1. apply wp_assoc.
  eapply (wp_program_send _ _ _ _ _ sr); [apply lookup_setd|done|done| |exact HR|exact HT|].
  { cbn. unfold own. rewrite Es, Eq. simpl. auto. }
  intros s2 HS2 (s1' & F & W) R2 C2 T2. cbn [descriptors sr] in F. change (bar (priv (with_send sr nd))) with b in W, R2, C2, T2.
  estep. eapply wp_print_status; [rewrite HS2; apply lookup_setd|]. intros s3 HS3 A3. esteps.
  assert (added (sets b []) s2 s3) as A3' by (eapply added_mono; [|exact A3]; by left).
  assert (forall o, 0 <= o < 0x20000 ->
    last_write (u32 (b + o)) (tr s3) = last_write (u32 (b + o)) (tr s2)) as K3.
  { intros o Ho. apply (sets_last_write _ _ _ _ _ A3'); [auto|]. by constructor. }
  assert (forall o, ~ In o (RCTL_REG :: TCTL_REG :: ring_offsets TDBAL_REG) ->
    Forall (fun o => 0 <= o < 0x20000) (o :: RCTL_REG :: TCTL_REG :: ring_offsets TDBAL_REG) ->
    last_write (u32 (b + o)) (tr s2) = last_write (u32 (b + o)) (tr s)) as K2.
  { intros o H1 H2. rewrite (sets_last_write _ _ _ _ _ W H1 H2), (fills_last_write _ _ _ _ _ F).
    done. }
  apply (HQ ps ds pq dq).
  - rewrite HS3, HS2. cbn [s1 loc]. f_equal. unfold upd_areas, own. by rewrite Es, Eq.
  - pose proof (gains_program _ _ _ _ _ _ _ F W ltac:(by rewrite HS2)) as G2.
    assert (gains [] s2 s3) as G3
      by (eapply gains_nil; [exact A3|apply looks_neutral|by rewrite HS3]).
    exact (gains_trans _ _ _ _ _ (gains_trans _ _ _ _ _ G1 G2) G3).
  - eapply added_trans; [eapply queue_call_step; [apply A1|exact F|exact W|]|].
    + intros o Ho. vm_compute in Ho |- *. tauto.
    + eapply added_mono; [|exact A3]. intros c Hc. left. by left.
  - eapply ring_ready_keep; [exact Rr|done|rewrite Hsz; done| |].
    + intros o Ho. rewrite K3, K2; [done|..];
        vm_compute in Ho; destruct Ho as [<-|[<-|[<-|[<-|[<-|[]]]]]]; first [offsets|done].
    + intros a Ha. rewrite Hsz in Ha.
      rewrite (sets_last_store _ _ _ _ _ A3'), (sets_last_store _ _ _ _ _ W).
      rewrite (fills_last_store _ _ _ _ _ F); [done|]. destruct (truth_spec ps) as [Hps|]; [|done].
      destruct (dma_disjoint (tr s) (pci (priv nd)) 8192 (descriptors rr) 4096);
        [done|by rewrite <- Eps|done|rewrite <- Eps in *; lia..].
  - eapply ring_ready_keep; [exact R2|done|done| |].
    + intros o Ho. apply K3. vm_compute in Ho.
      destruct Ho as [<-|[<-|[<-|[<-|[<-|[]]]]]]; done.
    + intros a _. apply (sets_last_store _ _ _ _ _ A3').
  - by rewrite K3, C2 by zconst.
  - by rewrite K3, T2 by zconst.
Qed.

Lemma wp_init_queue {L : DmaLaws} dev nd rctl0 tctl0 s :
  let b := bar (priv nd) in
  devs (loc s) !! dev = Some nd ->
  storage (u32 (b + RCTL_REG)) rctl0 -> storage (u32 (b + TCTL_REG)) tctl0 ->
  wp (init_queue dev) (init_queue_post dev nd rctl0 tctl0 s) s.
Proof.
  intros b Hd HR HT. unfold init_queue. esteps.
  set (err := s32 _). set (s1 := mkState _ _).
  assert (gains [] s s1) as G1.
  { eapply (gains_nil (fun c => exists p m, c = DmaSetMask p m));
      [eexists [_]; split; [done|]; by repeat econstructor|by intros c (?&?&->)|done]. }
  assert (added (queue_call b recv_offsets) s s1) as A1.
  { eexists [_]. split; [done|]. constructor; [|constructor]. do 3 right. by repeat eexists. }
  destruct (truth_spec err) as [He|He]; esteps.
  { eapply (init_queue_fails _ _ _ _ _ _ [] _ (recv (priv nd)) (send (priv nd)));
      [done|exact A1|exact G1|simpl; lia|done|].
    cbn. destruct nd as [[] ? ?]. unfold with_send, with_recv, with_priv, upd_recv, upd_send. cbn.
    rewrite setd_id; [by destruct (loc s)|done]. }
  eapply wp_init_recv_areas; [exact Hd|]. intros pr dr pb db Epr Epb.
  set (rr := mkRing pr dr 4096 pb db 4096). set (s2 := mkState _ _).
  assert (gains (own pb 4096 (own pr 4096 [])) s s2) as G2.
  { rewrite <- (app_nil_r (own _ _ _)). eapply gains_trans; [exact G1|]. by eapply gains_alloc2. }
  assert (added (queue_call b recv_offsets) s s2) as A2.
  { do 2 (apply added_cons; [|right; right; left; by repeat eexists]). exact A1. }
  destruct (truth pr && truth pb) eqn:Er; esteps.
  2: { eapply (init_queue_fails _ _ _ _ _ _ _ _ _ (send (priv nd)));
         [done|exact A2|exact G2|pose proof (own_length pb 4096 pr 4096 Er); lia|done|].
       cbn [s2 loc]. f_equal. unfold upd_areas, own. by destruct (truth pb), (truth pr). }
  apply andb_prop in Er as [Er Eb]. unfold own in G2; rewrite Er, Eb in G2. apply wp_assoc.
  eapply (wp_program_recv _ _ _ _ rr);
    [apply lookup_setd|done|done| |exact HR|].
  { cbn. unfold own. rewrite Er, Eb. simpl. auto. }
  intros s3 HS3 (s2' & F2 & W2) R3 C3.
  cbn [descriptors rr] in F2. change (bar (priv (with_recv rr nd))) with b in W2, R3, C3.
  assert (added (queue_call b recv_offsets) s s3) as A3
    by (eapply queue_call_step; [exact A2|exact F2|exact W2|done]).
  pose proof (gains_trans _ _ _ _ _ G2 (gains_program _ _ _ _ _ _ _ F2 W2 ltac:(by rewrite HS3))) as G3.
  assert (last_write (u32 (b + TCTL_REG)) (tr s3) = last_write (u32 (b + TCTL_REG)) (tr s)) as T3
    by (eapply queue_call_last_write; [exact A3|offsets..]).
  eapply (wp_send_half _ (with_recv rr nd)); [rewrite HS3; apply lookup_setd|exact HR|exact HT|
    exact R3|done| | |]; change (bar (priv (with_recv rr nd))) with b.
  - destruct G3 as (_ & -> & _ & _). simpl. auto.
  - intros ps ds pq dq s' sr E G A Rr Rs C T. split.
    + intros o Ho Hb. eapply queue_call_last_write; [|exact Ho|constructor; [done|offsets]].
      eapply added_trans; [|exact A]. eapply queue_call_mono; [exact A3|apply recv_in_queue].
    + eexists. split; [exact (gains_trans _ _ _ _ _ G3 G)|]. left. split; [done|].
      exists pr, dr, pb, db, ps, ds, pq, dq. split; [done|]. split.
      * rewrite E, HS3. unfold upd_areas, own. cbn. unfold own. rewrite Er, Eb.
        unfold setd. cbn. by rewrite insert_insert_eq.
      * unfold queues_ready. fold b. by rewrite C, T, C3, T3.
  - intros l sr s' Hl Hp G A E.
    eapply (init_queue_fails _ _ _ _ _ _ _ _ rr sr); [done|by eapply added_trans|
      exact (gains_trans _ _ _ _ _ G3 G)|rewrite length_app; simpl; lia|done|].
    rewrite E, HS3. cbn. unfold setd, upd_areas, own. cbn. unfold own.
    rewrite Er, Eb, insert_insert_eq, <- app_assoc. done.
Qed.

(** ** Opening a card *)

Definition ims_mask : Z :=
  Z.lor (Z.lor (Z.lor (Z.lor IMS_TXDW IMS_TXQE) IMS_LSC) IMS_RX0) IMS_RXT0.

(** How many of the areas [l] are the resource [x]. *)
Definition dma_count (x : resource) (l : list (Z * Z)) : Z :=
  match x with RDma p => zlen (List.filter (fun a => fst a =? p) l) | _ => 0 end.

(** The registers outside the rings. *)
Definition control_ready (b ctrl : Z) (w : Z -> Z) (t : list (call * Z)) : Prop :=
  last_write (u32 (b + CTRL_REG)) t = Some (u32 (ctrl_after ctrl)) /\
  (forall o, In o [FCAL_REG; FCAH_REG; FCT_REG; FCTTV_REG] -> last_write (u32 (b + o)) t = Some 0) /\
  (forall i, 0 <= i < 128 -> last_write (u32 (b + (MTA_REG + i))) t = Some 0) /\
  last_write (u32 (b + RAL_REG)) t = Some (Z.lor (w 0) (Z.shiftl (w 1) 16)) /\
  last_write (u32 (b + RAH_REG)) t = Some (Z.lor (w 2) RAH_AV).

(** What e1000_open leaves: the card programmed and started, or an error with
    the areas [l] of the rings still held and the device not started. *)
Definition open_post (dev : Z) (nd : net_device) (w : Z -> Z) (ctrl rctl tctl : Z)
    (s : state call e1000_state) (r : Z) (s' : state call e1000_state) : Prop :=
  let b := bar (priv nd) in
  let mac := mac_of w ++ drop 6 (mac_address (loc s)) in
  let nd' := mkDev (priv nd) (netdev_ops nd) true in
  control_ready b ctrl w (tr s') /\
  exists l rr sr,
    loc s' = setd dev (with_send sr (with_recv rr nd')) (upd_areas (app l) (upd_mac mac (loc s))) /\
    ((r = 0 /\ (exists pr dr pb db ps ds pq dq,
        rr = mkRing pr dr 4096 pb db 4096 /\ sr = mkRing ps ds 8192 pq dq 524288 /\
        l = [(pq, 524288); (ps, 8192); (pb, 4096); (pr, 4096)]) /\
      Forall reachable_area l /\ queues_ready b (u32 (Z.lor rctl RCTL_MPE)) tctl rr sr (tr s') /\
      last_write (u32 (b + IMS_REG)) (tr s') = Some ims_mask /\
      (exists t, tr s' = (NetifStartQueue dev, 0) :: t) /\
      forall x, held x (tr s') = held x (tr s) + dma_count x l + hold1 (RIrq dev) x)
    \/ (r <> 0 /\
        ((length l <= 3)%nat /\ (forall f a t, tr s' <> (Printk f a, 0) :: t) \/
         (length l = 4%nat /\ exists t, tr s' = (Printk "Not registered interrupt\n" [], 0)
                                  :: (RequestIrq (irq (priv nd)) dev, r) :: t)) /\
        (forall x, held x (tr s') = held x (tr s) + dma_count x l))).

Lemma control_ready_keep b ctrl w t t' :
  (forall o, ~ In o (IMS_REG :: queue_offsets) -> 0 <= o < 0x20000 ->
     last_write (u32 (b + o)) t' = last_write (u32 (b + o)) t) ->
  control_ready b ctrl w t -> control_ready b ctrl w t'.
Proof.
  intros Hk (H1 & H2 & H3 & H4 & H5). unfold control_ready.
  rewrite !Hk by (offsets || done). repeat split; try done.
  - intros o Ho. rewrite Hk; [by apply H2|..];
      simpl in Ho; destruct Ho as [<-|[<-|[<-|[<-|[]]]]]; (offsets || done).
  - intros i Hi. rewrite Hk; [by apply H3| |unfold MTA_REG; lia].
    assert (Forall (fun o => o < MTA_REG) (IMS_REG :: queue_offsets)) as F
      by (apply (bool_decide_eq_true_1 _); vm_compute; reflexivity).
    rewrite Forall_forall in F. intros Hin%list_elem_of_In%F. lia.
Qed.

Lemma wp_init_hw_setup h fuel dev nd w ctrl0 rctl0 rah0 (Q : unit -> state call e1000_state -> Prop) s :
  let b := bar (priv nd) in
  let old v0 o := default v0 (last_write (u32 (b + o)) (tr s)) in
  card (loc s) = dev -> devs (loc s) !! dev = Some nd ->
  eeprom_holds fuel b w -> zlen (mac_address (loc s)) = 32 ->
  storage (u32 (b + CTRL_REG)) ctrl0 -> storage (u32 (b + RCTL_REG)) rctl0 ->
  storage (u32 (b + RAH_REG)) rah0 ->
  (forall s',
     loc s' = setd dev (mkDev (priv nd) (netdev_ops nd) true)
                (upd_mac (mac_of w ++ drop 6 (mac_address (loc s))) (loc s)) ->
     added neutral s s' ->
     control_ready b (old ctrl0 CTRL_REG) w (tr s') ->
     last_write (u32 (b + RCTL_REG)) (tr s') = Some (u32 (Z.lor (old rctl0 RCTL_REG) RCTL_MPE)) ->
     last_write (u32 (b + TCTL_REG)) (tr s') = last_write (u32 (b + TCTL_REG)) (tr s) ->
     Q tt s') ->
  wpx h (init_hw_setup fuel dev) Q s.
Proof.
  intros b old Hc Hd Hw Hl HC HR HA HQ. unfold init_hw_setup. esteps.
  eapply wp_print_status; [exact Hd|]. intros s1 HS1 A1. estep.
  eapply wp_init_registers; [by rewrite HS1|exact HC|]. fold b. intros s2 HS2 A2 C2 F2 M2.
  esteps. eapply wp_print_status; [by rewrite HS2, HS1|]. intros s3 HS3 A3. esteps.
  eapply wp_set_mac_address; [cbn; by rewrite HS3, HS2, HS1|cbn; by rewrite HS3, HS2, HS1|exact Hw|
    cbn; by rewrite HS3, HS2, HS1|exact HR|exact HA|]. fold b. cbn [loc tr].
  intros s4 HS4 A4 RAL4 RAH4 RCTL4.
  assert (added looks s s1) as A1'.
  { destruct A1 as (l & E & Hn). exists (l ++ [(Printk "Inititalize HW\n" [], 0)]).
    rewrite E, <- app_assoc. split; [done|]. apply Forall_app. split; [done|]. by repeat constructor. }
  assert (added looks s2 (mkState (loc s3) ((Printk "Set mac address\n" [], 0) :: tr s3))) as A3'.
  { apply added_cons; [|done]. eapply added_trans; [|exact A3]. apply added_cons; [|done].
    by exists []. }
  assert (forall o, ~ In o mac_offsets -> Forall (fun o => 0 <= o < 0x20000) (o :: mac_offsets) ->
    last_write (u32 (b + o)) (tr s4) = last_write (u32 (b + o)) (tr s2)) as K4.
  { intros o H1 H2. rewrite (sets_last_write _ _ _ _ _ A4 H1 H2).
    exact (looks_last_write _ _ _ A3'). }
  assert (forall o, ~ In o init_offsets -> Forall (fun o => 0 <= o < 0x20000) (o :: init_offsets) ->
    last_write (u32 (b + o)) (tr s2) = last_write (u32 (b + o)) (tr s)) as K2.
  { intros o H1 H2. rewrite (sets_last_write _ _ _ _ _ A2 H1 H2).
    exact (looks_last_write _ _ _ A1'). }
  assert (last_write (u32 (b + CTRL_REG)) (tr s1) = last_write (u32 (b + CTRL_REG)) (tr s))
    as K1 by exact (looks_last_write _ _ _ A1').
  apply HQ.
  - by rewrite HS4, HS3, HS2, HS1.
  - eapply added_trans; [eapply added_mono; [|exact A1']; apply looks_neutral|].
    eapply added_trans; [eapply added_mono; [|exact A2]; apply sets_neutral|].
    eapply added_trans; [eapply added_mono; [|exact A3']; apply looks_neutral|].
    eapply added_mono; [|exact A4]. apply sets_neutral.
  - split; [rewrite K4, C2 by offsets; by rewrite K1|]. split.
    { intros o Ho. rewrite K4; [by apply F2|..];
        simpl in Ho; destruct Ho as [<-|[<-|[<-|[<-|[]]]]]; offsets. }
    split; [|split; [exact RAL4|exact RAH4]].
    intros i Hi. rewrite K4; [by apply M2|..].
    + unfold MTA_REG. simpl. unfold EEPROM_READ, RAL_REG, RAH_REG, RCTL_REG. lia.
    + constructor; [unfold MTA_REG; lia|offsets].
  - rewrite RCTL4. unfold old. rewrite <- K2 by offsets.
    by rewrite <- (looks_last_write _ _ _ A3').
  - rewrite K4 by offsets. by rewrite K2 by offsets.
Qed.

(** The state of the hardware and of the driver before a card is opened. *)
Definition openable (fuel : nat) (dev : Z) (nd : net_device) (w : Z -> Z) (ctrl0 rctl0 tctl0 rah0 : Z)
    (s : state call e1000_state) : Prop :=
  let b := bar (priv nd) in
  card (loc s) = dev /\ devs (loc s) !! dev = Some nd /\ zlen (mac_address (loc s)) = 32 /\
  eeprom_holds fuel b w /\
  storage (u32 (b + CTRL_REG)) ctrl0 /\ storage (u32 (b + RCTL_REG)) rctl0 /\
  storage (u32 (b + TCTL_REG)) tctl0 /\ storage (u32 (b + RAH_REG)) rah0.

Lemma queues_ready_keep b rctl tctl rr sr t t' :
  queues_ready b rctl tctl rr sr t -> size_desc rr = 4096 -> size_desc sr = 8192 ->
  (forall o, In o queue_offsets -> last_write (u32 (b + o)) t' = last_write (u32 (b + o)) t) ->
  (forall a, last_store a t' = last_store a t) ->
  queues_ready b rctl tctl rr sr t'.
Proof.
  intros (H1 & H2 & H3 & H4) Hr Hs Hw Hm. split; [|split; [|split]].
  - eapply ring_ready_keep; [exact H1|done|by rewrite Hr| |by intros; apply Hm].
    intros o Ho. apply Hw. vm_compute in Ho |- *. tauto.
  - eapply ring_ready_keep; [exact H2|done|by rewrite Hs| |by intros; apply Hm].
    intros o Ho. apply Hw. vm_compute in Ho |- *. tauto.
  - rewrite Hw; [done|]. by left.
  - rewrite Hw; [done|]. right. by left.
Qed.

(** init_interrupt: the interrupts are unmasked when the line was obtained. *)
Lemma wp_init_interrupt h dev nd (Q : Z -> state call e1000_state -> Prop) s :
  let b := bar (priv nd) in
  let frame (s' : state call e1000_state) := loc s' = loc s /\
    (forall o, o <> IMS_REG -> 0 <= o < 0x20000 ->
       last_write (u32 (b + o)) (tr s') = last_write (u32 (b + o)) (tr s)) /\
    (forall a, last_store a (tr s') = last_store a (tr s)) in
  devs (loc s) !! dev = Some nd ->
  (forall s', frame s' -> last_write (u32 (b + IMS_REG)) (tr s') = Some ims_mask ->
     (forall x, held x (tr s') = held x (tr s) + hold1 (RIrq dev) x) -> Q 0 s') ->
  (forall r s', r <> 0 -> frame s' -> (forall x, held x (tr s') = held x (tr s)) ->
     (exists t, tr s' = (Printk "Not registered interrupt\n" [], 0)
                          :: (RequestIrq (irq (priv nd)) dev, r) :: t) -> Q r s') ->
  wpx h (init_interrupt dev) Q s.
Proof.
  intros b frame Hd HQ HF. unfold init_interrupt. esteps. set (rt := s32 _).
  destruct (truth rt) eqn:Er; cbn [negb]; esteps.
  - apply HF; [by destruct (truth_spec rt)|done| |by eexists]. intros x.
    cbn [tr]. by rewrite !held_neutral by (cbn; by rewrite ?Er).
  - fold b. destruct (truth_spec rt) as [|E]; [done|]. assert (rt = 0) as -> by lia.
    apply HQ; [split; [done|split; [|done]]| |].
    + intros o Ho Hb. cbn [tr last_write]. rewrite reg_eqb by (done || zconst).
      by destruct (Z.eqb_spec IMS_REG o).
    + regs. done.
    + intros x. cbn [tr]. rewrite held_neutral by done.
      by rewrite (held_acquire x (RIrq dev)), held_neutral.
Qed.

Lemma queue_offsets_range o : In o queue_offsets -> 0 <= o < 0x20000 /\ o <> IMS_REG.
Proof.
  assert (Forall (fun o => 0 <= o < 0x20000 /\ o <> IMS_REG) queue_offsets) as F
    by (apply (bool_decide_eq_true_1 _); vm_compute; reflexivity).
  rewrite Forall_forall in F. intros H%list_elem_of_In. by apply F.
Qed.

Lemma wp_e1000_open {L : DmaLaws} fuel dev nd w ctrl0 rctl0 tctl0 rah0 s :
  let old v0 o := default v0 (last_write (u32 (bar (priv nd) + o)) (tr s)) in
  openable fuel dev nd w ctrl0 rctl0 tctl0 rah0 s ->
  wp (e1000_open fuel dev)
    (open_post dev nd w (old ctrl0 CTRL_REG) (old rctl0 RCTL_REG) (old tctl0 TCTL_REG) s) s.
Proof.
  intros old (Hc & Hd & Hl & Hw & HC & HR & HT & HA). unfold e1000_open, init_hw. esteps.
  eapply wp_init_hw_setup; [done..|]. cbn [loc tr]. intros s1 HS1 A1 C1 R1 T1. esteps.
  eapply wp_mono.
  { eapply wp_init_queue; [cbn; rewrite HS1; apply lookup_setd|exact HR|exact HT]. }
  intros r s2 (K2 & l & (GA & _ & GF & GH) & H2). cbn [loc tr priv last_write] in *.
  assert (forall x, held x (tr s2) = held x (tr s) + dma_count x l) as H.
  { intros x. rewrite GH, held_neutral by done. rewrite (added_held _ x _ _ A1) by auto.
    cbn [tr]. by rewrite held_neutral. }
  assert (control_ready (bar (priv nd)) (old ctrl0 CTRL_REG) w (tr s2)) as C2.
  { eapply control_ready_keep; [|exact C1]. intros o Ho Hb. apply K2; [|done].
    intros Hi. apply Ho. by right. }
  destruct H2 as [(-> & pr & dr & pb & db & ps & ds & pq & dq & El & EL & Q2)|(Hr & Hlen & Hp & (rr & sr & EL) & _)].
  2: { destruct (truth_spec r); [|done]. esteps. destruct (truth_spec r); [|done]. esteps.
       split; [done|]. exists l, rr, sr. split; [by rewrite EL, HS1; unfold setd; cbn; rewrite insert_insert_eq|].
       right. split; [done|]. split; [by left|done]. }
  change (truth 0) with false. cbv iota. esteps. eapply (wp_init_interrupt _ _ (with_send
    (mkRing ps ds 8192 pq dq 524288) (with_recv (mkRing pr dr 4096 pb db 4096)
      (mkDev (priv nd) (netdev_ops nd) true)))); [cbn; rewrite EL; apply lookup_setd|..];
    cbn [loc tr]; change (bar (priv (with_send _ _))) with (bar (priv nd)).
  - intros s3 (HS3 & K3 & M3) I3 H3. esteps. split; [|exists l; do 2 eexists; split].
    + eapply control_ready_keep; [|exact C2]. intros o Ho Hb. cbn [last_write tr].
      rewrite K3; [done| |done]. intros ->. apply Ho. by left.
    + rewrite HS3, EL, HS1. unfold setd. cbn. by rewrite insert_insert_eq.
    + left. split; [done|]. split; [by repeat eexists|]. split; [exact GF|]. split; [|split; [exact I3|split; [by eexists|]]].
      * rewrite R1 in Q2. rewrite T1 in Q2.
        eapply queues_ready_keep; [exact Q2|done|done| |exact M3].
        intros o [Hb Hi]%queue_offsets_range. by apply K3.
      * intros x. cbn [tr]. rewrite !held_neutral by done. rewrite H3, held_neutral by done.
        by rewrite H.
  - intros r s3 Hr (HS3 & K3 & M3) H3 [t Et]. destruct (truth_spec r); [|done]. esteps.
    destruct (truth_spec r); [|done]. esteps. split; [|exists l; do 2 eexists; split].
    + eapply control_ready_keep; [|exact C2]. intros o Ho Hb. cbn [last_write tr].
      rewrite K3; [done| |done]. intros ->. apply Ho. by left.
    + rewrite HS3, EL, HS1. unfold setd. cbn. by rewrite insert_insert_eq.
    + right. split; [done|]. split; [right; split; [by subst l|by eexists]|].
      intros x. rewrite H3, held_neutral by done. by rewrite H.
Qed.

(** ** Closing a card *)

Definition without (p : Z) : list (Z * Z) -> list (Z * Z) :=
  List.filter (fun a => negb (fst a =? p)).

Lemma wp_dma_free h c n p dma (Q : unit -> state call e1000_state -> Prop) s :
  Q tt (mkState (upd_areas (without p) (loc s)) ((DmaFreeCoherent c n p dma, 0) :: tr s)) ->
  wpx h (dma_free_coherent c n p dma) Q s.
Proof. intros HQ. unfold dma_free_coherent. by steps. Qed.

Lemma wp_e1000_close h dev nd rctl0 tctl0 (Q : Z -> state call e1000_state -> Prop) s :
  let b := bar (priv nd) in
  let rr := recv (priv nd) in
  let sr := send (priv nd) in
  let old v0 o := default v0 (last_write (u32 (b + o)) (tr s)) in
  devs (loc s) !! dev = Some nd ->
  storage (u32 (b + RCTL_REG)) rctl0 -> storage (u32 (b + TCTL_REG)) tctl0 ->
  (forall s',
     loc s' = upd_areas (fun l => without (buff sr) (without (descriptors sr)
                (without (buff rr) (without (descriptors rr) l)))) (loc s) ->
     last_write (u32 (b + CTRL_REG)) (tr s') = Some CTRL_RST ->
     last_write (u32 (b + RCTL_REG)) (tr s')
       = Some (u32 (Z.land (old rctl0 RCTL_REG) (Z.lnot RCTL_ENABLE))) ->
     last_write (u32 (b + TCTL_REG)) (tr s')
       = Some (u32 (Z.land (old tctl0 TCTL_REG) (Z.lnot TCTL_ENABLE))) ->
     (forall x, held x (tr s') = held x (tr s) - hold1 (RIrq dev) x
        - hold1 (RDma (descriptors rr)) x - hold1 (RDma (buff rr)) x
        - hold1 (RDma (descriptors sr)) x - hold1 (RDma (buff sr)) x) ->
     Q 0 s') ->
  wpx h (e1000_close dev) Q s.
Proof.
  intros b rr sr old Hd HR HT HQ.
  unfold e1000_close, uninit_hw, uninit_interrupt, uninit_queue. esteps.
  do 4 (apply wp_dma_free; cbn [loc tr]; esteps). fold b rr sr.
  apply HQ; [done|by regs| | |].
  - rewrite HR. by regs.
  - rewrite HT. by regs.
  - intros x. cbn [tr]. rewrite held_neutral by done.
    do 4 (erewrite held_release by done). do 5 rewrite held_neutral by done.
    erewrite held_release by done. rewrite !held_neutral by done. unfold hold1. lia.
Qed.

Lemma dma_count_cons x p n l : dma_count x ((p, n) :: l) = hold1 (RDma p) x + dma_count x l.
Proof.
  unfold hold1. destruct x as [q| | | | | |]; [|by rewrite bool_decide_eq_false_2..].
  cbn [dma_count List.filter fst]. destruct (Z.eqb_spec p q) as [->|].
  - rewrite bool_decide_eq_true_2 by done. unfold zlen. cbn [length]. lia.
  - by rewrite bool_decide_eq_false_2 by congruence.
Qed.
End Init.
