(* ===== verification/E1000Spec.v ===== *)
(** * The e1000 driver: the properties of opening and closing a card

    The theorems, with a reference card and allocator on which each of them is
    run. *)

From S2P Require Import Prelude CMonad LinuxApi E1000 E1000Card E1000Init.

(** ** A reference environment

    A card at [b] whose registers store what is written, whose EEPROM holds
    three words, an allocator that never reuses an address and an interrupt
    line that answers [irq_err]. *)

Definition eeprom_word (i : Z) : Z := nth (Z.to_nat i) [0x5452; 0x1200; 0x5634] 0.

Definition top (l : list (Z * Z)) : Z := foldr (fun a m => Z.max (fst a + snd a) m) 0x100000 l.

Definition card_kernel (b irq_err : Z) : Kernel call := {|
  k_ret t c :=
    match c with
    | Readl a =>
        if a =? u32 (b + EEPROM_READ)
        then match last_write a t with
             | Some v => Z.lor (Z.shiftl (eeprom_word (Z.shiftr v 8)) 16) 0x10
             | None => 0x10
             end
        else default 0 (last_write a t)
    | DmaAllocCoherent _ n =>
        let q := top (live_areas t) in if q + n <=? 2 ^ 32 then q else 0
    | RequestIrq _ _ => irq_err
    | AllocEtherdev => 0x1000
    | PciIoremapBar _ _ => b
    | PciIrq _ => 11
    | _ => 0
    end;
  k_out t c i :=
    match c with
    | DmaAllocCoherent _ _ => top (live_areas t)
    | _ => 0
    end
|}.

Lemma top_above l p n : In (p, n) l -> p + n <= top l.
Proof.
  induction l as [|[p' n'] l IH]; [done|]. intros [[= -> ->]|H]; cbn [top foldr fst snd]; [lia|].
  apply IH in H. fold (top l). lia.
Qed.

Lemma top_low l : 0x100000 <= top l.
Proof. induction l as [|a l IH]; [done|]. cbn [top foldr]. fold (top l). lia. Qed.

Lemma card_dma_laws b e : @DmaLaws (card_kernel b e).
Proof.
  split; intros t c n; intros; pose proof (top_low (live_areas t)) as Hl;
    cbn [k_ret card_kernel] in *; destruct (Z.leb_spec (top (live_areas t) + n) (2 ^ 32));
    try done; change (2 ^ 32) with 4294967296 in *.
  - unfold p. rewrite u32_id by lia. done.
  - right. unfold q. rewrite u32_id by lia. by eapply top_above.
Qed.

Lemma card_storage b e o :
  0 <= o < 0x20000 -> o <> EEPROM_READ -> @storage (card_kernel b e) (u32 (b + o)) 0.
Proof.
  intros Ho Hn t. cbn [k_ret card_kernel]. rewrite reg_eqb by (done || zconst).
  destruct (Z.eqb_spec o EEPROM_READ); [done|].
  assert (forall v, last_write (u32 (b + o)) t = Some v -> u32 v = v) as H.
  { induction t as [|[c r] t IH]; [done|]. intros v. cbn [last_write].
    destruct c; try apply IH. case_match; [|apply IH]. intros [= <-]. apply u32_idem. }
  destruct (last_write (u32 (b + o)) t); [by apply H|done].
Qed.

Lemma card_eeprom b e : @eeprom_holds (card_kernel b e) 1 b eeprom_word.
Proof.
  intros t i Hi Hw. cbn [eeprom_poll k_ret card_kernel]. rewrite Z.eqb_refl, Hw.
  assert (i = 0 \/ i = 1 \/ i = 2) as [->|[->| ->]] by lia; eexists; done.
Qed.

(** One probed card at [0xF0000000]. *)
Definition card_state : state call e1000_state :=
  mkState (mkE 0x1000 (replicate 32 0)
    {[ 0x1000 := mkDev (mkData 5 0x1000 0xF0000000 11 0 ring0 ring0) true false ]} []) [].

Definition card_dev : net_device := mkDev (mkData 5 0x1000 0xF0000000 11 0 ring0 ring0) true false.

Lemma card_openable e :
  @openable (card_kernel 0xF0000000 e) 1 0x1000 card_dev eeprom_word 0 0 0 0 card_state.
Proof.
  split; [done|]. split; [reflexivity|]. split; [reflexivity|].
  split; [apply card_eeprom|]. split; [|split; [|split]]; by apply card_storage.
Qed.

Lemma cleared v c : Z.land (u32 (Z.land v (Z.lnot c))) c = 0.
Proof.
  zbits i Hi. rewrite Z.bits_0. by destruct (i <? 32), (Z.testbit v i), (Z.testbit c i).
Qed.

(** ** The properties *)

(** C1: For any environment whose allocator gives disjoint areas, whose card
    keeps CTRL, RCTL, TCTL and RAH and whose EEPROM answers within the fuel,
    e1000_open completes without a fault: it sets and clears the bits of
    CTRL, zeroes flow control and the multicast table, programs the MAC
    address of the EEPROM words, and either returns 0 with both rings of 256
    descriptors in memory and in the registers, transmitter and receiver
    enabled, interrupts unmasked, the queue started, the four areas and the
    interrupt held; or returns the error, holding what it had allocated. *)
Theorem e1000_open_programs_card {K : Kernel call} {Al : AlignMacro} {L : DmaLaws}
    fuel dev nd w ctrl0 rctl0 tctl0 rah0 s :
  let old v0 o := default v0 (last_write (u32 (bar (priv nd) + o)) (tr s)) in
  openable fuel dev nd w ctrl0 rctl0 tctl0 rah0 s ->
  wp (e1000_open fuel dev)
    (open_post dev nd w (old ctrl0 CTRL_REG) (old rctl0 RCTL_REG) (old tctl0 TCTL_REG) s) s.
Proof. intros old H. by eapply wp_e1000_open. Qed.

Example e1000_open_programs_card_witness :
  let K := card_kernel 0xF0000000 0 in let Al := round_up in
  wp (e1000_open 1 0x1000) (open_post 0x1000 card_dev eeprom_word 0 0 0 card_state) card_state.
Proof.
  intros K Al. pose (card_dma_laws 0xF0000000 0) as L.
  exact (e1000_open_programs_card 1 0x1000 card_dev eeprom_word 0 0 0 0 card_state
    (card_openable 0)).
Defined.

(** C32: Opening a card and, if that succeeded, closing it leaves every
    kernel resource held exactly as often as before, and the card reset with
    receiver and transmitter disabled. *)
Theorem e1000_open_close_balanced {K : Kernel call} {Al : AlignMacro} {L : DmaLaws}
    fuel dev nd w ctrl0 rctl0 tctl0 rah0 s :
  let b := bar (priv nd) in
  openable fuel dev nd w ctrl0 rctl0 tctl0 rah0 s ->
  wp (let! r := e1000_open fuel dev in if truth r then ret r else e1000_close dev)
    (fun r s' => r = 0 ->
       (forall x, held x (tr s') = held x (tr s)) /\
       last_write (u32 (b + CTRL_REG)) (tr s') = Some CTRL_RST /\
       exists rctl tctl,
         last_write (u32 (b + RCTL_REG)) (tr s') = Some rctl /\ Z.land rctl RCTL_ENABLE = 0 /\
         last_write (u32 (b + TCTL_REG)) (tr s') = Some tctl /\ Z.land tctl TCTL_ENABLE = 0) s.
Proof.
  intros b Ho. estep. eapply wp_mono; [by eapply wp_e1000_open|].
  intros r s1 (_ & l & rr & sr & E & H). destruct Ho as (_ & Hd & _ & _ & _ & HR & HT & _).
  destruct H as [(-> & (pr & dr & pb & db & ps & ds & pq & dq & -> & -> & ->) & _ & _ & _ & _ & H)|(Hr & _)].
  2: { destruct (truth_spec r); [|done]. esteps. intros ->. done. }
  change (truth 0) with false. cbv iota.
  eapply wp_e1000_close; [rewrite E; apply lookup_setd|exact HR|exact HT|].
  intros s2 _ HC HRC HTC HH _. split; [|split; [exact HC|]].
  - intros x. rewrite HH, H, !dma_count_cons.
    assert (dma_count x [] = 0) by (by destruct x).
    cbn -[hold1 dma_count held Z.add Z.sub]. lia.
  - do 2 eexists. split; [exact HRC|]. split; [|split; [exact HTC|]]; apply cleared.
Qed.

Example e1000_open_close_balanced_witness :
  let K := card_kernel 0xF0000000 0 in let Al := round_up in
  wp (let! r := e1000_open 1 0x1000 in if truth r then ret r else e1000_close 0x1000)
    (fun r s' => r = 0 -> (forall x, held x (tr s') = held x (tr card_state)) /\
       last_write (u32 (bar (priv card_dev) + CTRL_REG)) (tr s') = Some CTRL_RST /\
       exists rctl tctl,
         last_write (u32 (bar (priv card_dev) + RCTL_REG)) (tr s') = Some rctl /\
         Z.land rctl RCTL_ENABLE = 0 /\
         last_write (u32 (bar (priv card_dev) + TCTL_REG)) (tr s') = Some tctl /\
         Z.land tctl TCTL_ENABLE = 0) card_state.
Proof.
  intros K Al. pose (card_dma_laws 0xF0000000 0) as L.
  exact (e1000_open_close_balanced 1 0x1000 card_dev eeprom_word 0 0 0 0 card_state
    (card_openable 0)).
Defined.

(** When e1000_open fails because the interrupt line is refused it
    returns the error with the four DMA areas of the rings still held. *)
Theorem e1000_open_irq_failure_leaks {K : Kernel call} {Al : AlignMacro} {L : DmaLaws}
    fuel dev nd w ctrl0 rctl0 tctl0 rah0 s :
  openable fuel dev nd w ctrl0 rctl0 tctl0 rah0 s ->
  wp (e1000_open fuel dev) (fun r s' =>
    forall t, tr s' = (Printk "Not registered interrupt\n" [], 0) :: t ->
      r <> 0 /\ exists l, length l = 4%nat /\ areas (loc s') = l ++ areas (loc s) /\
        forall x, held x (tr s') = held x (tr s) + dma_count x l) s.
Proof.
  intros H. eapply wp_mono; [by eapply wp_e1000_open|].
  intros r s' (_ & l & rr & sr & E & [(_ & _ & _ & _ & _ & [t' Et] & _)|(Hr & Hl & HH)]) t Ht.
  - by rewrite Et in Ht.
  - split; [done|]. exists l. split; [|split; [by rewrite E|done]].
    destruct Hl as [[_ Hp]|[Hl _]]; [by apply Hp in Ht|done].
Qed.

Example e1000_open_irq_failure_leaks_witness :
  let K := card_kernel 0xF0000000 (-16) in let Al := round_up in
  exists s', e1000_open 1 0x1000 card_state = Ok (-16) s' /\
    exists l, length l = 4%nat /\ areas (loc s') = l ++ areas (loc card_state) /\
      forall x, held x (tr s') = held x (tr card_state) + dma_count x l.
Proof.
  intros K Al. pose (card_dma_laws 0xF0000000 (-16)) as L.
  pose proof (e1000_open_irq_failure_leaks 1 0x1000 card_dev eeprom_word 0 0 0 0 card_state
    (card_openable (-16))) as H.
  assert (match e1000_open 1 0x1000 card_state with
          | Ok r s' => r = -16 /\
              head (tr s') = Some (Printk "Not registered interrupt\n" [], 0)
          | _ => False end) as Ho by (vm_compute; split; reflexivity).
  unfold wpx in H. destruct (e1000_open 1 0x1000 card_state) as [r s'| |]; try done.
  destruct Ho as [-> Ht]. exists s'. split; [reflexivity|].
  destruct (tr s') as [|e t] eqn:Et; [done|]. injection Ht as ->.
  exact (proj2 (H t eq_refl)).
Defined.
