(* ===== verification/E1000Traffic.v ===== *)
(** * The e1000 driver: packets

    Transmission fills the slot of the tail and advances the tail register
    around the ring; reception takes the packet of the slot after the tail. *)

From S2P Require Import Prelude CMonad LinuxApi E1000 E1000Card E1000Init E1000Spec.

(** The bytes last copied to a DMA address. *)
Fixpoint last_copy (a : Z) (t : list (call * Z)) : option bytes :=
  match t with
  | [] => None
  | (DmaCopyIn a' b, _) :: t => if a' =? a then Some b else last_copy a t
  | _ :: t => last_copy a t
  end.

(** The send ring of an open card. *)
Definition send_open (sr : ring) (l : list (Z * Z)) : Prop :=
  In (descriptors sr, 8192) l /\ In (buff sr, 524288) l /\
  0 <= descriptors sr /\ descriptors sr + 8192 <= 2 ^ 32 /\
  0 <= buff sr /\ buff sr + 524288 <= 2 ^ 32.

(** A packet for one slot of the ring. *)
Definition sendable (skb : sk_buff) : Prop :=
  nr_frags skb = 0 /\ 0 <= skb_len skb <= BUF_SIZE_BY_DESC /\ skb_len skb <= zlen (skb_data skb).

Definition packet (skb : sk_buff) : bytes := take (Z.to_nat (skb_len skb)) (skb_data skb).

Section Traffic.
Context {K : Kernel call} {Al : AlignMacro}.
Implicit Types (s : state call e1000_state) (nd : net_device).

(** What a transmission from tail [t] adds to the trace. *)
Definition xmit_calls (b : Z) (sr : ring) (t : Z) (skb : sk_buff) : list (call * Z) :=
  let desc := descriptors sr + t * 20 in
  [ (Writel ((t + 1) mod 256) (u32 (b + TDT_REG)), 0);
    (DmaStore (desc + 13) 1 0, 0);
    (DmaStore (desc + 12) 1 11, 0);
    (DmaStore (desc + 8) 2 (skb_len skb), 0);
    (Printk "Transmit:\n\tTail: %i\n\tLen: %i\n" [PInt t; PInt (skb_len skb)], 0);
    (DmaCopyIn (buff sr + t * BUF_SIZE_BY_DESC) (packet skb), 0);
    (Readl (u32 (b + TDT_REG)), t);
    (Printk "e1000_start_xmit called\n" [], 0) ].

Lemma wp_start_xmit h dev nd skb t (Q : Z -> state call e1000_state -> Prop) s :
  let b := bar (priv nd) in
  let sr := send (priv nd) in
  devs (loc s) !! dev = Some nd -> sendable skb -> send_open sr (areas (loc s)) ->
  u32 (k_ret ((Printk "e1000_start_xmit called\n" [], 0) :: tr s) (Readl (u32 (b + TDT_REG)))) = t ->
  0 <= t < 256 ->
  Q 0 (mkState (loc s) (xmit_calls b sr t skb ++ tr s)) ->
  wpx h (e1000_start_xmit skb dev) Q s.
Proof.
  intros b sr Hd (Hf & Hl & Hz) (Hp & Hq & P1 & P2 & Q1 & Q2) Ht Hr HQ.
  unfold e1000_start_xmit. change (2 ^ 32) with 4294967296 in *. unfold BUF_SIZE_BY_DESC in *.
  rewrite Hf. change (truth 0) with false. cbv iota. esteps. fold b sr. rewrite Ht.
  change (sizeof t_send_desc) with 20. change send_length with 8.
  change send_command with 12. change send_status with 13.
  rewrite (u32_id (descriptors sr + _)), (u32_id (buff sr)), (u32_id (t * 2048)), (u32_id (buff sr + _))
    by lia.
  eapply wp_guard; [apply buf_slice_Some; lia|]. esteps.
  eapply wp_dma_check; [eapply in_areas_intro; [exact Hq|lia..]|]. esteps.
  do 3 (eapply wp_dma_store; [eapply in_areas_intro; [exact Hp|lia..]|]; cbn [loc tr]; esteps).
  fold b. rewrite u16_id by lia. unfold NB_SND_DESC. rewrite (u32_id (t + 1)) by lia.
  rewrite (u32_id ((t + 1) mod 256)) by (pose proof (Z.mod_pos_bound (t + 1) 256); lia).
  exact HQ.
Qed.

Lemma held_xmit b sr t skb x l : held x (xmit_calls b sr t skb ++ l) = held x l.
Proof. cbn [xmit_calls app]. by do 8 rewrite held_neutral by done. Qed.

(** Packets handed over one after the other. *)
Fixpoint xmit_all (l : list sk_buff) (dev : Z) : M call e1000_state unit :=
  match l with
  | [] => ret tt
  | skb :: l => let! _ := e1000_start_xmit skb dev in xmit_all l dev
  end.

Lemma xmit_all_snoc l skb dev s :
  xmit_all (l ++ [skb]) dev s
  = bind (xmit_all l dev) (fun _ => let! _ := e1000_start_xmit skb dev in ret tt) s.
Proof.
  revert s. induction l as [|p l IH]; intros s; [done|]. cbn [app xmit_all].
  unfold bind in *. destruct (e1000_start_xmit p dev s); try done.
Qed.

(** The slot of index [k] holds the packet [skb], ready for the card. *)
Definition slot_holds (sr : ring) (t : list (call * Z)) (k : Z) (skb : sk_buff) : Prop :=
  last_copy (buff sr + k * BUF_SIZE_BY_DESC) t = Some (packet skb) /\
  last_store (descriptors sr + k * 20 + 8) t = Some (skb_len skb) /\
  last_store (descriptors sr + k * 20 + 12) t = Some (Z.lor (Z.lor TX_EOP TX_IFCS) TX_RS) /\
  last_store (descriptors sr + k * 20 + 13) t = Some 0.

Lemma slot_holds_new b sr t k skb : slot_holds sr (xmit_calls b sr k skb ++ t) k skb.
Proof.
  unfold slot_holds. cbn [xmit_calls app last_copy last_store].
  repeat (match goal with |- context [?x =? ?y] => destruct (Z.eqb_spec x y); [try lia|try lia] end);
    done.
Qed.

Lemma slot_holds_other b sr t k k' skb skb' :
  k <> k' -> slot_holds sr t k skb -> slot_holds sr (xmit_calls b sr k' skb' ++ t) k skb.
Proof.
  unfold slot_holds, BUF_SIZE_BY_DESC. intros Hk H.
  cbn [xmit_calls app last_copy last_store]. unfold BUF_SIZE_BY_DESC.
  repeat (match goal with |- context [?x =? ?y] => destruct (Z.eqb_spec x y); [lia|] end).
  done.
Qed.

Lemma wp_xmit_all h dev nd tail0 l s :
  let b := bar (priv nd) in
  let sr := send (priv nd) in
  let tail t := default tail0 (last_write (u32 (b + TDT_REG)) t) in
  devs (loc s) !! dev = Some nd -> send_open sr (areas (loc s)) ->
  storage (u32 (b + TDT_REG)) tail0 -> 0 <= tail (tr s) < 256 -> Forall sendable l ->
  wpx h (xmit_all l dev) (fun _ s' =>
    loc s' = loc s /\ tail (tr s') = (tail (tr s) + zlen l) mod 256 /\
    (forall x, held x (tr s') = held x (tr s)) /\
    forall i skb, l !! i = Some skb -> (length l <= i + 256)%nat ->
      slot_holds sr (tr s') ((tail (tr s) + Z.of_nat i) mod 256) skb) s.
Proof.
  intros b sr tail Hd Ho HT Ht. induction l as [|skb l IH] using rev_ind; intros Hl.
  { apply wp_ret. split; [done|]. split; [rewrite Z.mod_small; unfold zlen; simpl; lia|].
    split; [done|].
    intros i skb. by rewrite lookup_nil. }
  apply Forall_app in Hl as [Hl Hp]. apply Forall_inv in Hp.
  unfold wpx. rewrite xmit_all_snoc.
  change (wpx h (let! _ := xmit_all l dev in let! _ := e1000_start_xmit skb dev in ret tt)
    (fun _ s' => loc s' = loc s /\ tail (tr s') = (tail (tr s) + zlen (l ++ [skb])) mod 256 /\
    (forall x, held x (tr s') = held x (tr s)) /\
    forall i skb0, (l ++ [skb]) !! i = Some skb0 -> (length (l ++ [skb]) <= i + 256)%nat ->
      slot_holds sr (tr s') ((tail (tr s) + Z.of_nat i) mod 256) skb0) s).
  step. eapply wp_mono; [by apply IH|]. intros _ s1 (HS & Ht1 & Hh & Hi). step.
  eapply wp_start_xmit; [by rewrite HS|done|by rewrite HS|rewrite HT; cbn [last_write]; exact Ht1|
    apply Z.mod_pos_bound; lia|]. steps. fold b sr.
  split; [done|]. split; [|split; [intros x; by rewrite held_xmit|]].
  - unfold tail at 1. cbn [xmit_calls app last_write]. rewrite Z.eqb_refl. cbn [default].
    unfold zlen. rewrite length_app. cbn [length from_option id].
    rewrite u32_id by (clear; Z.div_mod_to_equations; lia).
    rewrite Z.add_mod_idemp_l by lia. f_equal. unfold zlen. lia.
  - intros i p Hip Hlen. rewrite length_app in Hlen. cbn [length] in Hlen.
    destruct (decide (i = length l)) as [->|Hne].
    + rewrite lookup_app_r, Nat.sub_diag in Hip by lia. injection Hip as <-. apply slot_holds_new.
    + assert (i < length l)%nat by (apply lookup_lt_Some in Hip; rewrite length_app in Hip;
        cbn in Hip; lia).
      rewrite lookup_app_l in Hip by done. apply slot_holds_other; [|apply Hi; [done|lia]].
      unfold zlen. intros E. clear -E Hne H Hlen. Z.div_mod_to_equations. lia.
Qed.
(** ** Reception *)

(** The card leaves status and length of the descriptor at [desc] alone while
    the driver reads them. *)
Definition descriptor_holds (desc st len : Z) : Prop :=
  (forall t, u8 (k_ret t (DmaLoad (desc + recv_status) 1)) = st) /\
  (forall t, u16 (k_ret t (DmaLoad (desc + recv_length) 2)) = len).

(** The slot e1000_read looks at, and what it needs of the ring. *)
Definition read_slot (nd : net_device) (rdt0 : Z) (t : list (call * Z)) : Z :=
  u32 (default rdt0 (last_write (u32 (bar (priv nd) + RDT_REG)) t) + 1) mod 256.

Definition recv_open (rr : ring) (l : list (Z * Z)) : Prop :=
  In (descriptors rr, 4096) l /\ 0 <= descriptors rr /\ descriptors rr + 4096 <= 2 ^ 32 /\
  0 <= buff rr /\ buff rr + 524288 <= 2 ^ 32.

(** The calls of the dump of a packet, and those of a complaint. *)
Definition dumps (c : call) : Prop :=
  match c with Printk _ _ | DmaLoad _ _ => True | _ => False end.

Definition complains (c : call) : Prop :=
  match c with Printk _ _ | PrintkRatelimit => True | _ => False end.

Lemma wp_read_dump h fuel desc ptr len (Q : unit -> state call e1000_state -> Prop) s :
  (forall t, u16 (k_ret t (DmaLoad (desc + recv_length) 2)) = len) ->
  in_areas (areas (loc s)) (desc + recv_length) 2 = true ->
  (forall i, 0 <= i < len -> in_areas (areas (loc s)) (ptr + 4 * i) 4 = true) ->
  len < Z.of_nat fuel -> 0 <= len ->
  (forall s', loc s' = loc s -> added dumps s s' -> Q tt s') ->
  wpx h (read_dump fuel desc ptr) Q s.
Proof.
  intros Hlen Hd Hp Hf Hl HQ. unfold read_dump.
  apply (wp_iter (fun i s' => 0 <= i <= len /\ loc s' = loc s /\ added dumps s s')
    (fun i _ => Z.to_nat (len - i))).
  - split; [lia|]. split; [done|apply added_refl].
  - right. lia.
  - intros i [S t] (Hi & HS & Ha). cbn [loc] in HS. subst S. estep.
    eapply wp_dma_load; [done|]. cbv zeta. rewrite Hlen. cbn [loc tr].
    destruct (Z.ltb_spec i len).
    + estep. eapply wp_dma_load; [apply Hp; lia|]. cbv zeta. esteps.
      split; [|lia]. split; [lia|]. split; [done|]. by repeat (apply added_cons; [|done]).
    + esteps. apply HQ; [done|]. by apply added_cons.
Qed.

Lemma read_slot_range nd rdt0 t : 0 <= read_slot nd rdt0 t < 256.
Proof. by apply Z.mod_pos_bound. Qed.

(** The calls of e1000_read up to the status of slot [slot], up to the demand
    for a socket buffer of [len] bytes, and up to the copy into it. *)
Definition read_looks (b desc slot rdt st : Z) (t : list (call * Z)) : list (call * Z) :=
  (DmaLoad (desc + recv_status) 1, st) :: (Printk "Tail: %i\n" [PInt slot], 0) ::
  (Readl (u32 (b + RDT_REG)), rdt) :: (Printk "Read a packet\n" [], 0) :: t.

Definition read_asks (b desc slot rdt st len : Z) (t : list (call * Z)) : list (call * Z) :=
  (DmaLoad (desc + recv_length) 2, len) :: read_looks b desc slot rdt st t.

Definition read_puts (desc skb len : Z) (t : list (call * Z)) : list (call * Z) :=
  (DmaLoad (desc + recv_length) 2, len) :: (SkbPut skb len, 0) ::
  (DmaLoad (desc + recv_length) 2, len) :: (DevAllocSkb len, skb) :: t.

(** The rest of e1000_read once the socket buffer has its room. *)
Definition deliver (fuel : nat) (dev skb slot desc src len : Z) : M call e1000_state unit :=
  dma_check src len ;;
  let! packet := delivered (DmaCopyOut src len) len in
  post (DmaCopyOut src len) ;;
  post (SkbFill skb packet) ;;
  printk "--------------------------\n" [] ;;
  read_dump fuel desc src ;;
  printk "--------------------------\n" [] ;;
  let! proto := ask u16 (EthTypeTrans skb dev) in
  e1000_set_register dev RDT_REG slot ;;
  post (NetifRx skb dev proto CHECKSUM_UNNECESSARY).

(** e1000_read up to the allocation of the socket buffer: three ways on. *)
Lemma wp_e1000_read h fuel dev nd rdt0 st len (Q : unit -> state call e1000_state -> Prop) s :
  let b := bar (priv nd) in
  let rr := recv (priv nd) in
  let rdt := default rdt0 (last_write (u32 (b + RDT_REG)) (tr s)) in
  let slot := read_slot nd rdt0 (tr s) in
  let desc := descriptors rr + slot * 16 in
  let src := buff rr + slot * BUF_SIZE_BY_DESC in
  let looked := read_looks b desc slot rdt st (tr s) in
  let asked := read_asks b desc slot rdt st len (tr s) in
  let skb := u32 (k_ret asked (DevAllocSkb len)) in
  devs (loc s) !! dev = Some nd -> recv_open rr (areas (loc s)) ->
  storage (u32 (b + RDT_REG)) rdt0 -> descriptor_holds desc st len ->
  (Z.land st RX_EOP = 0 ->
     Q tt (mkState (loc s) ((Printk "No packet to read\n" [], 0) :: looked))) ->
  (Z.land st RX_EOP <> 0 -> skb = 0 -> forall s', loc s' = loc s ->
     added complains (mkState (loc s) ((DevAllocSkb len, 0) :: asked)) s' -> Q tt s') ->
  (Z.land st RX_EOP <> 0 -> skb <> 0 ->
     wpx h (deliver fuel dev skb slot desc src len) Q
       (mkState (loc s) (read_puts desc skb len asked))) ->
  wpx h (e1000_read fuel dev) Q s.
Proof.
  intros b rr rdt slot desc src looked asked skb Hd (Ho & P1 & P2 & B1 & B2) HT [Hst Hlen] HA HB HC.
  pose proof (read_slot_range nd rdt0 (tr s)) as Hs. fold slot in Hs.
  change (2 ^ 32) with 4294967296 in *.
  unfold e1000_read. esteps. fold b rr. rewrite HT. cbn [last_write]. fold rdt.
  match goal with |- context [u32 (?x + 1) mod NB_RCV_DESC] =>
    change (u32 (x + 1) mod NB_RCV_DESC) with slot end.
  change (sizeof t_recv_desc) with 16.
  rewrite (u32_id (descriptors rr + slot * 16)) by lia. fold desc.
  unfold BUF_SIZE_BY_DESC in *.
  rewrite (u32_id (buff rr)), (u32_id (slot * 2048)), (u32_id (buff rr + slot * 2048)) by lia.
  fold src.
  eapply wp_dma_load; [eapply in_areas_intro; [exact Ho|unfold desc, recv_status; change (offset_of _ _) with 12; lia..]|].
  cbv zeta. rewrite Hst. cbn [loc tr].
  assert (desc + recv_length + 2 <= descriptors rr + 4096 /\ descriptors rr <= desc + recv_length)
    as [D1 D2] by (unfold desc; change recv_length with 8; lia).
  destruct (truth_spec (Z.land st RX_EOP)) as [He|He]; cbn [negb].
  2: { esteps. apply HA. lia. }
  estep. eapply wp_dma_load; [by eapply in_areas_intro|]. cbv zeta. rewrite Hlen. esteps.
  change (u32 (k_ret _ (DevAllocSkb len))) with skb.
  destruct (truth_spec skb) as [Hk|Hk]; cbn [negb].
  - estep. eapply wp_dma_load; [by eapply in_areas_intro|]. cbv zeta. rewrite Hlen. esteps.
    eapply wp_dma_load; [by eapply in_areas_intro|]. cbv zeta. rewrite Hlen. cbn [loc tr].
    by apply HC.
  - assert (skb = 0) as Hk0 by lia. rewrite Hk0. esteps.
    destruct (truth _); esteps; (apply HB; [done|done|done|]);
      repeat (apply added_cons; [|exact I]); by exists [].
Qed.

Lemma e1000_read_faults fuel dev nd rdt0 st len s :
  let rr := recv (priv nd) in
  let slot := read_slot nd rdt0 (tr s) in
  let src := buff rr + slot * BUF_SIZE_BY_DESC in
  devs (loc s) !! dev = Some nd -> recv_open rr (areas (loc s)) ->
  storage (u32 (bar (priv nd) + RDT_REG)) rdt0 ->
  descriptor_holds (descriptors rr + slot * 16) st len ->
  Z.land st RX_EOP <> 0 -> (forall t, u32 (k_ret t (DevAllocSkb len)) <> 0) ->
  in_areas (areas (loc s)) src len = false ->
  faults OutOfBounds (e1000_read fuel dev) s.
Proof.
  intros rr slot src Hd (Ho & P1 & P2 & B1 & B2) HT [Hst Hlen] He Hk Ha.
  pose proof (read_slot_range nd rdt0 (tr s)) as Hs. fold slot in Hs.
  change (2 ^ 32) with 4294967296 in *. set (desc := descriptors rr + slot * 16) in *.
  assert (desc + recv_status + 1 <= descriptors rr + 4096 /\ descriptors rr <= desc + recv_status
    /\ desc + recv_length + 2 <= descriptors rr + 4096 /\ descriptors rr <= desc + recv_length)
    as (D1 & D2 & D3 & D4) by (unfold desc; change recv_length with 8; change recv_status with 12; lia).
  unfold e1000_read. do 3 (apply faults_later; estep). fold rr. rewrite HT. cbn [last_write].
  match goal with |- context [u32 (?x + 1) mod NB_RCV_DESC] =>
    change (u32 (x + 1) mod NB_RCV_DESC) with slot end.
  change (sizeof t_recv_desc) with 16.
  rewrite (u32_id (descriptors rr + slot * 16)) by lia. fold desc.
  unfold BUF_SIZE_BY_DESC in *.
  rewrite (u32_id (buff rr)), (u32_id (slot * 2048)), (u32_id (buff rr + slot * 2048)) by lia.
  fold src. apply faults_later. estep. apply faults_later.
  eapply wp_dma_load; [by eapply in_areas_intro|]. cbv zeta. rewrite Hst.
  destruct (truth_spec (Z.land st RX_EOP)); [|done]. cbn [negb loc tr].
  apply faults_later. eapply wp_dma_load; [by eapply in_areas_intro|]. cbv zeta. rewrite Hlen.
  apply faults_later. estep. set (skb := u32 _).
  destruct (truth_spec skb) as [_|Hk']; [|by destruct Hk'; apply Hk]. cbn [negb].
  apply faults_later. eapply wp_dma_load; [by eapply in_areas_intro|]. cbv zeta. rewrite Hlen.
  apply faults_later. estep.
  apply faults_later. eapply wp_dma_load; [by eapply in_areas_intro|]. cbv zeta. rewrite Hlen.
  apply faults_now. unfold faults, dma_check, bind, get. cbn [loc]. rewrite Ha. by eexists.
Qed.
End Traffic.

(** ** The properties *)

Section Properties.
Context {K : Kernel call} {Al : AlignMacro}.

(** e1000_start_xmit of an unfragmented packet of at most 2048 bytes on
    an open card returns NETDEV_TX_OK and makes exactly these calls: read
    the tail, copy the packet to the tail's buffer, store length, command
    and status in the tail's 20-byte descriptor, write tail + 1 modulo 256;
    the socket buffer is not freed. *)
Theorem e1000_start_xmit_spec dev nd skb s :
  let b := bar (priv nd) in
  let t := u32 (k_ret ((Printk "e1000_start_xmit called\n" [], 0) :: tr s)
                  (Readl (u32 (b + TDT_REG)))) in
  devs (loc s) !! dev = Some nd -> sendable skb -> send_open (send (priv nd)) (areas (loc s)) ->
  t < 256 ->
  e1000_start_xmit skb dev s = Ok 0 (mkState (loc s) (xmit_calls b (send (priv nd)) t skb ++ tr s)).
Proof.
  intros b t Hd Hs Ho Ht.
  assert (wp (e1000_start_xmit skb dev)
    (fun r s' => r = 0 /\ s' = mkState (loc s) (xmit_calls b (send (priv nd)) t skb ++ tr s)) s) as H.
  { eapply wp_start_xmit; [done|done|done|reflexivity|split; [apply u32_range|done]|done]. }
  apply wp_inv in H as (r & s' & -> & -> & ->). done.
Qed.

(** C2: Any sequence of unfragmented packets of at most 2048 bytes is
    accepted without a fault; the tail register ends at the old tail plus
    their number modulo 256, and each of the last 256 packets is in the slot
    of its position, its bytes copied to the slot's buffer, its length in
    the descriptor, the command byte EOP|IFCS|RS and the status cleared:
    packets older than the last 256 are overwritten, since the head register
    is never consulted. *)
Theorem e1000_transmit_ring dev nd tail0 l s :
  let b := bar (priv nd) in
  let sr := send (priv nd) in
  let tail t := default tail0 (last_write (u32 (b + TDT_REG)) t) in
  devs (loc s) !! dev = Some nd -> send_open sr (areas (loc s)) ->
  storage (u32 (b + TDT_REG)) tail0 -> 0 <= tail (tr s) < 256 -> Forall sendable l ->
  wp (xmit_all l dev) (fun _ s' =>
    loc s' = loc s /\ tail (tr s') = (tail (tr s) + zlen l) mod 256 /\
    forall i skb, l !! i = Some skb -> (length l <= i + 256)%nat ->
      slot_holds sr (tr s') ((tail (tr s) + Z.of_nat i) mod 256) skb) s.
Proof.
  intros b sr tail Hd Ho HT Ht Hl. use wp_xmit_all; [done..|]. by intros _ s' (? & ? & _ & ?).
Qed.

(** What e1000_read adds when it passes a packet on: the copy of the slot into
    the socket buffer, the dump, the tail register and, last, netif_rx. *)
Definition read_calls (b dev skb proto slot src len : Z) (dump t : list (call * Z)) : list (call * Z) :=
  (NetifRx skb dev proto CHECKSUM_UNNECESSARY, 0) :: (Writel slot (u32 (b + RDT_REG)), 0) ::
  (EthTypeTrans skb dev, proto) :: dump ++
  (SkbFill skb (delivery t (DmaCopyOut src len) len), 0) :: (DmaCopyOut src len, 0) :: t.

(** C6: When status and length of the descriptor after the tail are stable
    and the slot's packet (four bytes read per byte of length, by the dump
    loop) fits in the buffer area, e1000_read completes with exactly these
    calls. It looks at the status of the slot after the tail: without the
    end-of-packet bit it reports that there is no packet. With it, it asks
    for a socket buffer of the packet's length: when that very call answers
    NULL, it only complains (the tail register is not written, so the slot
    stays the next one to read). Otherwise it copies exactly the bytes of
    the slot into the socket buffer, dumps it, sets the type and device,
    moves the tail register to the slot and then, as its last call, hands
    the buffer to netif_rx. *)
Theorem e1000_read_delivers fuel dev nd rdt0 st len s :
  let b := bar (priv nd) in
  let rr := recv (priv nd) in
  let rdt := default rdt0 (last_write (u32 (b + RDT_REG)) (tr s)) in
  let slot := read_slot nd rdt0 (tr s) in
  let desc := descriptors rr + slot * 16 in
  let src := buff rr + slot * BUF_SIZE_BY_DESC in
  let looked := read_looks b desc slot rdt st (tr s) in
  let asked := read_asks b desc slot rdt st len (tr s) in
  let skb := u32 (k_ret asked (DevAllocSkb len)) in
  devs (loc s) !! dev = Some nd -> recv_open rr (areas (loc s)) ->
  storage (u32 (b + RDT_REG)) rdt0 -> descriptor_holds desc st len ->
  In (buff rr, size_buff rr) (areas (loc s)) ->
  slot * BUF_SIZE_BY_DESC + 4 * len <= size_buff rr -> len < Z.of_nat fuel ->
  wp (e1000_read fuel dev) (fun _ s' =>
    loc s' = loc s /\
    (Z.land st RX_EOP = 0 -> tr s' = (Printk "No packet to read\n" [], 0) :: looked) /\
    (Z.land st RX_EOP <> 0 -> skb = 0 ->
       grows complains ((DevAllocSkb len, 0) :: asked) (tr s')) /\
    (Z.land st RX_EOP <> 0 -> skb <> 0 -> exists proto dump,
       tr s' = read_calls b dev skb proto slot src len dump (read_puts desc skb len asked) /\
       Forall (fun e => dumps (fst e)) dump)) s.
Proof.
  intros b rr rdt slot desc src looked asked skb Hd Ho HT Hh Hin Hfit Hf.
  assert (0 <= len) as Hl by (destruct Hh as [_ H]; rewrite <- (H []); apply u16_range).
  pose proof (read_slot_range nd rdt0 (tr s)) as Hs. fold slot in Hs.
  unfold BUF_SIZE_BY_DESC in *.
  eapply wp_e1000_read; [done..| | |]; fold b rr rdt slot; fold desc; fold looked asked; fold skb.
  - intros He. by repeat split.
  - intros He Hk s' HS Ha. by repeat split.
  - intros He Hk. unfold deliver. fold src. estep.
    eapply wp_dma_check; [eapply in_areas_intro; [exact Hin|unfold src, BUF_SIZE_BY_DESC; lia..]|]. esteps.
    eapply wp_read_dump; [apply Hh| | |done|done|].
    + cbn [loc]. destruct Ho as (Ho & ? & ?). unfold desc. eapply in_areas_intro; [exact Ho|..];
        change recv_length with 8; lia.
    + intros i Hi. cbn [loc]. eapply in_areas_intro; [exact Hin|unfold src, BUF_SIZE_BY_DESC; lia..].
    + intros [S t'] HS (l & El & Hp). cbn [loc tr] in *. subst S t'. esteps.
      split; [done|]. split; [done|]. split; [done|]. intros _ _. fold b. rewrite (u32_id slot) by lia.
      eexists _, ((Printk "--------------------------\n" [], 0) :: l ++
        [(Printk "--------------------------\n" [], 0)]).
      split.
      * unfold read_calls. do 3 f_equal. cbn [app]. rewrite <- app_assoc. reflexivity.
      * constructor; [done|]. apply Forall_app. split; [done|]. by repeat constructor.
Qed.

(** The receive buffer area has 4096 bytes, room for two of its 256
    slots: reading a packet from any slot from 2 on is an access out of
    bounds, unless another DMA area happens to follow the buffer. *)
Theorem e1000_read_overruns_buffer fuel dev nd rdt0 st len s :
  let rr := recv (priv nd) in
  let slot := read_slot nd rdt0 (tr s) in
  devs (loc s) !! dev = Some nd -> recv_open rr (areas (loc s)) ->
  storage (u32 (bar (priv nd) + RDT_REG)) rdt0 ->
  descriptor_holds (descriptors rr + slot * 16) st len ->
  Z.land st RX_EOP <> 0 -> (forall t, u32 (k_ret t (DevAllocSkb len)) <> 0) ->
  size_buff rr = 4096 -> 0 < len -> 2 <= slot ->
  (forall p n, In (p, n) (areas (loc s)) ->
     p + n <= buff rr + size_buff rr \/ buff rr + NB_RCV_DESC * BUF_SIZE_BY_DESC <= p) ->
  faults OutOfBounds (e1000_read fuel dev) s.
Proof.
  intros rr slot Hd Ho HT Hh He Hk Hsz Hl Hs Ha.
  eapply e1000_read_faults; [done..|]. fold rr slot.
  pose proof (read_slot_range nd rdt0 (tr s)) as Hr. fold slot in Hr.
  unfold BUF_SIZE_BY_DESC, NB_RCV_DESC in *.
  apply not_true_is_false. intros ([p n] & Hin & H)%existsb_exists. cbn [fst snd] in H.
  apply andb_prop in H as [H1 H2]. apply Z.leb_le in H1, H2.
  destruct (Ha p n Hin); lia.
Qed.
End Properties.

(** ** Witnesses *)

Definition open_dev : net_device := mkDev (mkData 5 0x1000 0xF0000000 11 0
  (mkRing 0x300000 0x300000 4096 0x400000 0x400000 4096)
  (mkRing 0x500000 0x500000 8192 0x600000 0x600000 524288)) true true.

(** An open card, the receive tail register at [rdt]. *)
Definition open_state (rdt : Z) : state call e1000_state :=
  mkState (mkE 0x1000 (replicate 32 0) {[ 0x1000 := open_dev ]}
    [(0x600000, 524288); (0x500000, 8192); (0x400000, 4096); (0x300000, 4096)])
    [(Writel rdt (u32 (0xF0000000 + RDT_REG)), 0)].

(** A received packet of 60 bytes in every slot. *)
Definition packet_kernel : Kernel call := {|
  k_ret t c :=
    match c with
    | Readl a => default 0 (last_write a t)
    | DmaLoad _ 1 => 3
    | DmaLoad _ 2 => 60
    | DevAllocSkb _ => 0x900000
    | EthTypeTrans _ _ => 0x800
    | _ => 0
    end;
  k_out t c i := i
|}.

Lemma packet_storage a : @storage packet_kernel a 0.
Proof.
  intros t. cbn [k_ret packet_kernel].
  assert (forall v, last_write a t = Some v -> u32 v = v) as H.
  { induction t as [|[c r] t IH]; [done|]. intros v. cbn [last_write].
    destruct c; try apply IH. case_match; [|apply IH]. intros [= <-]. apply u32_idem. }
  destruct (last_write a t); [by apply H|done].
Qed.

Definition skb60 : sk_buff := mkSkb 0 (seqZ 0 64) 60.

Lemma open_send_open r : send_open (send (priv open_dev)) (areas (loc (open_state r))).
Proof. repeat split; try (by vm_compute); simpl; tauto. Qed.

Lemma open_recv_open r : recv_open (recv (priv open_dev)) (areas (loc (open_state r))).
Proof. repeat split; try (by vm_compute); simpl; tauto. Qed.

Lemma skb60_sendable : sendable skb60.
Proof. by repeat split; vm_compute. Qed.

Example e1000_start_xmit_spec_witness :
  let K := packet_kernel in let Al := round_up in
  e1000_start_xmit skb60 0x1000 (open_state 255) = Ok 0 (mkState (loc (open_state 255))
    (xmit_calls 0xF0000000 (send (priv open_dev)) 0 skb60 ++ tr (open_state 255))).
Proof.
  intros K Al.
  exact (e1000_start_xmit_spec 0x1000 open_dev skb60 (open_state 255)
    eq_refl skb60_sendable (open_send_open 255) eq_refl).
Defined.

Example e1000_transmit_ring_witness :
  let K := packet_kernel in let Al := round_up in
  let tail t := default 0 (last_write (u32 (0xF0000000 + TDT_REG)) t) in
  wp (xmit_all (replicate 300 skb60) 0x1000) (fun _ s' =>
    loc s' = loc (open_state 255) /\ tail (tr s') = 300 mod 256 /\
    forall i skb, replicate 300 skb60 !! i = Some skb -> (length (replicate 300 skb60) <= i + 256)%nat ->
      slot_holds (send (priv open_dev)) (tr s') ((0 + Z.of_nat i) mod 256) skb) (open_state 255).
Proof.
  intros K Al tail.
  apply (e1000_transmit_ring 0x1000 open_dev 0 (replicate 300 skb60) (open_state 255));
    [reflexivity|apply open_send_open|apply packet_storage|split; reflexivity || discriminate|
     apply Forall_replicate, skb60_sendable].
Defined.

Lemma packet_descriptor a : @descriptor_holds packet_kernel a 3 60.
Proof. by split. Qed.

Example e1000_read_delivers_witness :
  let K := packet_kernel in let Al := round_up in
  let desc := 0x300010 in
  wp (e1000_read 100 0x1000) (fun _ s' =>
    loc s' = loc (open_state 0) /\ exists proto dump,
    tr s' = read_calls 0xF0000000 0x1000 0x900000 proto 1 0x400800 60 dump
              (read_puts desc 0x900000 60 (read_asks 0xF0000000 desc 1 0 3 60 (tr (open_state 0)))) /\
    Forall (fun e => dumps (fst e)) dump) (open_state 0).
Proof.
  intros K Al desc. eapply wp_mono.
  - apply (e1000_read_delivers 100 0x1000 open_dev 0 3 60 (open_state 0));
      [reflexivity|apply open_recv_open|apply packet_storage|apply packet_descriptor|simpl; tauto|
       vm_compute; congruence|reflexivity].
  - intros _ s' (HS & _ & _ & H). split; [exact HS|]. apply H; vm_compute; discriminate.
Defined.

Example e1000_read_overruns_buffer_witness :
  let K := packet_kernel in let Al := round_up in
  faults OutOfBounds (e1000_read 100 0x1000)
    (mkState (mkE 0x1000 [] {[ 0x1000 := open_dev ]} [(0x400000, 4096); (0x300000, 4096)])
       [(Writel 1 (u32 (0xF0000000 + RDT_REG)), 0)]).
Proof.
  intros K Al.
  apply (e1000_read_overruns_buffer 100 0x1000 open_dev 0 3 60);
    [reflexivity|repeat split; try (by vm_compute); simpl; tauto|apply packet_storage|
     apply packet_descriptor|discriminate|discriminate|reflexivity|reflexivity|discriminate|].
  intros p n [[= <- <-]|[[= <- <-]|[]]]; left; vm_compute; discriminate.
Defined.
