(* ===== verification/E1000Irq.v ===== *)
(** * The e1000 driver: interrupts

    The handler adds the causes it reads to [waiting_intr]; the tasklet reports
    them and clears the word.  Run one after the other they lose nothing; the
    handler may also interrupt the tasklet, whose accesses to the word are then
    steps of their own. *)

From S2P Require Import Prelude CMonad LinuxApi E1000 E1000Card E1000Init E1000Spec.

(** The tasklet split at its accesses to [waiting_intr]: the step at program
    counter [pc] answers the next one, [None] at the end. *)
Section Steps.
Context {K : Kernel call}.

Definition report (dev mask : Z) (msg : string) : M call e1000_state unit :=
  let! d := netdev_priv dev in
  if truth (Z.land (waiting_intr d) mask) then printk msg [] else ret tt.

Definition tasklet_step (dev : Z) (pc : nat) : M call e1000_state (option nat) :=
  match pc with
  | 0%nat =>
      printk "coucou Tasklet\n" [] ;;
      let! d := netdev_priv dev in
      ret (if negb (truth (waiting_intr d)) then None else Some 1%nat)
  | 1%nat =>
      report dev (Z.lor IMS_RX0 IMS_RXT0) "Packet received\n" ;; ret (Some 2%nat)
  | 2%nat =>
      report dev (Z.lor IMS_TXDW IMS_TXQE) "Packet has been sent or the transmit queue is empty\n" ;;
      ret (Some 3%nat)
  | 3%nat =>
      let! d := netdev_priv dev in
      (if truth (Z.land (waiting_intr d) IMS_LSC)
       then printk "The link status changed\n" [] ;; e1000_print_status dev else ret tt) ;;
      ret (Some 4%nat)
  | _ => set_priv dev (set_waiting 0) ;; ret None
  end.

(** The steps from [pc] to the end. *)
Fixpoint tasklet_run (fuel : nat) (dev : Z) (pc : nat) : M call e1000_state unit :=
  match fuel with
  | O => hang
  | Datatypes.S fuel =>
      let! next := tasklet_step dev pc in
      match next with Some pc => tasklet_run fuel dev pc | None => ret tt end
  end.

(** A schedule: each element runs the handler or the next step of the tasklet.
    The tasklet starts when it was scheduled and is not running. *)
Inductive turn := Irq | Task.

Fixpoint schedule (dev irq : Z) (l : list turn) (pc : option nat) (pending : bool) :
    M call e1000_state (option nat * bool) :=
  match l with
  | [] => ret (pc, pending)
  | Irq :: l =>
      let! r := handler irq dev in
      schedule dev irq l pc (pending || (r =? IRQ_HANDLED))
  | Task :: l =>
      match pc with
      | Some n => let! pc := tasklet_step dev n in schedule dev irq l pc pending
      | None =>
          if pending
          then let! pc := tasklet_step dev 0 in schedule dev irq l pc false
          else schedule dev irq l None pending
      end
  end.

(** The handler run [n] times in a row. *)
Fixpoint irqs (n : nat) (dev irq : Z) : M call e1000_state unit :=
  match n with
  | O => ret tt
  | Datatypes.S n => let! _ := handler irq dev in irqs n dev irq
  end.
End Steps.

(** The answers of the cause register at [a], newest first. *)
Fixpoint causes (a : Z) (t : list (call * Z)) : list Z :=
  match t with
  | [] => []
  | (Readl a', r) :: t => if a' =? a then r :: causes a t else causes a t
  | _ :: t => causes a t
  end.

Definition lor_all : list Z -> Z := foldr Z.lor 0.

Section Irq.
Context {K : Kernel call}.
Implicit Types (s : state call e1000_state) (nd : net_device).

Definition handled nd (intr : Z) : net_device :=
  with_priv (set_waiting (s32 (Z.lor (waiting_intr (priv nd)) intr)) (priv nd)) nd.

Lemma wp_handler h dev irq nd (Q : Z -> state call e1000_state -> Prop) s :
  let a := u32 (bar (priv nd) + ICR_REG) in
  let t := (Printk "INTERRUPT HANDLER\n" [], 0) :: tr s in
  let intr := u32 (k_ret t (Readl a)) in
  devs (loc s) !! dev = Some nd ->
  (intr = 0 -> Q IRQ_NONE (mkState (loc s)
     ((Printk "There isn't interrupt to process\n" [], 0) :: (Readl a, 0) :: t))) ->
  (intr <> 0 -> Q IRQ_HANDLED (mkState (setd dev (handled nd intr) (loc s))
     ((TaskletSchedule dev, 0) :: (Printk "There is interrupt to process\n" [], 0)
        :: (Readl a, intr) :: t))) ->
  wpx h (handler irq dev) Q s.
Proof.
  intros a t intr Hd H0 H1. unfold handler. esteps. fold a t. fold intr.
  destruct (truth_spec intr) as [Hi|Hi]; cbn [negb]; esteps.
  - by apply H1.
  - assert (intr = 0) as E by lia. rewrite E in *. by apply H0.
Qed.

Lemma causes_irqs h n dev irq nd (Q : unit -> state call e1000_state -> Prop) s :
  let a := u32 (bar (priv nd) + ICR_REG) in
  devs (loc s) !! dev = Some nd -> -2147483648 <= waiting_intr (priv nd) < 2147483648 ->
  (forall s' l w, length l = n -> causes a (tr s') = l ++ causes a (tr s) ->
     -2147483648 <= w < 2147483648 ->
     u32 w = u32 (Z.lor (waiting_intr (priv nd)) (lor_all l)) ->
     loc s' = setd dev (with_priv (set_waiting w (priv nd)) nd) (loc s) -> Q tt s') ->
  wpx h (irqs n dev irq) Q s.
Proof.
  intros a. revert nd a Q s. induction n as [|n IH]; intros nd a Q s Hd Hw HQ; cbn [irqs].
  - apply wp_ret. apply (HQ s [] (waiting_intr (priv nd))); [done|done|done| |].
    + by rewrite Z.lor_0_r.
    + rewrite setd_id; [done|]. rewrite Hd. by destruct nd as [[] ? ?].
  - estep. eapply wp_handler; [done|intros Hi|intros Hi].
    + eapply IH; [done|done|]. intros s' l w Hl Hc Hr Hu HS.
      cbn [tr causes] in Hc. fold a in Hc. rewrite Z.eqb_refl in Hc.
      apply (HQ s' (l ++ [0]) w); [rewrite length_app; simpl; lia|by rewrite <- app_assoc|done| |done].
      rewrite Hu. do 2 f_equal. clear. induction l as [|x l IH]; [done|]. cbn. by f_equal.
    + eapply IH; [apply lookup_setd|apply s32_range|]. fold a.
      set (intr := u32 (k_ret _ _)) in *. intros s' l w Hl Hc Hr Hu HS.
      cbn [tr causes] in Hc. fold a in Hc.
      change (u32 (bar (priv (handled nd intr)) + ICR_REG)) with a in Hc. rewrite Z.eqb_refl in Hc.
      apply (HQ s' (l ++ [intr]) w); [rewrite length_app; simpl; lia|by rewrite <- app_assoc|done| |].
      * rewrite Hu. cbn [handled with_priv priv set_waiting waiting_intr].
        rewrite u32_lor, u32_s32, <- u32_lor, <- Z.lor_assoc. do 2 f_equal. clear. induction l as [|x l IH]; cbn;
          [by rewrite Z.lor_0_r|]. rewrite <- IH, !Z.lor_assoc. f_equal. apply Z.lor_comm.
      * rewrite HS. cbn [loc]. by rewrite setd_setd.
Qed.
Lemma land_u32 w m : 0 <= m < 2 ^ 32 -> Z.land (u32 w) m = Z.land w m.
Proof.
  intros Hm. zbits i Hi. destruct (Z.ltb_spec i 32); [done|].
  rewrite (bounded_testbit 32 m i) by lia. by rewrite !andb_false_r.
Qed.

Definition link_msg : string := "The link status changed\n".
Definition recv_msg : string := "Packet received\n".
Definition sent_msg : string := "Packet has been sent or the transmit queue is empty\n".

(** The messages owed for the causes [w]. *)
Definition owed (w : Z) (m : string) : Prop :=
  (m = recv_msg /\ Z.land w (Z.lor IMS_RX0 IMS_RXT0) <> 0) \/
  (m = sent_msg /\ Z.land w (Z.lor IMS_TXDW IMS_TXQE) <> 0) \/
  (m = link_msg /\ Z.land w IMS_LSC <> 0).

(** Printing the status reads no cause. *)
Lemma wp_link_report h dev nd (Q : unit -> state call e1000_state -> Prop) s :
  devs (loc s) !! dev = Some nd ->
  (forall s', loc s' = loc s -> added looks s s' ->
     causes (u32 (bar (priv nd) + ICR_REG)) (tr s') = causes (u32 (bar (priv nd) + ICR_REG)) (tr s) ->
     Q tt s') ->
  wpx h (e1000_print_status dev) Q s.
Proof.
  intros Hd HQ. unfold e1000_print_status.
  set (z := Z.shiftl 3 6). esteps. destruct (speed_name (s32 (u32 (k_ret (tr s)
    (Readl (u32 (bar (priv nd) + STAT_REG))))))) as [name E].
  eapply wp_guard; [exact E|]. esteps. apply HQ; [done|destruct s; auto 20 with e1000|].
  cbn [tr causes]. by rewrite reg_eqb by zconst.
Qed.

(** What the tasklet adds: it looks, reads no cause and prints the messages it
    owes for [w]. *)
Definition reported (a w : Z) (s s' : state call e1000_state) : Prop :=
  added looks s s' /\ causes a (tr s') = causes a (tr s) /\
  forall m, owed w m -> In (Printk m [], 0) (tr s').

Lemma added_looks_in s s' e : added looks s s' -> In e (tr s) -> In e (tr s').
Proof. intros (l & -> & _) H. apply in_app_iff. by right. Qed.

(** Between two states the tasklet only looked, read no cause at [a], and
    printed [m] if [p]. *)
Definition prints (a : Z) (p : Prop) (m : string) (s s' : state call e1000_state) : Prop :=
  loc s' = loc s /\ added looks s s' /\ causes a (tr s') = causes a (tr s) /\
  (p -> In (Printk m [], 0) (tr s')).

Lemma wp_report h a x m (Q : unit -> state call e1000_state -> Prop) s :
  (forall s', prints a (x <> 0) m s s' -> Q tt s') ->
  wpx h (if truth x then printk m [] else ret tt) Q s.
Proof.
  intros HQ. destruct (truth_spec x); esteps; apply HQ.
  - repeat split; [apply added_cons; [by exists []|done]|]. intros _. by left.
  - repeat split; [apply added_refl|done].
Qed.

Lemma wp_report_link h dev nd x (Q : unit -> state call e1000_state -> Prop) s :
  devs (loc s) !! dev = Some nd ->
  (forall s', prints (u32 (bar (priv nd) + ICR_REG)) (x <> 0) link_msg s s' -> Q tt s') ->
  wpx h (if truth x then printk link_msg [] ;; e1000_print_status dev else ret tt) Q s.
Proof.
  intros Hd HQ. destruct (truth_spec x); esteps.
  - eapply wp_link_report; [exact Hd|]. intros s' HS A C. apply HQ. split; [done|].
    split; [eapply added_trans; [|exact A]; apply added_cons; [by exists []|done]|].
    split; [done|]. intros _. eapply added_looks_in; [exact A|]. by left.
  - apply HQ. repeat split; [apply added_refl|done].
Qed.

Lemma wp_intr_task h dev arg nd (Q : unit -> state call e1000_state -> Prop) s :
  card (loc s) = dev -> devs (loc s) !! dev = Some nd ->
  (forall s', loc s' = setd dev (with_priv (set_waiting 0 (priv nd)) nd) (loc s) ->
     reported (u32 (bar (priv nd) + ICR_REG)) (waiting_intr (priv nd)) s s' -> Q tt s') ->
  wpx h (intr_task arg) Q s.
Proof.
  intros Hc Hd HQ. unfold intr_task. esteps. rewrite Hc. set (w := waiting_intr (priv nd)) in *.
  set (a := u32 (bar (priv nd) + ICR_REG)) in *.
  eapply wp_netdev_priv; [done|]. fold w. destruct (truth_spec w) as [Hn|Hz]; cbn [negb]; esteps.
  2: { assert (w = 0) as Hw by lia. apply HQ.
       - cbn [loc]. rewrite setd_id; [done|]. rewrite Hd. unfold with_priv, set_waiting.
         fold w in Hd. rewrite <- Hw. unfold w. by destruct nd as [[] ? ?].
       - rewrite Hw. split; [by apply added_cons; [exists []|]|]. split; [done|].
         by intros m [[_ H]|[[_ H]|[_ H]]]. }
  fold w. set (s1 := mkState _ _).
  assert (added looks s s1) as A1 by (apply added_cons; [by exists []|done]).
  assert (causes a (tr s1) = causes a (tr s)) as C1 by done.
  assert (loc s1 = loc s) as L1 by done. clearbody s1.
  apply (wp_report _ a). intros s2 (L2 & A2 & C2 & P2). esteps.
  eapply wp_netdev_priv; [by rewrite L2, L1|]. fold w. esteps.
  apply (wp_report _ a). intros s3 (L3 & A3 & C3 & P3). esteps.
  eapply wp_netdev_priv; [by rewrite L3, L2, L1|]. fold w. esteps.
  eapply (wp_report_link _ dev nd); [by rewrite L3, L2, L1|]. fold a. intros s4 (L4 & A4 & C4 & P4).
  eapply wp_set_priv; [by rewrite L4, L3, L2, L1|]. apply HQ; [by rewrite L4, L3, L2, L1|].
  split; [|split; [cbn [tr]; congruence|]].
  - change (added looks s s4). eapply added_trans; [exact A1|].
    eapply added_trans; [exact A2|]. by eapply added_trans.
  - cbn [tr]. intros m [[-> H]|[[-> H]|[-> H]]].
    + eapply added_looks_in; [exact A4|]. eapply added_looks_in; [exact A3|]. by apply P2.
    + eapply added_looks_in; [exact A4|]. by apply P3.
    + by apply P4.
Qed.

Lemma netdev_priv_ok dev nd s : devs (loc s) !! dev = Some nd -> netdev_priv dev s = Ok (priv nd) s.
Proof. intros H. unfold netdev_priv, bind, get. by rewrite H. Qed.

Lemma owed_u32 w w' m : u32 w = u32 w' -> owed w m -> owed w' m.
Proof.
  intros E. unfold owed.
  rewrite <- !(land_u32 w), <- !(land_u32 w'), E by (by vm_compute). done.
Qed.

(** C29: Any number of runs of the interrupt handler followed by the
    tasklet: the messages for all the causes the handler read, and for those
    already waiting, are printed, the word of waiting causes ends at 0, and
    nothing else of the driver's state changes. *)
Theorem e1000_interrupts_reported n dev irq arg nd s :
  let a := u32 (bar (priv nd) + ICR_REG) in
  card (loc s) = dev -> devs (loc s) !! dev = Some nd ->
  -2147483648 <= waiting_intr (priv nd) < 2147483648 ->
  wp (irqs n dev irq ;; intr_task arg) (fun _ s' =>
    loc s' = setd dev (with_priv (set_waiting 0 (priv nd)) nd) (loc s) /\
    exists l, length l = n /\ causes a (tr s') = l ++ causes a (tr s) /\
      forall m, owed (Z.lor (waiting_intr (priv nd)) (lor_all l)) m ->
        In (Printk m [], 0) (tr s')) s.
Proof.
  intros a Hc Hd Hw. estep. eapply causes_irqs; [done..|]. fold a.
  intros s1 l w Hl Hcs Hr Hu HS.
  eapply wp_intr_task; [by rewrite HS|rewrite HS; apply lookup_setd|].
  intros s2 HS2 (_ & C2 & R2). cbn in C2. fold a in C2. split; [rewrite HS2, HS; by rewrite setd_setd|].
  exists l. split; [done|]. split; [congruence|]. intros m Hm. apply R2.
  eapply owed_u32; [|exact Hm]. by rewrite <- Hu.
Qed.

(** None of the three messages is in [l]. *)
Lemma owed_absent w (l : list (call * Z)) :
  forallb (fun e => match fst e with
    | Printk m _ => negb (String.eqb m recv_msg || String.eqb m sent_msg || String.eqb m link_msg)
    | _ => true end) l = true ->
  forall m, owed w m -> ~ In (Printk m [], 0) l.
Proof.
  intros H m Hm Hin. rewrite forallb_forall in H. apply H in Hin. cbn [fst] in Hin.
  destruct Hm as [[-> _]|[[-> _]|[-> _]]]; discriminate.
Qed.

(** Running the five steps into which the tasklet is split, one for
    each access to the word of waiting causes, is the tasklet itself,
    whatever the environment and the state. *)
Theorem e1000_tasklet_steps dev arg s :
  card (loc s) = dev -> tasklet_run 5 dev 0 s = intr_task arg s.
Proof.
  intros <-. unfold intr_task. set (dev := card (loc s)).
  assert (forall B (k : Z -> M call e1000_state B), bind (gets card) k s = k dev s) as -> by done.
  cbn [tasklet_run].
  etransitivity; [apply bind_assoc|]. apply bind_ext. intros [] s1.
  etransitivity; [apply bind_assoc|]. apply bind_ext. intros d s2.
  assert (forall x (k : option nat -> M call e1000_state unit) s, bind (ret x) k s = k x s) as R by done.
  rewrite R. destruct (negb (truth (waiting_intr d))); [done|].
  do 2 (unfold tasklet_step at 1, report; do 2 (etransitivity; [apply bind_assoc|]);
    apply bind_ext; intros; apply bind_ext; intros; rewrite R).
  unfold tasklet_step at 1. etransitivity; [apply bind_assoc|]. apply bind_ext. intros.
  etransitivity; [apply bind_assoc|]. apply bind_ext. intros. rewrite R.
  unfold tasklet_step, bind, ret. by destruct (set_priv dev _ _) as [[]| |].
Qed.

(** When the handler interrupts the tasklet between its last report and
    the clearing of the waiting word, the cause it read is lost: the tasklet
    ends, its next run (if scheduled) finds nothing, and no message for the
    cause is ever printed. *)
Theorem e1000_interrupt_lost dev irq nd s pending :
  devs (loc s) !! dev = Some nd ->
  wp (schedule dev irq [Irq; Task; Task] (Some 4%nat) pending) (fun r s' =>
    r = (None, false) /\
    loc s' = setd dev (with_priv (set_waiting 0 (priv nd)) nd) (loc s) /\
    exists cause l, tr s' = l ++ (Readl (u32 (bar (priv nd) + ICR_REG)), cause)
                             :: (Printk "INTERRUPT HANDLER\n" [], 0) :: tr s /\
      forall m, owed cause m -> ~ In (Printk m [], 0) l) s.
Proof.
  intros Hd. cbn [schedule]. estep. eapply wp_handler; [done|intros Hi|intros Hi]; cbn [loc tr];
    esteps; destruct pending; esteps; cbn; esteps; (split; [done|]; split; [by rewrite ?setd_setd|]).
  - exists 0, [(Printk "coucou Tasklet\n" [], 0);
      (Printk "There isn't interrupt to process\n" [], 0)]. split; [done|]. apply owed_absent; [done..].
  - exists 0, [(Printk "There isn't interrupt to process\n" [], 0)].
    split; [done|]. apply owed_absent; [done..].
  - eexists _, [(Printk "coucou Tasklet\n" [], 0); (TaskletSchedule dev, 0);
      (Printk "There is interrupt to process\n" [], 0)]. split; [done|]. apply owed_absent; [done..].
  - eexists _, [(Printk "coucou Tasklet\n" [], 0); (TaskletSchedule dev, 0);
      (Printk "There is interrupt to process\n" [], 0)]. split; [done|]. apply owed_absent; [done..].
Qed.
End Irq.

(** ** Witnesses *)

(** A card that always reports a received packet and a link change. *)
Definition irq_kernel : Kernel call := {|
  k_ret t c := match c with Readl _ => 0x84 | _ => 0 end;
  k_out t c i := 0
|}.

Example e1000_tasklet_steps_witness :
  let K := irq_kernel in
  tasklet_run 5 0x1000 0 card_state = intr_task 7 card_state.
Proof. intros K. exact (e1000_tasklet_steps 0x1000 7 card_state eq_refl). Defined.

Example e1000_interrupts_reported_witness :
  let K := irq_kernel in
  wp (irqs 3 0x1000 11 ;; intr_task 0) (fun _ s' =>
    loc s' = setd 0x1000 (with_priv (set_waiting 0 (priv card_dev)) card_dev) (loc card_state) /\
    exists l, length l = 3%nat /\
      causes (u32 (0xF0000000 + ICR_REG)) (tr s') = l ++ causes (u32 (0xF0000000 + ICR_REG)) [] /\
      forall m, owed (Z.lor 0 (lor_all l)) m -> In (Printk m [], 0) (tr s')) card_state.
Proof.
  intros K. apply (e1000_interrupts_reported 3 0x1000 11 0 card_dev card_state);
    [reflexivity|reflexivity|split; discriminate || reflexivity].
Defined.

Example e1000_interrupt_lost_witness :
  let K := irq_kernel in
  wp (schedule 0x1000 11 [Irq; Task; Task] (Some 4%nat) false) (fun r s' =>
    r = (None, false) /\
    loc s' = setd 0x1000 (with_priv (set_waiting 0 (priv card_dev)) card_dev) (loc card_state) /\
    exists cause l, tr s' = l ++ (Readl (u32 (0xF0000000 + ICR_REG)), cause)
                             :: (Printk "INTERRUPT HANDLER\n" [], 0) :: tr card_state /\
      forall m, owed cause m -> ~ In (Printk m [], 0) l) card_state.
Proof.
  intros K. apply (e1000_interrupt_lost 0x1000 11 card_dev card_state false). reflexivity.
Defined.
