(* ===== verification/E1000Pci.v ===== *)
(** * The e1000 driver: probing and removing a card

    What probe holds on each of its returns, and what remove gives back. *)

From S2P Require Import Prelude CMonad LinuxApi E1000 E1000Card E1000Init E1000Spec.

Definition mapped (b : Z) : list resource := if truth b then [RMap b] else [].

(** probe by its return value: what is held in addition, and the state. *)
Definition probe_post `{Kernel call} (dev : Z) (s : state call e1000_state) (r : Z) (s' : state call e1000_state) : Prop :=
  exists c l,
    card (loc s') = c /\ mac_address (loc s') = mac_address (loc s) /\ areas (loc s') = areas (loc s) /\
    (forall x, held x (tr s') = held x (tr s) + hold_all l x) /\
    ((r = 0 /\ c <> 0 /\ exists b n,
        (exists t, b = u32 (k_ret t (PciIoremapBar dev 0))) /\
        devs (loc s') = <[c := mkDev (mkData dev c b n 0 ring0 ring0) true false]> (devs (loc s)) /\
        l = mapped b ++ [RRegion dev; REnabled dev; RRegistered c; RNetdev c]) \/
     (r = - ENOMEM /\ c = 0 /\ l = [] /\ devs (loc s') = devs (loc s)) \/
     (r <> 0 /\ c <> 0 /\
        devs (loc s') = <[c := mkDev data0 true false]> (devs (loc s)) /\
        (l = [RNetdev c] \/ l = [RRegistered c; RNetdev c] \/
         l = [REnabled dev; RRegistered c; RNetdev c]))).

Section Pci.
Context {K : Kernel call}.
Implicit Types (s : state call e1000_state).

(** The state after alloc_etherdev returned [c]. *)
Definition probed (c : Z) (d : t_e1000_data) (S : e1000_state) : e1000_state :=
  mkE c (mac_address S) (<[c := mkDev d true false]> (devs S)) (areas S).

(** register_hw: no device, an unregistered one, a registered one. *)
Lemma wp_register_hw h dev (Q : Z -> state call e1000_state -> Prop) s :
  dev <> 0 ->
  (forall s', loc s' = upd_card 0 (loc s) -> (forall x, held x (tr s') = held x (tr s)) ->
     Q (- ENOMEM) s') ->
  (forall c s', c <> 0 -> loc s' = probed c data0 (loc s) ->
     (forall x, held x (tr s') = held x (tr s) + hold_all [RNetdev c] x) -> Q (- EFAULT) s') ->
  (forall c s', c <> 0 -> loc s' = probed c data0 (loc s) ->
     (forall x, held x (tr s') = held x (tr s) + hold_all [RRegistered c; RNetdev c] x) -> Q 0 s') ->
  wpx h (register_hw dev) Q s.
Proof.
  intros Hdev H0 H1 H2. unfold register_hw. destruct (Z.eqb_spec dev 0); [done|].
  unfold alloc_etherdev. esteps. set (c := u32 _).
  destruct (truth c) eqn:Ec; esteps; rewrite Ec; cbn [negb]; esteps.
  2: { destruct (truth_spec c) as [|Hc]; [done|]. assert (c = 0) as -> by lia. apply H0; [done|].
       intros x. cbn [tr]. by rewrite held_neutral. }
  assert (c <> 0) by (by destruct (truth_spec c)).
  assert (upd_dev c (fun d => mkDev (priv d) true (dev_addr d))
    (upd_card c (upd_devs (<[c := mkDev data0 false false]>) (loc s))) = probed c data0 (loc s)) as ->.
  { erewrite upd_dev_setd by apply lookup_insert_eq. unfold setd, probed. cbn.
    by rewrite insert_insert_eq. }
  set (rt := s32 _). destruct (truth rt) eqn:Er; esteps.
  - apply (H1 c); [done..|]. intros x. cbn [tr]. rewrite held_neutral by done.
    rewrite held_neutral by (cbn; by rewrite ?Er). rewrite held_neutral by done.
    erewrite held_maybe; [|done|cbn; by rewrite Ec]. cbn. lia.
  - apply (H2 c); [done..|]. intros x. cbn [tr]. rewrite held_neutral by done.
    erewrite held_maybe; [|done|cbn; by rewrite Er]. rewrite held_neutral by done.
    erewrite held_maybe; [|done|cbn; by rewrite Ec]. cbn. lia.
Qed.

Lemma wp_probe dev s : dev <> 0 -> wp (probe dev) (probe_post dev s) s.
Proof.
  intros Hdev. unfold probe. estep. apply wp_register_hw; [done|..].
  - intros s1 HS Hh. esteps. exists 0, []. rewrite HS. repeat split.
    + intros x. cbn [tr]. rewrite held_neutral by done. rewrite Hh. cbn. lia.
    + by right; left.
  - intros c s1 Hc HS Hh. esteps. exists c, [RNetdev c]. rewrite HS. repeat split.
    + intros x. cbn [tr]. rewrite held_neutral by done. by rewrite Hh.
    + do 2 right. repeat split; [done..|by left].
  - intros c s1 Hc HS Hh. change (truth 0) with false. cbv iota. esteps. set (e1 := s32 _). destruct (truth e1) eqn:E1; esteps.
    { exists c, [RRegistered c; RNetdev c]. cbn [loc]. rewrite HS. repeat split.
      - intros x. cbn [tr]. rewrite held_neutral by (cbn; by rewrite ?E1). by rewrite Hh.
      - do 2 right. repeat split; [|done|auto]. by destruct (truth_spec e1). }
    set (e2 := s32 _). destruct (truth e2) eqn:E2; esteps.
    { exists c, [REnabled dev; RRegistered c; RNetdev c]. cbn [loc]. rewrite HS. repeat split.
      - intros x. cbn [tr]. rewrite held_neutral by (cbn; by rewrite ?E2).
        erewrite held_maybe; [|done|cbn; by rewrite E1]. rewrite Hh. cbn. lia.
      - do 2 right. repeat split; [|done|auto]. by destruct (truth_spec e2). }
    rewrite HS. cbn [probed card].
    eapply wp_set_priv; [apply lookup_insert_eq|]. cbn [loc tr]. esteps.

    match goal with |- context [(PciIoremapBar dev 0, ?x)] => set (b := x) end.
    match goal with |- context [(PciIrq dev, ?x)] => set (n := x) end.
    exists c, (mapped b ++ [RRegion dev; REnabled dev; RRegistered c; RNetdev c]). repeat split.
    + intros x. cbn [tr]. rewrite held_neutral by done.
      erewrite held_maybe; [|done|cbn; reflexivity].
      erewrite held_maybe; [|done|cbn; by rewrite E2].
      erewrite held_maybe; [|done|cbn; by rewrite E1]. rewrite Hh. unfold mapped.
      destruct (truth b); cbn; lia.
    + left. split; [done|]. split; [done|]. exists b, n. split; [by eexists|]. split; [|done].
      unfold setd. cbn. by rewrite !insert_insert_eq.
Qed.

Lemma wp_remove h dev c nd (Q : unit -> state call e1000_state -> Prop) s :
  card (loc s) = c -> c <> 0 -> devs (loc s) !! c = Some nd ->
  Q tt (mkState (upd_devs (delete c) (loc s))
    ([(PciDisableDevice dev, 0); (PciReleaseRegion dev 0, 0); (FreeNetdev c, 0);
      (UnregisterNetdev c, 0); (Printk "remove called\n" [], 0)] ++ tr s)) ->
  wpx h (remove dev) Q s.
Proof.
  intros Hc Hn Hd HQ. unfold remove, unload_hw. esteps. rewrite Hc.
  destruct (truth_spec c); [|done]. esteps. exact HQ.
Qed.

(** C33: probe of a device ends in one of three ways: 0, the private data
    initialised and network device, registration, PCI enable, region and
    mapping held; -ENOMEM, nothing held; or another error with the network
    device (and, unless registering it failed, its registration, and
    possibly the PCI enable) still held. *)
Theorem e1000_probe_outcomes dev s : dev <> 0 -> wp (probe dev) (probe_post dev s) s.
Proof. apply wp_probe. Qed.

(** A successful probe followed by remove gives back everything but the
    mapping of the registers, which is never unmapped, and deletes the
    network device. *)
Theorem e1000_probe_remove dev s :
  dev <> 0 ->
  wp (let! r := probe dev in if truth r then ret r else remove dev ;; ret 0)
    (fun r s' => r = 0 ->
       (exists b, forall x, held x (tr s') = held x (tr s) + hold_all (mapped b) x) /\
       devs (loc s') = delete (card (loc s')) (devs (loc s)) /\ areas (loc s') = areas (loc s)) s.
Proof.
  intros Hdev. estep. eapply wp_mono; [by apply wp_probe|].
  intros r s1 (c & l & Hc & Hm & Ha & Hh & H).
  destruct (truth r) eqn:Er; esteps.
  { intros ->. done. }
  destruct (truth_spec r) as [|Hr]; [done|]. assert (r = 0) as -> by lia.
  destruct H as [(_ & Hn & b & n & _ & Hd & ->)|[(? & _)|(? & _)]]; [|done..].
  eapply wp_remove; [exact Hc|done|rewrite Hd; apply lookup_insert_eq|].
  esteps. intros _. split; [|split; [|done]].
  - exists b. intros x. cbn [tr app].
    do 4 (erewrite held_release by done). rewrite held_neutral by done. rewrite Hh.
    unfold mapped, hold1. destruct (truth b); cbn; unfold hold1; lia.
  - cbn. rewrite Hd, Hc. by rewrite delete_insert_eq.
Qed.

(** remove of any device frees the network device of the global card,
    and a second remove then follows the dangling pointer: with two cards
    probed, unloading accesses freed memory. *)
Theorem e1000_second_remove_faults dev1 dev2 c nd s :
  card (loc s) = c -> c <> 0 -> devs (loc s) !! c = Some nd ->
  faults BadPointer (remove dev1 ;; remove dev2) s.
Proof.
  intros Hc Hn Hd. apply faults_later. eapply wp_remove; [done..|].
  unfold remove. apply faults_later. estep. apply faults_now. unfold unload_hw.
  apply faults_later. estep. cbn. rewrite Hc. destruct (truth_spec c); [|done].
  apply faults_now. unfold faults, netdev_priv, bind, get. cbn.
  rewrite lookup_delete_eq. by eexists.
Qed.
End Pci.

(** ** Witnesses *)

Definition idle_state : state call e1000_state := mkState (mkE 0 (replicate 32 0) ∅ []) [].

Example e1000_probe_outcomes_witness :
  let K := card_kernel 0xF0000000 0 in
  wp (probe 5) (probe_post 5 idle_state) idle_state.
Proof. intros K. apply (e1000_probe_outcomes 5 idle_state). discriminate. Defined.

Example e1000_probe_remove_witness :
  let K := card_kernel 0xF0000000 0 in
  wp (let! r := probe 5 in if truth r then ret r else remove 5 ;; ret 0)
    (fun r s' => r = 0 ->
       (exists b, forall x, held x (tr s') = held x (tr idle_state) + hold_all (mapped b) x) /\
       devs (loc s') = delete (card (loc s')) (devs (loc idle_state)) /\
       areas (loc s') = areas (loc idle_state)) idle_state.
Proof. intros K. apply (e1000_probe_remove 5 idle_state). discriminate. Defined.

Example e1000_second_remove_faults_witness :
  let K := card_kernel 0xF0000000 0 in
  faults BadPointer (remove 4 ;; remove 5) card_state.
Proof.
  intros K. apply (e1000_second_remove_faults 4 5 0x1000 card_dev card_state);
    [reflexivity|discriminate|reflexivity].
Defined.
