(* ===== verification/E1000Life.v ===== *)
(** * The e1000 driver: the life of a card

    The entry points composed: a card is probed, opened, sends packets, and is
    closed and removed.  The theorem joins those of E1000Pci.v, E1000Spec.v and
    E1000Traffic.v, each discharging what the next needs. *)

From S2P Require Import Prelude CMonad LinuxApi E1000 E1000Card E1000Init E1000Spec E1000Traffic E1000Pci.

(** probe and e1000_open of the device it made. *)
Definition start `{Kernel call, AlignMacro} (fuel : nat) (dev : Z) : M call e1000_state Z :=
  let! r := probe dev in
  if truth r then ret r else
  let! c := gets card in
  e1000_open fuel c.

(** The same, and e1000_start_xmit of the packets [l]. *)
Definition bring_up `{Kernel call, AlignMacro} (fuel : nat) (dev : Z) (l : list sk_buff) :
    M call e1000_state Z :=
  let! r := start fuel dev in
  if truth r then ret r else
  let! c := gets card in
  xmit_all l c ;;
  ret 0.

(** e1000_close and remove. *)
Definition take_down `{Kernel call, AlignMacro} (dev : Z) : M call e1000_state unit :=
  let! c := gets card in
  let! _ := e1000_close c in
  remove dev.

(** A device at [dev] whose registers are mapped at [b], with a card there that
    keeps its registers and an EEPROM that answers. *)
Record card_at `{Kernel call} (dev b : Z) (fuel : nat) (w : Z -> Z)
    (ctrl0 rctl0 tctl0 rah0 tail0 : Z) : Prop := {
  ca_bar t : u32 (k_ret t (PciIoremapBar dev 0)) = b;
  ca_eeprom : eeprom_holds fuel b w;
  ca_ctrl : storage (u32 (b + CTRL_REG)) ctrl0;
  ca_rctl : storage (u32 (b + RCTL_REG)) rctl0;
  ca_tctl : storage (u32 (b + TCTL_REG)) tctl0;
  ca_rah : storage (u32 (b + RAH_REG)) rah0;
  ca_tail : storage (u32 (b + TDT_REG)) tail0
}.

(** The packets [l] in the send ring of the open card, from slot 0 on, where
    the last 256 are. *)
Definition sent_ring (b tail0 : Z) (l : list sk_buff) (s : state call e1000_state) : Prop :=
  exists nd, devs (loc s) !! card (loc s) = Some nd /\
    default tail0 (last_write (u32 (b + TDT_REG)) (tr s)) = zlen l mod 256 /\
    forall i skb, l !! i = Some skb -> (length l <= i + 256)%nat ->
      slot_holds (send (priv nd)) (tr s) (Z.of_nat i mod 256) skb.

Section Life.
Context {K : Kernel call} {Al : AlignMacro}.
Implicit Types (s : state call e1000_state).

Lemma send_open_ring ps ds pq dq pb pr l :
  Forall reachable_area [(pq, 524288); (ps, 8192); (pb, 4096); (pr, 4096)] ->
  send_open (mkRing ps ds 8192 pq dq 524288)
    ([(pq, 524288); (ps, 8192); (pb, 4096); (pr, 4096)] ++ l).
Proof.
  intros F. rewrite !Forall_cons in F. destruct F as ([] & [] & _). unfold send_open.
  cbn [descriptors buff fst snd] in *. split; [by right; left|]. split; [by left|]. done.
Qed.

(** probe and then open, when both succeed. *)
Lemma wp_start {L : DmaLaws} fuel dev b w ctrl0 rctl0 tctl0 rah0 tail0 s
    (Q : Z -> state call e1000_state -> Prop) :
  dev <> 0 -> zlen (mac_address (loc s)) = 32 -> card_at dev b fuel w ctrl0 rctl0 tctl0 rah0 tail0 ->
  (forall r s', r <> 0 -> Q r s') ->
  (forall nd c p1 p2 p3 p4 s',
     c <> 0 -> card (loc s') = c -> devs (loc s') = <[c := nd]> (devs (loc s)) -> bar (priv nd) = b ->
     send_open (send (priv nd)) (areas (loc s')) ->
     last_write (u32 (b + TDT_REG)) (tr s') = Some 0 ->
     descriptors (recv (priv nd)) = p1 -> buff (recv (priv nd)) = p2 ->
     descriptors (send (priv nd)) = p3 -> buff (send (priv nd)) = p4 ->
     (forall x, held x (tr s') = held x (tr s) + hold_all ([RIrq c; RDma p1; RDma p2; RDma p3; RDma p4] ++
        mapped b ++ [RRegion dev; REnabled dev; RRegistered c; RNetdev c]) x) -> Q 0 s') ->
  wp (start fuel dev) Q s.
Proof.
  intros Hdev Hm [Hb He HC HR HT HA _] HF HQ. unfold start. estep. eapply wp_mono; [by apply wp_probe|].
  intros r s1 (c & l & Hc & Hm1 & Ha1 & Hh1 & H1). destruct (truth r) eqn:Er.
  { estep. apply HF. by apply truth_true. }
  apply truth_false in Er as ->.
  destruct H1 as [(_ & Hn & b' & n & [t Eb] & Hd & ->)|[(? & _)|(? & _)]]; [|done..].
  rewrite Hb in Eb. subst b'. estep. estep. rewrite Hc.
  eapply wp_mono.
  { eapply (wp_e1000_open fuel c (mkDev (mkData dev c b n 0 ring0 ring0) true false));
      split; [done|]; split; [rewrite Hd; apply lookup_insert_eq|]; split; [by rewrite Hm1|]; done. }
  intros r s2 (_ & l & rr & sr & E & [(-> & H & F & (_ & (_ & _ & _ & _ & Ht & _) & _) & _ & _ & Hh2)|(Hr & _)]);
    [|by apply HF].
  destruct H as (pr & dr & pb & db & ps & ds & pq & dq & -> & -> & ->).
  eapply (HQ _ c); [exact Hn|by rewrite E|rewrite E; unfold setd; cbn; by rewrite Hd, insert_insert_eq|
    done| |exact Ht|reflexivity..|].
  - rewrite E. apply send_open_ring, F.
  - intros x. rewrite Hh2, Hh1, !dma_count_cons.
    assert (dma_count x [] = 0) as -> by (by destruct x).
    unfold hold_all. cbn -[hold1 held Z.add Z.sub mapped]. lia.
Qed.

(** C7: The life of a card, from probe to remove: when probing and opening
    succeed, any sequence of unfragmented packets of at most 2048 bytes is
    in the send ring from slot 0 on, the last 256 of them with their
    descriptors ready and the tail register after them; closing and removing
    the card then completes and leaves exactly the mapping of its registers
    held, and the network devices without that of the card. *)
Theorem e1000_lifecycle {L : DmaLaws} fuel dev b w ctrl0 rctl0 tctl0 rah0 tail0 l s :
  dev <> 0 -> zlen (mac_address (loc s)) = 32 -> card_at dev b fuel w ctrl0 rctl0 tctl0 rah0 tail0 ->
  Forall sendable l ->
  wp (bring_up fuel dev l) (fun r s1 => r = 0 ->
    sent_ring b tail0 l s1 /\
    wp (take_down dev) (fun _ s2 =>
      (forall x, held x (tr s2) = held x (tr s) + hold_all (mapped b) x) /\
      devs (loc s2) = delete (card (loc s1)) (devs (loc s))) s1) s.
Proof.
  intros Hdev Hm Hc Hl. unfold bring_up. estep. eapply wp_start; [done|done|exact Hc|..].
  { intros r s1 Hr. destruct (truth_spec r); [|done]. by estep. }
  intros nd c p1 p2 p3 p4 s1 Hn Ec Hd Hb Ho Ht H1 H2 H3 H4 Hh.
  change (truth 0) with false. cbv iota. do 3 estep. rewrite Ec.
  assert (devs (loc s1) !! c = Some nd) as Hnd by (rewrite Hd; apply lookup_insert_eq).
  eapply wp_mono; [eapply (wp_xmit_all _ _ nd tail0); [exact Hnd|exact Ho|rewrite Hb; by destruct Hc|
    by rewrite Hb, Ht|exact Hl]|].
  rewrite Hb, Ht. intros _ s2 (HS & Hw & Hx & Hi). estep. intros _. split.
  - exists nd. rewrite HS, Ec. split; [done|]. split; [exact Hw|exact Hi].
  - unfold take_down. do 3 estep. rewrite HS, Ec.
    eapply (wp_e1000_close _ _ nd); [by rewrite HS|rewrite Hb; by destruct Hc..|].
    intros s3 HS3 _ _ _ Hh3. cbn [CMonad.loc].
    eapply (wp_remove _ _ c nd); [by rewrite HS3, HS|done|by rewrite HS3, HS|].
    split.
    + intros x. cbn [tr app]. do 4 (erewrite held_release by done). rewrite held_neutral by done.
      rewrite Hh3, Hx, Hh, H1, H2, H3, H4, !hold_all_app.
      fold (hold1 (REnabled dev) x) (hold1 (RRegion dev) x) (hold1 (RNetdev c) x)
        (hold1 (RRegistered c) x).
      cbn -[hold1 held Z.add Z.sub mapped]. lia.
    + rewrite HS3, HS. cbn. by rewrite Hd, delete_insert_eq.
Qed.
End Life.

(** ** Witnesses *)

Lemma card_kernel_at : card_at (H := card_kernel 0xF0000000 0) 5 0xF0000000 1 eeprom_word 0 0 0 0 0.
Proof.
  split; [done|apply card_eeprom|..];
    (apply (card_storage 0xF0000000 0); [split; [done|reflexivity]|discriminate]).
Qed.

Example e1000_lifecycle_witness :
  let K := card_kernel 0xF0000000 0 in let Al := round_up in
  wp (bring_up 1 5 (replicate 300 skb60)) (fun r s1 => r = 0 ->
    sent_ring 0xF0000000 0 (replicate 300 skb60) s1 /\
    wp (take_down 5) (fun _ s2 =>
      (forall x, held x (tr s2) = held x (tr idle_state) + hold_all (mapped 0xF0000000) x) /\
      devs (loc s2) = delete (card (loc s1)) (devs (loc idle_state))) s1) idle_state.
Proof.
  intros K Al.
  apply (e1000_lifecycle (L := card_dma_laws 0xF0000000 0) 1 5 0xF0000000 eeprom_word 0 0 0 0 0
    (replicate 300 skb60) idle_state);
    [discriminate|reflexivity|apply card_kernel_at|apply Forall_replicate, skb60_sendable].
Defined.

(** On this card probing and opening do succeed. *)
Example e1000_comes_up :
  match bring_up (H := card_kernel 0xF0000000 0) (H0 := round_up) 1 5 [skb60] idle_state with
  | Ok r _ => r = 0
  | _ => False
  end.
Proof. vm_compute. reflexivity. Qed.
