(* ===== verification/LinuxChardev.v ===== *)
(** * The Linux character device that stores a string

    doc/systems/linux/chardev: ioctl_ui.h (the commands), userland_interface.h
    (the device structure) and userland_interface.c (the file operations, load
    and unload).  Theorems on the round trip from write to read, the invariant
    of the buffer and the operations that break it, and on what loading and
    unloading hold. *)

From S2P Require Import Prelude CMonad LinuxApi.

(** ** ioctl_ui.h *)

Definition MD_IOCTL_MAGIC := 0xf5.
Definition MD_GET_TSIZE `{IoctlAbi} := _IOR MD_IOCTL_MAGIC 1 4.
Definition MD_SET_TSIZE `{IoctlAbi} := _IOW MD_IOCTL_MAGIC 2 4.
Definition MD_FLUSH `{IoctlAbi} := _IO MD_IOCTL_MAGIC 3.

Definition DEVICE_NAME : string := "my_driver".

(** ** The external functions *)

Inductive call :=
| Kmalloc (size : Z)
| KmallocDev                                   (* of sizeof(struct my_dev) *)
| Kfree (p : Z)
| PutUser (v addr : Z)
| CopyToUser (to : Z) (from : bytes) (size : Z)
| CopyFromUser (from size : Z)
| Capable (cap : Z)
| AllocChrdevRegion (minor count : Z) (name : string)
| UnregisterChrdevRegion (dev count : Z)
| CdevInit
| CdevAdd (dev count : Z)
| CdevDel.

(** ** userland_interface.h

    [buffer] is the address of the buffer, 0 when null, and [block] what the
    buffer holds. *)
Record my_dev := mkDev {
  buffer : Z;
  block : bytes;
  size : Z;
  tsize : Z;
  cdev_owner : bool;
  cdev_dev : Z
}.

(** The global [datas] (its address and the structure) and the private data of
    the open file, null or [datas]. *)
Record chardev_state := mkSt {
  datas : option (Z * my_dev);
  private_data : bool
}.

Definition set_datas (d : my_dev) (s : chardev_state) : chardev_state :=
  mkSt (match datas s with Some (p, _) => Some (p, d) | None => None end) (private_data s).

Section Driver.
Context {K : Kernel call} {Abi : IoctlAbi}.

Local Abbreviation M := (M call chardev_state).

(** A block of fresh memory, [None] when there is none. *)
Definition kmalloc (n : Z) : M (option (Z * bytes)) :=
  let! content := delivered (Kmalloc n) n in
  let! p := ask u32 (Kmalloc n) in
  ret (if truth p then Some (p, content) else None).

(** The structure behind [datas], and behind [filp->private_data]. *)
Definition the_dev : M my_dev :=
  let! s := get in
  match datas s with Some (_, d) => ret d | None => fail BadPointer end.

Definition filp_dev : M my_dev :=
  let! s := get in
  if private_data s then the_dev else fail BadPointer.

Definition set_dev (f : my_dev -> my_dev) : M unit :=
  let! d := the_dev in modify (set_datas (f d)).

Definition with_buffer (p : Z) (b : bytes) (d : my_dev) : my_dev :=
  mkDev p b (size d) (tsize d) (cdev_owner d) (cdev_dev d).
Definition with_size (n : Z) (d : my_dev) : my_dev :=
  mkDev (buffer d) (block d) n (tsize d) (cdev_owner d) (cdev_dev d).
Definition with_tsize (n : Z) (d : my_dev) : my_dev :=
  mkDev (buffer d) (block d) (size d) n (cdev_owner d) (cdev_dev d).
Definition with_cdev (o : bool) (dev : Z) (d : my_dev) : my_dev :=
  mkDev (buffer d) (block d) (size d) (tsize d) o dev.

(** Accesses to the buffer: the null pointer faults unless nothing is accessed. *)
Definition buffer_bytes (d : my_dev) (n : Z) : M bytes :=
  if n =? 0 then ret [] else
  if negb (truth (buffer d)) then fail BadPointer else
  guard OutOfBounds (buf_slice (block d) 0 n).

Definition buffer_fill (src : bytes) : M unit :=
  let! d := the_dev in
  if zlen src =? 0 then ret tt else
  if negb (truth (buffer d)) then fail BadPointer else
  let! b := guard OutOfBounds (buf_blit (block d) 0 src) in
  set_dev (with_buffer (buffer d) b).

Definition buffer_set (i v : Z) : M unit :=
  let! d := the_dev in
  if negb (truth (buffer d)) then fail BadPointer else
  let! b := guard OutOfBounds (buf_set (block d) i (u8 v)) in
  set_dev (with_buffer (buffer d) b).

(** ** userland_interface.c: the file operations *)

Definition my_device_set_size (new_size : Z) : M Z :=
  let! d := the_dev in
  post (Kfree (buffer d)) ;;
  let! b := kmalloc (u32 (1 * new_size + 1)) in
  match b with
  | None => set_dev (with_buffer 0 []) ;; ret (- ENOMEM)
  | Some (p, content) =>
      set_dev (with_buffer p content) ;;
      set_dev (with_tsize new_size) ;;
      ret 0
  end.

Definition my_driver_ioctl (cmd arg : Z) : M Z :=
  let! d := filp_dev in
  if cmd =? MD_GET_TSIZE then post (PutUser (tsize d) arg) ;; ret 0 else
  if cmd =? MD_SET_TSIZE then my_device_set_size (s32 arg) else
  if cmd =? MD_FLUSH then
    let! ok := ask s32 (Capable CAP_SYS_RAWIO) in
    if negb (truth ok) then ret (- EPERM) else
    set_dev (with_size 0) ;; ret 0
  else ret (- EINVAL).

(** [sz] is a size_t; comparing it with an int converts the int. *)
Definition my_driver_read (user_buff sz : Z) : M Z :=
  let! d := filp_dev in
  let sz := if sz >? u32 (size d) then u32 (size d) else sz in
  let! from := buffer_bytes d sz in
  let! rt := ask s32 (CopyToUser user_buff from sz) in
  if truth rt then ret (- EFAULT) else ret sz.

Definition my_driver_write (user_buff sz : Z) : M Z :=
  let! d := filp_dev in
  if sz >? u32 (tsize d) then ret (- EFAULT) else
  let! data := delivered (CopyFromUser user_buff sz) sz in
  let! rt := ask s32 (CopyFromUser user_buff sz) in
  buffer_fill data ;;
  if truth rt then ret (- EFAULT) else
  set_dev (with_size (s32 sz)) ;;
  buffer_set sz 0 ;;
  ret sz.

Definition my_driver_open : M Z :=
  modify (fun s => mkSt (datas s) true) ;; ret 0.

(** ** userland_interface.c: load and unload *)

(** The fields of a fresh structure are whatever the memory held. *)
Definition my_driver_init : M Z :=
  let! sz := filled s32 KmallocDev 0 in
  let! tsz := filled s32 KmallocDev 1 in
  let! p := ask u32 KmallocDev in
  if negb (truth p) then
    modify (fun s => mkSt None (private_data s)) ;; ret (- ENOMEM)
  else
  modify (fun s => mkSt (Some (p, mkDev 0 [] sz tsz false 0)) (private_data s)) ;;
  let! b := kmalloc (1 * 42 + 1) in
  match b with
  | None => set_dev (with_buffer 0 []) ;; ret (- ENOMEM)
  | Some (q, content) =>
      set_dev (with_buffer q content) ;;
      set_dev (with_size 0) ;;
      set_dev (with_tsize 42) ;;
      let minor := 0 in
      let! devicenumber := filled u32 (AllocChrdevRegion minor 1 DEVICE_NAME) 0 in
      let! rt := ask s32 (AllocChrdevRegion minor 1 DEVICE_NAME) in
      if truth rt then ret (-1) else
      post CdevInit ;;
      set_dev (with_cdev false devicenumber) ;; (* done by cdev_add *)
      let! rt := ask s32 (CdevAdd devicenumber 1) in
      if truth rt then ret (-1) else
      set_dev (with_cdev true devicenumber) ;;
      ret 0
  end.

Definition my_driver_exit : M unit :=
  let! d := the_dev in
  post (UnregisterChrdevRegion (cdev_dev d) 1) ;;
  post CdevDel.
End Driver.

(** ** Well-formed devices *)

(** The buffer exists, has a byte more than [tsize], and [size] of its bytes
    are valid. *)
Definition wf_dev (d : my_dev) : Prop :=
  buffer d <> 0 /\ zlen (block d) = tsize d + 1 /\ 0 <= size d <= tsize d /\ tsize d < 2 ^ 31 - 1.

Definition wf (s : chardev_state) : Prop :=
  private_data s = true /\ exists p d, datas s = Some (p, d) /\ wf_dev d.

Section Rules.
Context {K : Kernel call} {Abi : IoctlAbi}.
Implicit Types (s : state call chardev_state).

Lemma wp_the_dev h p d (Q : my_dev -> state call chardev_state -> Prop) s :
  datas (loc s) = Some (p, d) -> Q d s -> wpx h the_dev Q s.
Proof. intros E HQ. unfold the_dev. steps. by rewrite E. Qed.

Lemma wp_filp_dev h p d (Q : my_dev -> state call chardev_state -> Prop) s :
  datas (loc s) = Some (p, d) -> private_data (loc s) = true -> Q d s -> wpx h filp_dev Q s.
Proof. intros E1 E2 HQ. unfold filp_dev. steps. rewrite E2. by eapply wp_the_dev. Qed.

Lemma wp_set_dev h p d f (Q : unit -> state call chardev_state -> Prop) s :
  datas (loc s) = Some (p, d) ->
  Q tt (mkState (mkSt (Some (p, f d)) (private_data (loc s))) (tr s)) ->
  wpx h (set_dev f) Q s.
Proof.
  intros E HQ. unfold set_dev. step. eapply wp_the_dev; [done|]. step. unfold set_datas.
  by rewrite E.
Qed.

Lemma wp_buffer_bytes h d n (Q : bytes -> state call chardev_state -> Prop) s :
  buffer d <> 0 -> 0 <= n <= zlen (block d) -> Q (take (Z.to_nat n) (block d)) s ->
  wpx h (buffer_bytes d n) Q s.
Proof.
  intros Hb Hn HQ. unfold buffer_bytes. destruct (Z.eqb_spec n 0) as [->|]; [by steps|].
  destruct (truth_spec (buffer d)); [|done]. cbn [negb].
  eapply wp_guard; [apply buf_slice_Some; lia|]. done.
Qed.

Lemma wp_buffer_fill h p d data (Q : unit -> state call chardev_state -> Prop) s :
  datas (loc s) = Some (p, d) -> buffer d <> 0 -> zlen data <= zlen (block d) ->
  (forall b, zlen b = zlen (block d) -> b = data ++ drop (length data) (block d) ->
     Q tt (mkState (mkSt (Some (p, with_buffer (buffer d) b d)) (private_data (loc s))) (tr s))) ->
  wpx h (buffer_fill data) Q s.
Proof.
  intros E Hb Hl HQ. unfold buffer_fill. step. eapply wp_the_dev; [done|].
  destruct (Z.eqb_spec (zlen data) 0) as [H0|H0].
  - steps. specialize (HQ (block d) eq_refl).
    destruct data; [|unfold zlen in H0; simpl in H0; lia]. cbn [length app drop] in HQ.
    assert (mkSt (Some (p, with_buffer (buffer d) (block d) d)) (private_data (loc s)) = loc s) as E'
      by (destruct (loc s) as [o pd]; cbn in *; subst o; by destruct d).
    rewrite E' in HQ. destruct s. by apply HQ.
  - destruct (truth_spec (buffer d)); [|done]. cbn [negb]. step.
    eapply wp_guard; [apply buf_blit_Some; [lia|lia]|].
    change (take (Z.to_nat 0) (block d) ++ data ++ drop (Z.to_nat 0 + length data) (block d))
      with (data ++ drop (length data) (block d)).
    eapply wp_set_dev; [done|]. apply HQ; [|done].
    unfold zlen in *. rewrite length_app, length_drop. lia.
Qed.

Lemma wp_buffer_set h p d i v (Q : unit -> state call chardev_state -> Prop) s :
  datas (loc s) = Some (p, d) -> buffer d <> 0 -> 0 <= i < zlen (block d) ->
  Q tt (mkState (mkSt (Some (p, with_buffer (buffer d) (<[Z.to_nat i := u8 v]> (block d)) d))
                   (private_data (loc s))) (tr s)) ->
  wpx h (buffer_set i v) Q s.
Proof.
  intros E Hb Hi HQ. unfold buffer_set. step. eapply wp_the_dev; [done|].
  destruct (truth_spec (buffer d)); [|done]. cbn [negb]. step.
  eapply wp_guard; [by apply buf_set_Some|]. by eapply wp_set_dev.
Qed.

(** my_driver_write on a well-formed device. *)
Lemma wp_write h p d ubuf sz (Q : Z -> state call chardev_state -> Prop) s :
  datas (loc s) = Some (p, d) -> private_data (loc s) = true -> wf_dev d -> 0 <= sz ->
  (tsize d < sz -> Q (- EFAULT) s) ->
  (forall d' rt, sz <= tsize d -> rt = s32 (k_ret (tr s) (CopyFromUser ubuf sz)) -> rt <> 0 ->
     wf_dev d' -> size d' = size d -> tsize d' = tsize d ->
     block d' = delivery (tr s) (CopyFromUser ubuf sz) sz ++ drop (Z.to_nat sz) (block d) ->
     Q (- EFAULT) (mkState (mkSt (Some (p, d')) true) ((CopyFromUser ubuf sz, rt) :: tr s))) ->
  (forall d', sz <= tsize d -> s32 (k_ret (tr s) (CopyFromUser ubuf sz)) = 0 ->
     wf_dev d' -> size d' = sz -> tsize d' = tsize d ->
     take (Z.to_nat sz) (block d') = delivery (tr s) (CopyFromUser ubuf sz) sz ->
     block d' !! Z.to_nat sz = Some 0 ->
     Q sz (mkState (mkSt (Some (p, d')) true) ((CopyFromUser ubuf sz, 0) :: tr s))) ->
  wpx h (my_driver_write ubuf sz) Q s.
Proof.
  intros E Hp (Hb & Hl & Hs & Ht) Hsz H0 H1 H2. change (2 ^ 31) with 2147483648 in *.
  unfold my_driver_write. step. eapply wp_filp_dev; [done..|]. rewrite u32_id by lia.
  rewrite Z.gtb_ltb. destruct (Z.ltb_spec (tsize d) sz); [by apply H0|]. steps.
  set (rt := s32 _). set (data := delivery _ _ _).
  assert (zlen data = sz) as Hz by (by apply zlen_delivery).
  eapply wp_buffer_fill; [done|done|lia|]. intros b Hlb Eb. cbn [loc tr]. rewrite Hp.
  destruct (truth rt) eqn:Er.
  - steps. apply H1; [done|done|by destruct (truth_spec rt)|split; cbn; [done|lia]|done|done|].
    cbn. replace (Z.to_nat sz) with (length data) by (unfold zlen in Hz; lia). exact Eb.
  - assert (rt = 0) as Er0 by (destruct (truth_spec rt); [done|lia]). rewrite Er0. step.
    eapply wp_set_dev; [reflexivity|]. step. cbn [loc tr private_data].
    eapply wp_buffer_set; [reflexivity|done|cbn; lia|]. steps. rewrite s32_id by lia.
    assert (Z.to_nat sz = length data) as Hn by (unfold zlen in Hz; lia).
    apply H2; [done|exact Er0|split; cbn|done|done| |]; cbn.
    + done.
    + unfold zlen in *. rewrite length_insert. lia.
    + rewrite take_insert_ge by lia. rewrite Eb, Hn. by rewrite take_app_length.
    + change (u8 0) with 0. apply list_lookup_insert_eq. unfold zlen in Hlb, Hl. lia.
Qed.

Lemma wp_read h p d ubuf sz (Q : Z -> state call chardev_state -> Prop) s :
  datas (loc s) = Some (p, d) -> private_data (loc s) = true -> wf_dev d -> 0 <= sz ->
  (forall rt, let n := Z.min sz (size d) in
     rt = s32 (k_ret (tr s) (CopyToUser ubuf (take (Z.to_nat n) (block d)) n)) ->
     Q (if truth rt then - EFAULT else n)
       (mkState (loc s) ((CopyToUser ubuf (take (Z.to_nat n) (block d)) n, rt) :: tr s))) ->
  wpx h (my_driver_read ubuf sz) Q s.
Proof.
  intros E Hp (Hb & Hl & Hs & Ht) Hsz HQ. change (2 ^ 31) with 2147483648 in *.
  unfold my_driver_read. step. eapply wp_filp_dev; [done..|]. rewrite u32_id by lia.
  replace (if sz >? size d then size d else sz) with (Z.min sz (size d))
    by (rewrite Z.gtb_ltb; destruct (Z.ltb_spec (size d) sz); lia).
  cbv zeta. step. apply wp_buffer_bytes; [done|lia|]. steps. set (rt := s32 _).
  specialize (HQ rt eq_refl). destruct (truth rt); by steps.
Qed.

Lemma wp_kmalloc h n (Q : option (Z * bytes) -> state call chardev_state -> Prop) s :
  (forall q content, q = u32 (k_ret (tr s) (Kmalloc n)) -> q <> 0 ->
     content = delivery (tr s) (Kmalloc n) n ->
     Q (Some (q, content)) (mkState (loc s) ((Kmalloc n, q) :: tr s))) ->
  (u32 (k_ret (tr s) (Kmalloc n)) = 0 -> Q None (mkState (loc s) ((Kmalloc n, 0) :: tr s))) ->
  wpx h (kmalloc n) Q s.
Proof.
  intros HS HN. unfold kmalloc. steps. set (q := u32 _) in *.
  destruct (truth_spec q) as [Hq|Hq]; [by apply HS|].
  assert (q = 0) as E by lia. rewrite E in *. by apply HN.
Qed.

(** my_device_set_size on any device: by the answer of the allocator. *)
Lemma wp_set_size h p d n (Q : Z -> state call chardev_state -> Prop) s :
  let c := Kmalloc (u32 (1 * n + 1)) in
  let t := (Kfree (buffer d), 0) :: tr s in
  datas (loc s) = Some (p, d) ->
  (forall q content, q <> 0 -> q = u32 (k_ret t c) -> content = delivery t c (u32 (1 * n + 1)) ->
     Q 0 (mkState (mkSt (Some (p, with_tsize n (with_buffer q content d))) (private_data (loc s)))
            ((c, q) :: t))) ->
  (u32 (k_ret t c) = 0 ->
     Q (- ENOMEM) (mkState (mkSt (Some (p, with_buffer 0 [] d)) (private_data (loc s))) ((c, 0) :: t))) ->
  wpx h (my_device_set_size n) Q s.
Proof.
  intros c t E HS HN. unfold my_device_set_size. step. eapply wp_the_dev; [done|]. steps.
  apply wp_kmalloc.
  - intros q content Eq Hq Ec. step. eapply wp_set_dev; [done|]. step.
    eapply wp_set_dev; [reflexivity|]. steps. by apply HS.
  - intros Ez. step. eapply wp_set_dev; [done|]. steps. by apply HN.
Qed.
End Rules.

(** ** Resources *)

Inductive resource := RMem (p : Z) | RChrdev (n : Z) | RCdev.

#[export] Instance resource_eq_dec : EqDecision resource.
Proof. solve_decision. Defined.

#[export] Instance chardev_resources : Resources call resource := {|
  acquires e :=
    match e with
    | (Kmalloc _, p) | (KmallocDev, p) => if truth p then Some (RMem p) else None
    | (AllocChrdevRegion _ n _, r) => if truth r then None else Some (RChrdev n)
    | (CdevAdd _ _, r) => if truth r then None else Some RCdev
    | _ => None
    end;
  releases e :=
    match e with
    | (Kfree p, _) => Some (RMem p)
    | (UnregisterChrdevRegion _ n, _) => Some (RChrdev n)
    | (CdevDel, _) => Some RCdev
    | _ => None
    end
|}.

(** ** The properties *)

(** The operations of an open file. *)
Inductive op :=
| Read (ubuf sz : Z)
| Write (ubuf sz : Z)
| Ioctl (cmd arg : Z).

Section Properties.
Context {K : Kernel call} {Abi : IoctlAbi}.
Implicit Types (s : state call chardev_state).

Definition run_op (o : op) : M call chardev_state Z :=
  match o with
  | Read ubuf sz => my_driver_read ubuf sz
  | Write ubuf sz => my_driver_write ubuf sz
  | Ioctl cmd arg => my_driver_ioctl cmd arg
  end.

(** A new size must cover the data of the device. *)
Definition op_ok (d : my_dev) (o : op) : Prop :=
  match o with
  | Read _ sz | Write _ sz => 0 <= sz
  | Ioctl cmd arg => cmd = MD_SET_TSIZE -> size d <= s32 arg < 2 ^ 31 - 1
  end.

(** C28: On a device whose buffer exists with one byte more than tsize and
    whose size is at most tsize, every read, write and ioctl of whatever
    arguments runs without a fault and keeps the device so, provided a new
    size is not below the stored size; the one exception is a resize for
    which memory is refused. *)
Theorem my_driver_ops_preserve p d o s :
  datas (loc s) = Some (p, d) -> private_data (loc s) = true -> wf_dev d -> op_ok d o ->
  wp (run_op o) (fun r s' =>
    wf (loc s') \/ (exists arg, o = Ioctl MD_SET_TSIZE arg /\ r = - ENOMEM)) s.
Proof.
  intros E Hp Hwf Hok. assert (wf (loc s)) as Hs by (split; [done|eauto]).
  destruct o as [ubuf sz|ubuf sz|cmd arg]; cbn [run_op op_ok] in *.
  - eapply wp_read; [done..|]. intros rt n _. by left.
  - eapply wp_write; [done..| | |].
    + by left.
    + intros. left. split; [done|]. cbn. eauto.
    + intros. left. split; [done|]. cbn. eauto.
  - unfold my_driver_ioctl. step. eapply wp_filp_dev; [done..|].
    destruct (cmd =? MD_GET_TSIZE); [steps; by left|].
    destruct (Z.eqb_spec cmd MD_SET_TSIZE) as [->|].
    { specialize (Hok eq_refl). destruct Hwf as (Hb & Hl & Hz & Ht).
      change (2 ^ 31) with 2147483648 in *.
      eapply wp_set_size; [done| |].
      - intros q content Hq _ Ec. left. split; [done|]. exists p. eexists. split; [done|].
        repeat split; cbn; try lia.
        rewrite Ec, zlen_delivery by apply u32_range. rewrite u32_id by lia. lia.
      - intros _. right. eauto. }
    destruct (cmd =? MD_FLUSH); [|steps; by left].
    steps. destruct (truth _); cbn [negb]; steps; [|by left].
    eapply wp_set_dev; [done|]. steps. left. split; [done|]. exists p. eexists. split; [done|].
    destruct Hwf as (Hb & Hl & Hz & Ht). repeat split; cbn; (done || lia).
Qed.

(** my_driver_read, started after the calls [t] on a device that stores
    [stored], answers [r] and leaves the trace [t']: it hands out the first [m]
    bytes, or all of them, in one call, whose answer decides. *)
Definition reads_back {K : Kernel call} (ubuf m : Z) (stored : bytes) (t : list (call * Z))
    (r : Z) (t' : list (call * Z)) : Prop :=
  let k := Z.min m (zlen stored) in
  let c := CopyToUser ubuf (take (Z.to_nat k) stored) k in
  let rt := s32 (k_ret t c) in
  t' = (c, rt) :: t /\ (rt = 0 -> r = k) /\ (rt <> 0 -> r = - EFAULT).

Lemma wp_reads_back h p d ubuf m (Q : Z -> state call chardev_state -> Prop) s :
  datas (loc s) = Some (p, d) -> private_data (loc s) = true -> wf_dev d -> 0 <= m ->
  (forall r s', loc s' = loc s ->
     reads_back ubuf m (take (Z.to_nat (size d)) (block d)) (tr s) r (tr s') -> Q r s') ->
  wpx h (my_driver_read ubuf m) Q s.
Proof.
  intros E Hp Hwf Hm HQ. eapply wp_read; [done..|]. intros rt k Ert. apply HQ; [done|].
  destruct Hwf as (_ & Hl & Hs & _). unfold reads_back.
  assert (zlen (take (Z.to_nat (size d)) (block d)) = size d) as ->
    by (unfold zlen in *; rewrite length_take; lia).
  fold k. rewrite take_take, Nat.min_l by lia. rewrite <- Ert. split; [done|].
  split; destruct (truth_spec rt); done.
Qed.

(** C31: Writing n bytes and reading m back: the write answers n exactly
    when n is at most tsize and copy_from_user answers 0, and -EFAULT
    otherwise. The read then makes one copy_to_user, of the first min(m, k)
    of the k bytes stored, and answers min(m, k) when that copy answers 0
    and -EFAULT otherwise. The bytes stored are the n bytes the write took
    when it succeeded, the former ones when it refused the size, and, when
    the copy from the user failed, what that copy left in the former size
    bytes. *)
Theorem my_driver_write_read p d ubuf n ubuf' m s :
  let from := CopyFromUser ubuf n in
  let data := delivery (tr s) from n in
  let rt := s32 (k_ret (tr s) from) in
  datas (loc s) = Some (p, d) -> private_data (loc s) = true -> wf_dev d -> 0 <= n -> 0 <= m ->
  wp (let! w := my_driver_write ubuf n in
      let! r := my_driver_read ubuf' m in ret (w, r))
    (fun '(w, r) s' =>
      (n <= tsize d -> rt = 0 ->
         w = n /\ reads_back ubuf' m data ((from, 0) :: tr s) r (tr s')) /\
      (n <= tsize d -> rt <> 0 ->
         w = - EFAULT /\ reads_back ubuf' m
           (take (Z.to_nat (size d)) (data ++ drop (Z.to_nat n) (block d))) ((from, rt) :: tr s) r (tr s')) /\
      (tsize d < n ->
         w = - EFAULT /\ reads_back ubuf' m (take (Z.to_nat (size d)) (block d)) (tr s) r (tr s'))) s.
Proof.
  intros from data rt E Hp Hwf Hn Hm. step. eapply wp_write; [done..|done| | |].
  - intros Hlt. step. eapply wp_reads_back; [done..|]. intros r s' _ H. steps.
    split; [|split]; intros; (lia || by split).
  - intros d' rt' Hle -> Hrt Hwf' Hs Ht Hb. fold from data rt. step.
    eapply wp_reads_back; [done..|]. intros r s' _ H. rewrite Hs, Hb in H. steps.
    split; [|split]; intros; (lia || by split).
  - intros d' Hle Hrt Hwf' Hs Ht Hd _. fold from data. step.
    eapply wp_reads_back; [done..|]. intros r s' _ H. rewrite Hs, Hd in H. steps.
    split; [|split]; intros; (lia || by split).
Qed.

(** MD_SET_TSIZE to a size below the stored one keeps the stored size:
    the next read of more than the new block holds is an access out of
    bounds of the new, uninitialised, buffer. *)
Theorem my_driver_shrink_overread p d arg ubuf m s :
  datas (loc s) = Some (p, d) -> private_data (loc s) = true -> wf_dev d ->
  0 <= s32 arg -> s32 arg + 1 < size d -> s32 arg + 1 < m ->
  (forall t c, u32 (k_ret t (Kmalloc c)) <> 0) ->
  faults OutOfBounds (let! _ := my_driver_ioctl MD_SET_TSIZE arg in my_driver_read ubuf m) s.
Proof.
  intros E Hp (Hb & Hl & Hz & Ht) Ha Hs Hm Hk. change (2 ^ 31) with 2147483648 in *.
  apply faults_later. unfold my_driver_ioctl. step. eapply wp_filp_dev; [done..|].
  unfold MD_SET_TSIZE, MD_GET_TSIZE, _IOR, _IOW. ioctl_cases.
  eapply wp_set_size; [done| |by intros ?%Hk].
  intros q content Hq _ Ec. unfold my_driver_read. apply faults_later.
  eapply wp_filp_dev; [done..|]. cbn [size with_tsize with_buffer]. rewrite u32_id by lia.
  assert (exists k, (if m >? size d then size d else m) = k /\ s32 arg + 1 < k) as (k & Ek & Hlt).
  { eexists. split; [done|]. destruct (m >? size d); lia. }
  cbv zeta. rewrite Ek. apply faults_now. unfold buffer_bytes.
  destruct (Z.eqb_spec k 0); [lia|]. cbn [buffer with_tsize with_buffer].
  destruct (truth_spec q); [|done]. cbn [negb block with_tsize with_buffer].
  rewrite buf_slice_None; [by eexists|lia|].
  rewrite Ec, zlen_delivery by apply u32_range. rewrite u32_id by lia. lia.
Qed.

(** When MD_SET_TSIZE finds no memory it returns with a null buffer and
    the old tsize: the next write that size admits goes through the null
    pointer, even a write of nothing. *)
Theorem my_driver_nomem_dangles p d arg ubuf n s :
  datas (loc s) = Some (p, d) -> private_data (loc s) = true -> wf_dev d ->
  (forall t c, u32 (k_ret t (Kmalloc c)) = 0) -> 0 <= n <= tsize d ->
  (forall t, s32 (k_ret t (CopyFromUser ubuf n)) = 0) ->
  faults BadPointer (let! _ := my_driver_ioctl MD_SET_TSIZE arg in my_driver_write ubuf n) s.
Proof.
  intros E Hp (Hb & Hl & Hz & Ht) Hk Hn Hc. change (2 ^ 31) with 2147483648 in *.
  apply faults_later. unfold my_driver_ioctl. step. eapply wp_filp_dev; [done..|].
  unfold MD_SET_TSIZE, MD_GET_TSIZE, _IOR, _IOW. ioctl_cases.
  eapply wp_set_size; [done|intros q ? ? Eq; by rewrite Hk in Eq|]. intros _.
  unfold my_driver_write. apply faults_later. eapply wp_filp_dev; [done..|].
  cbn [tsize with_buffer]. rewrite u32_id by lia.
  rewrite Z.gtb_ltb. destruct (Z.ltb_spec (tsize d) n); [lia|].
  apply faults_later. step. apply faults_later. step. rewrite Hc.
  destruct (Z.eqb_spec n 0) as [Hn0|Hn0].
  - apply faults_later. unfold buffer_fill. step. eapply wp_the_dev; [reflexivity|].
    rewrite zlen_delivery by lia. rewrite Hn0. change (0 =? 0) with true. cbv iota. step.
    change (truth 0) with false. cbv iota. apply faults_later. eapply wp_set_dev; [reflexivity|].
    apply faults_now. unfold buffer_set. apply faults_later. eapply wp_the_dev; [reflexivity|].
    cbn. by eexists.
  - apply faults_now. unfold buffer_fill. apply faults_later. eapply wp_the_dev; [reflexivity|].
    rewrite zlen_delivery by lia. destruct (Z.eqb_spec n 0); [lia|]. cbn. by eexists.
Qed.

(** What my_driver_init returns and holds. *)
Definition init_post s (r : Z) (s' : state call chardev_state) : Prop :=
  exists l, (forall x, held x (tr s') = held x (tr s) + hold_all l x) /\
  ((r = 0 /\ exists p q d, datas (loc s') = Some (p, d) /\ wf_dev d /\ buffer d = q /\
      size d = 0 /\ tsize d = 42 /\ l = [RCdev; RChrdev 1; RMem q; RMem p]) \/
   (r = - ENOMEM /\ (l = [] \/ exists p, l = [RMem p])) \/
   (r = -1 /\ exists p q, l = [RMem q; RMem p] \/ l = [RChrdev 1; RMem q; RMem p])).

Lemma wp_init s : wp my_driver_init (init_post s) s.
Proof.
  unfold my_driver_init. steps. set (p := u32 _). destruct (truth p) eqn:Ep; cbn [negb]; steps.
  2: { exists []. split; [|right; left; auto]. intros x. cbn [tr].
       rewrite held_neutral by (cbn; by rewrite ?Ep). cbn. lia. }
  apply wp_kmalloc.
  2: { intros Hz. step. eapply wp_set_dev; [reflexivity|]. steps. exists [RMem p].
       split; [|right; left; eauto]. intros x. cbn [tr]. rewrite held_neutral by done.
       erewrite held_maybe; [|done|cbn; by rewrite Ep]. cbn. lia. }
  intros q content Eq Hq Ec. assert (truth q = true) as Tq by (by destruct (truth_spec q)).
  do 3 (step; eapply wp_set_dev; [reflexivity|]). cbn [loc tr]. steps.
  set (e1 := s32 _). destruct (truth e1) eqn:E1; steps.
  { exists [RMem q; RMem p]. split; [|right; right; split; [done|eauto]]. intros x. cbn [tr].
    rewrite held_neutral by (cbn; by rewrite ?E1). erewrite held_maybe; [|done|cbn; by rewrite Tq].
    erewrite held_maybe; [|done|cbn; by rewrite Ep]. cbn. lia. }
  eapply wp_set_dev; [reflexivity|]. steps. set (e2 := s32 _). destruct (truth e2) eqn:E2; steps.
  { exists [RChrdev 1; RMem q; RMem p]. split; [|right; right; split; [done|eauto]].
    intros x. cbn [tr]. rewrite held_neutral by (cbn; by rewrite ?E2). rewrite held_neutral by done.
    erewrite held_maybe; [|done|cbn; by rewrite E1]. erewrite held_maybe; [|done|cbn; by rewrite Tq].
    erewrite held_maybe; [|done|cbn; by rewrite Ep]. cbn. lia. }
  eapply wp_set_dev; [reflexivity|]. steps. exists [RCdev; RChrdev 1; RMem q; RMem p]. split.
  - intros x. cbn [tr]. erewrite held_maybe; [|done|cbn; by rewrite E2]. rewrite held_neutral by done.
    erewrite held_maybe; [|done|cbn; by rewrite E1]. erewrite held_maybe; [|done|cbn; by rewrite Tq].
    erewrite held_maybe; [|done|cbn; by rewrite Ep]. cbn. lia.
  - left. split; [done|]. exists p, q. eexists. split; [done|]. split; [|done].
    repeat split; cbn; try done. rewrite Ec. by apply zlen_delivery.
Qed.

(** my_driver_init ends in one of three ways: 0 with a well-formed
    empty device of 42 bytes, holding structure, buffer, device number and
    character device; -ENOMEM, the structure possibly still held; or -1,
    structure and buffer and possibly the device number still held. *)
Theorem my_driver_init_outcomes s : wp my_driver_init (init_post s) s.
Proof. apply wp_init. Qed.

(** Loading the module and unloading it leaves two blocks of memory
    held, the structure and the buffer; the device number and the character
    device are given back. *)
Theorem my_driver_exit_leaks s :
  wp (let! r := my_driver_init in if truth r then ret r else my_driver_exit ;; ret 0)
    (fun r s' => r = 0 -> exists p q, forall x,
       held x (tr s') = held x (tr s) + hold_all [RMem q; RMem p] x) s.
Proof.
  step. eapply wp_mono; [apply wp_init|]. intros r s1 (l & Hh & H).
  destruct (truth r) eqn:Er; [steps; intros ->; done|].
  destruct (truth_spec r) as [|Hr]; [done|].
  destruct H as [(_ & p & q & d & E & _ & _ & _ & _ & ->)|[(-> & _)|(-> & _)]];
    [|by destruct Hr..].
  unfold my_driver_exit. do 2 step. eapply wp_the_dev; [done|]. steps. intros _. exists p, q.
  intros x. cbn [tr]. do 2 (erewrite held_release by done). rewrite Hh.
  cbn [hold_all foldr]. unfold hold1. lia.
Qed.
End Properties.

(** ** Witnesses *)

(** Memory is available, or not; the user's bytes are 0, 1, 2, ... *)
Definition plain_kernel (mem : Z) : Kernel call := {|
  k_ret t c :=
    match c with
    | Kmalloc _ | KmallocDev => mem
    | Capable _ => 1
    | _ => 0
    end;
  k_out t c i := i
|}.

Definition the_device : my_dev := mkDev 0x2000 (replicate 43 0) 20 42 true 0xf00001.

Definition open_file : state call chardev_state := mkState (mkSt (Some (0x1000, the_device)) true) [].

Lemma the_device_wf : wf_dev the_device.
Proof. by repeat split; vm_compute. Qed.

Example my_driver_ops_preserve_witness :
  let K := plain_kernel 0x3000 in let Abi := generic_ioctl_abi in
  wp (run_op (Ioctl MD_SET_TSIZE 100)) (fun r s' =>
    wf (loc s') \/ (exists arg, Ioctl MD_SET_TSIZE 100 = Ioctl MD_SET_TSIZE arg /\ r = - ENOMEM)) open_file.
Proof.
  intros K Abi. apply (my_driver_ops_preserve 0x1000 the_device);
    [reflexivity|reflexivity|apply the_device_wf|].
  intros _. split; [vm_compute; discriminate|reflexivity].
Defined.

Example my_driver_write_read_witness :
  let K := plain_kernel 0x3000 in
  wp (let! w := my_driver_write 1 42 in let! r := my_driver_read 2 10 in ret (w, r))
    (fun '(w, r) s' => w = 42 /\ r = 10 /\
      tr s' = [(CopyToUser 2 (seqZ 0 10) 10, 0); (CopyFromUser 1 42, 0)]) open_file.
Proof.
  intros K. eapply wp_mono.
  - apply (my_driver_write_read 0x1000 the_device 1 42 2 10 open_file);
      [reflexivity|reflexivity|apply the_device_wf|discriminate|discriminate].
  - intros [w r] s' (H & _). destruct H as (-> & Ht & Hr & _); [discriminate|reflexivity|].
    split; [reflexivity|]. split; [apply Hr; reflexivity|exact Ht].
Defined.

Example my_driver_shrink_overread_witness :
  let K := plain_kernel 0x3000 in let Abi := generic_ioctl_abi in
  faults OutOfBounds (let! _ := my_driver_ioctl MD_SET_TSIZE 5 in my_driver_read 1 20) open_file.
Proof.
  intros K Abi. apply (my_driver_shrink_overread 0x1000 the_device);
    [reflexivity|reflexivity|apply the_device_wf|discriminate|reflexivity|reflexivity|discriminate].
Defined.

Example my_driver_nomem_dangles_witness :
  let K := plain_kernel 0 in let Abi := generic_ioctl_abi in
  faults BadPointer (let! _ := my_driver_ioctl MD_SET_TSIZE 50 in my_driver_write 1 10) open_file.
Proof.
  intros K Abi. apply (my_driver_nomem_dangles 0x1000 the_device);
    [reflexivity|reflexivity|apply the_device_wf|reflexivity|split; discriminate|reflexivity].
Defined.
