(* ===== verification/UiTest.v ===== *)
(** * The test program of the string device

    doc/systems/linux/chardev/ui_test.c: a program that opens the device and
    exercises its operations, modelled over the system calls it makes.  What it
    relies on is an interface, [StringDevice], of which the driver is an
    instance (ChardevStack.v); against the interface the program's output is
    proved line by line. *)

From S2P Require Import Prelude CMonad LinuxApi LinuxChardev.

(** ** The system calls *)

Inductive ioctl_arg := NoArg | IntArg (z : Z) | SizePtr (* of the variable [size] *).

Inductive call :=
| SysOpen (path : string)                      (* with O_RDWR *)
| SysWrite (fd : Z) (data : bytes) (n : Z)
| SysRead (fd n : Z)                           (* into [buff], which it fills *)
| SysIoctl (fd cmd : Z) (arg : ioctl_arg)      (* may fill [size] *)
| Printf (fmt : string) (args : list parg)
| Perror (msg : string).

(** The variables of main whose memory is filled by others. *)
Record ui_state := mkUi { buff : bytes; size : Z }.

Section Program.
Context {K : Kernel call} {Abi : IoctlAbi}.

Local Abbreviation M := (M call ui_state).

Definition printf (fmt : string) (args : list parg) : M unit := post (Printf fmt args).

Definition write (fd : Z) (data : string) (n : Z) : M Z := ask s32 (SysWrite fd (str_bytes data) n).

Definition set_buff (o : option bytes) : M unit :=
  let! b := guard OutOfBounds o in modify (fun s => mkUi b (size s)).

(** [read(fd, buff, n)]: the bytes it says it read are in [buff]. *)
Definition read (fd n : Z) : M Z :=
  let! data := delivered (SysRead fd n) n in
  let! r := ask s32 (SysRead fd n) in
  let! b := gets buff in
  set_buff (buf_blit b 0 (take (Z.to_nat r) data)) ;;
  ret r.

(** [buff[read(fd, buff, n)] = 0] and the line that prints [buff]. *)
Definition read_line (fd n : Z) : M unit :=
  let! r := read fd n in
  let! b := gets buff in
  set_buff (buf_set b r 0) ;;
  let! b := gets buff in
  let! str := guard OutOfBounds (cstr b) in
  printf "just readed<%s>\n" [PBytes str].

Definition ioctl (fd cmd : Z) (arg : ioctl_arg) : M Z :=
  let! v := filled s32 (SysIoctl fd cmd arg) 0 in
  let! r := ask s32 (SysIoctl fd cmd arg) in
  (match arg with
   | SizePtr => if r <? 0 then ret tt else modify (fun s => mkUi (buff s) v)
   | _ => ret tt
   end) ;;
  ret r.

(** main once the device is open. *)
Definition exercise (fd : Z) : M Z :=
  printf "file descriptor: %d\nioctl\n" [PInt fd] ;;
  printf "write\n" [] ;;
  let! ret_ := write fd "plop & co" 9 in
  printf "write return %d\n" [PInt ret_] ;;
  read_line fd 20 ;;
  let! _ := ioctl fd MD_GET_TSIZE SizePtr in
  let! sz := gets size in
  printf "buffer total size %d\n" [PInt sz] ;;
  let! _ := ioctl fd MD_SET_TSIZE (IntArg 15) in
  let! ret_ := write fd "123456789012345" 15 in
  printf "write return %d\n" [PInt ret_] ;;
  read_line fd 4 ;;
  read_line fd 10 ;;
  printf "flush (ioctl)\n" [] ;;
  let! _ := ioctl fd MD_FLUSH NoArg in
  read_line fd 20 ;;
  printf "** bad address **\n" [] ;;
  let! _ := write fd
    "bon bah on va pas raconter un roman , c'est juste pour faire long, comme Jack\n" 77 in
  post (Perror "bon c'est fait expres") ;;
  read_line fd 80 ;;
  ret 0.

Definition main (ac : Z) (av : list string) : M Z :=
  if negb (ac =? 2) then printf "speify the path please\n" [] ;; ret (-1) else
  let! path := guard OutOfBounds (buf_get av 1) in
  printf "openning %s...\n" [PStr path] ;;
  let! fd := ask s32 (SysOpen path) in
  if fd =? -1 then post (Perror "open failed") ;; ret (-1) else
  exercise fd.
End Program.

(** ** The interface of a string device *)

(** What a device stores: at most [capacity] bytes. *)
Record sdev := mkSdev { capacity : Z; contents : bytes }.

Definition is_output (c : call) : bool :=
  match c with Printf _ _ | Perror _ => true | _ => false end.

(** What system calls on a string device answer, in terms of the state
    [device t] of the open device after the calls of [t], with its descriptor.
    A flush is for the [privileged]. *)
Class StringDevice `{Kernel call, IoctlAbi} := {
  device : list (call * Z) -> option (Z * sdev);
  privileged : bool;
  sd_open t path : Forall (fun e => is_output (fst e) = true) t ->
    let r := s32 (k_ret t (SysOpen path)) in
    r = -1 \/ device ((SysOpen path, r) :: t) = Some (r, mkSdev 42 []);
  sd_write t fd data n cap str : device t = Some (fd, mkSdev cap str) ->
    Forall (fun c => 0 <= c < 256) data -> 0 <= n <= zlen data ->
    let c := SysWrite fd data n in
    let r := s32 (k_ret t c) in
    if n <=? cap then r = n /\ device ((c, r) :: t) = Some (fd, mkSdev cap (take (Z.to_nat n) data))
    else r = -1 /\ device ((c, r) :: t) = device t;
  sd_read t fd n cap str : device t = Some (fd, mkSdev cap str) -> 0 <= n ->
    let c := SysRead fd n in
    let r := s32 (k_ret t c) in
    r = Z.min n (zlen str) /\ take (Z.to_nat r) (delivery t c n) = take (Z.to_nat r) str /\
    device ((c, r) :: t) = device t;
  sd_size t fd cap str : device t = Some (fd, mkSdev cap str) ->
    let c := SysIoctl fd MD_GET_TSIZE SizePtr in
    let r := s32 (k_ret t c) in
    r = 0 /\ s32 (k_out t c 0) = cap /\ device ((c, r) :: t) = device t;
  sd_resize t fd n cap str : device t = Some (fd, mkSdev cap str) ->
    zlen str <= n < 2 ^ 31 - 1 ->
    let c := SysIoctl fd MD_SET_TSIZE (IntArg n) in
    exists str', zlen str' = zlen str /\
      device ((c, s32 (k_ret t c)) :: t) = Some (fd, mkSdev n str');
  sd_flush t fd cap str : device t = Some (fd, mkSdev cap str) ->
    let c := SysIoctl fd MD_FLUSH NoArg in
    device ((c, s32 (k_ret t c)) :: t) = Some (fd, mkSdev cap (if privileged then [] else str));
  sd_output t c r : is_output c = true -> device ((c, r) :: t) = device t
}.

(** What a process printed, oldest first. *)
Definition printed (t : list (call * Z)) : list call :=
  rev (filter is_output (map fst t)).

Lemma printed_cons c r t :
  printed ((c, r) :: t) = printed t ++ (if is_output c then [c] else []).
Proof.
  unfold printed. cbn [map fst]. rewrite filter_cons.
  destruct (is_output c); cbn; [done|]. by rewrite app_nil_r.
Qed.

Section Rules.
Context {K : Kernel call} {Abi : IoctlAbi} {D : StringDevice}.
Implicit Types (s : state call ui_state).

(** In the course of main: the buffer is there, the device open with [cap] and
    [str], and the lines [l] are printed. *)
Definition at_work (fd cap : Z) (str : bytes) (l : list call) s : Prop :=
  zlen (buff (loc s)) = 256 /\ device (tr s) = Some (fd, mkSdev cap str) /\ printed (tr s) = l.

Lemma wp_print c fd cap str l s (Q : unit -> state call ui_state -> Prop) :
  at_work fd cap str l s -> is_output c = true ->
  (forall s', at_work fd cap str (l ++ [c]) s' -> Q tt s') -> wp (post c) Q s.
Proof.
  intros (Hb & Hd & Hl) Hc HQ. step. apply HQ. split; [done|]. cbn [tr].
  by rewrite sd_output, printed_cons, Hc, Hl.
Qed.

Lemma at_work_silent c r fd cap str l s b v :
  zlen b = 256 -> device ((c, r) :: tr s) = Some (fd, mkSdev cap str) -> is_output c = false ->
  printed (tr s) = l -> at_work fd cap str l (mkState (mkUi b v) ((c, r) :: tr s)).
Proof.
  intros Hb Hd Hc Hl. split; [done|]. split; [done|]. cbn [tr].
  by rewrite printed_cons, Hc, app_nil_r.
Qed.

Lemma wp_ui_write fd data n cap str l s (Q : Z -> state call ui_state -> Prop) :
  at_work fd cap str l s -> 0 <= n <= zlen (str_bytes data) ->
  (forall s', at_work fd cap (if n <=? cap then take (Z.to_nat n) (str_bytes data) else str) l s' ->
     Q (if n <=? cap then n else -1) s') ->
  wp (write fd data n) Q s.
Proof.
  intros (Hb & Hd & Hl) Hn HQ. unfold write. step.
  pose proof (sd_write _ _ _ n _ _ Hd (str_bytes_range data) Hn) as H. cbv zeta in H.
  destruct (n <=? cap); destruct H as [Hr Hd']; rewrite Hr in *; rewrite ?Hd in Hd';
    (apply HQ; destruct s as [[] ?]; by apply at_work_silent).
Qed.

Lemma wp_set_buff o b (Q : unit -> state call ui_state -> Prop) s :
  o = Some b -> Q tt (mkState (mkUi b (size (loc s))) (tr s)) -> wp (set_buff o) Q s.
Proof. intros -> HQ. unfold set_buff. by steps. Qed.

Lemma wp_read_line fd n cap str l s (Q : unit -> state call ui_state -> Prop) :
  at_work fd cap str l s -> 0 <= n < 256 -> Forall (fun c => c <> 0) (take (Z.to_nat n) str) ->
  (forall s', at_work fd cap str (l ++ [Printf "just readed<%s>\n" [PBytes (take (Z.to_nat n) str)]]) s' ->
     Q tt s') ->
  wp (read_line fd n) Q s.
Proof.
  intros (Hb & Hd & Hl) Hn Hz HQ. unfold read_line, read. steps.
  pose proof (sd_read _ _ n _ _ Hd ltac:(lia)) as (Hr & Ht & Hd'). cbv zeta in *. rewrite Hd in Hd'.
  set (r := s32 _) in *. rewrite Ht.
  assert (take (Z.to_nat r) str = take (Z.to_nat n) str) as Et.
  { rewrite Hr. unfold zlen. destruct (Z.min_spec n (Z.of_nat (length str))) as [[? ->]|[? ->]]; [done|].
    rewrite Nat2Z.id, !take_ge by lia. done. }
  rewrite Et. assert (length (take (Z.to_nat n) str) = Z.to_nat r) as El
    by (rewrite length_take; unfold zlen in Hr; lia).
  set (line := take (Z.to_nat n) str) in *.
  assert (0 <= r < 256) as Hr' by (unfold zlen in Hr; lia).
  eapply wp_set_buff; [apply buf_blit_Some; unfold zlen in *; lia|]. steps.
  eapply wp_set_buff.
  { apply buf_set_Some. cbn [loc buff]. unfold zlen in *. rewrite !length_app, length_take, length_drop. lia. }
  steps. cbn [loc buff size]. rewrite take_0, app_nil_l.
  assert (exists x rest, drop (Z.to_nat 0 + length line) (buff (loc s)) = x :: rest /\
            zlen rest = 255 - r) as (x & rest & Ex & Hx).
  { destruct (drop _ _) as [|x rest] eqn:E; apply (f_equal length) in E; rewrite length_drop in E;
      cbn in E; unfold zlen in *; [lia|]. exists x, rest. split; [done|lia]. }
  rewrite Ex, <- El, insert_app_r_alt by done. rewrite Nat.sub_diag. cbn [list_insert].
  eapply wp_guard; [by apply cstr_app|].
  eapply wp_print; [|done|exact HQ].
  apply at_work_silent; [|done..].
  rewrite zlen_app. unfold zlen in *. rewrite length_insert. cbn [length]. lia.
Qed.

Lemma wp_ioctl_size fd cap str l s (Q : Z -> state call ui_state -> Prop) :
  at_work fd cap str l s ->
  (forall s', size (loc s') = cap -> at_work fd cap str l s' -> Q 0 s') ->
  wp (ioctl fd MD_GET_TSIZE SizePtr) Q s.
Proof.
  intros (Hb & Hd & Hl) HQ. unfold ioctl. do 4 step.
  destruct (sd_size _ _ _ _ Hd) as (Hr & Hv & Hd'). rewrite Hr, Hv in *. rewrite Hd in Hd'.
  cbn [Z.ltb]. change (0 <? 0) with false. cbv iota. do 3 step.
  apply HQ; [done|]. by apply at_work_silent.
Qed.

Lemma wp_ioctl_resize fd n cap str l s (Q : Z -> state call ui_state -> Prop) :
  at_work fd cap str l s -> zlen str <= n < 2 ^ 31 - 1 ->
  (forall r s' str', at_work fd n str' l s' -> Q r s') ->
  wp (ioctl fd MD_SET_TSIZE (IntArg n)) Q s.
Proof.
  intros (Hb & Hd & Hl) Hn HQ. unfold ioctl. steps.
  destruct (sd_resize _ _ _ _ _ Hd Hn) as (str' & _ & Hd').
  eapply HQ. destruct s as [[] ?]. by apply at_work_silent.
Qed.

Lemma wp_ioctl_flush fd cap str l s (Q : Z -> state call ui_state -> Prop) :
  at_work fd cap str l s ->
  (forall r s', at_work fd cap (if privileged then [] else str) l s' -> Q r s') ->
  wp (ioctl fd MD_FLUSH NoArg) Q s.
Proof.
  intros (Hb & Hd & Hl) HQ. unfold ioctl. steps.
  eapply HQ. destruct s as [[] ?]. apply at_work_silent; try done. apply (sd_flush _ _ _ _ Hd).
Qed.

(** ** The output of the program *)

Definition the_line (str : string) : call := Printf "just readed<%s>\n" [PBytes (str_bytes str)].
Definition wrote (n : Z) : call := Printf "write return %d\n" [PInt n].

Definition transcript (path : string) (fd : Z) (flushed : bool) : list call :=
  let left := the_line (if flushed then "" else "123456789012345") in
  [Printf "openning %s...\n" [PStr path]; Printf "file descriptor: %d\nioctl\n" [PInt fd];
   Printf "write\n" []; wrote 9; the_line "plop & co"; Printf "buffer total size %d\n" [PInt 42];
   wrote 15; the_line "1234"; the_line "1234567890"; Printf "flush (ioctl)\n" []; left;
   Printf "** bad address **\n" []; Perror "bon c'est fait expres"; left].

(** What is left of the device's content, flushed or not. *)
Definition left_over : string := if privileged then "" else "123456789012345".

Lemma left_over_bytes :
  (if privileged then [] else str_bytes "123456789012345") = str_bytes left_over.
Proof. unfold left_over. by destruct privileged. Qed.

(** Reading all of a short literal. *)
Lemma wp_read_all fd n cap str l s (Q : unit -> state call ui_state -> Prop) :
  at_work fd cap (str_bytes str) l s -> zlen (str_bytes str) <= n < 256 ->
  forallb (fun c => negb (c =? 0)) (str_bytes str) = true ->
  (forall s', at_work fd cap (str_bytes str) (l ++ [the_line str]) s' -> Q tt s') ->
  wp (read_line fd n) Q s.
Proof.
  intros Hw Hn Hz HQ. pose proof (zlen_nonneg (str_bytes str)).
  assert (take (Z.to_nat n) (str_bytes str) = str_bytes str) as E
    by (apply take_ge; unfold zlen in *; lia).
  eapply wp_read_line; [exact Hw|lia| |by rewrite E]. rewrite E.
  apply Forall_forall. intros c Hc. rewrite forallb_forall in Hz.
  specialize (Hz c (proj1 (list_elem_of_In _ _) Hc)).
  by destruct (Z.eqb_spec c 0).
Qed.

(** One more step of main by rule [L]. *)
Tactic Notation "main_step" uconstr(L) :=
  step; eapply L; [eassumption|try done..|];
  repeat match goal with
    H : at_work _ _ _ _ ?s |- _ => clear H; try clear s
  end; cbv beta iota.

Definition opening (path : string) : call := Printf "openning %s...\n" [PStr path].

(** main after the device is open. *)
Lemma wp_exercise path fd s (Q : Z -> state call ui_state -> Prop) :
  at_work fd 42 (str_bytes "") [opening path] s ->
  (forall s', printed (tr s') = transcript path fd privileged -> Q 0 s') ->
  wp (exercise fd) Q s.
Proof.
  intros Hw HQ. unfold exercise, printf. do 2 (main_step wp_print; intros s Hw).
  main_step wp_ui_write. intros s Hw. main_step wp_print. intros s Hw.
  step. eapply (wp_read_all _ _ _ "plop & co"); [exact Hw|done..|]. clear s Hw. intros s Hw.
  main_step wp_ioctl_size. intros s Hs Hw. step. step. rewrite Hs. clear Hs.
  main_step wp_print. intros s Hw. main_step wp_ioctl_resize. intros r s str Hw. clear r.
  main_step wp_ui_write. intros s Hw. main_step wp_print. intros s Hw.
  step. eapply wp_read_line; [exact Hw|done|by repeat constructor|]. clear s Hw. intros s Hw.
  step. eapply wp_read_line; [exact Hw|done|by repeat constructor|]. clear s Hw. intros s Hw.
  main_step wp_print. intros s Hw. main_step wp_ioctl_flush. intros r s Hw. clear r.
  change (take _ (str_bytes "123456789012345")) with (str_bytes "123456789012345") in Hw at 1.
  rewrite left_over_bytes in Hw.
  assert (zlen (str_bytes left_over) <= 20 /\
          forallb (fun c => negb (c =? 0)) (str_bytes left_over) = true) as [Hl Hz]
    by (unfold left_over; by destruct privileged).
  step. eapply (wp_read_all _ _ _ left_over); [exact Hw|lia|done|]. clear s Hw. intros s Hw.
  main_step wp_print. intros s Hw. main_step wp_ui_write. intros s Hw. main_step wp_print. intros s Hw.
  step. eapply (wp_read_all _ _ _ left_over); [exact Hw|lia|done|]. clear s Hw. intros s (_ & _ & Hw).
  step. apply HQ. rewrite Hw. reflexivity.
Qed.

(** The descriptor the device is opened with. *)
Definition opened (path : string) : Z := s32 (k_ret [(opening path, 0)] (SysOpen path)).

Lemma wp_main prog path s :
  zlen (buff (loc s)) = 256 -> tr s = [] ->
  wp (main 2 [prog; path]) (fun r s' =>
    (opened path = -1 /\ r = -1 /\ printed (tr s') = [opening path; Perror "open failed"]) \/
    (r = 0 /\ printed (tr s') = transcript path (opened path) privileged)) s.
Proof.
  intros Hb Ht. unfold main. cbn [Z.eqb Pos.eqb negb]. step. eapply wp_guard; [reflexivity|].
  unfold printf. do 4 step. rewrite Ht. change (s32 (k_ret _ (SysOpen path))) with (opened path).
  assert (Forall (fun e => is_output (fst e) = true) [(opening path, 0)]) as Ho
    by (by rewrite Forall_singleton).
  pose proof (sd_open _ path Ho) as H. cbv zeta in H. fold (opened path) in H.
  destruct (Z.eqb_spec (opened path) (-1)) as [Hf|Hf]; [steps; by left|].
  destruct H as [H|Hd]; [done|].
  eapply wp_exercise; [by split|]. intros s' Hp. by right.
Qed.

(** Run on a string device with its path as argument, ui_test ends with
    0 having printed exactly its transcript: nine bytes written and read
    back, the total size 42, after resizing to 15 fifteen bytes written and
    their first 4 and 10 read back, then what a flush leaves, the same again
    after a write of 77 bytes, which the device refuses; or with -1 after
    saying that the device could not be opened. No access is outside buff.
    *)
Theorem ui_test_output prog path s :
  zlen (buff (loc s)) = 256 -> tr s = [] ->
  wp (main 2 [prog; path]) (fun r s' =>
    (r = -1 /\ printed (tr s') = [opening path; Perror "open failed"]) \/
    (r = 0 /\ exists fd, printed (tr s') = transcript path fd privileged)) s.
Proof.
  intros Hb Ht. use wp_main; [done..|]. intros r s' [(_ & H)|(Hr & H)]; [by left|]. right. eauto.
Qed.

(** A read that fails is not noticed: its -1 is used as an index. *)
Lemma read_line_error fd n s :
  0 <= n -> s32 (k_ret (tr s) (SysRead fd n)) = -1 -> faults OutOfBounds (read_line fd n) s.
Proof.
  intros Hn Hr. unfold read_line, read. apply faults_later. steps. rewrite Hr.
  change (Z.to_nat (-1)) with 0%nat. rewrite take_0.
  eapply wp_set_buff; [apply buf_blit_Some; [done|]|].
  { change (zlen []) with 0. pose proof (zlen_nonneg (buff (loc s))). lia. }
  steps. apply faults_later. step. apply faults_now. unfold set_buff.
  rewrite buf_set_None by lia. by eexists.
Qed.
End Rules.
