(* ===== verification/ChardevStack.v ===== *)
(** * The test program on the driver

    Composition of userland_interface.c (LinuxChardev.v) and ui_test.c
    (UiTest.v) of doc/systems/linux/chardev: the system calls of the program
    run the operations of the driver.  The driver's theorems discharge the
    program's interface, so that the program's output is that of the driver. *)

From S2P Require Import Prelude CMonad LinuxApi UiTest LinuxChardev.

(** The kernel under the driver, once the module is loaded: memory is not
    refused, user memory does not fault, [priv] says who may flush. *)
Class Serves `{Kernel LinuxChardev.call} (priv : bool) := {
  serves_memory t n : u32 (k_ret t (Kmalloc n)) <> 0;
  serves_from t a n : s32 (k_ret t (CopyFromUser a n)) = 0;
  serves_to t a b n : s32 (k_ret t (CopyToUser a b n)) = 0;
  serves_capable t : truth (s32 (k_ret t (Capable CAP_SYS_RAWIO))) = priv
}.

(** The same kernel during a call that passes [data]. *)
Definition with_user (K : Kernel LinuxChardev.call) (data : bytes) : Kernel LinuxChardev.call := {|
  k_ret := k_ret;
  k_out t c i :=
    match c with CopyFromUser _ _ => nth (Z.to_nat i) data 0 | _ => k_out t c i end
|}.

Section Stack.
Context (K : Kernel LinuxChardev.call) {Abi : IoctlAbi}.

Abbreviation dstate := (state LinuxChardev.call chardev_state).

(** A system call as the program sees it: its answer, what it fills, and the
    driver's next state.  A negative error number is -1 to the program. *)
Definition answer (fill : dstate -> Z -> Z) (s : dstate)
    (o : outcome LinuxChardev.call chardev_state Z) : Z * (Z -> Z) * dstate :=
  match o with
  | Ok r s' => (if r <? 0 then -1 else r, fill s', s')
  | _ => (-1, fun _ => 0, s)
  end.

(** What the driver's last call copied out to the program. *)
Definition copied_out (s : dstate) (i : Z) : Z :=
  match tr s with
  | (CopyToUser _ from _, _) :: _ => nth (Z.to_nat i) from 0
  | (PutUser v _, _) :: _ => v
  | _ => 0
  end.

Definition the_fd : Z := 3.

Definition arg_word (a : ioctl_arg) : Z :=
  match a with IntArg z => z | SizePtr | NoArg => 0 end.

Definition serve (c : UiTest.call) (s : dstate) : Z * (Z -> Z) * dstate :=
  match c with
  | SysOpen _ => answer (fun _ _ => 0) s ((my_driver_open ;; ret the_fd) s)
  | SysWrite _ data n => answer (fun _ _ => 0) s (my_driver_write (K := with_user K data) 0 n s)
  | SysRead _ n => answer copied_out s (my_driver_read 0 n s)
  | SysIoctl _ cmd a => answer copied_out s (my_driver_ioctl cmd (arg_word a) s)
  | Printf _ _ | Perror _ => (0, fun _ => 0, s)
  end.

(** The driver after the calls of a trace. *)
Definition replay (s0 : dstate) (t : list (UiTest.call * Z)) : dstate :=
  foldr (fun e s => snd (serve (fst e) s)) s0 t.

Definition on_driver (s0 : dstate) : Kernel UiTest.call := {|
  k_ret t c := fst (fst (serve c (replay s0 t)));
  k_out t c i := snd (fst (serve c (replay s0 t))) i
|}.

(** ** The abstraction *)

#[local] Instance wf_dev_dec d : Decision (wf_dev d).
Proof. unfold wf_dev. apply _. Defined.

Definition contents_of (d : my_dev) : bytes := map u8 (take (Z.to_nat (size d)) (block d)).

Definition view (s : dstate) : option (Z * sdev) :=
  match datas (loc s) with
  | Some (_, d) =>
      if private_data (loc s) && bool_decide (wf_dev d)
      then Some (the_fd, mkSdev (tsize d) (contents_of d)) else None
  | None => None
  end.

Lemma view_Some s fd cap str :
  view s = Some (fd, mkSdev cap str) ->
  exists p d, datas (loc s) = Some (p, d) /\ private_data (loc s) = true /\ wf_dev d /\
    fd = the_fd /\ cap = tsize d /\ str = contents_of d.
Proof.
  unfold view. destruct (datas (loc s)) as [[p d]|]; [|done].
  destruct (private_data (loc s)); [|done]. case_bool_decide; [|done]. intros [= <- <- <-]. eauto 10.
Qed.

Lemma view_at p d s :
  datas (loc s) = Some (p, d) -> private_data (loc s) = true -> wf_dev d ->
  view s = Some (the_fd, mkSdev (tsize d) (contents_of d)).
Proof. intros E Hp Hw. unfold view. by rewrite E, Hp, bool_decide_eq_true_2. Qed.

(** What an operation of the driver answers, as the program sees it. *)
Lemma answer_wp (m : M LinuxChardev.call chardev_state Z) fill s Q :
  wp m Q s ->
  exists r s', answer fill s (m s) = (if r <? 0 then -1 else r, fill s', s') /\ Q r s'.
Proof. intros (r & s' & E & H)%wp_inv. exists r, s'. by rewrite E. Qed.

(** The bytes a call delivers from a list. *)
Lemma delivery_nth {call} {Kc : Kernel call} (t : list (call * Z)) c (l : bytes) n :
  (forall i, k_out t c i = nth (Z.to_nat i) l 0) -> 0 <= n ->
  take (length l) (delivery t c n) = map u8 (take (Z.to_nat n) l).
Proof.
  intros Hk Hn. apply list_eq. intros i. destruct (decide (i < length l)%nat) as [Hi|Hi].
  2: { rewrite lookup_take_ge by lia. symmetry. apply lookup_ge_None_2.
       rewrite length_map, length_take. lia. }
  rewrite lookup_take_lt by done. rewrite list_lookup_fmap.
  destruct (decide (i < Z.to_nat n)%nat) as [Hin|Hin].
  - rewrite lookup_take_lt by done. unfold delivery. rewrite list_lookup_fmap, lookup_seqZ_lt by lia.
    cbn. rewrite Hk. replace (Z.to_nat (0 + Z.of_nat i)) with i by lia.
    destruct (lookup_lt_is_Some_2 l i Hi) as [x Ex]. by rewrite Ex, (nth_lookup_Some _ _ _ _ Ex).
  - rewrite (lookup_take_ge l) by lia. apply lookup_ge_None_2.
    pose proof (zlen_delivery t c n Hn). unfold zlen in *. lia.
Qed.

Lemma map_u8_id l : Forall (fun c => 0 <= c < 256) l -> map u8 l = l.
Proof. induction 1 as [|c l Hc _ IH]; cbn; [done|]. by rewrite u8_id, IH. Qed.

Lemma serve_write {priv} {V : Serves (H := K) priv} s fd data n cap str :
  view s = Some (fd, mkSdev cap str) -> Forall (fun c => 0 <= c < 256) data -> 0 <= n <= zlen data ->
  let '(r, _, s') := serve (SysWrite fd data n) s in
  if n <=? cap then s32 r = n /\ view s' = Some (fd, mkSdev cap (take (Z.to_nat n) data))
  else s32 r = -1 /\ view s' = view s.
Proof.
  intros (p & d & E & Hp & Hw & -> & -> & ->)%view_Some Hd Hn. unfold serve.
  assert (tsize d < 2 ^ 31 - 1) as Ht by apply Hw. change (2 ^ 31 - 1) with 2147483647 in Ht.
  destruct (answer_wp (my_driver_write (K := with_user K data) 0 n) (fun _ _ => 0) s
    (fun r s' => if n <=? tsize d then r = n /\ view s' = Some (the_fd, mkSdev (tsize d) (take (Z.to_nat n) data))
                 else r < 0 /\ view s' = view s)) as (r & s' & -> & H).
  - eapply wp_write; [done..|lia| | |].
    + intros. rewrite (proj2 (Z.leb_gt _ _)) by done. done.
    + intros d' rt _ -> Hr. destruct Hr. apply (serves_from (H := K)).
    + intros d' Hle _ Hw' Hs Ht' Hc _. rewrite (proj2 (Z.leb_le _ _)) by done. split; [done|].
      erewrite view_at; [|reflexivity|done|done]. rewrite Ht'. unfold contents_of. rewrite Hs, Hc.
      pose proof (delivery_nth (Kc := with_user K data) (tr s) (CopyFromUser 0 n) data n
        (fun _ => eq_refl) ltac:(lia)) as Hdel.
      rewrite take_ge in Hdel by (pose proof (zlen_delivery (K := with_user K data) (tr s) (CopyFromUser 0 n) n); unfold zlen in *; lia).
      rewrite (map_u8_id (take _ data)) in Hdel by (by apply Forall_take).
      by rewrite Hdel, map_u8_id by (by apply Forall_take).
  - cbv zeta. destruct (Z.leb_spec n (tsize d)).
    + destruct H as [-> H]. rewrite (proj2 (Z.ltb_ge n 0)), s32_id by lia. done.
    + destruct H as [Hr H]. by rewrite (proj2 (Z.ltb_lt r 0)).
Qed.

Lemma serve_read {priv} {V : Serves (H := K) priv} s fd n cap str :
  view s = Some (fd, mkSdev cap str) -> 0 <= n ->
  let '(r, out, s') := serve (SysRead fd n) s in
  let m := Z.min n (zlen str) in
  s32 r = m /\ view s' = view s /\
  exists l, (forall i, out i = nth (Z.to_nat i) l 0) /\ length l = Z.to_nat m /\
    map u8 l = take (Z.to_nat m) str.
Proof.
  intros (p & d & E & Hp & Hw & -> & -> & ->)%view_Some Hn. unfold serve.
  assert (tsize d < 2 ^ 31 - 1) as Ht by apply Hw. change (2 ^ 31 - 1) with 2147483647 in Ht.
  destruct Hw as (Hb & Hl & Hs & Ht') eqn:Ew. clear Ew.
  assert (zlen (contents_of d) = size d) as Hz.
  { unfold zlen, contents_of in *. rewrite length_map, length_take. lia. }
  cbv zeta. rewrite Hz. set (m := Z.min n (size d)).
  destruct (answer_wp (my_driver_read 0 n) copied_out s
    (fun r s' => r = m /\ view s' = view s /\
       copied_out s' = fun i => nth (Z.to_nat i) (take (Z.to_nat m) (block d)) 0)) as (r & s' & -> & H).
  - eapply wp_read; [done..|]. intros rt k ->. by rewrite serves_to.
  - destruct H as (-> & Hv & Ho). rewrite (proj2 (Z.ltb_ge m 0)), s32_id by lia.
    split; [done|]. split; [done|]. exists (take (Z.to_nat m) (block d)). split; [by rewrite Ho|].
    unfold contents_of. unfold zlen in *. rewrite length_take. split; [lia|].
    rewrite firstn_map, take_take. do 2 f_equal. lia.
Qed.

Lemma serve_size s fd cap str :
  view s = Some (fd, mkSdev cap str) ->
  let '(r, out, s') := serve (SysIoctl fd MD_GET_TSIZE SizePtr) s in
  s32 r = 0 /\ s32 (out 0) = cap /\ view s' = view s.
Proof.
  intros (p & d & E & Hp & Hw & -> & -> & ->)%view_Some. unfold serve.
  destruct (answer_wp (my_driver_ioctl MD_GET_TSIZE (arg_word SizePtr)) copied_out s
    (fun r s' => r = 0 /\ view s' = view s /\ copied_out s' 0 = tsize d)) as (r & s' & -> & -> & Hv & Ho).
  - unfold my_driver_ioctl. step. eapply wp_filp_dev; [done..|]. ioctl_cases. by steps.
  - split; [done|]. split; [|done]. rewrite Ho. destruct Hw as (_ & _ & ? & ?).
    change (2 ^ 31 - 1) with 2147483647 in *. apply s32_id. lia.
Qed.

Lemma serve_resize {priv} {V : Serves (H := K) priv} s fd n cap str :
  view s = Some (fd, mkSdev cap str) -> zlen str <= n < 2 ^ 31 - 1 ->
  let '(r, _, s') := serve (SysIoctl fd MD_SET_TSIZE (IntArg n)) s in
  exists str', zlen str' = zlen str /\ view s' = Some (fd, mkSdev n str').
Proof.
  intros (p & d & E & Hp & Hw & -> & -> & ->)%view_Some Hn. unfold serve.
  change (2 ^ 31 - 1) with 2147483647 in Hn. pose proof (zlen_nonneg (contents_of d)) as Hnn.
  destruct Hw as (Hb & Hl & Hs & Ht) eqn:Ew. clear Ew.
  assert (zlen (contents_of d) = size d) as Hz.
  { unfold zlen, contents_of in *. rewrite length_map, length_take. lia. }
  rewrite Hz in *.
  destruct (answer_wp (my_driver_ioctl MD_SET_TSIZE (arg_word (IntArg n))) copied_out s
    (fun r s' => exists str', zlen str' = size d /\ view s' = Some (the_fd, mkSdev n str')))
    as (r & s' & -> & H); [|done].
  unfold my_driver_ioctl. step. eapply wp_filp_dev; [done..|].
  unfold MD_SET_TSIZE, MD_GET_TSIZE, _IOR, _IOW. ioctl_cases. cbn [arg_word]. rewrite s32_id by lia.
  eapply wp_set_size; [done| |intros H'; by destruct (serves_memory _ _ H')].
  intros q content Hq _ Ec. rewrite u32_id in Ec by lia.
  assert (zlen content = n + 1) as Hc by (rewrite Ec, zlen_delivery; lia).
  exists (contents_of (with_tsize n (with_buffer q content d))).
  split; [|apply (view_at p (with_tsize n (with_buffer q content d))); [reflexivity|done|]].
  - unfold contents_of, zlen in *. cbn [size block with_tsize with_buffer].
    rewrite length_map, length_take. lia.
  - split; [done|]. cbn [size block tsize with_tsize with_buffer]. lia.
Qed.

Lemma serve_flush {priv} {V : Serves (H := K) priv} s fd cap str :
  view s = Some (fd, mkSdev cap str) ->
  let '(_, _, s') := serve (SysIoctl fd MD_FLUSH NoArg) s in
  view s' = Some (fd, mkSdev cap (if priv then [] else str)).
Proof.
  intros Hv. pose proof Hv as (p & d & E & Hp & Hw & -> & -> & ->)%view_Some. unfold serve.
  destruct (answer_wp (my_driver_ioctl MD_FLUSH (arg_word NoArg)) copied_out s
    (fun _ s' => view s' = Some (the_fd, mkSdev (tsize d) (if priv then [] else contents_of d))))
    as (r & s' & -> & H); [|done].
  unfold my_driver_ioctl. step. eapply wp_filp_dev; [done..|].
  unfold MD_SET_TSIZE, MD_GET_TSIZE, MD_FLUSH, _IO, _IOR, _IOW. ioctl_cases. steps.
  rewrite serves_capable. destruct priv; cbn [negb]; [|steps; by rewrite <- Hv].
  step. eapply wp_set_dev; [done|]. step. erewrite view_at; [|reflexivity|done|].
  - unfold contents_of. cbn [size with_size]. by rewrite take_0.
  - destruct Hw as (? & ? & ? & ?). split; [done|]. cbn [size block tsize with_size]. lia.
Qed.

(** ** The driver is a string device *)

(** The driver as my_driver_init leaves it. *)
Definition fresh (s0 : dstate) : Prop :=
  exists p d, datas (loc s0) = Some (p, d) /\ wf_dev d /\ size d = 0 /\ tsize d = 42.

Lemma replay_output s0 t : Forall (fun e => is_output (fst e) = true) t -> replay s0 t = s0.
Proof.
  induction 1 as [|[c r] t Hc _ IH]; [done|]. cbn [replay foldr fst snd] in *.
  change (foldr _ s0 t) with (replay s0 t). rewrite IH. by destruct c.
Qed.

Lemma serve_open s p d path :
  datas (loc s) = Some (p, d) -> wf_dev d ->
  let '(r, _, s') := serve (SysOpen path) s in
  r = the_fd /\ view s' = Some (the_fd, mkSdev (tsize d) (contents_of d)).
Proof. intros E Hw. cbn. split; [done|]. by apply (view_at p). Qed.

Lemma replay_step s0 c r t : replay s0 ((c, r) :: t) = snd (serve c (replay s0 t)).
Proof. done. Qed.

(** A law of the interface from the lemma [H] about the call it is about. *)
Ltac law H :=
  cbv zeta; cbn [on_driver k_ret k_out]; rewrite ?replay_step;
  pose proof H as Hlaw; destruct (serve _ _) as [[rv out] sn]; cbn [fst snd] in *.

#[refine] Definition driver_device {priv} {V : Serves (H := K) priv} s0 (Hf : fresh s0) :
    @StringDevice (on_driver s0) Abi := {|
  device t := view (replay s0 t);
  privileged := priv
|}.
Proof.
  - intros t path Ho. destruct Hf as (p & d & E & Hw & Hs & Ht). right. cbv zeta.
    rewrite replay_step. cbn [on_driver k_ret]. rewrite (replay_output s0 t Ho).
    law (serve_open s0 p d path E Hw). destruct Hlaw as [-> ->]. rewrite Ht.
    unfold contents_of. by rewrite Hs, take_0.
  - intros t fd data n cap str Hv Hd Hn. law (serve_write _ _ _ _ _ _ Hv Hd Hn).
    by destruct (n <=? cap).
  - intros t fd n cap str Hv Hn.
    pose proof (fun l Hl => delivery_nth (Kc := on_driver s0) t (SysRead fd n) l n Hl Hn) as Hdel.
    unfold on_driver at 1 in Hdel. cbn [k_out] in Hdel.
    law (serve_read _ _ _ _ _ Hv Hn).
    destruct Hlaw as (-> & Hv' & l & Ho & El & Eu). split; [done|]. split; [|done].
    specialize (Hdel l Ho). by rewrite (take_ge l), El, Eu in Hdel by lia.
  - intros t fd cap str Hv. law (serve_size _ _ _ _ Hv). done.
  - intros t fd n cap str Hv Hn. law (serve_resize _ _ _ _ _ Hv Hn). done.
  - intros t fd cap str Hv. law (serve_flush _ _ _ _ Hv). done.
  - intros t c r Hc. by destruct c.
Defined.
End Stack.

(** The driver after a successful load is fresh. *)
Lemma init_fresh {K : Kernel LinuxChardev.call} s s0 : my_driver_init s = Ok 0 s0 -> fresh s0.
Proof.
  intros E. destruct (wp_ok_inv _ _ _ _ _ _ (wp_init s) E) as (l & _ & [H|[(? & _)|(? & _)]]); [|done..].
  destruct H as (_ & p & q & d & Ed & Hw & _ & Hs & Ht & _). exists p, d. done.
Qed.

(** C8: The test program on the driver: once the module is loaded, in any
    kernel that has memory and does not fault on the program's, ui_test ends
    with 0 and prints its transcript, the content after MD_FLUSH being empty
    exactly when the program has CAP_SYS_RAWIO. *)
Theorem ui_test_on_driver (K : Kernel LinuxChardev.call) {Abi : IoctlAbi} {priv} {V : Serves priv}
    prog path b sz s s0 :
  my_driver_init s = Ok 0 s0 -> zlen b = 256 ->
  let K' := on_driver K s0 in
  wp (main 2 [prog; path]) (fun r s' =>
    r = 0 /\ printed (tr s') = transcript path the_fd priv) (mkState (mkUi b sz) []).
Proof.
  intros Hi Hb K'. apply init_fresh in Hi.
  use (wp_main (D := driver_device K s0 Hi)); [done..|].
  intros r s' [(H & _)|(Hr & H)]; [done|]. by split.
Qed.

(** ** Witnesses *)

Definition user_kernel : Kernel LinuxChardev.call := plain_kernel 0x3000.

Lemma user_serves : Serves (H := user_kernel) true.
Proof. by split. Qed.

Definition no_device : state LinuxChardev.call chardev_state := mkState (mkSt None false) [].

Definition module_loaded : state LinuxChardev.call chardev_state :=
  match my_driver_init (K := user_kernel) no_device with Ok _ s => s | _ => no_device end.

Lemma module_loads : my_driver_init (K := user_kernel) no_device = Ok 0 module_loaded.
Proof. vm_compute. reflexivity. Qed.

Definition started : state UiTest.call ui_state := mkState (mkUi (replicate 256 0) 0) [].

Example ui_test_output_witness :
  let Abi := generic_ioctl_abi in let K := on_driver user_kernel module_loaded in
  wp (main 2 ["ui_test"; "/dev/md"]) (fun r s' =>
    (r = -1 /\ printed (tr s') = [opening "/dev/md"; Perror "open failed"]) \/
    (r = 0 /\ exists fd, printed (tr s') = transcript "/dev/md" fd true)) started.
Proof.
  intros Abi K.
  exact (ui_test_output (D := driver_device user_kernel (V := user_serves) module_loaded
    (init_fresh _ _ module_loads)) "ui_test" "/dev/md" started eq_refl eq_refl).
Defined.

Example ui_test_on_driver_witness :
  wp (main (K := on_driver user_kernel (Abi := generic_ioctl_abi) module_loaded) (Abi := generic_ioctl_abi)
        2 ["ui_test"; "/dev/md"])
    (fun r s' => r = 0 /\ printed (tr s') = transcript "/dev/md" the_fd true)
    (mkState (mkUi (replicate 256 0) 0) []).
Proof.
  apply (ui_test_on_driver user_kernel (Abi := generic_ioctl_abi) (V := user_serves) "ui_test" "/dev/md" (replicate 256 0) 0
    no_device module_loaded module_loads). reflexivity.
Defined.

(** The composition evaluated: the program's result. *)
Example ui_test_runs :
  match main (K := on_driver user_kernel (Abi := generic_ioctl_abi) module_loaded) (Abi := generic_ioctl_abi)
          2 ["ui_test"; "/dev/md"] started with
  | Ok r s' => r = 0 /\ printed (tr s') = transcript "/dev/md" 3 true
  | _ => False
  end.
Proof. vm_compute. done. Qed.
