(* ===== verification/Ac97.v ===== *)
(** * The Linux driver of AC97 sound cards

    doc/systems/linux/ac97/rtx_ac97.c: probe and remove of a card, its
    low-level device and the module.  Theorems on what every path of probe
    holds, on probing and removing in any order, and on the use of the table of
    indices. *)

From S2P Require Import Prelude CMonad LinuxApi.

(** The tables a sound driver has, with the defaults of <sound/initval.h>. *)
Class SoundDefaults := {
  SNDRV_CARDS : Z;
  rtx_ac97_index : list Z;
  rtx_ac97_id : list Z;
  rtx_ac97_enable : list Z;
  index_length : zlen rtx_ac97_index = SNDRV_CARDS;
  id_length : zlen rtx_ac97_id = SNDRV_CARDS;
  enable_length : zlen rtx_ac97_enable = SNDRV_CARDS;
  cards_bound : SNDRV_CARDS < 2 ^ 31
}.

(** ** The external functions

    [SndCardCreate] answers a negative error or the address of the new card. *)

Inductive call :=
| Printk (fmt : string) (args : list parg)
| PciEnableDevice (pdev : Z)
| PciDisableDevice (pdev : Z)
| Kzalloc                                   (* of sizeof(struct rtx_ac97) *)
| Kfree (p : Z)
| SndDeviceNew (card chip : Z)
| SndCardSetDev (card pdev : Z)
| SndCardCreate (index id : Z)
| SndCardFree (card : Z)
| SndCardRegister (card : Z)
| Strlcpy (card : Z) (field src : string)
| PciRegisterDriver
| PciUnregisterDriver.

Record rtx_ac97 := mkChip { pdev : Z; card : Z }.

(** The static [dev_idx], the live chips and cards by address (of a card, its
    [private_data]), and the driver data of the PCI devices that have any. *)
Record ac97_state := mkSt {
  dev_idx : Z;
  chips : gmap Z rtx_ac97;
  cards : gmap Z Z;
  drvdata : gmap Z Z
}.

Definition upd_idx (f : Z -> Z) (s : ac97_state) : ac97_state :=
  mkSt (f (dev_idx s)) (chips s) (cards s) (drvdata s).
Definition upd_chips (f : gmap Z rtx_ac97 -> gmap Z rtx_ac97) (s : ac97_state) : ac97_state :=
  mkSt (dev_idx s) (f (chips s)) (cards s) (drvdata s).
Definition upd_cards (f : gmap Z Z -> gmap Z Z) (s : ac97_state) : ac97_state :=
  mkSt (dev_idx s) (chips s) (f (cards s)) (drvdata s).
Definition upd_drvdata (f : gmap Z Z -> gmap Z Z) (s : ac97_state) : ac97_state :=
  mkSt (dev_idx s) (chips s) (cards s) (f (drvdata s)).

(** snd_card_free belongs to the sound core: given the callback [dev_free] of
    the driver's devices, it frees a card. *)
Class SoundCore `{Kernel call} := {
  snd_card_free : (Z -> M call ac97_state Z) -> Z -> M call ac97_state unit
}.

Section Driver.
Context {K : Kernel call} {C : SoundCore} {T : SoundDefaults}.

Local Abbreviation M := (M call ac97_state).

Definition printk (fmt : string) (args : list parg) : M unit := post (Printk fmt args).

Definition the_chip (p : Z) : M rtx_ac97 :=
  let! s := get in guard BadPointer (chips s !! p).

Definition private_data (c : Z) : M Z :=
  let! s := get in guard BadPointer (cards s !! c).

(** ** The chip and its device *)

Definition rtx_ac97_free (chip : Z) : M Z :=
  printk "rtx_ac97: destroying chip=0x%p.\n" [PInt chip] ;;
  let! c := the_chip chip in
  post (PciDisableDevice (pdev c)) ;;
  post (Kfree chip) ;;
  modify (upd_chips (delete chip)) ;;
  ret 0.

(** [sdev] is given by its [device_data]. *)
Definition rtx_ac97_dev_free (sdev : Z) : M Z := rtx_ac97_free sdev.

(** The end of rtx_ac97_create, its label [fail]: [chip] may be null. *)
Definition create_fail (chip pdev err : Z) : M Z :=
  (if truth chip then let! _ := rtx_ac97_free chip in ret tt
   else post (PciDisableDevice pdev)) ;;
  ret err.

Definition rtx_ac97_create (card_ pdev_ : Z) : M Z :=
  let! err := ask s32 (PciEnableDevice pdev_) in
  if err <? 0 then ret err else
  let! chip := ask u32 Kzalloc in
  if negb (truth chip) then create_fail chip pdev_ (- ENOMEM) else
  modify (upd_chips (<[chip := mkChip 0 0]>)) ;;
  modify (upd_chips (alter (fun ch => mkChip pdev_ (card ch)) chip)) ;;
  modify (upd_chips (alter (fun ch => mkChip (pdev ch) card_) chip)) ;;
  let! err := ask s32 (SndDeviceNew card_ chip) in
  if err <? 0 then create_fail chip pdev_ err else
  post (SndCardSetDev card_ pdev_) ;;
  printk "rtx_ac97: chip=0x%p created.\n" [PInt chip] ;;
  let! _ := private_data card_ in
  modify (upd_cards (<[card_ := chip]>)) ;;
  ret 0.

(** ** Probe and remove *)

(** The end of rtx_ac97_probe, its label [fail]. *)
Definition probe_fail (c err : Z) : M Z :=
  printk "rtx_ac97: probe failed.\n" [] ;;
  snd_card_free rtx_ac97_dev_free c ;;
  ret err.

Definition rtx_ac97_probe (pdev : Z) : M Z :=
  let! i := gets dev_idx in
  if i >=? SNDRV_CARDS then ret (- ENODEV) else
  let! en := guard OutOfBounds (buf_get rtx_ac97_enable i) in
  if negb (truth en) then modify (upd_idx (fun i => s32 (i + 1))) ;; ret (- ENOENT) else
  let! index := guard OutOfBounds (buf_get rtx_ac97_index i) in
  let! id := guard OutOfBounds (buf_get rtx_ac97_id i) in
  let! r := ask (fun z => z) (SndCardCreate index id) in
  if r <? 0 then ret r else
  let c := r in
  modify (upd_cards (<[c := 0]>)) ;;
  let! err := rtx_ac97_create c pdev in
  if err <? 0 then probe_fail c err else
  let! _ := private_data c in
  post (Strlcpy c "driver" "rtx_ac97") ;;
  post (Strlcpy c "shortname" "My first AC'97 driver") ;;
  post (Strlcpy c "longname" "My first AC'97 driver") ;;
  let! err := ask s32 (SndCardRegister c) in
  if err <? 0 then probe_fail c err else
  modify (upd_drvdata (<[pdev := c]>)) ;;
  modify (upd_idx (fun i => s32 (i + 1))) ;;
  let! chip := private_data c in
  printk "rtx_ac97: probe successful: chip=0x%p.\n" [PInt chip] ;;
  ret 0.

Definition pci_get_drvdata (pdev : Z) : M Z :=
  gets (fun s => default 0 (drvdata s !! pdev)).

Definition rtx_ac97_remove (pdev : Z) : M unit :=
  let! c := pci_get_drvdata pdev in
  let! chip := private_data c in
  printk "rtx_ac97: removing: chip=0x%p.\n" [PInt chip] ;;
  let! c := pci_get_drvdata pdev in
  snd_card_free rtx_ac97_dev_free c ;;
  modify (upd_drvdata (delete pdev)).

(** ** The module *)

Definition rtx_ac97_init : M Z :=
  printk "rtx_ac97: driver registred.\n" [] ;;
  ask s32 PciRegisterDriver.

Definition rtx_ac97_exit : M unit :=
  post PciUnregisterDriver ;;
  printk "rtx_ac97: driver unregistred.\n" [].
End Driver.

(** ** Resources *)

Inductive resource := RCard (c : Z) | RChip (p : Z) | REnabled (pdev : Z).

#[export] Instance resource_eq_dec : EqDecision resource.
Proof. solve_decision. Defined.

#[export] Instance ac97_resources : Resources call resource := {|
  acquires e :=
    match e with
    | (PciEnableDevice d, r) => if r <? 0 then None else Some (REnabled d)
    | (Kzalloc, p) => if truth p then Some (RChip p) else None
    | (SndCardCreate _ _, r) => if r <? 0 then None else Some (RCard r)
    | _ => None
    end;
  releases e :=
    match e with
    | (PciDisableDevice d, _) => Some (REnabled d)
    | (Kfree p, _) => Some (RChip p)
    | (SndCardFree c, _) => Some (RCard c)
    | _ => None
    end
|}.

(** The devices created on a card and not yet freed with it, newest first. *)
Fixpoint new_devices (c : Z) (t : list (call * Z)) : list Z :=
  match t with
  | [] => []
  | (SndDeviceNew c' chip, r) :: t =>
      if (c' =? c) && negb (r <? 0) then chip :: new_devices c t else new_devices c t
  | (SndCardFree c', _) :: t => if c' =? c then [] else new_devices c t
  | _ :: t => new_devices c t
  end.

(** snd_card_free as documented: it gives each device of the card to the
    callback, the newest first, and the card is gone. *)
Fixpoint free_devices `{Kernel call} (dev_free : Z -> M call ac97_state Z) (l : list Z) :
    M call ac97_state unit :=
  match l with
  | [] => ret tt
  | sdev :: l => let! _ := dev_free sdev in free_devices dev_free l
  end.

Definition release_card `{Kernel call} (dev_free : Z -> M call ac97_state Z) (c : Z) (l : list Z) :
    M call ac97_state unit :=
  free_devices dev_free l ;;
  post (SndCardFree c) ;;
  modify (upd_cards (delete c)).

(** What the driver relies on: kzalloc and snd_card_create answer no object in
    use, and snd_card_free, of a card in use, is what is documented. *)
Class Ac97Laws {K : Kernel call} {C : SoundCore} := {
  kzalloc_fresh t : let p := u32 (k_ret t Kzalloc) in p <> 0 -> held (RChip p) t <= 0;
  create_fresh t i d : let c := k_ret t (SndCardCreate i d) in 0 <= c -> held (RCard c) t <= 0;
  card_free dev_free c s : is_Some (cards (loc s) !! c) ->
    snd_card_free dev_free c s = release_card dev_free c (new_devices c (tr s)) s
}.

(** A map whose entries are those that [f] makes of the entries of [b]. *)
Definition indexes {A B} (m : gmap Z A) (b : gmap Z B) (f : Z -> B -> Z * A) : Prop :=
  forall k v, m !! k = Some v <-> exists d x, b !! d = Some x /\ f d x = (k, v).

Lemma indexes_insert {A B} (m : gmap Z A) (b : gmap Z B) f d x k v :
  indexes m b f -> b !! d = None -> m !! k = None -> f d x = (k, v) ->
  indexes (<[k := v]> m) (<[d := x]> b) f.
Proof.
  intros Hm Hd Hk Hf k' v'. rewrite lookup_insert_Some, (Hm k' v'). split.
  - intros [[<- <-]|(Hn & d' & x' & Hb & E)].
    + exists d, x. by rewrite lookup_insert_eq.
    + exists d', x'. rewrite lookup_insert_ne; [done|congruence].
  - intros (d' & x' & [(<- & <-)|(Hn & Hb)]%lookup_insert_Some & E).
    + left. split; congruence.
    + right. split; [|eauto]. intros <-.
      enough (m !! k = Some v') by congruence. apply Hm. eauto.
Qed.

Lemma indexes_delete {A B} (m : gmap Z A) (b : gmap Z B) f d x k v :
  indexes m b f -> b !! d = Some x -> f d x = (k, v) ->
  (forall d' x', b !! d' = Some x' -> fst (f d' x') = k -> d' = d) ->
  indexes (delete k m) (delete d b) f.
Proof.
  intros Hm Hd Hf Hu k' v'. rewrite lookup_delete_Some, (Hm k' v'). split.
  - intros (Hn & d' & x' & Hb & E). exists d', x'. rewrite lookup_delete_ne; [done|congruence].
  - intros (d' & x' & (Hn & Hb)%lookup_delete_Some & E). split; [|eauto].
    intros ->. apply Hn. symmetry. eapply Hu; [done|by rewrite E].
Qed.

(** ** The invariant

    [b] gives the card and the chip of every bound PCI device; nothing else is
    live or held. *)
Definition card_entry (d : Z) (x : Z * Z) : Z * Z := x.
Definition chip_entry (d : Z) (x : Z * Z) : Z * rtx_ac97 := (snd x, mkChip d (fst x)).

Definition flag (P : Prop) `{Decision P} : Z := if bool_decide P then 1 else 0.

Record inv (b : gmap Z (Z * Z)) `{SoundDefaults} (s : state call ac97_state) : Prop := {
  inv_idx : 0 <= dev_idx (loc s) <= SNDRV_CARDS;
  inv_drvdata : drvdata (loc s) = fst <$> b;
  inv_cards : indexes (cards (loc s)) b card_entry;
  inv_chips : indexes (chips (loc s)) b chip_entry;
  inv_enabled d : held (REnabled d) (tr s) = flag (is_Some (b !! d));
  inv_held_card c : held (RCard c) (tr s) = flag (is_Some (cards (loc s) !! c));
  inv_held_chip p : held (RChip p) (tr s) = flag (is_Some (chips (loc s) !! p));
  inv_devices c : new_devices c (tr s) = match cards (loc s) !! c with Some p => [p] | None => [] end
}.

(** Calls that change neither what is held nor the devices of a card. *)
Definition balanced (t t' : list (call * Z)) : Prop :=
  (forall x, held x t' = held x t) /\ (forall c, new_devices c t' = new_devices c t).

Ltac held_calm := repeat (rewrite held_neutral; [|reflexivity|reflexivity]).

Section Rules.
Context {K : Kernel call} {C : SoundCore} {T : SoundDefaults}.
Implicit Types (s : state call ac97_state).

Lemma flag_0 P `{Decision P} : flag P <= 0 -> ~ P.
Proof. unfold flag. case_bool_decide; [lia|done]. Qed.

Lemma wp_the_chip h p ch (Q : rtx_ac97 -> state call ac97_state -> Prop) s :
  chips (loc s) !! p = Some ch -> Q ch s -> wpx h (the_chip p) Q s.
Proof. intros E HQ. unfold the_chip. steps. by rewrite E. Qed.

Lemma wp_private_data h c p (Q : Z -> state call ac97_state -> Prop) s :
  cards (loc s) !! c = Some p -> Q p s -> wpx h (private_data c) Q s.
Proof. intros E HQ. unfold private_data. steps. by rewrite E. Qed.

(** The trace of rtx_ac97_free. *)
Definition free_calls (p pdev : Z) : list (call * Z) :=
  [(Kfree p, 0); (PciDisableDevice pdev, 0); (Printk "rtx_ac97: destroying chip=0x%p.\n" [PInt p], 0)].

Lemma wp_free h p ch (Q : Z -> state call ac97_state -> Prop) s :
  chips (loc s) !! p = Some ch ->
  Q 0 (mkState (upd_chips (delete p) (loc s)) (free_calls p (pdev ch) ++ tr s)) ->
  wpx h (rtx_ac97_free p) Q s.
Proof.
  intros E HQ. unfold rtx_ac97_free, printk. do 2 step. step. eapply wp_the_chip; [done|]. by steps.
Qed.

(** snd_card_free of a card with no device, and with one. *)
Lemma wp_card_free {L : Ac97Laws} h c pd l (Q : unit -> state call ac97_state -> Prop) s :
  cards (loc s) !! c = Some pd -> new_devices c (tr s) = l ->
  match l with
  | [] => Q tt (mkState (upd_cards (delete c) (loc s)) ((SndCardFree c, 0) :: tr s))
  | [p] => exists ch, chips (loc s) !! p = Some ch /\
      Q tt (mkState (upd_cards (delete c) (upd_chips (delete p) (loc s)))
             ((SndCardFree c, 0) :: free_calls p (pdev ch) ++ tr s))
  | _ => False
  end ->
  wpx h (snd_card_free rtx_ac97_dev_free c) Q s.
Proof.
  intros E El HQ. unfold wpx. rewrite card_free, El by eauto. fold (wpx h (release_card rtx_ac97_dev_free c l) Q s).
  unfold release_card. destruct l as [|p [|]]; [by steps| |done].
  destruct HQ as (ch & Ech & HQ). cbn [free_devices]. do 2 step. unfold rtx_ac97_dev_free.
  eapply wp_free; [done|]. by steps.
Qed.

(** ** Creation *)

Lemma balanced_refl t : balanced t t.
Proof. done. Qed.

Lemma balanced_trans t1 t2 t3 : balanced t1 t2 -> balanced t2 t3 -> balanced t1 t3.
Proof. intros [H1 H2] [H3 H4]. split; intros; etrans; eauto. Qed.

(** A chip taken and given back, with the device enabled around it. *)
Lemma balanced_create d p c r0 r1 t :
  0 <= r0 -> p <> 0 -> r1 < 0 ->
  balanced t (free_calls p d ++ (SndDeviceNew c p, r1) :: (Kzalloc, p) :: (PciEnableDevice d, r0) :: t).
Proof.
  intros H0 Hp H1. assert (truth p = true) as Tp by by destruct (truth_spec p).
  split.
  - intros x. unfold free_calls. cbn [app]. do 2 (erewrite held_give by done). held_calm.
    erewrite held_take; [|done|cbn; by rewrite Tp].
    erewrite held_take; [|done|cbn; by rewrite (proj2 (Z.ltb_ge r0 0))]. lia.
  - intros c'. cbn. by rewrite (proj2 (Z.ltb_lt r1 0)), andb_false_r.
Qed.

Lemma balanced_enable d r t :
  0 <= r -> balanced t ((PciDisableDevice d, 0) :: (Kzalloc, 0) :: (PciEnableDevice d, r) :: t).
Proof.
  intros Hr. split; [|done]. intros x. erewrite held_give by done. held_calm.
  erewrite held_take; [|done|cbn; by rewrite (proj2 (Z.ltb_ge r 0))]. lia.
Qed.

Lemma balanced_refused d r t : r < 0 -> balanced t ((PciEnableDevice d, r) :: t).
Proof.
  intros Hr. split; [|done]. intros x. rewrite held_neutral; [done| |done].
  cbn. by rewrite (proj2 (Z.ltb_lt r 0)).
Qed.

(** The calls of a successful creation. *)
Definition create_calls (c d p r0 r1 : Z) : list (call * Z) :=
  [(Printk "rtx_ac97: chip=0x%p created.\n" [PInt p], 0); (SndCardSetDev c d, 0);
   (SndDeviceNew c p, r1); (Kzalloc, p); (PciEnableDevice d, r0)].

Lemma wp_create {L : Ac97Laws} h c d pd (Q : Z -> state call ac97_state -> Prop) s :
  cards (loc s) !! c = Some pd ->
  (forall p, held (RChip p) (tr s) <= 0 -> chips (loc s) !! p = None) ->
  (forall err t, err < 0 -> balanced (tr s) t -> Q err (mkState (loc s) t)) ->
  (forall p r0 r1, p <> 0 -> 0 <= r0 -> 0 <= r1 -> chips (loc s) !! p = None ->
     Q 0 (mkState (upd_cards (<[c := p]>) (upd_chips (<[p := mkChip d c]>) (loc s)))
            (create_calls c d p r0 r1 ++ tr s))) ->
  wpx h (rtx_ac97_create c d) Q s.
Proof.
  intros Ec Hfr HF HS. unfold rtx_ac97_create, printk. steps. set (r0 := s32 _).
  destruct (Z.ltb_spec r0 0) as [H0|H0]; [step; by apply HF, balanced_refused|]. steps.
  set (p := u32 _). destruct (truth_spec p) as [Hp|Hp]; cbn [negb].
  2: { assert (p = 0) as -> by lia. unfold create_fail. change (truth 0) with false. cbv iota. steps.
       apply HF; [done|by apply balanced_enable]. }
  assert (chips (loc s) !! p = None) as Ep.
  { apply Hfr. pose proof (kzalloc_fresh ((PciEnableDevice d, r0) :: tr s) Hp) as F. fold p in F.
    erewrite held_take in F; [|done|cbn; by rewrite (proj2 (Z.ltb_ge r0 0))].
    rewrite hold1_other in F by done. lia. }
  steps. unfold upd_chips at 1 2 3. cbn [chips dev_idx cards drvdata]. rewrite !alter_insert_eq. cbn [card pdev]. set (r1 := s32 _).
  destruct (Z.ltb_spec r1 0) as [H1|H1].
  - unfold create_fail. assert (truth p = true) as -> by by destruct (truth_spec p).
    step. step. eapply wp_free; [by cbn [loc chips upd_chips]; apply lookup_insert_eq|]. steps.
    unfold upd_chips. cbn [tr loc chips pdev dev_idx cards drvdata].
    rewrite delete_insert_id by done.
    destruct s as [[] t0]. apply HF; [done|by apply balanced_create].
  - steps. eapply wp_private_data; [done|]. steps. by apply HS.
Qed.

(** ** Probe *)

(** What a probe adds when it succeeds. *)
Definition probe_calls (c d p i id r0 r1 r2 : Z) : list (call * Z) :=
  [(Printk "rtx_ac97: probe successful: chip=0x%p.\n" [PInt p], 0);
   (SndCardRegister c, r2); (Strlcpy c "longname" "My first AC'97 driver", 0);
   (Strlcpy c "shortname" "My first AC'97 driver", 0); (Strlcpy c "driver" "rtx_ac97", 0)] ++
  create_calls c d p r0 r1 ++ [(SndCardCreate i id, c)].

(** A card taken and given back around a balanced stretch. *)
Lemma balanced_card c i id t t' :
  0 <= c -> new_devices c t = [] -> balanced ((SndCardCreate i id, c) :: t) t' ->
  balanced t ((SndCardFree c, 0) :: t').
Proof.
  intros Hc Hn [H1 H2]. split.
  - intros x. erewrite held_give by done. rewrite H1.
    erewrite held_take; [|done|cbn; by rewrite (proj2 (Z.ltb_ge c 0))]. lia.
  - intros c'. cbn [new_devices]. rewrite H2. destruct (Z.eqb_spec c c') as [<-|]; by cbn.
Qed.

(** Registration refused: the card goes with its device. *)
Lemma balanced_register c d p i id r0 r1 r2 t :
  0 <= c -> 0 <= r0 -> 0 <= r1 -> p <> 0 -> new_devices c t = [] ->
  balanced t ((SndCardFree c, 0) :: free_calls p d ++ (Printk "rtx_ac97: probe failed.\n" [], 0) ::
    drop 1 (probe_calls c d p i id r0 r1 r2) ++ t).
Proof.
  intros Hc H0 H1 Hp Hn. assert (truth p = true) as Tp by by destruct (truth_spec p). split.
  - intros x. cbn [probe_calls create_calls free_calls app drop]. do 3 (erewrite held_give by done || held_calm).
    held_calm. erewrite held_take; [|done|cbn; by rewrite Tp].
    erewrite held_take; [|done|cbn; by rewrite (proj2 (Z.ltb_ge r0 0))].
    erewrite held_take; [|done|cbn; by rewrite (proj2 (Z.ltb_ge c 0))]. lia.
  - intros c'. cbn. destruct (Z.eqb_spec c c') as [<-|]; [done|]. by cbn.
Qed.

Lemma inv_card_fresh b s c :
  inv b s -> held (RCard c) (tr s) <= 0 -> cards (loc s) !! c = None.
Proof. intros Hi Hc. rewrite (inv_held_card _ _ Hi) in Hc. by apply flag_0, eq_None_not_Some in Hc. Qed.

Lemma inv_chip_fresh b s p :
  inv b s -> held (RChip p) (tr s) <= 0 -> chips (loc s) !! p = None.
Proof. intros Hi Hc. rewrite (inv_held_chip _ _ Hi) in Hc. by apply flag_0, eq_None_not_Some in Hc. Qed.

Lemma wp_ac97_probe {L : Ac97Laws} h b d (Q : Z -> state call ac97_state -> Prop) s :
  inv b s ->
  (dev_idx (loc s) = SNDRV_CARDS -> Q (- ENODEV) s) ->
  (dev_idx (loc s) < SNDRV_CARDS -> Q (- ENOENT)
     (mkState (mkSt (dev_idx (loc s) + 1) (chips (loc s)) (cards (loc s)) (drvdata (loc s))) (tr s))) ->
  (forall err t, err < 0 -> balanced (tr s) t -> Q err (mkState (loc s) t)) ->
  (forall c p i id r0 r1 r2, dev_idx (loc s) < SNDRV_CARDS ->
     0 <= c -> p <> 0 -> 0 <= r0 -> 0 <= r1 -> 0 <= r2 ->
     cards (loc s) !! c = None -> chips (loc s) !! p = None ->
     Q 0 (mkState (mkSt (dev_idx (loc s) + 1) (<[p := mkChip d c]> (chips (loc s)))
                     (<[c := p]> (cards (loc s))) (<[d := c]> (drvdata (loc s))))
            (probe_calls c d p i id r0 r1 r2 ++ tr s))) ->
  wpx h (rtx_ac97_probe d) Q s.
Proof.
  intros Hi HN HE HF HS. pose proof (inv_idx _ _ Hi) as Hx. pose proof cards_bound as Hb.
  change (2 ^ 31) with 2147483648 in Hb.
  unfold rtx_ac97_probe, printk. step. step. rewrite Z.geb_leb.
  destruct (Z.leb_spec SNDRV_CARDS (dev_idx (loc s))); [step; apply HN; lia|].
  destruct (buf_get_Some rtx_ac97_enable (dev_idx (loc s))) as [en ->]; [rewrite enable_length; lia|].
  destruct (buf_get_Some rtx_ac97_index (dev_idx (loc s))) as [i ->]; [rewrite index_length; lia|].
  destruct (buf_get_Some rtx_ac97_id (dev_idx (loc s))) as [id ->]; [rewrite id_length; lia|].
  do 2 step. destruct (truth en); cbn [negb].
  2: { steps. unfold upd_idx. rewrite s32_id by lia. apply HE. lia. }
  steps. set (c := k_ret _ _). destruct (Z.ltb_spec c 0) as [Hc|Hc].
  { step. apply HF; [done|]. split; [|done]. intros x. rewrite held_neutral; [done| |done].
    cbn. by rewrite (proj2 (Z.ltb_lt c 0)). }
  assert (cards (loc s) !! c = None) as Ec by (eapply inv_card_fresh; [done|by apply create_fresh]).
  assert (new_devices c (tr s) = []) as En by (by rewrite (inv_devices _ _ Hi), Ec).
  cbv zeta. do 3 step. eapply wp_create.
  - by cbn; apply lookup_insert_eq.
  - intros p Hp. cbn [loc upd_cards chips tr] in *. apply (inv_chip_fresh b); [done|].
    erewrite held_take in Hp; [|done|cbn; by rewrite (proj2 (Z.ltb_ge c 0))].
    by rewrite hold1_other, Z.add_0_r in Hp by done.
  - intros err t He Hbal. rewrite (proj2 (Z.ltb_lt err 0)) by done. unfold probe_fail, printk. do 2 step.
    step. eapply wp_card_free; [by cbn; apply lookup_insert_eq|done|]. cbn [tr loc] in *.
    cbn [new_devices]. destruct Hbal as [Hb1 Hb2]. rewrite Hb2.
    cbn [new_devices]. rewrite En. step. cbn [loc tr]. unfold upd_cards.
    cbn [dev_idx chips cards drvdata]. rewrite delete_insert_id by done. destruct s as [[] t0].
    apply HF; [done|]. apply (balanced_card c i id); [done|done|].
    eapply balanced_trans; [by split|]. split; [|done]. intros x. by held_calm.
  - intros p r0 r1 Hp H0 H1 Ep. change (0 <? 0) with false. cbv iota. unfold upd_cards, upd_chips.
    cbn [dev_idx chips cards drvdata loc tr] in *. rewrite insert_insert_eq.
    step. eapply wp_private_data; [by cbn; apply lookup_insert_eq|]. steps. set (r2 := s32 _).
    destruct (Z.ltb_spec r2 0) as [H2|H2].
    + unfold probe_fail, printk. do 2 step. step.
      eapply wp_card_free; [by cbn; apply lookup_insert_eq| |].
      { cbn [tr]. cbn. by rewrite Z.eqb_refl, (proj2 (Z.ltb_ge r1 0)), En by done. }
      cbn [loc chips]. eexists. split; [apply lookup_insert_eq|]. step. unfold upd_cards, upd_chips.
      cbn [dev_idx chips cards drvdata loc tr pdev]. rewrite !delete_insert_id by done.
      destruct s as [[] t0]. apply HF; [done|]. by apply (balanced_register c d p i id r0 r1 r2).
    + steps. eapply wp_private_data; [by cbn; apply lookup_insert_eq|]. steps.
      unfold upd_drvdata, upd_idx. cbn [dev_idx chips cards drvdata loc tr].
      rewrite s32_id by lia. by apply (HS c p i id r0 r1 r2).
Qed.


(** ** Preservation *)

(** What a bound device holds. *)
Definition binding (d c p : Z) : list resource := [RCard c; RChip p; REnabled d].

Lemma held_probe d c p i id r0 r1 r2 t x :
  0 <= c -> 0 <= r0 -> 0 <= r1 -> p <> 0 ->
  held x (probe_calls c d p i id r0 r1 r2 ++ t) = held x t + hold_all (binding d c p) x.
Proof.
  intros Hc H0 H1 Hp. assert (truth p = true) as Tp by by destruct (truth_spec p).
  unfold probe_calls, create_calls. cbn [app]. held_calm.
  erewrite held_take; [|done|cbn; by rewrite Tp].
  erewrite held_take; [|done|cbn; by rewrite (proj2 (Z.ltb_ge r0 0))].
  erewrite held_take; [|done|cbn; by rewrite (proj2 (Z.ltb_ge c 0))].
  cbn [binding hold_all foldr]. lia.
Qed.

Lemma held_remove d c p m t x :
  held x ((SndCardFree c, 0) :: free_calls p d ++ (Printk m [PInt p], 0) :: t) =
  held x t - hold_all (binding d c p) x.
Proof.
  unfold free_calls. cbn [app]. do 3 (erewrite held_give by done). held_calm.
  cbn [binding hold_all foldr]. lia.
Qed.

Lemma flag_iff P Q `{Decision P, Decision Q} : (P <-> Q) -> flag P = flag Q.
Proof. intros H1. unfold flag. by rewrite (bool_decide_ext P Q). Qed.

(** A key is put in a map that did not have it. *)
Lemma flag_insert {A} (m : gmap Z A) i v j (R : Z -> resource) :
  (forall a b, R a = R b -> a = b) -> m !! i = None ->
  flag (is_Some (<[i := v]> m !! j)) = flag (is_Some (m !! j)) + hold1 (R i) (R j).
Proof.
  intros HR Hi. destruct (decide (i = j)) as [->|Hij].
  - rewrite lookup_insert_eq, Hi, hold1_same. done.
  - rewrite lookup_insert_ne, hold1_other by naive_solver. lia.
Qed.

Lemma flag_delete {A} (m : gmap Z A) i j (R : Z -> resource) :
  (forall a b, R a = R b -> a = b) -> is_Some (m !! i) ->
  flag (is_Some (delete i m !! j)) = flag (is_Some (m !! j)) - hold1 (R i) (R j).
Proof.
  intros HR [v Hi]. destruct (decide (i = j)) as [->|Hij].
  - rewrite lookup_delete_eq, Hi, hold1_same. done.
  - rewrite lookup_delete_ne, hold1_other by naive_solver. lia.
Qed.

Lemma inv_probe b s d c p i id r0 r1 r2 :
  inv b s -> b !! d = None -> dev_idx (loc s) < SNDRV_CARDS ->
  0 <= c -> p <> 0 -> 0 <= r0 -> 0 <= r1 ->
  cards (loc s) !! c = None -> chips (loc s) !! p = None ->
  inv (<[d := (c, p)]> b)
    (mkState (mkSt (dev_idx (loc s) + 1) (<[p := mkChip d c]> (chips (loc s)))
                (<[c := p]> (cards (loc s))) (<[d := c]> (drvdata (loc s))))
       (probe_calls c d p i id r0 r1 r2 ++ tr s)).
Proof.
  intros [] Hd Hx Hc Hp H0 H1 Ec Ep. split; cbn [loc tr dev_idx chips cards drvdata].
  - lia.
  - by rewrite fmap_insert, inv_drvdata0.
  - by apply indexes_insert.
  - by apply indexes_insert.
  - intros d'. rewrite held_probe, inv_enabled0, (flag_insert b d (c, p) d' REnabled) by naive_solver.
    cbn [binding hold_all foldr]. rewrite !(hold1_other _ (REnabled d')) by done. lia.
  - intros c'. rewrite held_probe, inv_held_card0, (flag_insert _ c p c' RCard) by naive_solver.
    cbn [binding hold_all foldr]. rewrite (hold1_other (RChip p)), (hold1_other (REnabled d)) by done. lia.
  - intros p'. rewrite held_probe, inv_held_chip0, (flag_insert _ p (mkChip d c) p' RChip) by naive_solver.
    cbn [binding hold_all foldr]. rewrite (hold1_other (RCard c)), (hold1_other (REnabled d)) by done. lia.
  - intros c'. cbn. rewrite (proj2 (Z.ltb_ge r1 0)), andb_true_r by done. rewrite inv_devices0.
    destruct (Z.eqb_spec c c') as [<-|Hn]; [by rewrite lookup_insert_eq, Ec|by rewrite lookup_insert_ne].
Qed.

(** The card and the chip of a bound device belong to no other. *)
Lemma inv_unique b s d c p :
  inv b s -> b !! d = Some (c, p) ->
  forall d' x, b !! d' = Some x -> fst (card_entry d' x) = c \/ fst (chip_entry d' x) = p -> d' = d.
Proof.
  intros Hi Hd d' [c' p'] Hd' Hx. cbn in Hx.
  assert (forall e a q, b !! e = Some (a, q) ->
    cards (loc s) !! a = Some q /\ chips (loc s) !! q = Some (mkChip e a)) as Hl.
  { intros e a q He. split; [apply (inv_cards _ _ Hi)|apply (inv_chips _ _ Hi)]; by exists e, (a, q). }
  destruct (Hl _ _ _ Hd), (Hl _ _ _ Hd'). destruct Hx as [-> | ->]; congruence.
Qed.

Lemma inv_remove b s d c p m :
  inv b s -> b !! d = Some (c, p) ->
  inv (delete d b)
    (mkState (mkSt (dev_idx (loc s)) (delete p (chips (loc s))) (delete c (cards (loc s)))
                (delete d (drvdata (loc s))))
       ((SndCardFree c, 0) :: free_calls p d ++ (Printk m [PInt p], 0) :: tr s)).
Proof.
  intros Hi Hd. pose proof (inv_unique _ _ _ _ _ Hi Hd) as Hu. destruct Hi.
  assert (cards (loc s) !! c = Some p) as Ec by (apply inv_cards0; by exists d, (c, p)).
  assert (chips (loc s) !! p = Some (mkChip d c)) as Ep by (apply inv_chips0; by exists d, (c, p)).
  split; cbn [loc tr dev_idx chips cards drvdata].
  - done.
  - by rewrite fmap_delete, inv_drvdata0.
  - eapply indexes_delete; [done|done|done|]. intros d' x Hb Hx. eapply Hu; eauto.
  - eapply indexes_delete; [done|done|done|]. intros d' x Hb Hx. eapply Hu; eauto.
  - intros d'. rewrite held_remove, inv_enabled0, (flag_delete b d d' REnabled) by naive_solver.
    cbn [binding hold_all foldr]. rewrite !(hold1_other _ (REnabled d')) by done. lia.
  - intros c'. rewrite held_remove, inv_held_card0, (flag_delete _ c c' RCard) by naive_solver.
    cbn [binding hold_all foldr]. rewrite (hold1_other (RChip p)), (hold1_other (REnabled d)) by done. lia.
  - intros p'. rewrite held_remove, inv_held_chip0, (flag_delete _ p p' RChip) by naive_solver.
    cbn [binding hold_all foldr]. rewrite (hold1_other (RCard c)), (hold1_other (REnabled d)) by done. lia.
  - intros c'. cbn. destruct (Z.eqb_spec c c') as [<-|Hn].
    + by rewrite lookup_delete_eq.
    + by rewrite lookup_delete_ne.
Qed.

(** A state that differs only in the trace and, upwards, in the index. *)
Lemma inv_balanced b s i t :
  inv b s -> balanced (tr s) t -> 0 <= i <= SNDRV_CARDS ->
  inv b (mkState (mkSt i (chips (loc s)) (cards (loc s)) (drvdata (loc s))) t).
Proof. intros [] [Hh Hn] Hx. split; cbn [loc tr]; intros; rewrite ?Hh, ?Hn; auto. Qed.

(** ** Events *)

Inductive event := Probe (d : Z) | Remove (d : Z).

Definition handle (e : event) : M call ac97_state unit :=
  match e with
  | Probe d => let! _ := rtx_ac97_probe d in ret tt
  | Remove d => rtx_ac97_remove d
  end.

(** The kernel probes only a device that has no driver, and removes only a
    bound one. *)
Definition legal s (e : event) : Prop :=
  match e with
  | Probe d => drvdata (loc s) !! d = None
  | Remove d => is_Some (drvdata (loc s) !! d)
  end.

Inductive occurs : state call ac97_state -> state call ac97_state -> Prop :=
| occurs_event e s s' : legal s e -> handle e s = Ok tt s' -> occurs s s'.

Definition loaded : state call ac97_state := mkState (mkSt 0 ∅ ∅ ∅) [].

Definition reachable : state call ac97_state -> Prop := rtc occurs loaded.

Lemma inv_bound b s d : inv b s -> (is_Some (drvdata (loc s) !! d) <-> is_Some (b !! d)).
Proof. intros Hi. rewrite (inv_drvdata _ _ Hi), lookup_fmap. by rewrite fmap_is_Some. Qed.

Lemma inv_unbound b s d : inv b s -> drvdata (loc s) !! d = None -> b !! d = None.
Proof. intros Hi. rewrite (inv_drvdata _ _ Hi), lookup_fmap. by intros ?%fmap_None. Qed.

Lemma wp_ac97_remove {L : Ac97Laws} h b d c p (Q : unit -> state call ac97_state -> Prop) s :
  inv b s -> b !! d = Some (c, p) ->
  Q tt (mkState (mkSt (dev_idx (loc s)) (delete p (chips (loc s))) (delete c (cards (loc s)))
                   (delete d (drvdata (loc s))))
          ((SndCardFree c, 0) :: free_calls p d ++
             (Printk "rtx_ac97: removing: chip=0x%p.\n" [PInt p], 0) :: tr s)) ->
  wpx h (rtx_ac97_remove d) Q s.
Proof.
  intros Hi Hd HQ. pose proof Hi as [].
  assert (cards (loc s) !! c = Some p) as Ec by (apply inv_cards0; by exists d, (c, p)).
  assert (chips (loc s) !! p = Some (mkChip d c)) as Ep by (apply inv_chips0; by exists d, (c, p)).
  assert (default 0 (drvdata (loc s) !! d) = c) as Ed by (by rewrite inv_drvdata0, lookup_fmap, Hd).
  unfold rtx_ac97_remove, pci_get_drvdata, printk. do 2 step. rewrite Ed. step.
  eapply wp_private_data; [done|]. steps. rewrite Ed.
  eapply wp_card_free; [done| |].
  { cbn [tr]. by cbn [new_devices]; rewrite inv_devices0, Ec. }
  cbn [loc tr]. eexists. split; [done|]. steps. exact HQ.
Qed.

Lemma wp_ac97_event {L : Ac97Laws} e b s :
  inv b s -> legal s e ->
  wp (handle e) (fun _ s' => (exists b', inv b' s') /\ dev_idx (loc s) <= dev_idx (loc s')) s.
Proof.
  intros Hi Hl. destruct e as [d|d]; cbn [handle legal] in *.
  - apply (inv_unbound b) in Hl; [|done]. apply wp_bind. pose proof (inv_idx _ _ Hi) as Hx.
    eapply wp_ac97_probe; [done|..].
    + intros _. apply wp_ret. split; [by exists b|done].
    + intros Hlt. apply wp_ret. split; [exists b|cbn; lia].
      apply inv_balanced; [done|done|lia].
    + intros err t _ Hb. apply wp_ret. split; [exists b|done].
      destruct s as [[] t0]. by apply (inv_balanced b _ _ t Hi).
    + intros c p i id r0 r1 r2 Hlt Hc Hp H0 H1 H2 Ec Ep. apply wp_ret.
      split; [exists (<[d := (c, p)]> b); by apply inv_probe|cbn; lia].
  - apply (inv_bound b) in Hl as [[c p] Hd]; [|done]. eapply wp_ac97_remove; [done..|].
    split; [exists (delete d b); by apply inv_remove|done].
Qed.

Lemma inv_loaded : 0 <= SNDRV_CARDS -> inv ∅ loaded.
Proof.
  intros Hn. split; cbn [loc tr loaded dev_idx chips cards drvdata]; try done.
  - intros k v. rewrite lookup_empty. split; [done|]. by intros (d & x & Hb & _).
  - intros k v. rewrite lookup_empty. split; [done|]. by intros (d & x & Hb & _).
Qed.

Lemma cards_nonneg : 0 <= SNDRV_CARDS.
Proof. rewrite <- index_length. apply zlen_nonneg. Qed.

Lemma steps_inv {L : Ac97Laws} s s' :
  rtc occurs s s' -> forall b, inv b s -> (exists b', inv b' s') /\ dev_idx (loc s) <= dev_idx (loc s').
Proof.
  induction 1 as [s|s s1 s2 [e ? ? Hl E] _ IH]; intros b Hi; [split; [by exists b|done]|].
  pose proof (wp_ok_inv _ _ _ _ _ _ (wp_ac97_event e b _ Hi Hl) E) as [[b1 Hi1] H1].
  destruct (IH _ Hi1). split; [done|lia].
Qed.

Lemma reachable_inv {L : Ac97Laws} s : reachable s -> exists b, inv b s.
Proof. intros H. by apply (steps_inv _ _ H ∅ (inv_loaded cards_nonneg)). Qed.

(** ** The properties *)

(** C9: Any sequence of probes of unbound devices and removals of bound ones
    keeps the driver's state in step with the set of bound devices: each has
    its card and chip, held once, the device enabled once and the chip the
    card's only device, and nothing else is held; and every further probe or
    removal completes without a fault. *)
Theorem ac97_reachable_invariant {L : Ac97Laws} s :
  reachable s ->
  (exists b, inv b s) /\ forall e, legal s e -> exists s', handle e s = Ok tt s'.
Proof.
  intros [b Hi]%reachable_inv. split; [by exists b|]. intros e Hl.
  destruct (wp_inv _ _ _ (wp_ac97_event e b s Hi Hl)) as ([] & s' & E & _). eauto.
Qed.

(** C25: From every reachable state probing an unbound device either returns
    0, with one new card, one new chip and the device enabled, all linked
    and held once more; or it returns a negative error and holds exactly
    what it held, whichever call failed. *)
Theorem ac97_probe_balanced {L : Ac97Laws} d s :
  reachable s -> drvdata (loc s) !! d = None ->
  wp (rtx_ac97_probe d) (fun r s' =>
    (r = 0 /\ exists c p,
       cards (loc s) !! c = None /\ chips (loc s) !! p = None /\
       loc s' = mkSt (dev_idx (loc s) + 1) (<[p := mkChip d c]> (chips (loc s)))
                  (<[c := p]> (cards (loc s))) (<[d := c]> (drvdata (loc s))) /\
       forall x, held x (tr s') = held x (tr s) + hold_all (binding d c p) x) \/
    (r < 0 /\ chips (loc s') = chips (loc s) /\ cards (loc s') = cards (loc s) /\
       drvdata (loc s') = drvdata (loc s) /\ forall x, held x (tr s') = held x (tr s))) s.
Proof.
  intros [b Hi]%reachable_inv Hd. eapply wp_ac97_probe; [done|..].
  - intros _. by right.
  - intros _. by right.
  - intros err t He [Hh _]. by right.
  - intros c p i id r0 r1 r2 Hlt Hc Hp H0 H1 H2 Ec Ep. left. split; [done|]. exists c, p.
    split; [done|]. split; [done|]. split; [done|]. intros x. by apply held_probe.
Qed.

(** Probing a device and removing it again, when the probe succeeds,
    leaves cards, chips and driver data as they were and holds exactly what
    was held. *)
Theorem ac97_probe_remove {L : Ac97Laws} d s :
  reachable s -> drvdata (loc s) !! d = None ->
  wp (let! r := rtx_ac97_probe d in (if r =? 0 then rtx_ac97_remove d else ret tt) ;; ret r)
    (fun r s' => chips (loc s') = chips (loc s) /\ cards (loc s') = cards (loc s) /\
       drvdata (loc s') = drvdata (loc s) /\ forall x, held x (tr s') = held x (tr s)) s.
Proof.
  intros [b Hi]%reachable_inv Hd. apply wp_bind. eapply wp_ac97_probe; [done|..].
  - intros _. by repeat apply wp_bind.
  - intros _. by repeat apply wp_bind.
  - intros err t He [Hh _]. rewrite (proj2 (Z.eqb_neq err 0)) by lia. by repeat apply wp_bind.
  - intros c p i id r0 r1 r2 Hlt Hc Hp H0 H1 H2 Ec Ep. cbn [Z.eqb]. apply wp_bind.
    pose proof (inv_unbound _ _ _ Hi Hd) as Hb. cbv iota.
    eapply (wp_ac97_remove _ (<[d := (c, p)]> b)); [by apply inv_probe|apply lookup_insert_eq|].
    apply wp_ret. cbn [loc tr chips cards drvdata].
    rewrite !delete_insert_id by done. repeat split; try done. intros x.
    rewrite held_remove, held_probe by done. lia.
Qed.

(** Once dev_idx has reached SNDRV_CARDS every later probe returns
    -ENODEV, whatever cards have been removed since: a removal does not give
    its index back. *)
Theorem ac97_slots_not_reused {L : Ac97Laws} d s s' :
  reachable s -> dev_idx (loc s) = SNDRV_CARDS -> rtc occurs s s' ->
  rtx_ac97_probe d s' = Ok (- ENODEV) s'.
Proof.
  intros [b Hi]%reachable_inv Hx Hs. destruct (steps_inv _ _ Hs b Hi) as [[b' Hi'] Hle].
  pose proof (inv_idx _ _ Hi'). unfold rtx_ac97_probe, bind, gets. rewrite Z.geb_leb.
  by rewrite (proj2 (Z.leb_le _ _)) by lia.
Qed.
End Rules.

(** ** Witnesses

    A system of two sound cards; allocators that number what they give out, a
    registration that answers [reg]. *)

Lemma two_bound : 2 < 2 ^ 31.
Proof. done. Qed.

Definition two_cards : SoundDefaults := {|
  SNDRV_CARDS := 2; rtx_ac97_index := [-1; -1]; rtx_ac97_id := [0; 0]; rtx_ac97_enable := [1; 1];
  index_length := eq_refl; id_length := eq_refl; enable_length := eq_refl; cards_bound := two_bound
|}.

Definition top (t : list (call * Z)) : Z := foldr (fun e m => Z.max (snd e) m) 0x1000 t.

Definition counting (reg : Z) : Kernel call := {|
  k_ret t c :=
    match c with
    | Kzalloc => if 1 + top t <? 4294967296 then 1 + top t else 0
    | SndCardCreate _ _ => 1 + top t
    | SndCardRegister _ => reg
    | _ => 0
    end;
  k_out _ _ _ := 0
|}.

Definition core {K : Kernel call} : SoundCore := {|
  snd_card_free dev_free c s := release_card dev_free c (new_devices c (tr s)) s
|}.

Lemma top_fresh r t a :
  (forall e, acquires e = Some r -> snd e = a) -> top t < a -> held r t <= 0.
Proof.
  intros Ha Ht. apply held_none. induction t as [|e t IH]; constructor;
    change (Z.max (snd e) (top t) < a) in Ht.
  - intros He%Ha. lia.
  - apply IH. lia.
Qed.

Lemma top_ge t : 0x1000 <= top t.
Proof.
  induction t as [|e t IH]; [done|]. change (0x1000 <= Z.max (snd e) (top t)). lia.
Qed.

Lemma counting_laws reg : Ac97Laws (K := counting reg) (C := core).
Proof.
  split.
  - intros t. cbn. pose proof (top_ge t). destruct (Z.ltb_spec (1 + top t) 4294967296); [|done].
    rewrite u32_id by lia. intros _. apply (top_fresh _ _ (1 + top t)); [|lia].
    intros [[] r]; cbn; try done; [by destruct (_ <? _)| |by destruct (_ <? _)].
    destruct (truth r); [|done]. congruence.
  - intros t i d. cbn. intros _. apply (top_fresh _ _ (1 + top t)); [|lia].
    intros [[] r]; cbn; try done; [by destruct (_ <? _)|by destruct (truth r)|].
    destruct (r <? 0); [done|]. congruence.
  - done.
Qed.

Definition after {A} (m : M call ac97_state A) (s : state call ac97_state) :=
  match m s with Ok _ s' => s' | _ => s end.

(** One device bound. *)
Definition bound1 : state call ac97_state :=
  after (handle (K := counting 0) (C := core) (T := two_cards) (Probe 7)) loaded.

(** Both indices used, one device removed again. *)
Definition bound2 : state call ac97_state :=
  after (handle (K := counting 0) (C := core) (T := two_cards) (Probe 8)) bound1.
Definition bound2' : state call ac97_state :=
  after (handle (K := counting 0) (C := core) (T := two_cards) (Remove 7)) bound2.

Lemma occurs1 : occurs (K := counting 0) (C := core) (T := two_cards) loaded bound1.
Proof. apply (occurs_event (Probe 7)); [done|by vm_compute]. Qed.
Lemma occurs2 : occurs (K := counting 0) (C := core) (T := two_cards) bound1 bound2.
Proof. apply (occurs_event (Probe 8)); [by vm_compute|by vm_compute]. Qed.
Lemma occurs2' : occurs (K := counting 0) (C := core) (T := two_cards) bound2 bound2'.
Proof. apply (occurs_event (Remove 7)); [by eexists; vm_compute|by vm_compute]. Qed.

Lemma bound1_reachable : reachable (K := counting 0) (C := core) (T := two_cards) bound1.
Proof. apply rtc_once, occurs1. Qed.
Lemma bound2_reachable : reachable (K := counting 0) (C := core) (T := two_cards) bound2.
Proof. eapply rtc_r; [apply bound1_reachable|apply occurs2]. Qed.

Example ac97_reachable_invariant_witness :
  let K := counting 0 in let C := core in let T := two_cards in
  (exists b, inv b bound2) /\ forall e, legal bound2 e -> exists s', handle e bound2 = Ok tt s'.
Proof.
  intros K C T. exact (ac97_reachable_invariant (L := counting_laws 0) bound2 bound2_reachable).
Defined.

(** Registration refused: the second disjunct. *)
Example ac97_probe_balanced_witness :
  let K := counting (-5) in let C := core in let T := two_cards in
  wp (rtx_ac97_probe 7) (fun r s' =>
    (r = 0 /\ exists c p,
       cards (loc loaded) !! c = None /\ chips (loc loaded) !! p = None /\
       loc s' = mkSt (dev_idx (loc loaded) + 1) (<[p := mkChip 7 c]> (chips (loc loaded)))
                  (<[c := p]> (cards (loc loaded))) (<[7 := c]> (drvdata (loc loaded))) /\
       forall x, held x (tr s') = held x (tr loaded) + hold_all (binding 7 c p) x) \/
    (r < 0 /\ chips (loc s') = chips (loc loaded) /\ cards (loc s') = cards (loc loaded) /\
       drvdata (loc s') = drvdata (loc loaded) /\ forall x, held x (tr s') = held x (tr loaded))) loaded.
Proof.
  intros K C T. exact (ac97_probe_balanced (L := counting_laws (-5)) 7 loaded (rtc_refl _ _) eq_refl).
Defined.

Example ac97_probe_remove_witness :
  let K := counting 0 in let C := core in let T := two_cards in
  wp (let! r := rtx_ac97_probe 8 in (if r =? 0 then rtx_ac97_remove 8 else ret tt) ;; ret r)
    (fun r s' => chips (loc s') = chips (loc bound1) /\ cards (loc s') = cards (loc bound1) /\
       drvdata (loc s') = drvdata (loc bound1) /\ forall x, held x (tr s') = held x (tr bound1)) bound1.
Proof.
  intros K C T.
  exact (ac97_probe_remove (L := counting_laws 0) 8 bound1 bound1_reachable eq_refl).
Defined.

Example ac97_slots_not_reused_witness :
  let K := counting 0 in let C := core in let T := two_cards in
  rtx_ac97_probe 7 bound2' = Ok (- ENODEV) bound2'.
Proof.
  intros K C T.
  exact (ac97_slots_not_reused (L := counting_laws 0) 7 bound2 bound2' bound2_reachable eq_refl
    (rtc_once _ _ occurs2')).
Defined.
