(* ===== verification/MySerial.v ===== *)
(** * The Windows driver of the serial port

    doc/systems/windows/rs232_polling/MySerial: uart.h and uart.c (the device),
    device.h and device.c (the device context, the reader thread, creation and
    cleanup), pnp.c (resources), read.c, write.c and ioctl.c (the requests),
    driver.c (the entry point).

    Messages are given without the DRIVER_NAME that starts most of them, the one
    of the build without the date and time of the compilation.

    The framework (WDF) is the environment: its functions answer a status, and
    a status is a success when it is not negative. *)

From S2P Require Import Prelude CMonad Uart16550 LinuxApi.

(** ** uart.h, device.h *)

Definition BASE_BAUDRATE := 115200.
Definition RBR := 0.
Definition THR := 0.
Definition IER := 1.
Definition DLL := 0.
Definition DLM := 1.
Definition IIR := 2.
Definition LSR := 5.
Definition MSR := 6.
Definition FCR := 2.
Definition LCR := 3.
Definition MCR := 4.
Definition SCR := 7.
Definition LCR_SB := 0x04.
Definition LCR_PAR := 0x08.
Definition LCR_EVN := 0x10.
Definition LCR_DLAB := 0x80.
Definition LSR_DA := 0x01.
Definition LSR_ETHR := 0x20.
Definition MCR_DTR := 0x01.
Definition MCR_RTS := 0x02.
Definition MCR_AO2 := 0x08.
Definition MY_SERIAL_READ_BUFFER_MAX_LEN := 4096.

(** Statuses of ntstatus.h, as the signed values they are. *)
Definition STATUS_SUCCESS := 0.
Definition STATUS_NOT_IMPLEMENTED := s32 0xC0000002.
Definition STATUS_DEVICE_CONFIGURATION_ERROR := s32 0xC0000182.
Definition NT_SUCCESS (status : Z) : bool := 0 <=? status.

Definition CmResourceTypePort := 1.

(** The two command codes of ntddser.h that the driver knows. *)
Class SerialIoctls := {
  IOCTL_SERIAL_GET_BAUD_RATE : Z;
  IOCTL_SERIAL_GET_LINE_CONTROL : Z;
  serial_ioctls_differ : IOCTL_SERIAL_GET_BAUD_RATE <> IOCTL_SERIAL_GET_LINE_CONTROL
}.

(** ** The external functions *)

Inductive call :=
| ReadPortUchar (port : Z)
| WritePortUchar (v port : Z)
| KdPrint (fmt : string) (args : list parg)
| KeDelayExecutionThread (t : Z)
| WdfWaitLockCreate
| WdfWaitLockAcquire
| WdfWaitLockRelease
| PsCreateSystemThread
| PsTerminateSystemThread (status : Z)
| FormatName (prefix : string) (n : Z)          (* RtlUnicodeStringPrintf *)
| FormatLink (prefix name : string)
| WdfDeviceInitAssignName
| WdfDeviceInitSetExclusive
| WdfDeviceInitSetDeviceType
| WdfDeviceInitSetPnpPowerEventCallbacks
| WdfDeviceCreate
| WdfIoQueueCreate
| WdfDeviceCreateSymbolicLink
| RtlWriteRegistryValue
| WdfDriverCreate
| WdfCmResourceListGetCount
| WdfCmResourceListGetDescriptor (i : Z)
| WdfRequestRetrieveOutputMemory (req : Z)
| WdfRequestRetrieveInputMemory (req : Z)
| WdfRequestRetrieveOutputBuffer (req min : Z)
| WdfMemoryGetBuffer (mem : Z)
| WdfMemoryCopyFromBuffer (mem : Z) (src : bytes)
| StoreBuffer (buffer : Z) (data : list Z)      (* stores through [buffer] *)
| WdfRequestComplete (req status : Z)
| WdfRequestCompleteWithInformation (req status info : Z).

#[export, refine] Instance serial_ports : PortIO call := {
  pin := ReadPortUchar;
  pout := WritePortUchar;
  as_port c := match c with
               | ReadPortUchar p => Some (PIn p) | WritePortUchar v p => Some (POut v p)
               | _ => None end
}.
Proof. all: done. Defined.

(** The device context, and the system's count of serial ports. *)
Record extension := mkExt {
  hasIncrementedIoSerialCount : bool;
  portBase : Z;
  readBuffer : bytes;
  readBufferLength : Z;
  mustExit : bool
}.

Record serial_state := mkS { devExt : extension; SerialCount : Z }.

Definition set_ext (f : extension -> extension) (s : serial_state) : serial_state :=
  mkS (f (devExt s)) (SerialCount s).
Definition set_count (n : Z) (s : serial_state) : serial_state := mkS (devExt s) n.

Definition with_incremented (b : bool) (d : extension) : extension :=
  mkExt b (portBase d) (readBuffer d) (readBufferLength d) (mustExit d).
Definition with_base (p : Z) (d : extension) : extension :=
  mkExt (hasIncrementedIoSerialCount d) p (readBuffer d) (readBufferLength d) (mustExit d).
Definition with_buffer (b : bytes) (n : Z) (d : extension) : extension :=
  mkExt (hasIncrementedIoSerialCount d) (portBase d) b n (mustExit d).
Definition with_exit (b : bool) (d : extension) : extension :=
  mkExt (hasIncrementedIoSerialCount d) (portBase d) (readBuffer d) (readBufferLength d) b.

(** A context as WdfDeviceCreate makes it: zeroed. *)
Definition ext0 : extension := mkExt false 0 (replicate 4096 0) 0 false.

Section Driver.
Context {K : Kernel call}.

Local Abbreviation M := (M call serial_state).

Definition kdprint (fmt : string) (args : list parg) : M unit := post (KdPrint fmt args).

(** ** uart.c *)

Definition UartWriteRegister (reg value : Z) : M unit :=
  let! d := gets devExt in port_out value (u32 (portBase d + reg)).

Definition UartReadRegister (reg : Z) : M Z :=
  let! d := gets devExt in port_in (u32 (portBase d + reg)).

Definition UartWriteByte (value : Z) : M unit :=
  kdprint "-->UartWriteByte [%c]\n" [PInt value] ;;
  UartWriteRegister THR value ;;
  kdprint "<--UartWriteByte\n" [].

Definition UartSetBit (reg bit value : Z) : M unit :=
  let! prev_value := UartReadRegister reg in
  let new_value := u8 (if truth value then Z.lor prev_value bit
                       else Z.land prev_value (Z.lnot bit)) in
  UartWriteRegister reg new_value.

Definition UartGetBit (reg bit : Z) : M Z :=
  let! read := UartReadRegister reg in ret (Z.land read bit).

(** C division truncates. *)
Definition UartSetBaudrate (baudrate : Z) : M unit :=
  UartSetBit MCR MCR_AO2 0 ;;
  if baudrate =? 0 then fail DivByZero else
  let divisor := Z.quot BASE_BAUDRATE baudrate in
  UartSetBit LCR LCR_DLAB 1 ;;
  UartWriteRegister DLL (u8 divisor) ;;
  UartWriteRegister DLM (u8 (Z.shiftr divisor 8)) ;;
  UartSetBit LCR LCR_DLAB 0.

Definition UartSetMode (dataBits stopBits parity odd : Z) : M Z :=
  if negb ((5 <=? dataBits) && (dataBits <=? 8)) then ret (-1) else
  let dataBitsUart := dataBits - 5 in
  if negb ((1 <=? stopBits) && (stopBits <=? 2)) then ret (-2) else
  let stopBitsUart := if stopBits =? 1 then 0 else LCR_SB in
  let parityUart :=
    if truth parity then (if truth odd then LCR_PAR else LCR_PAR + LCR_EVN) else 0 in
  let registerValue := u8 (dataBitsUart + stopBitsUart + parityUart) in
  UartWriteRegister LCR registerValue ;;
  ret 0.

Definition UartInit : M unit :=
  UartSetBaudrate 115200 ;;
  let! _ := UartSetMode 8 1 0 0 in
  UartSetBit MCR MCR_DTR 1 ;;
  UartSetBit MCR MCR_RTS 1.

(** ** device.c: the reader thread *)

(** Whether the inner loop goes on: the second operand only when the first
    holds. *)
Definition no_data : M bool :=
  let! d := gets devExt in
  if mustExit d then ret false else
  let! b := UartGetBit LSR LSR_DA in ret (b =? 0).

(** The critical section: a byte into the buffer, which starts again when full. *)
Definition reader_store : M unit :=
  post WdfWaitLockAcquire ;;
  let! d := gets devExt in
  (if readBufferLength d >=? MY_SERIAL_READ_BUFFER_MAX_LEN
   then modify (set_ext (fun d => with_buffer (readBuffer d) 0 d)) else ret tt) ;;
  let! v := UartReadRegister RBR in
  let! d := gets devExt in
  let! b := guard OutOfBounds (buf_set (readBuffer d) (readBufferLength d) v) in
  modify (set_ext (with_buffer b (readBufferLength d + 1))) ;;
  post WdfWaitLockRelease.

Definition reader_round (fuel : nat) : M unit :=
  while_ fuel no_data (post (KeDelayExecutionThread (-10000))) ;;
  let! d := gets devExt in
  if mustExit d then ret tt else reader_store.

Definition ReadThread (fuel rounds : nat) : M unit :=
  while_ rounds (let! d := gets devExt in ret (negb (mustExit d))) (reader_round fuel) ;;
  post (PsTerminateSystemThread STATUS_SUCCESS).

(** ** device.c: creation and cleanup *)

Definition EvtDeviceAdd : M Z :=
  kdprint "--> EvtDeviceAdd\n" [] ;;
  let! countSoFar := gets SerialCount in
  let! status := ask s32 (FormatName "\Device\Serial" countSoFar) in
  if negb (NT_SUCCESS status) then
    kdprint "Impossible de formater la string deviceName [0x%x]\n" [PInt status] ;; ret status
  else
  let! status := ask s32 WdfDeviceInitAssignName in
  if negb (NT_SUCCESS status) then
    kdprint "Impossible d'assigner le nom de device [0x%x]\n" [PInt status] ;; ret status
  else
  post WdfDeviceInitSetExclusive ;;
  post WdfDeviceInitSetDeviceType ;;
  kdprint "Device nomme, mode exclusif, FILE_DEVICE_SERIAL_PORT\n" [] ;;
  post WdfDeviceInitSetPnpPowerEventCallbacks ;;
  let! status := ask s32 WdfDeviceCreate in
  if negb (NT_SUCCESS status) then
    kdprint "WdfDeviceCreate failed 0x%x\n" [PInt status] ;; ret status
  else
  modify (set_ext (fun _ => ext0)) ;;
  modify (set_ext (with_incremented false)) ;;
  modify (set_ext (fun d => with_buffer (readBuffer d) 0 d)) ;;
  modify (set_ext (with_exit false)) ;;
  let! status := ask s32 WdfIoQueueCreate in
  if negb (NT_SUCCESS status) then
    kdprint "WdfIoQueueCreate failed 0x%xn" [PInt status] ;; ret status
  else
  let! status := ask s32 (FormatLink "\DosDevices\" "COM1") in
  if negb (NT_SUCCESS status) then
    kdprint "Impossible de formater la string symbolicLinkName [0x%x]\n" [PInt status] ;; ret status
  else
  let! status := ask s32 WdfDeviceCreateSymbolicLink in
  if negb (NT_SUCCESS status) then
    kdprint "Impossible de creer le lien symbolique.\n" [] ;; ret status
  else
  let! status := ask s32 RtlWriteRegistryValue in
  if negb (NT_SUCCESS status) then
    kdprint "Impossible de renseigner la cle de registre concernant le port COM.\n" [] ;; ret status
  else
  let! n := gets SerialCount in
  modify (set_count (u32 (n + 1))) ;;
  modify (set_ext (with_incremented true)) ;;
  post WdfWaitLockCreate ;;
  let! status := ask s32 PsCreateSystemThread in
  kdprint "<-- EvtDeviceAdd status=0x%x\n" [PInt status] ;;
  ret status.

Definition EvtDeviceContextCleanup : M unit :=
  let! d := gets devExt in
  (if hasIncrementedIoSerialCount d
   then let! n := gets SerialCount in modify (set_count (u32 (n - 1)))
   else ret tt) ;;
  modify (set_ext (with_exit true)).

(** ** pnp.c *)

(** The fields of a descriptor: type, start, length. *)
Definition EvtPrepareHardware (fuel : nat) : M Z :=
  kdprint "-->EvtPrepareHardware\n" [] ;;
  let! err := iter fuel (fun i =>
    let! n := ask u32 WdfCmResourceListGetCount in
    if negb (i <? n) then ret (inr 0) else
    let c := WdfCmResourceListGetDescriptor i in
    let! type := filled u8 c 0 in
    let! start := filled u32 c 1 in
    let! len := filled u32 c 2 in
    let! descriptor := ask u32 c in
    if negb (truth descriptor) then ret (inr STATUS_DEVICE_CONFIGURATION_ERROR) else
    (if type =? CmResourceTypePort
     then kdprint "I/O Port: (%x) Length: (%d)\n" [PInt start; PInt len] ;;
          modify (set_ext (with_base start))
     else ret tt) ;;
    ret (inl (u32 (i + 1)))) 0 in
  if truth err then ret err else
  UartInit ;;
  kdprint "<--EvtPrepareHardware\n" [] ;;
  ret STATUS_SUCCESS.

Definition EvtReleaseHardware : M Z :=
  kdprint "-->EvtReleaseHardware\n" [] ;;
  kdprint "<--EvtReleaseHardware\n" [] ;;
  ret STATUS_SUCCESS.

(** ** read.c *)

(** The part of EvtIoRead under the lock: what is copied, its status. *)
Definition read_take (mem Length : Z) : M (Z * Z) :=
  post WdfWaitLockAcquire ;;
  let! d := gets devExt in
  let finalLength := if readBufferLength d >=? Length then Length else readBufferLength d in
  let! src := guard OutOfBounds (buf_slice (readBuffer d) 0 finalLength) in
  let! status := ask s32 (WdfMemoryCopyFromBuffer mem src) in
  let! moved := guard OutOfBounds (buf_slice (readBuffer d) finalLength
                                     (MY_SERIAL_READ_BUFFER_MAX_LEN - finalLength)) in
  let! b := guard OutOfBounds (buf_blit (readBuffer d) 0 moved) in
  modify (set_ext (with_buffer b (u32 (readBufferLength d - finalLength)))) ;;
  post WdfWaitLockRelease ;;
  ret (finalLength, status).

(** The test of [readBuffer], an array, always holds. *)
Definition EvtIoRead (Request Length : Z) : M unit :=
  kdprint "-->EvtIoRead\n" [] ;;
  let! memory := filled u32 (WdfRequestRetrieveOutputMemory Request) 0 in
  let! status := ask s32 (WdfRequestRetrieveOutputMemory Request) in
  (if NT_SUCCESS status then
     let! r := read_take memory Length in
     kdprint "Read %d bytes\n" [PInt (fst r)] ;;
     post (WdfRequestCompleteWithInformation Request (snd r) (fst r))
   else post (WdfRequestComplete Request status)) ;;
  kdprint "<--EvtIoRead\n" [].

Definition EvtIoDefault (Request : Z) : M unit :=
  kdprint "-->EvtIoDefault\n" [] ;;
  UartWriteByte 66 ;;
  post (WdfRequestComplete Request STATUS_NOT_IMPLEMENTED) ;;
  kdprint "<--EvtIoDefault\n" [].

(** ** write.c *)

(** The memory of a request: its size, then its bytes. *)
Definition request_size (mem : Z) : M Z := filled u32 (WdfMemoryGetBuffer mem) (-1).

Definition send_byte (fuel : nat) (v : Z) : M unit :=
  while_ fuel (let! b := UartGetBit LSR LSR_ETHR in ret (b =? 0)) (ret tt) ;;
  UartWriteByte v.

Fixpoint send_all (fuel : nat) (l : bytes) : M unit :=
  match l with
  | [] => ret tt
  | v :: l => send_byte fuel v ;; send_all fuel l
  end.

Definition EvtIoWrite (fuel : nat) (Request Length : Z) : M unit :=
  kdprint "-->EvtIoWrite\n" [] ;;
  let! memory := filled u32 (WdfRequestRetrieveInputMemory Request) 0 in
  let! status := ask s32 (WdfRequestRetrieveInputMemory Request) in
  if negb (NT_SUCCESS status) then
    kdprint "EvtIoWrite Could not get request memory buffer 0x%x\n" [PInt status] ;;
    post (WdfRequestComplete Request status) ;;
    kdprint "<-- EvtDeviceIoWrite\n" []
  else
  let! buf_size := request_size memory in
  let! buffer := delivered (WdfMemoryGetBuffer memory) buf_size in
  post (WdfMemoryGetBuffer memory) ;;
  kdprint "Sending a buffer of %d bytes\n" [PInt buf_size] ;;
  send_all fuel buffer ;;
  post (WdfRequestCompleteWithInformation Request status buf_size) ;;
  kdprint "<--EvtIoWrite\n" [].

(** ** ioctl.c *)

Context {Io : SerialIoctls}.

(** A store through a pointer the framework may not have filled. *)
Definition store_buffer (buffer : Z) (data : list Z) : M unit :=
  if truth buffer then post (StoreBuffer buffer data) else fail BadPointer.

(** sizeof(ULONG) = 4, sizeof(SERIAL_LINE_CONTROL) = 3: its bytes are StopBits,
    Parity and WordLength. *)
Definition EvtIoIoctl (Request IoControlCode : Z) : M unit :=
  kdprint "-->EvtIoIoctl\n" [] ;;
  let fallthrough :=
    post (WdfRequestComplete Request STATUS_NOT_IMPLEMENTED) ;;
    kdprint "<--EvtIoIoctl\n" [] in
  if IoControlCode =? IOCTL_SERIAL_GET_BAUD_RATE then
    let c := WdfRequestRetrieveOutputBuffer Request 4 in
    let! buffer := filled u32 c 0 in
    let! status := ask s32 c in
    if negb (NT_SUCCESS status) then
      kdprint "Could not get request memory buffer %X\n" [PInt status] ;;
      fallthrough
    else
    store_buffer buffer [115200] ;;
    post (WdfRequestCompleteWithInformation Request status 4)
  else if IoControlCode =? IOCTL_SERIAL_GET_LINE_CONTROL then
    let c := WdfRequestRetrieveOutputBuffer Request 3 in
    let! buffer := filled u32 c 0 in
    let! status := ask s32 c in
    store_buffer buffer [1; 0; 8] ;;
    post (WdfRequestCompleteWithInformation Request status 3)
  else fallthrough.

(** ** driver.c *)

Definition DriverEntry : M Z :=
  kdprint "-->DriverEntry\n" [] ;;
  kdprint " - Very simple RS232 driver [Rathaxes Experiments]\n" [] ;;
  kdprint " - Built %s %s\n" [] ;;
  let! status := ask s32 WdfDriverCreate in
  (if negb (NT_SUCCESS status)
   then kdprint " - Error: WdfDriverCreate failed 0x%x\n" [PInt status] else ret tt) ;;
  kdprint "<--DriverEntry\n" [] ;;
  ret status.
End Driver.

(** ** The UART *)

Section Uart.
Context {K : Kernel call}.
Implicit Types (s : state call serial_state).

Lemma wp_read_reg h reg (Q : Z -> state call serial_state -> Prop) s :
  (let p := u32 (portBase (devExt (loc s)) + reg) in let r := u8 (k_ret (tr s) (ReadPortUchar p)) in
   Q r (mkState (loc s) ((ReadPortUchar p, r) :: tr s))) ->
  wpx h (UartReadRegister reg) Q s.
Proof. intros HQ. unfold UartReadRegister, port_in. by steps. Qed.

Lemma wp_write_reg h reg v (Q : unit -> state call serial_state -> Prop) s :
  Q tt (mkState (loc s) ((WritePortUchar (u8 v) (u32 (portBase (devExt (loc s)) + reg)), 0) :: tr s)) ->
  wpx h (UartWriteRegister reg v) Q s.
Proof. intros HQ. unfold UartWriteRegister, port_out. by steps. Qed.

Lemma wp_set_bit h reg bit v (Q : unit -> state call serial_state -> Prop) s :
  (let p := u32 (portBase (devExt (loc s)) + reg) in let r := u8 (k_ret (tr s) (ReadPortUchar p)) in
   Q tt (mkState (loc s)
     ((WritePortUchar (u8 (if truth v then Z.lor r bit else Z.land r (Z.lnot bit))) p, 0)
        :: (ReadPortUchar p, r) :: tr s))) ->
  wpx h (UartSetBit reg bit v) Q s.
Proof.
  intros HQ. unfold UartSetBit. step. apply wp_read_reg. cbv zeta. apply wp_write_reg.
  cbn [loc tr]. by rewrite u8_idem.
Qed.

(** The driver on a UART at [base] of which it knows nothing but that reads
    of latched registers answer their content. *)
Variables (base : Z) (u0 : uart).
Hypothesis Hbase : 0 <= base /\ base + 8 <= 2 ^ 32.
Hypothesis Hk : uart_answers base u0 K.

Lemma port_id off : 0 <= off < 8 -> u32 (base + off) = base + off.
Proof using Hbase. intros. change (2 ^ 32) with 4294967296 in Hbase. apply u32_id. lia. Qed.

Local Abbreviation U s := (uart_of base u0 (tr s)).

Lemma wp_uart_write h off v (Q : unit -> state call serial_state -> Prop) s :
  portBase (devExt (loc s)) = base -> 0 <= off < 8 ->
  (forall s', loc s' = loc s -> U s' = uart_write off (u8 v) (U s) -> Q tt s') ->
  wpx h (UartWriteRegister off v) Q s.
Proof using Hbase.
  intros Hb Ho HQ. apply wp_write_reg. rewrite Hb, port_id by done. apply HQ; [done|].
  exact (uart_of_out base u0 (u8 v) off 0 (tr s)).
Qed.

Lemma wp_uart_set_bit h off bit v w (Q : unit -> state call serial_state -> Prop) s :
  portBase (devExt (loc s)) = base -> 0 <= off < 8 -> uart_read off (U s) = Some w -> 0 <= w < 256 ->
  (forall s', loc s' = loc s ->
     U s' = uart_write off (u8 (if truth v then Z.lor w bit else Z.land w (Z.lnot bit))) (U s) ->
     Q tt s') ->
  wpx h (UartSetBit off bit v) Q s.
Proof using Hbase Hk.
  intros Hb Ho Hr Hw HQ. apply wp_set_bit. cbv zeta. rewrite Hb, port_id by done.
  pose proof (Hk _ _ _ Hr) as E. cbn [pin serial_ports] in E. rewrite E, (u8_id w) by done.
  apply HQ; [done|].
  cbn [tr]. etransitivity; [exact (uart_of_out base u0 _ off 0 _)|]. by f_equal.
Qed.

(** ** uart.c against the reference UART *)

(** The registers are bytes. *)
Definition uart_wf (u : uart) : Prop :=
  0 <= lcr u < 256 /\ 0 <= mcr u < 256.

Lemma uart_write_lcr v u : uart_write LCR v u = mkUart (dll u) (dlm u) (ier u) (fcr u) v (mcr u) (scr u) (sent u).
Proof. by destruct u. Qed.
Lemma uart_write_mcr v u : uart_write MCR v u = mkUart (dll u) (dlm u) (ier u) (fcr u) (lcr u) v (scr u) (sent u).
Proof. by destruct u. Qed.
Lemma uart_read_lcr u : uart_read LCR u = Some (lcr u).
Proof. done. Qed.
Lemma uart_read_mcr u : uart_read MCR u = Some (mcr u).
Proof. done. Qed.

(** The bit arithmetic of the line and modem control registers, on all bytes. *)
Lemma lcr_dlab_on l : 0 <= l < 256 -> Z.testbit (u8 (Z.lor l LCR_DLAB)) 7 = true.
Proof. apply (byte_forall (fun l => Z.testbit (u8 (Z.lor l LCR_DLAB)) 7)). by vm_compute. Qed.

Lemma lcr_dlab_off l : 0 <= l < 256 ->
  u8 (Z.land (u8 (Z.lor l LCR_DLAB)) (Z.lnot LCR_DLAB)) = Z.land l (Z.lnot LCR_DLAB).
Proof.
  intros H. apply Z.eqb_eq. revert l H. apply byte_forall. by vm_compute.
Qed.

Lemma u8_clear v c : 0 <= v < 256 -> u8 (Z.land v (Z.lnot c)) = Z.land v (Z.lnot c).
Proof.
  intros H. zbits i Hi. destruct (Z.ltb_spec i 8); [done|].
  by rewrite (bounded_testbit 8 v i) by lia.
Qed.

Lemma land_range v c : 0 <= v < 256 -> 0 <= Z.land v (Z.lnot c) < 256.
Proof. intros H. rewrite <- u8_clear by done. apply u8_range. Qed.

(** After UartSetBaudrate: the latch holds the divisor, the DLAB bit is clear. *)
Lemma wp_SetBaudrate h baud (Q : unit -> state call serial_state -> Prop) s :
  let u := U s in
  portBase (devExt (loc s)) = base -> uart_wf u -> baud <> 0 ->
  (forall s', loc s' = loc s ->
     U s' = mkUart (u8 (Z.quot BASE_BAUDRATE baud)) (u8 (Z.shiftr (Z.quot BASE_BAUDRATE baud) 8))
              (ier u) (fcr u) (Z.land (lcr u) (Z.lnot LCR_DLAB)) (Z.land (mcr u) (Z.lnot MCR_AO2))
              (scr u) (sent u) -> Q tt s') ->
  wpx h (UartSetBaudrate baud) Q s.
Proof using Hbase Hk.
  intros u Hb [Hl Hm] Hn HQ. unfold UartSetBaudrate. step.
  eapply wp_uart_set_bit; [done|done|apply uart_read_mcr|done|]. intros s1 L1 U1.
  destruct (Z.eqb_spec baud 0); [done|]. step.
  rewrite uart_write_mcr in U1. fold u in U1.
  eapply wp_uart_set_bit; [by rewrite L1|done|rewrite U1; apply uart_read_lcr|done|].
  intros s2 L2 U2. rewrite U1, uart_write_lcr in U2. cbn in U2. step.
  apply wp_uart_write; [by rewrite L2, L1|done|]. intros s3 L3 U3. step.
  apply wp_uart_write; [by rewrite L3, L2, L1|done|]. intros s4 L4 U4.
  assert (dlab (U s2) = true) as D2 by (rewrite U2; by apply lcr_dlab_on).
  assert (U s4 = mkUart (u8 (Z.quot BASE_BAUDRATE baud)) (u8 (Z.shiftr (Z.quot BASE_BAUDRATE baud) 8))
    (ier u) (fcr u) (u8 (Z.lor (lcr u) LCR_DLAB)) (u8 (Z.land (mcr u) (Z.lnot MCR_AO2))) (scr u) (sent u))
    as U4'.
  { rewrite U4, U3, U2. unfold uart_write, DLL, DLM, dlab. cbn [lcr dll dlm ier fcr mcr scr sent].
    rewrite !lcr_dlab_on by done. cbn [lcr]. rewrite lcr_dlab_on by done. by rewrite !u8_idem. }
  clear U1 U2 U3 U4.
  eapply wp_uart_set_bit; [by rewrite L4, L3, L2, L1|done|rewrite U4'; apply uart_read_lcr|apply u8_range|].
  intros s5 L5 U5. apply HQ; [congruence|]. rewrite U5, U4', uart_write_lcr. cbn.
  by rewrite lcr_dlab_off, u8_clear by done.
Qed.

(** The line control value of a mode. *)
Definition mode_lcr (dataBits stopBits parity odd : Z) : Z :=
  (dataBits - 5) + (if stopBits =? 1 then 0 else LCR_SB)
    + (if truth parity then (if truth odd then LCR_PAR else LCR_PAR + LCR_EVN) else 0).

Lemma mode_lcr_range d sb p o : 5 <= d <= 8 -> 1 <= sb <= 2 -> 0 <= mode_lcr d sb p o < 128.
Proof.
  intros Hd Hs. unfold mode_lcr, LCR_SB, LCR_PAR, LCR_EVN.
  destruct (sb =? 1), (truth p), (truth o); lia.
Qed.

(** The fields of the value, as the device reads them. *)
Lemma mode_lcr_fields d sb p o : 5 <= d <= 8 -> 1 <= sb <= 2 ->
  let v := mode_lcr d sb p o in
  Z.land v 3 = d - 5 /\ Z.testbit v 2 = (sb =? 2) /\ Z.testbit v 3 = truth p /\
  Z.testbit v 4 = truth p && negb (truth o) /\ Z.testbit v 7 = false.
Proof.
  intros Hd Hs. unfold mode_lcr.
  assert (d = 5 \/ d = 6 \/ d = 7 \/ d = 8) as [->|[->|[->| ->]]] by lia;
    assert (sb = 1 \/ sb = 2) as [->| ->] by lia;
    destruct (truth p), (truth o); by vm_compute.
Qed.

Lemma wp_SetMode h d sb p o (Q : Z -> state call serial_state -> Prop) s :
  portBase (devExt (loc s)) = base ->
  (~ (5 <= d <= 8) -> Q (-1) s) ->
  (5 <= d <= 8 -> ~ (1 <= sb <= 2) -> Q (-2) s) ->
  (5 <= d <= 8 -> 1 <= sb <= 2 -> forall s', loc s' = loc s ->
     U s' = uart_write LCR (mode_lcr d sb p o) (U s) -> Q 0 s') ->
  wpx h (UartSetMode d sb p o) Q s.
Proof using Hbase.
  intros Hb H1 H2 H3. unfold UartSetMode.
  destruct (Z.leb_spec 5 d), (Z.leb_spec d 8); cbn [andb negb]; try (apply H1; lia).
  destruct (Z.leb_spec 1 sb), (Z.leb_spec sb 2); cbn [andb negb]; try (apply H2; lia).
  fold (mode_lcr d sb p o). pose proof (mode_lcr_range d sb p o) as Hr. step.
  apply wp_uart_write; [done|done|]. intros s' HS HU. step. apply H3; [lia|lia|done|].
  by rewrite HU, u8_idem, u8_id by lia.
Qed.

(** The modem control value after UartInit. *)
Definition mcr_ready (m : Z) : Z := Z.lor (Z.lor (Z.land m (Z.lnot MCR_AO2)) MCR_DTR) MCR_RTS.

Lemma u8_lor_id a b : 0 <= a < 256 -> 0 <= b < 256 -> u8 (Z.lor a b) = Z.lor a b.
Proof. intros. by rewrite u8_lor, !u8_id. Qed.

Lemma wp_UartInit h (Q : unit -> state call serial_state -> Prop) s :
  let u := U s in
  portBase (devExt (loc s)) = base -> uart_wf u ->
  (forall s', loc s' = loc s ->
     U s' = mkUart 1 0 (ier u) (fcr u) 3 (mcr_ready (mcr u)) (scr u) (sent u) -> Q tt s') ->
  wpx h UartInit Q s.
Proof using Hbase Hk.
  intros u Hb [Hl Hm] HQ. unfold UartInit. step.
  apply wp_SetBaudrate; [done|done|done|]. fold u. intros s1 L1 U1. step.
  apply wp_SetMode; [by rewrite L1|lia|lia|]. intros _ _ s2 L2 U2. rewrite U1, uart_write_lcr in U2.
  cbn [dll dlm ier fcr lcr mcr scr sent] in U2. step.
  pose proof (land_range (mcr u) MCR_AO2 Hm) as Hr.
  eapply wp_uart_set_bit; [by rewrite L2, L1|done|rewrite U2; apply uart_read_mcr|done|].
  intros s3 L3 U3. rewrite U2, uart_write_mcr in U3. cbn [dll dlm ier fcr lcr mcr scr sent] in U3.
  change (truth 1) with true in U3. cbv iota in U3.
  eapply wp_uart_set_bit; [by rewrite L3, L2, L1|done|rewrite U3; apply uart_read_mcr|apply u8_range|].
  intros s4 L4 U4. apply HQ; [congruence|]. rewrite U4, U3, uart_write_mcr.
  cbn [dll dlm ier fcr lcr mcr scr sent]. change (truth 1) with true. cbv iota.
  rewrite (u8_lor_id _ MCR_DTR) by done. rewrite u8_lor_id; [done| |done].
  rewrite <- (u8_lor_id _ MCR_DTR) by done. apply u8_range.
Qed.
End Uart.

(** ** The read buffer as a queue *)

Definition read_inv (d : extension) : Prop :=
  zlen (readBuffer d) = MY_SERIAL_READ_BUFFER_MAX_LEN /\
  0 <= readBufferLength d <= MY_SERIAL_READ_BUFFER_MAX_LEN.

(** The bytes waiting to be read, oldest first. *)
Definition pending (d : extension) : bytes := take (Z.to_nat (readBufferLength d)) (readBuffer d).

(** The bytes that came in through port [p], and those copied to requests,
    oldest first. *)
Fixpoint arrived (p : Z) (t : list (call * Z)) : bytes :=
  match t with
  | [] => []
  | (ReadPortUchar p', v) :: t => if p' =? p then arrived p t ++ [v] else arrived p t
  | _ :: t => arrived p t
  end.

Fixpoint copied (t : list (call * Z)) : bytes :=
  match t with
  | [] => []
  | (WdfMemoryCopyFromBuffer _ src, _) :: t => copied t ++ src
  | _ :: t => copied t
  end.

Lemma pending_length d : read_inv d -> zlen (pending d) = readBufferLength d.
Proof.
  intros [H1 H2]. unfold pending, zlen in *. rewrite length_take.
  unfold MY_SERIAL_READ_BUFFER_MAX_LEN in *. lia.
Qed.

Lemma read_inv_intro b n d : zlen b = 4096 -> 0 <= n <= 4096 -> read_inv (with_buffer b n d).
Proof. done. Qed.

Section Handlers.
Context {K : Kernel call}.
Implicit Types (s : state call serial_state).

Lemma wp_reader_store h (Q : unit -> state call serial_state -> Prop) s :
  let d := devExt (loc s) in
  let p := u32 (portBase d + RBR) in
  let v := u8 (k_ret ((WdfWaitLockAcquire, 0) :: tr s) (ReadPortUchar p)) in
  read_inv d ->
  (forall d', read_inv d' -> portBase d' = portBase d -> mustExit d' = mustExit d ->
     pending d' = (if readBufferLength d =? 4096 then [] else pending d) ++ [v] ->
     readBufferLength d' = zlen (pending d') ->
     Q tt (mkState (mkS d' (SerialCount (loc s)))
       ((WdfWaitLockRelease, 0) :: (ReadPortUchar p, v) :: (WdfWaitLockAcquire, 0) :: tr s))) ->
  wpx h reader_store Q s.
Proof.
  intros d p v [Hb Hl] HQ. unfold reader_store, MY_SERIAL_READ_BUFFER_MAX_LEN in *. steps. fold d.
  rewrite Z.geb_leb. destruct (Z.leb_spec 4096 (readBufferLength d)) as [Hf|Hf]; steps;
    apply wp_read_reg; cbv zeta; cbn [loc tr]; steps.
  - eapply wp_guard; [apply buf_set_Some; cbn [loc devExt set_ext with_buffer readBuffer readBufferLength]; fold d; lia|]. steps. cbn. fold d p v.
    apply HQ; [apply read_inv_intro; [unfold zlen in *; rewrite length_insert; lia|lia]|done|done| |]; cbn.
    + replace (readBufferLength d) with 4096 by lia. cbn.
      destruct (readBuffer d); [unfold zlen in Hb; simpl in Hb; lia|done].
    + destruct (readBuffer d); [unfold zlen in Hb; simpl in Hb; lia|done].
  - eapply wp_guard; [apply buf_set_Some; cbn [loc devExt set_ext with_buffer readBuffer readBufferLength]; fold d; lia|]. steps. fold d p v.
    assert (pending (with_buffer (<[Z.to_nat (readBufferLength d) := v]> (readBuffer d))
      (readBufferLength d + 1) d) = pending d ++ [v]) as Hp.
    { unfold pending. cbn. rewrite Z2Nat.inj_add, Nat.add_1_r by lia.
      apply take_S_insert. unfold zlen in Hb. lia. }
    apply HQ; [apply read_inv_intro; [unfold zlen in *; rewrite length_insert; lia|lia]|done|done| |].
    + destruct (Z.eqb_spec (readBufferLength d) 4096); [lia|done].
    + rewrite pending_length; [done|].
      apply read_inv_intro; [unfold zlen in *; rewrite length_insert; lia|lia].
Qed.

Lemma wp_read_take h mem n (Q : Z * Z -> state call serial_state -> Prop) s :
  let d := devExt (loc s) in
  let k := Z.min n (readBufferLength d) in
  read_inv d -> 0 <= n ->
  (forall d' st, read_inv d' -> portBase d' = portBase d -> mustExit d' = mustExit d ->
     pending d' = drop (Z.to_nat k) (pending d) ->
     Q (k, st) (mkState (mkS d' (SerialCount (loc s)))
       ((WdfWaitLockRelease, 0) ::
        (WdfMemoryCopyFromBuffer mem (take (Z.to_nat k) (pending d)), st) ::
        (WdfWaitLockAcquire, 0) :: tr s))) ->
  wpx h (read_take mem n) Q s.
Proof.
  intros d k [Hb Hl] Hn HQ. unfold read_take, MY_SERIAL_READ_BUFFER_MAX_LEN in *. steps. fold d.
  replace (if readBufferLength d >=? n then n else readBufferLength d) with k
    by (unfold k; rewrite Z.geb_leb; destruct (Z.leb_spec n (readBufferLength d)); lia).
  assert (0 <= k <= readBufferLength d) as Hk by (unfold k; lia).
  eapply wp_guard; [apply buf_slice_Some; lia|]. steps.
  eapply wp_guard; [apply buf_slice_Some; lia|]. steps.
  set (moved := take (Z.to_nat (4096 - k)) (drop (Z.to_nat k) (readBuffer d))).
  assert (length moved = Z.to_nat (4096 - k)) as Hm.
  { unfold moved. rewrite length_take, length_drop. unfold zlen in Hb. lia. }
  eapply wp_guard; [apply buf_blit_Some; unfold zlen in *; lia|]. steps.
  assert (take (Z.to_nat k) (drop (Z.to_nat 0) (readBuffer d)) = take (Z.to_nat k) (pending d)) as ->.
  { unfold pending. rewrite take_take, Nat.min_l by lia. done. }
  rewrite u32_id by lia. apply HQ; [apply read_inv_intro; [|lia]|done|done|].
  - unfold zlen in *. rewrite !length_app, length_drop, length_take. lia.
  - unfold pending. cbn [with_buffer readBuffer readBufferLength]. change (Z.to_nat 0) with 0%nat.
    rewrite take_0, app_nil_l, take_app_le by lia. unfold moved.
    rewrite take_take, Nat.min_l by lia. rewrite skipn_firstn_comm. f_equal. lia.
Qed.

(** What a read request does: nothing, or the front of the queue. *)
Lemma wp_EvtIoRead h req n (Q : unit -> state call serial_state -> Prop) s :
  let d := devExt (loc s) in
  read_inv d -> 0 <= n ->
  (forall s', loc s' = loc s -> copied (tr s') = copied (tr s) ->
     (forall p, arrived p (tr s') = arrived p (tr s)) -> Q tt s') ->
  (forall s' d', let k := Z.min n (readBufferLength d) in
     loc s' = mkS d' (SerialCount (loc s)) -> read_inv d' -> portBase d' = portBase d ->
     pending d' = drop (Z.to_nat k) (pending d) ->
     copied (tr s') = copied (tr s) ++ take (Z.to_nat k) (pending d) ->
     (forall p, arrived p (tr s') = arrived p (tr s)) -> Q tt s') ->
  wpx h (EvtIoRead req n) Q s.
Proof.
  intros d Hi Hn H1 H2. unfold EvtIoRead, kdprint. steps.
  destruct (NT_SUCCESS _); steps; [|by apply H1].
  apply wp_read_take; [done|done|]. intros d' st Hi' Hb _ Hp. steps. by eapply H2.
Qed.

(** The reader thread and the read requests take turns: the lock makes each a
    step. *)
Inductive event := Arrive | Request (req len : Z).

Fixpoint run_events (l : list event) : M call serial_state unit :=
  match l with
  | [] => ret tt
  | Arrive :: l => reader_store ;; run_events l
  | Request req n :: l => EvtIoRead req n ;; run_events l
  end.

Fixpoint arrivals (l : list event) : Z :=
  match l with [] => 0 | Arrive :: l => 1 + arrivals l | _ :: l => arrivals l end.

Definition lengths_ok (e : event) : Prop :=
  match e with Arrive => True | Request _ n => 0 <= n end.

(** Every byte that arrived was copied to a request or is pending, in order. *)
Definition queue_inv (p : Z) s : Prop :=
  read_inv (devExt (loc s)) /\ u32 (portBase (devExt (loc s)) + RBR) = p /\
  copied (tr s) ++ pending (devExt (loc s)) = arrived p (tr s).

(** C3: The read buffer refines a queue: through any interleaving of the
    reader thread's critical sections and read requests that does not
    overflow it, the bytes copied to requests followed by the bytes pending
    are exactly the bytes read from the receive register, in order. *)
Theorem MySerial_read_fifo p l s :
  queue_inv p s -> Forall lengths_ok l ->
  readBufferLength (devExt (loc s)) + arrivals l <= MY_SERIAL_READ_BUFFER_MAX_LEN ->
  wp (run_events l) (fun _ => queue_inv p) s.
Proof.
  intros H Hl. revert s H. induction Hl as [|[|req n] l He Hl IH]; intros s (Hi & Hp & Hq) Hn;
    cbn [run_events arrivals] in *.
  - by apply wp_ret.
  - assert (0 <= arrivals l) by (clear; induction l as [|[|??] l IH]; cbn; lia).
    unfold MY_SERIAL_READ_BUFFER_MAX_LEN in Hn.
    step. apply wp_reader_store; [done|]. intros d' Hi' Hb _ Hpd Hlen. apply IH.
    + split; [done|]. cbn [loc devExt tr copied arrived]. split; [by rewrite Hb|].
      rewrite Hpd, Hp, Z.eqb_refl. destruct (Z.eqb_spec (readBufferLength (devExt (loc s))) 4096); [lia|].
      by rewrite app_assoc, Hq.
    + cbn [loc devExt]. rewrite Hlen, Hpd.
      destruct (Z.eqb_spec (readBufferLength (devExt (loc s))) 4096); [lia|].
      pose proof (pending_length _ Hi) as E. unfold zlen in *. rewrite length_app. cbn [length].
      unfold MY_SERIAL_READ_BUFFER_MAX_LEN. lia.
  - step. apply wp_EvtIoRead; [done|done| |].
    + intros s' HS Hc Ha. apply IH; [|by rewrite HS]. split; [by rewrite HS|].
      rewrite HS, Hc, Ha. done.
    + intros s' d' k HS Hi' Hb Hpd Hc Ha. apply IH.
      * split; [by rewrite HS|]. split; [by rewrite HS; cbn [devExt]; rewrite Hb|].
        rewrite HS. cbn [devExt]. rewrite Hc, Ha, Hpd, <- app_assoc, take_drop. done.
      * rewrite HS. cbn [devExt].
        rewrite <- (pending_length d') by done. rewrite Hpd.
        pose proof (pending_length _ Hi) as E. unfold zlen in *. rewrite length_drop. lia.
Qed.

(** A full buffer loses all its unread bytes to the next one. *)
Lemma MySerial_reader_overflow s :
  let d := devExt (loc s) in
  read_inv d -> readBufferLength d = MY_SERIAL_READ_BUFFER_MAX_LEN ->
  wp reader_store (fun _ s' =>
    zlen (pending d) = 4096 /\ exists v, pending (devExt (loc s')) = [v] /\
      copied (tr s') = copied (tr s)) s.
Proof.
  intros d Hi Hf. apply wp_reader_store; [done|]. intros d' _ _ _ Hp _.
  split; [by rewrite pending_length|]. eexists. split; [|done]. cbn [loc devExt]. rewrite Hp.
  fold d. by rewrite Hf.
Qed.
End Handlers.

(** ** Write requests and the completion of requests *)

(** Whether the transmitter at port [p] is empty within [fuel] polls. *)
Fixpoint polls_empty `{K : Kernel call} (fuel : nat) (p : Z) (t : list (call * Z)) : bool :=
  match fuel with
  | O => false
  | Datatypes.S fuel =>
      let r := u8 (k_ret t (ReadPortUchar p)) in
      truth (Z.land r LSR_ETHR) || polls_empty fuel p ((ReadPortUchar p, r) :: t)
  end.

(** How often a trace completes a request. *)
Definition completes (req : Z) (c : call) : bool :=
  match c with
  | WdfRequestComplete r _ | WdfRequestCompleteWithInformation r _ _ => r =? req
  | _ => false
  end.
Definition completions (req : Z) (t : list (call * Z)) : Z :=
  zlen (List.filter (fun e => completes req (fst e)) t).

Lemma completions_cons req c r t :
  completions req ((c, r) :: t) = (if completes req c then 1 else 0) + completions req t.
Proof.
  unfold completions. cbn [List.filter fst]. destruct (completes req c); [|done].
  unfold zlen. cbn [length]. lia.
Qed.

Section Requests.
Context {K : Kernel call} {Io : SerialIoctls}.
Implicit Types (s : state call serial_state).
Variables (base : Z) (u0 : uart).
Hypothesis Hbase : 0 <= base /\ base + 8 <= 2 ^ 32.

Local Abbreviation U s := (uart_of base u0 (tr s)).

(** What sending leaves alone. *)
Definition quiet s s' : Prop :=
  loc s' = loc s /\ forall req, completions req (tr s') = completions req (tr s).

Lemma quiet_trans s1 s2 s3 : quiet s1 s2 -> quiet s2 s3 -> quiet s1 s3.
Proof. intros [H1 H2] [H3 H4]. split; [congruence|]. intros r. by rewrite H4, H2. Qed.

Lemma wp_wait_empty fuel (Q : unit -> state call serial_state -> Prop) s :
  portBase (devExt (loc s)) = base -> polls_empty fuel (base + LSR) (tr s) = true ->
  (forall s', quiet s s' -> U s' = U s -> Q tt s') ->
  wp (while_ fuel (let! b := UartGetBit LSR LSR_ETHR in ret (b =? 0)) (ret tt)) Q s.
Proof using Hbase.
  change (2 ^ 32) with 4294967296 in Hbase. unfold while_. revert s.
  induction fuel as [|fuel IH]; [done|]. intros s Hb Hf HQ. cbn [polls_empty iter] in *.
  unfold UartGetBit. step. step. step. step. apply wp_read_reg. cbv zeta. rewrite Hb.
  rewrite u32_id by (unfold LSR; lia). steps. set (r := u8 _) in *.
  set (s1 := mkState (loc s) ((ReadPortUchar (base + LSR), r) :: tr s)).
  assert (quiet s s1) as Hq by (split; [done|]; intros req; cbn [tr s1]; by rewrite completions_cons).
  assert (U s1 = U s) as HU by exact (uart_of_in base u0 _ _ _).
  destruct (Z.eqb_spec (Z.land r LSR_ETHR) 0) as [E|E].
  - rewrite E in Hf. cbn [truth Z.eqb negb orb] in Hf. steps. apply IH; [done|done|].
    intros s2 Hq2 HU2. apply HQ; [by eapply quiet_trans|]. by rewrite HU2.
  - steps. by apply HQ.
Qed.

Lemma wp_send_byte fuel v (Q : unit -> state call serial_state -> Prop) s :
  portBase (devExt (loc s)) = base -> polls_empty fuel (base + LSR) (tr s) = true -> 0 <= v < 256 ->
  (forall s', quiet s s' -> U s' = uart_write THR v (U s) -> Q tt s') ->
  wp (send_byte fuel v) Q s.
Proof using Hbase.
  intros Hb Hf Hv HQ. unfold send_byte. step. apply wp_wait_empty; [done|done|].
  intros s1 Hq1 HU1. unfold UartWriteByte, kdprint. steps. cbn [loc tr].
  apply wp_write_reg. cbn [loc tr]. steps. rewrite (proj1 Hq1), Hb, u8_id by done.
  change (2 ^ 32) with 4294967296 in Hbase. rewrite (u32_id (base + THR)) by (unfold THR; lia). apply HQ.
  - eapply quiet_trans; [exact Hq1|]. split; [by rewrite <- (proj1 Hq1)|].
    intros req. cbn [tr]. by rewrite !completions_cons.
  - cbn [tr]. rewrite uart_of_other by done.
    etransitivity; [exact (uart_of_out base u0 v THR 0 _)|]. rewrite uart_of_other by done.
    by rewrite HU1.
Qed.

Lemma wp_send_all fuel l (Q : unit -> state call serial_state -> Prop) s :
  portBase (devExt (loc s)) = base -> dlab (U s) = false ->
  (forall t, polls_empty fuel (base + LSR) t = true) -> Forall (fun v => 0 <= v < 256) l ->
  (forall s', quiet s s' ->
     U s' = mkUart (dll (U s)) (dlm (U s)) (ier (U s)) (fcr (U s)) (lcr (U s)) (mcr (U s)) (scr (U s))
              (rev l ++ sent (U s)) -> Q tt s') ->
  wp (send_all fuel l) Q s.
Proof using Hbase.
  intros Hb Hd Hf Hl. revert s Hb Hd Q. induction Hl as [|v l Hv Hl IH]; intros s Hb Hd Q HQ; cbn [send_all].
  - step. apply HQ; [done|]. by destruct (U s).
  - step. apply wp_send_byte; [done|apply Hf|done|]. intros s1 Hq1 HU1.
    assert (U s1 = mkUart (dll (U s)) (dlm (U s)) (ier (U s)) (fcr (U s)) (lcr (U s)) (mcr (U s))
      (scr (U s)) (v :: sent (U s))) as HU.
    { rewrite HU1. revert Hd. destruct (U s). unfold uart_write, THR, dlab. cbn. by intros ->. }
    apply IH; [by rewrite (proj1 Hq1)|by rewrite HU|]. intros s2 Hq2 HU2.
    apply HQ; [by eapply quiet_trans|]. rewrite HU2, HU. cbn. by rewrite <- app_assoc.
Qed.

Lemma wp_EvtIoWrite fuel req len s :
  let c := WdfRequestRetrieveInputMemory req in
  let t := (KdPrint "-->EvtIoWrite\n" [], 0) :: tr s in
  let mem := u32 (k_out t c 0) in
  let g := WdfMemoryGetBuffer mem in
  let n := u32 (k_out ((c, s32 (k_ret t c)) :: t) g (-1)) in
  let data := delivery ((c, s32 (k_ret t c)) :: t) g n in
  portBase (devExt (loc s)) = base -> dlab (U s) = false ->
  (forall t, polls_empty fuel (base + LSR) t = true) ->
  wp (EvtIoWrite fuel req len) (fun _ s' =>
    loc s' = loc s /\ completions req (tr s') = completions req (tr s) + 1 /\
    sent (U s') = (if NT_SUCCESS (s32 (k_ret t c)) then rev data else []) ++ sent (U s)) s.
Proof using Hbase.
  intros c t mem g n data Hb Hd Hf. unfold EvtIoWrite, kdprint, request_size. steps. fold c t.
  set (st := s32 (k_ret t c)) in *. destruct (NT_SUCCESS st) eqn:Es; cbn [negb]; steps.
  2: { split; [done|]. cbn [tr]. split.
       - unfold t, c. rewrite !completions_cons. cbn [completes]. rewrite Z.eqb_refl. lia.
       - by rewrite !uart_of_other by done. }
  fold mem g n data.
  apply wp_send_all; [done| |done|apply delivery_bytes|].
  { cbn [tr]. by rewrite !uart_of_other by done. }
  intros s' [HL HC] HU. steps. split; [by rewrite HL|]. cbn [tr]. split.
  - rewrite !completions_cons, HC. cbn [tr]. unfold g, t, c. rewrite !completions_cons.
    cbn [completes]. rewrite Z.eqb_refl. lia.
  - rewrite !uart_of_other by done. rewrite HU. cbn [sent tr]. by rewrite !uart_of_other by done.
Qed.

(** When the transmitter of the UART at the port base becomes empty
    within the fuel at every wait, EvtIoWrite sends exactly the bytes of the
    request through the transmit register, in order, or none if the request
    has no memory, keeps the driver's state, and completes the request once.
    *)
Theorem MySerial_write_sends fuel req len s :
  let c := WdfRequestRetrieveInputMemory req in
  let t := (KdPrint "-->EvtIoWrite\n" [], 0) :: tr s in
  let g := WdfMemoryGetBuffer (u32 (k_out t c 0)) in
  let t' := (c, s32 (k_ret t c)) :: t in
  let data := delivery t' g (u32 (k_out t' g (-1))) in
  portBase (devExt (loc s)) = base -> dlab (U s) = false ->
  (forall t, polls_empty fuel (base + LSR) t = true) ->
  wp (EvtIoWrite fuel req len) (fun _ s' =>
    loc s' = loc s /\ completions req (tr s') = completions req (tr s) + 1 /\
    sent (U s') = (if NT_SUCCESS (s32 (k_ret t c)) then rev data else []) ++ sent (U s)) s.
Proof using Hbase. apply wp_EvtIoWrite. Qed.

(** The requests the queue hands to the driver. *)
Inductive request := Read (len : Z) | Write (len : Z) | Ioctl (code : Z) | Other.

Definition serve (fuel : nat) (req : Z) (r : request) : M call serial_state unit :=
  match r with
  | Read len => EvtIoRead req len
  | Write len => EvtIoWrite fuel req len
  | Ioctl code => EvtIoIoctl req code
  | Other => EvtIoDefault req
  end.

Ltac count_completions :=
  cbn [tr]; rewrite !completions_cons; cbn [completes]; rewrite ?Z.eqb_refl; lia.

(** Every request, of whatever kind and on every path, is completed
    exactly once, provided the transmitter becomes empty and the framework
    gives a buffer. *)
Theorem MySerial_requests_completed_once fuel req r s :
  portBase (devExt (loc s)) = base -> dlab (U s) = false -> read_inv (devExt (loc s)) ->
  (forall t, polls_empty fuel (base + LSR) t = true) ->
  match r with
  | Read len => 0 <= len
  | Ioctl code => forall t n, k_out t (WdfRequestRetrieveOutputBuffer req n) 0 mod 2 ^ 32 <> 0
  | _ => True
  end ->
  wp (serve fuel req r) (fun _ s' => completions req (tr s') = completions req (tr s) + 1) s.
Proof using Hbase.
  intros Hb Hd Hi Hf Hr. destruct r as [len|len|code|]; cbn [serve].
  - unfold EvtIoRead, kdprint. steps. destruct (NT_SUCCESS _); steps; [|count_completions].
    apply wp_read_take; [done|done|]. intros d' st _ _ _ _. steps. count_completions.
  - eapply wp_mono; [by apply wp_EvtIoWrite|]. by intros _ s' (_ & H & _).
  - assert (forall t n, truth (u32 (k_out t (WdfRequestRetrieveOutputBuffer req n) 0)) = true) as Ht.
    { intros t n. destruct (truth_spec (u32 (k_out t (WdfRequestRetrieveOutputBuffer req n) 0))) as [|H];
        [done|]. destruct (Hr t n). change (2 ^ 32) with 4294967296. unfold u32 in H. lia. }
    unfold EvtIoIoctl, kdprint, store_buffer. steps. destruct (code =? IOCTL_SERIAL_GET_BAUD_RATE).
    + steps. destruct (NT_SUCCESS _); cbn [negb]; steps; [|count_completions].
      rewrite Ht. steps. count_completions.
    + destruct (code =? IOCTL_SERIAL_GET_LINE_CONTROL); steps; [|count_completions].
      rewrite Ht. steps. count_completions.
  - unfold EvtIoDefault, UartWriteByte, kdprint. steps. apply wp_write_reg. steps. count_completions.
Qed.

(** IOCTL_SERIAL_GET_LINE_CONTROL stores through the buffer pointer
    without looking at the status of its retrieval: a pointer left null
    faults. *)
Theorem MySerial_line_control_unchecked req s :
  (forall t, u32 (k_out t (WdfRequestRetrieveOutputBuffer req 3) 0) = 0) ->
  faults BadPointer (EvtIoIoctl req IOCTL_SERIAL_GET_LINE_CONTROL) s.
Proof.
  intros H0. unfold EvtIoIoctl, kdprint. apply faults_later. steps.
  destruct (Z.eqb_spec IOCTL_SERIAL_GET_LINE_CONTROL IOCTL_SERIAL_GET_BAUD_RATE) as [E|_];
    [by destruct serial_ioctls_differ|]. rewrite Z.eqb_refl. cbv zeta.
  apply faults_later. steps. rewrite H0. apply faults_later. steps. apply faults_now.
  unfold store_buffer. by eexists.
Qed.

(** EvtDeviceAdd gave up before the port was counted, or counted it and asked
    for the reader thread, the port base being still 0. *)
Definition add_post s (r : Z) (s' : state call serial_state) : Prop :=
  (NT_SUCCESS r = false /\ hasIncrementedIoSerialCount (devExt (loc s')) = false /\
   SerialCount (loc s') = SerialCount (loc s)) \/
  (devExt (loc s') = with_incremented true ext0 /\ portBase (devExt (loc s')) = 0 /\
   SerialCount (loc s') = u32 (SerialCount (loc s) + 1) /\
   exists m t, tr s' = (KdPrint m [PInt r], 0) :: (PsCreateSystemThread, r) :: t).

Lemma wp_EvtDeviceAdd s :
  hasIncrementedIoSerialCount (devExt (loc s)) = false ->
  wp EvtDeviceAdd (add_post s) s.
Proof.
  intros Hi. unfold EvtDeviceAdd, kdprint. steps.
  repeat (match goal with |- context [NT_SUCCESS ?x] => destruct (NT_SUCCESS x) eqn:? end;
    cbn [negb]; steps; [|by left]).
  right. repeat split. by repeat eexists.
Qed.

(** EvtDeviceAdd either fails without counting the port or counts it
    and starts the reader thread, at a port base still 0; the cleanup then
    restores the system's count of serial ports in every case and tells the
    thread to exit. *)
Theorem MySerial_add_cleanup s :
  hasIncrementedIoSerialCount (devExt (loc s)) = false -> 0 <= SerialCount (loc s) < 2 ^ 32 ->
  wp EvtDeviceAdd (fun r s' => add_post s r s' /\
    wp EvtDeviceContextCleanup (fun _ s'' =>
      SerialCount (loc s'') = SerialCount (loc s) /\ mustExit (devExt (loc s'')) = true) s') s.
Proof.
  intros Hi Hc. change (2 ^ 32) with 4294967296 in Hc.
  eapply wp_mono; [by apply wp_EvtDeviceAdd|]. intros r s' Ha. split; [done|].
  unfold EvtDeviceContextCleanup. steps. destruct Ha as [(_ & Hf & Hs)|(He & _ & Hs & _)].
  - rewrite Hf. steps. done.
  - rewrite He. cbn [with_incremented hasIncrementedIoSerialCount]. steps. cbn.
    split; [|done]. rewrite Hs. ilia.
Qed.
End Requests.

(** ** The properties of uart.c *)

Section UartProperties.
Context {K : Kernel call}.
Variables (base : Z) (u0 : uart).
Local Abbreviation U s := (uart_of base u0 (tr s)).
Implicit Types (s : state call serial_state).

(** C30: Against the reference UART, whatever its registers held, UartInit
    leaves the divisor latch at 1 (115200 baud), LCR at 8N1 with DLAB off
    and MCR with DTR and RTS set and OUT2 cleared, and sends no byte. *)
Theorem MySerial_UartInit_programs s :
  0 <= base /\ base + 8 <= 2 ^ 32 -> uart_answers base u0 K ->
  portBase (devExt (loc s)) = base -> uart_wf (U s) ->
  wp UartInit (fun _ s' => loc s' = loc s /\
    U s' = mkUart 1 0 (ier (U s)) (fcr (U s)) 3 (mcr_ready (mcr (U s))) (scr (U s)) (sent (U s))) s.
Proof. intros H1 H2 H3 H4. by eapply wp_UartInit. Qed.

(** For every rate from 2 to 115200 baud UartSetBaudrate leaves the
    divisor 115200 / rate in the latch and DLAB off, and sends nothing. *)
Theorem MySerial_SetBaudrate_latch baud s :
  0 <= base /\ base + 8 <= 2 ^ 32 -> uart_answers base u0 K ->
  portBase (devExt (loc s)) = base -> uart_wf (U s) -> 2 <= baud <= 115200 ->
  wp (UartSetBaudrate baud) (fun _ s' =>
    divisor (U s') = BASE_BAUDRATE / baud /\ dlab (U s') = false /\
    sent (U s') = sent (U s) /\ ier (U s') = ier (U s)) s.
Proof.
  intros H1 H2 H3 H4 Hb. eapply wp_SetBaudrate; [done..|lia|]. intros s' _ HU. rewrite HU.
  unfold divisor, BASE_BAUDRATE. cbn [dll dlm sent ier]. rewrite Z.quot_div_nonneg by lia.
  assert (0 <= 115200 / baud < 65536) as Hq by (Z.div_mod_to_equations; nia).
  split; [|split; [|done]].
  - rewrite Z.shiftr_div_pow2 by lia. change (2 ^ 8) with 256.
    generalize (115200 / baud) Hq. intros q ?. ilia.
  - unfold dlab. cbn [lcr]. rewrite Z.land_spec. rewrite andb_comm. done.
Qed.

(** UartSetMode rejects word lengths outside 5 to 8 with -1 and stop
    bits outside 1 to 2 with -2 without touching the device, and otherwise
    writes to LCR the value whose fields are the word length, stop bit,
    parity and even-parity asked for, DLAB off. *)
Theorem MySerial_SetMode_lcr d sb p o s :
  0 <= base /\ base + 8 <= 2 ^ 32 -> portBase (devExt (loc s)) = base ->
  wp (UartSetMode d sb p o) (fun r s' =>
    (r = -1 /\ ~ (5 <= d <= 8) /\ s' = s) \/
    (r = -2 /\ ~ (1 <= sb <= 2) /\ s' = s) \/
    (r = 0 /\ exists v, U s' = uart_write LCR v (U s) /\
       Z.land v 3 = d - 5 /\ Z.testbit v 2 = (sb =? 2) /\ Z.testbit v 3 = truth p /\
       Z.testbit v 4 = truth p && negb (truth o) /\ Z.testbit v 7 = false)) s.
Proof.
  intros H1 H3. eapply wp_SetMode; [done|done|by left|by right; left|].
  intros Hd Hs s' _ HU. right; right. split; [done|]. exists (mode_lcr d sb p o).
  split; [done|]. by apply mode_lcr_fields.
Qed.
End UartProperties.

(** ** Witnesses *)

(** A UART at 0x3f8 that is always ready, requests of four bytes. *)
Definition u_reset : uart := mkUart 12 0 0 0 0x1a 0x08 0 [].

Definition line_kernel (buffer : Z) : Kernel call :=
  uart_kernel 0x3f8 u_reset
    (fun t c => match c with ReadPortUchar _ => 0x61 | _ => 0 end)
    (fun t c i => match c with
       | WdfMemoryGetBuffer _ => if i =? -1 then 4 else 65 + i
       | WdfRequestRetrieveOutputBuffer _ _ => buffer
       | _ => i end).

Definition serial_ioctls : SerialIoctls :=
  {| IOCTL_SERIAL_GET_BAUD_RATE := 0x1b0050; IOCTL_SERIAL_GET_LINE_CONTROL := 0x1b0054;
     serial_ioctls_differ := ltac:(discriminate) |}.

Definition ready : state call serial_state :=
  mkState (mkS (with_base 0x3f8 ext0) 2) [].

Lemma ready_base : 0 <= 0x3f8 /\ 0x3f8 + 8 <= 2 ^ 32.
Proof. by vm_compute. Qed.

Lemma ready_answers b : uart_answers 0x3f8 u_reset (line_kernel b).
Proof. apply uart_kernel_answers. Qed.

Lemma ready_wf : uart_wf (uart_of 0x3f8 u_reset (tr ready)).
Proof. by repeat split; vm_compute. Qed.

Lemma ready_polls b t : @polls_empty (line_kernel b) 1 (0x3f8 + LSR) t = true.
Proof. done. Qed.

Lemma ready_read_inv : read_inv (devExt (loc ready)).
Proof. by repeat split; vm_compute. Qed.

Example MySerial_UartInit_programs_witness :
  let K := line_kernel 1 in
  wp UartInit (fun _ s' => loc s' = loc ready /\
    uart_of 0x3f8 u_reset (tr s') = mkUart 1 0 0 0 3 (mcr_ready 0x08) 0 []) ready.
Proof.
  intros K. exact (MySerial_UartInit_programs 0x3f8 u_reset ready ready_base (ready_answers 1)
    eq_refl ready_wf).
Defined.

Example MySerial_SetBaudrate_latch_witness :
  let K := line_kernel 1 in
  wp (UartSetBaudrate 300) (fun _ s' =>
    divisor (uart_of 0x3f8 u_reset (tr s')) = BASE_BAUDRATE / 300 /\
    dlab (uart_of 0x3f8 u_reset (tr s')) = false /\
    sent (uart_of 0x3f8 u_reset (tr s')) = [] /\ ier (uart_of 0x3f8 u_reset (tr s')) = 0) ready.
Proof.
  intros K. apply (MySerial_SetBaudrate_latch 0x3f8 u_reset 300 ready);
    [apply ready_base|apply (ready_answers 1)|reflexivity|apply ready_wf|split; discriminate].
Defined.

Example MySerial_SetMode_lcr_witness :
  let K := line_kernel 1 in
  wp (UartSetMode 7 2 1 0) (fun r s' =>
    (r = -1 /\ ~ (5 <= 7 <= 8) /\ s' = ready) \/
    (r = -2 /\ ~ (1 <= 2 <= 2) /\ s' = ready) \/
    (r = 0 /\ exists v,
       uart_of 0x3f8 u_reset (tr s') = uart_write LCR v (uart_of 0x3f8 u_reset (tr ready)) /\
       Z.land v 3 = 7 - 5 /\ Z.testbit v 2 = (2 =? 2) /\ Z.testbit v 3 = truth 1 /\
       Z.testbit v 4 = truth 1 && negb (truth 0) /\ Z.testbit v 7 = false)) ready.
Proof.
  intros K. exact (MySerial_SetMode_lcr 0x3f8 u_reset 7 2 1 0 ready ready_base eq_refl).
Defined.

Example MySerial_read_fifo_witness :
  let K := line_kernel 1 in
  wp (run_events [Arrive; Arrive; Request 1 1; Arrive; Request 2 10])
    (fun _ => queue_inv 0x3f8) ready.
Proof.
  intros K. apply (MySerial_read_fifo 0x3f8); [|repeat constructor; discriminate|discriminate].
  split; [apply ready_read_inv|split; reflexivity].
Defined.

Definition full : state call serial_state :=
  mkState (mkS (with_buffer (replicate 4096 7) 4096 ext0) 2) [].

Example MySerial_reader_overflow_witness :
  let K := line_kernel 1 in
  wp reader_store (fun _ s' =>
    zlen (pending (devExt (loc full))) = 4096 /\ exists v, pending (devExt (loc s')) = [v] /\
      copied (tr s') = copied (tr full)) full.
Proof.
  intros K. apply (MySerial_reader_overflow full); [|reflexivity]. by repeat split; vm_compute.
Defined.

Example MySerial_write_sends_witness :
  let K := line_kernel 1 in
  wp (EvtIoWrite 1 9 4) (fun _ s' =>
    loc s' = loc ready /\ completions 9 (tr s') = completions 9 (tr ready) + 1 /\
    sent (uart_of 0x3f8 u_reset (tr s')) = rev [65; 66; 67; 68] ++ []) ready.
Proof.
  intros K. exact (MySerial_write_sends 0x3f8 u_reset ready_base 1 9 4 ready eq_refl eq_refl
    (ready_polls 1)).
Defined.

Example MySerial_requests_completed_once_witness :
  let K := line_kernel 1 in let Io := serial_ioctls in
  wp (serve 1 9 (Ioctl 0x1b0054))
    (fun _ s' => completions 9 (tr s') = completions 9 (tr ready) + 1) ready.
Proof.
  intros K Io. apply (MySerial_requests_completed_once 0x3f8 u_reset ready_base 1 9 (Ioctl 0x1b0054));
    [reflexivity|reflexivity|apply ready_read_inv|apply ready_polls|discriminate].
Defined.

Example MySerial_line_control_unchecked_witness :
  let K := line_kernel 0 in let Io := serial_ioctls in
  faults BadPointer (EvtIoIoctl 9 IOCTL_SERIAL_GET_LINE_CONTROL) ready.
Proof. intros K Io. apply (MySerial_line_control_unchecked 9 ready). reflexivity. Defined.

Example MySerial_add_cleanup_witness :
  let K := line_kernel 1 in
  wp EvtDeviceAdd (fun r s' => add_post ready r s' /\
    wp EvtDeviceContextCleanup (fun _ s'' =>
      SerialCount (loc s'') = SerialCount (loc ready) /\ mustExit (devExt (loc s'')) = true) s') ready.
Proof.
  intros K. apply (MySerial_add_cleanup ready); [reflexivity|split; [discriminate|reflexivity]].
Defined.
