(* ===== verification/WinHello.v ===== *)
(** * The first drivers for Windows

    doc/systems/windows/lkm: wdm/hello.c, which installs its unload routine, and
    wdf/wdf_hello.c, which registers with the driver framework.  Both only
    print; what their entry points install and answer is stated by the lemmas. *)

From S2P Require Import Prelude CMonad.

Definition STATUS_SUCCESS := 0.
Definition NT_SUCCESS (status : Z) : bool := 0 <=? status.

(** ** wdm/hello.c *)

Module Wdm.
Inductive call := DbgPrint (fmt : string).

(** The driver object: whether its unload routine is [DriverUnload]. *)
Record driver_object := mkDriver { unload_installed : bool }.

Section Driver.
Context {K : Kernel call}.
Local Abbreviation M := (M call driver_object).

Definition DriverUnload : M unit := post (DbgPrint "Driver Unloading").

Definition DriverEntry : M Z :=
  modify (fun _ => mkDriver true) ;;
  post (DbgPrint "Goodbye, World\n") ;;
  ret STATUS_SUCCESS.

Lemma wdm_entry s :
  DriverEntry s = Ok STATUS_SUCCESS (mkState (mkDriver true) ((DbgPrint "Goodbye, World\n", 0) :: tr s)).
Proof. done. Qed.
End Driver.
End Wdm.

(** ** wdf/wdf_hello.c *)

Module Wdf.
Inductive call :=
| KdPrint (fmt : string) (args : list parg)
| WdfDriverCreate (* with WdfHelloEvtDeviceAdd *).

Section Driver.
Context {K : Kernel call}.
Local Abbreviation M := (M call unit).

(** The date and time of the build are not known. *)
Definition DriverEntry : M Z :=
  post (KdPrint "Hello WDF World.\n" []) ;;
  post (KdPrint "Built %s %s\n" []) ;;
  let! status := ask s32 WdfDriverCreate in
  (if negb (NT_SUCCESS status)
   then post (KdPrint "WdfDriverCreate failed with status 0x%x\n" [PInt status]) else ret tt) ;;
  ret status.

Definition WdfHelloEvtDeviceAdd : M Z :=
  post (KdPrint "WdfHelloEvtDeviceAdd called\n" []) ;;
  ret STATUS_SUCCESS.

(** The entry point answers what the framework does, and reports a failure. *)
Lemma wdf_entry s :
  wp DriverEntry (fun r s' =>
    tr s' = (if r <? 0 then [(KdPrint "WdfDriverCreate failed with status 0x%x\n" [PInt r], 0)] else []) ++
            (WdfDriverCreate, r) :: (KdPrint "Built %s %s\n" [], 0) ::
            (KdPrint "Hello WDF World.\n" [], 0) :: tr s) s.
Proof.
  unfold DriverEntry. steps. set (r := s32 _). unfold NT_SUCCESS.
  destruct (Z.leb_spec 0 r); cbn [negb]; steps; destruct (Z.ltb_spec r 0); (done || lia).
Qed.
End Driver.
End Wdf.
