(* ===== verification/ObsdApi.v ===== *)
(** * What the OpenBSD drivers share of the kernel's interface

    Error numbers, device numbers and the entry point of a loadable module.
    The macros of <sys/types.h> and <sys/lkm.h> are not part of the
    repository: they are parameters, with the laws their manual states. *)

From S2P Require Import Prelude CMonad.

Definition EIO := 5.
Definition ENXIO := 6.
Definition EBUSY := 16.
Definition EINVAL := 22.
Definition ENETRESET := 52.

(** The minor half of a device number (the macro [minor]): 24 bits. *)
Class DeviceNumbers := {
  minor : Z -> Z;
  minor_range dev : 0 <= minor dev < 16777216
}.

(** The macro DISPATCH of a module entry point: it refuses another version of
    the interface, else calls the handler of the command and, if that
    succeeds, the kernel's own part of the command, whose result it returns. *)
Class Lkm := {
  LKM_VERSION : Z;
  LKM_E_LOAD : Z;
  LKM_E_UNLOAD : Z;
  LKM_E_STAT : Z;
  lkm_commands_differ : NoDup [LKM_E_LOAD; LKM_E_UNLOAD; LKM_E_STAT]
}.

Class Dispatch (call S : Type) `{Kernel call, Lkm} := {
  lkmdispatch : Z -> call;
  DISPATCH : Z -> Z -> (Z -> M call S Z) -> (Z -> M call S Z) -> (Z -> M call S Z) -> M call S Z;
  dispatch_version cmd ver load unload stat s :
    ver <> LKM_VERSION -> DISPATCH cmd ver load unload stat s = ret EINVAL s;
  dispatch_command cmd handler load unload stat s :
    In (cmd, handler) [(LKM_E_LOAD, load); (LKM_E_UNLOAD, unload); (LKM_E_STAT, stat)] ->
    DISPATCH cmd LKM_VERSION load unload stat s =
    (let! error := handler cmd in
     if truth error then ret error else ask s32 (lkmdispatch cmd)) s
}.

(** ** Modules that announce their commands *)

Section Announce.
Context {call S : Type} {K : Kernel call} {L : Lkm} {Dp : Dispatch call S}.

(** A handler that makes the calls [l], whose results it ignores, and succeeds. *)
Definition says (handler : M call S Z) (l : list call) : Prop :=
  forall s, handler s = Ok 0 (mkState (loc s) (map (fun c => (c, 0)) (rev l) ++ tr s)).

(** An entry point that refuses other versions of the interface and, for each
    command, makes the calls [lines] gives and answers what the kernel's own
    part of the command does. *)
Definition announces (entry : Z -> Z -> M call S Z) (lines : list (Z * list call)) : Prop :=
  (forall cmd ver s, ver <> LKM_VERSION -> entry cmd ver s = Ok EINVAL s) /\
  forall cmd l s, In (cmd, l) lines ->
    let t := map (fun c => (c, 0)) (rev l) ++ tr s in
    let r := s32 (k_ret t (lkmdispatch cmd)) in
    entry cmd LKM_VERSION s = Ok r (mkState (loc s) ((lkmdispatch cmd, r) :: t)).

Lemma dispatch_announces load unload stat ll lu ls :
  says (load LKM_E_LOAD) ll -> says (unload LKM_E_UNLOAD) lu -> says (stat LKM_E_STAT) ls ->
  announces (fun cmd ver => DISPATCH cmd ver load unload stat)
    [(LKM_E_LOAD, ll); (LKM_E_UNLOAD, lu); (LKM_E_STAT, ls)].
Proof.
  intros Hl Hu Hs. split; [intros; by rewrite dispatch_version|].
  intros cmd l s Hin. cbv zeta. destruct Hin as [[= <- <-]|[[= <- <-]|[[= <- <-]|[]]]];
    (erewrite dispatch_command; [|cbn; eauto]); unfold bind; by rewrite ?Hl, ?Hu, ?Hs.
Qed.
End Announce.

(** Commands numbered from 1, and DISPATCH written out, as instances. *)
Lemma numbered_commands : NoDup [1; 2; 3].
Proof. by apply (bool_decide_unpack _). Qed.

Definition numbered_lkm : Lkm := {|
  LKM_VERSION := 1; LKM_E_LOAD := 1; LKM_E_UNLOAD := 2; LKM_E_STAT := 3;
  lkm_commands_differ := numbered_commands
|}.

#[refine] Definition plain_dispatch {call S} (K : Kernel call) (f : Z -> call) :
    Dispatch (H0 := numbered_lkm) call S := {|
  lkmdispatch := f;
  DISPATCH cmd ver load unload stat :=
    if negb (ver =? 1) then ret EINVAL else
    let! error :=
      if cmd =? 1 then load cmd else if cmd =? 2 then unload cmd else
      if cmd =? 3 then stat cmd else ret EINVAL in
    if truth error then ret error else ask s32 (f cmd)
|}.
Proof.
  - intros cmd ver load unload stat s H. by rewrite (proj2 (Z.eqb_neq ver 1) H).
  - intros cmd handler load unload stat s Hin.
    by destruct Hin as [[= <- <-]|[[= <- <-]|[[= <- <-]|[]]]].
Defined.
