(* ===== verification/ObsdRs232.v ===== *)
(** * The OpenBSD driver of the serial port

    doc/systems/openbsd/rs323_polling: rs232.h (registers, the device structure),
    rs232.c (the device operations; reading, writing and ioctl only print) and
    rs232_mod.c (the loadable module).  Theorems on the exclusive use of a port
    and on how opening leaves the reference UART. *)

From S2P Require Import Prelude CMonad Uart16550 ObsdApi.

(** ** rs232.h *)

Definition UART_RBR := 0.
Definition UART_THR := 0.
Definition UART_DLL := 0.
Definition UART_IER := 1.
Definition UART_DLM := 1.
Definition UART_IIR := 2.
Definition UART_FCR := 2.
Definition UART_LCR := 3.
Definition UART_MCR := 4.
Definition UART_LSR := 5.
Definition UART_MSR := 6.
Definition UART_SCR := 7.
Definition LSR_DATA_READY := 0x01.
Definition LSR_EMPTY_TRANSMITTER := 0x20.
Definition FCR_ENABLE_FIFO := 0xC7.
Definition IER_DISABLE_INT := 0x00.
Definition LCR_ONE_STOP_BIT := 0x00.
Definition LCR_TWO_STOP_BITS := 0x04.
Definition LCR_STOP_BIT := 0x04.
Definition LCR_WORD_5 := 0x00.
Definition LCR_WORD_6 := 0x01.
Definition LCR_WORD_7 := 0x02.
Definition LCR_WORD_8 := 0x03.
Definition LCR_WORD := 0x03.
Definition LCR_NO_PARITY := 0x00.
Definition LCR_ODD_PARITY := 0x08.
Definition LCR_EVEN_PARITY := 0x18.
Definition LCR_PARITY := 0x38.
Definition LCR_DLAB := 0x80.
Definition ENABLE_MODEM := 0x0B.
Definition DLL_9600 := 0x0C.
Definition DLL_115200 := 0x01.
Definition DLM_9600 := 0x00.
Definition DLM_115200 := 0x00.
Definition UART_BAUDRATE := 115200.
Definition NB_DEVS := 4.

(** The tag of the port space (<machine/bus.h>). *)
Definition I386_BUS_SPACE_IO := 0.

(** The fields in the order of the structure, which is that of its
    initialisers; a [char] is signed. *)
Record rs232_device := mkDevice {
  io_base : Z;
  name : string;
  io_tag : Z;
  baudrate : Z;
  busy : Z;
  reg_rbr : Z;
  reg_thr : Z;
  reg_ier : Z;
  reg_iir : Z;
  reg_fcr : Z;
  reg_lcr : Z;
  reg_mcr : Z;
  reg_lsr : Z;
  reg_msr : Z;
  reg_scr : Z
}.

Definition REG_SET (reg val : Z) : Z := s8 (Z.lor reg val).
Definition REG_CLR (reg val : Z) : Z := s8 (Z.land reg (Z.lnot val)).
Definition REG_ISSET (reg val : Z) : Z := Z.land reg val.

Definition with_busy (b : Z) (d : rs232_device) : rs232_device :=
  mkDevice (io_base d) (name d) (io_tag d) (baudrate d) b (reg_rbr d) (reg_thr d) (reg_ier d)
    (reg_iir d) (reg_fcr d) (reg_lcr d) (reg_mcr d) (reg_lsr d) (reg_msr d) (reg_scr d).
Definition with_lcr (v : Z) (d : rs232_device) : rs232_device :=
  mkDevice (io_base d) (name d) (io_tag d) (baudrate d) (busy d) (reg_rbr d) (reg_thr d) (reg_ier d)
    (reg_iir d) (reg_fcr d) v (reg_mcr d) (reg_lsr d) (reg_msr d) (reg_scr d).

(** ** rs232.c: the table of devices

    Each row gives fourteen initialisers for the fifteen fields, in the order
    of the source: those without one are zero. *)

Definition row (base : Z) (nm : string) : rs232_device :=
  mkDevice base nm I386_BUS_SPACE_IO 0 0 0 (s8 IER_DISABLE_INT) 0 (s8 FCR_ENABLE_FIFO)
    (s8 (Z.lor (Z.lor LCR_WORD_8 LCR_ONE_STOP_BIT) LCR_NO_PARITY)) 0 0 0 0 0.

Definition gl_devs : list rs232_device :=
  [row 0x3f8 "PCCOM_1"; row 0x3e8 "PCCOM_2"; row 0x2f8 "PCCOM_3"; row 0x2e8 "PCCOM_4"].

(** ** The external functions *)

Inductive call :=
| Printf (fmt : string)
| BusSpaceRead1 (tag base off : Z)
| BusSpaceWrite1 (tag base off v : Z)
| Lkmdispatch (cmd : Z).

#[export, refine] Instance obsd_ports : PortIO call := {
  pin p := BusSpaceRead1 I386_BUS_SPACE_IO p 0;
  pout v p := BusSpaceWrite1 I386_BUS_SPACE_IO p 0 v;
  as_port c :=
    match c with
    | BusSpaceRead1 tag base off => if tag =? I386_BUS_SPACE_IO then Some (PIn (base + off)) else None
    | BusSpaceWrite1 tag base off v => if tag =? I386_BUS_SPACE_IO then Some (POut v (base + off)) else None
    | _ => None
    end
}.
Proof. all: by intros; cbn; rewrite Z.add_0_r. Defined.

(** The state of the driver is the table. *)
Record rs232_state := mkSt { devs : list rs232_device }.

Section Driver.
Context {K : Kernel call} {D : DeviceNumbers}.

Local Abbreviation M := (M call rs232_state).

Definition printf (fmt : string) : M unit := post (Printf fmt).

(** [dev_current], and an assignment to a field of it. *)
Definition device (i : Z) : M rs232_device :=
  let! s := get in guard OutOfBounds (buf_get (devs s) i).

Definition set_device (i : Z) (f : rs232_device -> rs232_device) : M unit :=
  let! d := device i in
  modify (fun s => mkSt (<[Z.to_nat i := f d]> (devs s))).

Definition bus_space_write_1 (tag base off v : Z) : M unit :=
  post (BusSpaceWrite1 tag base off (u8 v)).

(** rs232_open once the device is free: the programming of its registers. *)
Definition program (minor divisor : Z) : M unit :=
  let! d := device minor in
  bus_space_write_1 (io_tag d) (io_base d) UART_LCR (reg_lcr d) ;;
  bus_space_write_1 (io_tag d) (io_base d) UART_FCR (reg_fcr d) ;;
  bus_space_write_1 (io_tag d) (io_base d) UART_IER (reg_ier d) ;;
  set_device minor (fun d => with_lcr (REG_SET (reg_lcr d) LCR_DLAB) d) ;;
  let! d := device minor in
  bus_space_write_1 (io_tag d) (io_base d) UART_LCR (reg_lcr d) ;;
  bus_space_write_1 (io_tag d) (io_base d) UART_DLL (Z.land divisor 0xff) ;;
  bus_space_write_1 (io_tag d) (io_base d) UART_DLM (Z.shiftr divisor 8) ;;
  set_device minor (fun d => with_lcr (REG_CLR (reg_lcr d) LCR_DLAB) d) ;;
  let! d := device minor in
  bus_space_write_1 (io_tag d) (io_base d) UART_LCR (reg_lcr d).

Definition rs232_open (dev : Z) : M Z :=
  printf "open\n" ;;
  let minor := s32 (minor dev) in
  if minor >=? NB_DEVS then ret ENXIO else
  let! d := device minor in
  if truth (busy d) then ret EBUSY else
  set_device minor (with_busy 1) ;;
  let divisor := Z.quot (baudrate d) UART_BAUDRATE in
  program minor divisor ;;
  ret 0.

Definition rs232_close (dev : Z) : M Z :=
  printf "close\n" ;;
  let minor := s32 (minor dev) in
  if minor >=? NB_DEVS then ret ENXIO else
  set_device minor (with_busy 0) ;;
  ret 0.

(** The bodies of these are comments. *)
Definition rs232_read : M Z := printf "read\n" ;; ret 0.
Definition rs232_write : M Z := printf "write\n" ;; ret 0.
Definition rs232_ioctl : M Z := printf "ioctl\n" ;; ret 0.

(** ** rs232_mod.c *)

Definition rs232_load (cmd : Z) : M Z :=
  printf "rs232_lkm loaded !\n" ;;
  printf "come on dude, ready to panic ?\n" ;;
  ret 0.

Definition rs232_unload (cmd : Z) : M Z :=
  printf "Get a haircut and get a real job !\n" ;;
  printf "rs232_lkm unloaded !\n" ;;
  ret 0.

Definition rs232_stat (cmd : Z) : M Z :=
  printf "Wanna see more stuff ? ;)\n" ;;
  printf "rs232_lkm stated !\n" ;;
  ret 0.

Context {L : Lkm} {Dp : Dispatch call rs232_state}.

Definition rs232_lkm (cmd ver : Z) : M Z := DISPATCH cmd ver rs232_load rs232_unload rs232_stat.
End Driver.

(** ** The specification: who uses which port *)

Inductive operation := Open (dev : Z) | Close (dev : Z) | Read | Write | Ioctl.

Section Spec.
Context {D : DeviceNumbers}.

(** The ports in use, and what an operation answers. *)
Definition spec_op (o : operation) (u : gset Z) : Z * gset Z :=
  match o with
  | Open dev =>
      if decide (NB_DEVS <= minor dev) then (ENXIO, u)
      else if decide (minor dev ∈ u) then (EBUSY, u) else (0, {[minor dev]} ∪ u)
  | Close dev =>
      if decide (NB_DEVS <= minor dev) then (ENXIO, u) else (0, u ∖ {[minor dev]})
  | Read | Write | Ioctl => (0, u)
  end.

Fixpoint spec_ops (l : list operation) (u : gset Z) : list Z * gset Z :=
  match l with
  | [] => ([], u)
  | o :: l => let '(r, u) := spec_op o u in let '(rs, u) := spec_ops l u in (r :: rs, u)
  end.

(** The table of a driver at work: that of the source but for the busy flags,
    which say who is in [u]. *)
Definition refines (s : rs232_state) (u : gset Z) : Prop :=
  length (devs s) = 4%nat /\
  forall i d, devs s !! i = Some d ->
    exists d0, gl_devs !! i = Some d0 /\ d = with_busy (busy d) d0 /\
      (busy d <> 0 <-> Z.of_nat i ∈ u).
End Spec.

Section Refinement.
Context {K : Kernel call} {D : DeviceNumbers}.
Implicit Types (s : state call rs232_state) (u : gset Z).

Definition run_op (o : operation) : M call rs232_state Z :=
  match o with
  | Open dev => rs232_open dev
  | Close dev => rs232_close dev
  | Read => rs232_read
  | Write => rs232_write
  | Ioctl => rs232_ioctl
  end.

Fixpoint run_ops (l : list operation) : M call rs232_state (list Z) :=
  match l with
  | [] => ret []
  | o :: l => let! r := run_op o in let! rs := run_ops l in ret (r :: rs)
  end.

Lemma wp_device h i d (Q : rs232_device -> state call rs232_state -> Prop) s :
  buf_get (devs (loc s)) i = Some d -> Q d s -> wpx h (device i) Q s.
Proof. intros E HQ. unfold device. steps. by rewrite E. Qed.

Lemma wp_set_device h i f d (Q : unit -> state call rs232_state -> Prop) s :
  buf_get (devs (loc s)) i = Some d ->
  Q tt (mkState (mkSt (<[Z.to_nat i := f d]> (devs (loc s)))) (tr s)) -> wpx h (set_device i f) Q s.
Proof. intros E HQ. unfold set_device. step. eapply wp_device; [done|]. by step. Qed.

Lemma buf_get_insert {A} (b : list A) i x y :
  buf_get b i = Some y -> buf_get (<[Z.to_nat i := x]> b) i = Some x.
Proof.
  unfold buf_get. destruct (0 <=? i); [|done]. intros H%lookup_lt_Some.
  by apply list_lookup_insert_eq.
Qed.

(** Setting and clearing DLAB in the copy of LCR leaves it as it was. *)
Lemma reg_dlab v : 0 <= v < 128 -> REG_CLR (REG_SET v LCR_DLAB) LCR_DLAB = v.
Proof.
  intros Hv. cut (forallb (fun b => if b <? 128 then REG_CLR (REG_SET b LCR_DLAB) LCR_DLAB =? b else true)
                    (seqZ 0 256) = true); [|by vm_compute].
  intros H. pose proof (byte_forall _ H v ltac:(lia)) as E. cbv beta in E.
  destruct (Z.ltb_spec v 128); [by apply Z.eqb_eq|lia].
Qed.

(** The writes of [program], newest first. *)
Definition writes (d : rs232_device) (divisor : Z) : list (call * Z) :=
  let w off v := (BusSpaceWrite1 (io_tag d) (io_base d) off (u8 v), 0) in
  [w UART_LCR (REG_CLR (REG_SET (reg_lcr d) LCR_DLAB) LCR_DLAB);
   w UART_DLM (Z.shiftr divisor 8); w UART_DLL (Z.land divisor 0xff);
   w UART_LCR (REG_SET (reg_lcr d) LCR_DLAB); w UART_IER (reg_ier d); w UART_FCR (reg_fcr d);
   w UART_LCR (reg_lcr d)].

Lemma wp_program h i d v (Q : unit -> state call rs232_state -> Prop) s :
  buf_get (devs (loc s)) i = Some d -> 0 <= reg_lcr d < 128 ->
  Q tt (mkState (mkSt (<[Z.to_nat i := d]> (devs (loc s)))) (writes d v ++ tr s)) ->
  wpx h (program i v) Q s.
Proof.
  intros E Hv HQ. unfold program, bus_space_write_1. step. eapply wp_device; [done|]. steps.
  eapply wp_set_device; [done|]. step.
  eapply wp_device; [by eapply buf_get_insert|]. steps.
  eapply wp_set_device; [by eapply buf_get_insert|]. step. cbn [loc devs].
  eapply wp_device; [by do 2 eapply buf_get_insert|]. steps. cbn [loc devs tr with_lcr] in *.
  rewrite !list_insert_insert_eq. cbn [reg_lcr with_lcr io_base io_tag reg_fcr reg_ier].
  rewrite reg_dlab by done. unfold writes in HQ. rewrite reg_dlab in HQ by done. by destruct d.
Qed.

(** rs232_open by its answers: no such device, in use, or programmed. *)
Lemma wp_open h dev (Q : Z -> state call rs232_state -> Prop) s :
  let t := (Printf "open\n", 0) :: tr s in
  (NB_DEVS <= minor dev -> Q ENXIO (mkState (loc s) t)) ->
  (forall d, minor dev < NB_DEVS -> buf_get (devs (loc s)) (minor dev) = Some d -> busy d <> 0 ->
     Q EBUSY (mkState (loc s) t)) ->
  (forall d, minor dev < NB_DEVS -> buf_get (devs (loc s)) (minor dev) = Some d -> busy d = 0 ->
     Q 0 (mkState (mkSt (<[Z.to_nat (minor dev) := with_busy 1 d]> (devs (loc s))))
           (writes d (Z.quot (baudrate d) UART_BAUDRATE) ++ t))) ->
  (minor dev < NB_DEVS -> exists d, buf_get (devs (loc s)) (minor dev) = Some d /\ 0 <= reg_lcr d < 128) ->
  wpx h (rs232_open dev) Q s.
Proof.
  intros t H1 H2 H3 HT. pose proof (minor_range dev) as Hm. unfold rs232_open, printf. step. step.
  rewrite s32_id by lia. cbv zeta. rewrite Z.geb_leb.
  destruct (Z.leb_spec NB_DEVS (minor dev)) as [Hl|Hl]; [step; by apply H1|].
  destruct (HT Hl) as (d & E & Hr). step. eapply wp_device; [done|].
  destruct (truth (busy d)) eqn:Eb; [step; by eapply H2, truth_true|]. apply truth_false in Eb.
  step. eapply wp_set_device; [done|]. step. cbn [loc tr devs].
  eapply wp_program; [by eapply buf_get_insert|done|]. step. cbn [loc devs tr].
  rewrite list_insert_insert_eq. exact (H3 d Hl E Eb).
Qed.

Lemma wp_close h dev (Q : Z -> state call rs232_state -> Prop) s :
  let t := (Printf "close\n", 0) :: tr s in
  (NB_DEVS <= minor dev -> Q ENXIO (mkState (loc s) t)) ->
  (forall d, minor dev < NB_DEVS -> buf_get (devs (loc s)) (minor dev) = Some d ->
     Q 0 (mkState (mkSt (<[Z.to_nat (minor dev) := with_busy 0 d]> (devs (loc s)))) t)) ->
  (minor dev < NB_DEVS -> exists d, buf_get (devs (loc s)) (minor dev) = Some d) ->
  wpx h (rs232_close dev) Q s.
Proof.
  intros t H1 H2 HT. pose proof (minor_range dev) as Hm. unfold rs232_close, printf. step. step.
  rewrite s32_id by lia. cbv zeta. rewrite Z.geb_leb.
  destruct (Z.leb_spec NB_DEVS (minor dev)) as [Hl|Hl]; [step; by apply H1|].
  destruct (HT Hl) as (d & E). step. eapply wp_set_device; [done|]. step. by apply H2.
Qed.

(** ** The refinement *)

Lemma refines_device s u i :
  refines (loc s) u -> 0 <= i < NB_DEVS ->
  exists d d0, devs (loc s) !! Z.to_nat i = Some d /\ buf_get (devs (loc s)) i = Some d /\
    gl_devs !! Z.to_nat i = Some d0 /\ d = with_busy (busy d) d0 /\ (busy d <> 0 <-> i ∈ u).
Proof.
  unfold NB_DEVS. intros [Hl H] Hi.
  destruct (lookup_lt_is_Some_2 (devs (loc s)) (Z.to_nat i)) as [d E]; [lia|].
  destruct (H _ _ E) as (d0 & E0 & Ed & Hb). rewrite Z2Nat.id in Hb by lia. exists d, d0.
  unfold buf_get. by rewrite (proj2 (Z.leb_le 0 i)) by lia.
Qed.

Lemma gl_devs_lcr i d0 b : gl_devs !! i = Some d0 -> 0 <= reg_lcr (with_busy b d0) < 128.
Proof. intros H. do 4 (destruct i as [|i]; [by injection H as <-|]). done. Qed.

(** A new busy flag for port [i]. *)
Lemma refines_busy s u u' i b d :
  refines (loc s) u -> buf_get (devs (loc s)) i = Some d ->
  (forall j, j ∈ u' <-> if decide (j = i) then b <> 0 else j ∈ u) ->
  refines (mkSt (<[Z.to_nat i := with_busy b d]> (devs (loc s)))) u'.
Proof.
  intros [Hl H] E Hu. split; [cbn [devs]; by rewrite length_insert|].
  intros j d' Ej. cbn [devs] in Ej. unfold buf_get in E. destruct (Z.leb_spec 0 i); [|done].
  apply list_lookup_insert_Some in Ej as [(<- & <- & _)|(Hj & Ej)].
  - destruct (H _ _ E) as (d0 & E0 & Ed & Hb). exists d0. split; [done|]. split; [by rewrite Ed|].
    cbn [busy with_busy]. rewrite Hu, decide_True by lia. done.
  - destruct (H _ _ Ej) as (d0 & E0 & Ed & Hb). exists d0. split; [done|]. split; [done|].
    rewrite Hu, decide_False by lia. done.
Qed.

Lemma wp_op o s u :
  refines (loc s) u ->
  wp (run_op o) (fun r s' => r = fst (spec_op o u) /\ refines (loc s') (snd (spec_op o u))) s.
Proof.
  intros HR. destruct o as [dev|dev| | |]; cbn [run_op spec_op].
  - pose proof (minor_range dev) as Hm. apply wp_open.
    + intros Hl. rewrite decide_True by done. done.
    + intros d Hl E Hb. rewrite decide_False by lia.
      destruct (refines_device s u (minor dev)) as (d' & d0 & _ & E' & _ & _ & Hu); [done|lia|].
      rewrite E in E'. injection E' as <-. rewrite decide_True by tauto. done.
    + intros d Hl E Hb. rewrite decide_False by lia.
      destruct (refines_device s u (minor dev)) as (d' & d0 & _ & E' & _ & _ & Hu); [done|lia|].
      rewrite E in E'. injection E' as <-. rewrite decide_False by tauto. split; [done|].
      eapply refines_busy; [done|done|]. intros j. cbn [snd]. destruct (decide (j = minor dev)); set_solver.
    + intros Hl. destruct (refines_device s u (minor dev)) as (d & d0 & _ & E & E0 & Ed & _); [done|lia|].
      exists d. split; [done|]. rewrite Ed. by eapply gl_devs_lcr.
  - pose proof (minor_range dev) as Hm. apply wp_close.
    + intros Hl. rewrite decide_True by done. done.
    + intros d Hl E. rewrite decide_False by lia. split; [done|].
      eapply refines_busy; [done|done|]. intros j. cbn [snd]. destruct (decide (j = minor dev)); set_solver.
    + intros Hl. destruct (refines_device s u (minor dev)) as (d & d0 & _ & E & _); [done|lia|]. eauto.
  - unfold rs232_read, printf. by steps.
  - unfold rs232_write, printf. by steps.
  - unfold rs232_ioctl, printf. by steps.
Qed.

Lemma wp_ops l s u :
  refines (loc s) u ->
  wp (run_ops l) (fun rs s' => rs = fst (spec_ops l u) /\ refines (loc s') (snd (spec_ops l u))) s.
Proof.
  revert s u. induction l as [|o l IH]; intros s u HR; cbn [run_ops spec_ops]; [by steps|].
  step. use wp_op; [done|]. intros r s1 [-> HR1]. destruct (spec_op o u) as [r u1]. cbn [fst snd] in *.
  step. use IH; [done|]. intros rs s2 [-> HR2]. destruct (spec_ops l u1) as [rs u2]. by step.
Qed.
End Refinement.

(** ** The reference UART *)

Section Uart.
Context {K : Kernel call} {D : DeviceNumbers}.
Implicit Types (s : state call rs232_state).

(** Every row of the table differs only in base and name. *)
Lemma gl_devs_row i d0 : gl_devs !! i = Some d0 -> exists b nm, d0 = row b nm.
Proof. intros H. do 4 (destruct i as [|i]; [injection H as <-; by do 2 eexists|]). done. Qed.

Lemma uart_of_bus base u0 off v r h :
  uart_of base u0 ((BusSpaceWrite1 I386_BUS_SPACE_IO base off v, r) :: h) =
  uart_write off v (uart_of base u0 h).
Proof.
  cbn [uart_of foldr]. unfold uart_event. cbn [fst as_port obsd_ports]. rewrite Z.eqb_refl.
  cbn [uart_op]. by replace (base + off - base) with off by lia.
Qed.

(** The device after the writes of [program]: a word of [divisor], and the
    copies of the registers. *)
Lemma uart_of_writes base u0 d v h :
  io_tag d = I386_BUS_SPACE_IO -> io_base d = base -> 0 <= reg_lcr d < 128 ->
  uart_of base u0 (writes d v ++ h) =
  mkUart (u8 v) (u8 (Z.shiftr v 8)) (u8 (reg_ier d)) (u8 (reg_fcr d)) (reg_lcr d)
    (mcr (uart_of base u0 h)) (scr (uart_of base u0 h)) (sent (uart_of base u0 h)).
Proof.
  intros Ht Hb Hr. unfold writes. rewrite Ht, Hb, reg_dlab by done. cbn [app].
  rewrite !uart_of_bus. destruct (uart_of base u0 h) as [a b c e f g i j].
  unfold UART_LCR, UART_DLM, UART_DLL, UART_IER, UART_FCR. rewrite (u8_id (reg_lcr d)) by lia.
  assert (Z.testbit (reg_lcr d) 7 = false) as E7.
  { apply bounded_testbit with (w := 7); [|lia]. change (2 ^ 7) with 128. lia. }
  assert (Z.testbit (u8 (REG_SET (reg_lcr d) LCR_DLAB)) 7 = true) as E7'.
  { apply (byte_forall (fun b => Z.testbit (u8 (REG_SET b LCR_DLAB)) 7)); [by vm_compute|lia]. }
  assert (u8 (Z.land v 255) = u8 v) as Ev.
  { change 255 with (Z.ones 8). rewrite Z.land_ones by lia. apply u8_idem. }
  cbn [uart_write]. unfold dlab. cbn [lcr]. rewrite E7. cbn [uart_write]. unfold dlab. cbn [lcr].
  rewrite E7'. cbn [uart_write]. unfold dlab. cbn [lcr]. rewrite E7'. cbn [uart_write mcr scr sent].
  by rewrite Ev.
Qed.

(** Opening a free port with any initialisers returns 0 and leaves the
    reference UART with the device's registers and, in the divisor latch,
    baudrate / 115200, the inverse of the divisor of that speed. *)
Theorem obsd_open_latch base u0 d dev s :
  buf_get (devs (loc s)) (minor dev) = Some d -> minor dev < NB_DEVS -> busy d = 0 ->
  io_tag d = I386_BUS_SPACE_IO -> io_base d = base -> 0 <= reg_lcr d < 128 -> 0 <= baudrate d ->
  wp (rs232_open dev) (fun r s' => r = 0 /\
    let u := uart_of base u0 (tr s) in
    uart_of base u0 (tr s') =
      mkUart (baudrate d / UART_BAUDRATE mod 256) (baudrate d / UART_BAUDRATE / 256 mod 256)
        (u8 (reg_ier d)) (u8 (reg_fcr d)) (reg_lcr d) (mcr u) (scr u) (sent u)) s.
Proof.
  intros E Hm Hb Ht Hi Hr Hd. apply wp_open; [lia|congruence| |eauto].
  intros d' _ E' _. rewrite E in E'. injection E' as <-. split; [done|]. cbn [tr].
  rewrite (uart_of_writes base) by done. rewrite Z.quot_div_nonneg by (unfold UART_BAUDRATE; lia).
  by rewrite Z.shiftr_div_pow2 by lia.
Qed.

(** C27: The driver refines the set of ports in use: any sequence of opens,
    closes, reads, writes and ioctls answers what the set says, EBUSY for an
    open of a port in use and ENXIO for a minor number out of range, and
    leaves the table of the source with the busy flags of the new set. *)
Theorem obsd_ports_exclusive l s (u : gset Z) :
  refines (loc s) u ->
  wp (run_ops l) (fun rs s' => rs = fst (spec_ops l u) /\ refines (loc s') (snd (spec_ops l u))) s.
Proof. apply wp_ops. Qed.

(** With the table of the source, whose rows lack the baud rate so that
    what follows it is one field early, opening a free port leaves the
    reference UART with divisor 0, the value meant for the line control in
    the FIFO control, and line control 0: words of five bits. *)
Theorem obsd_open_programs_uart u0 dev s (u : gset Z) d0 :
  refines (loc s) u -> gl_devs !! Z.to_nat (minor dev) = Some d0 -> minor dev ∉ u ->
  wp (rs232_open dev) (fun r s' => r = 0 /\ refines (loc s') ({[minor dev]} ∪ u) /\
    let v := uart_of (io_base d0) u0 (tr s) in
    uart_of (io_base d0) u0 (tr s') = mkUart 0 0 0 3 0 (mcr v) (scr v) (sent v)) s.
Proof.
  intros HR E0 Hu. pose proof (minor_range dev) as Hm.
  assert (minor dev < NB_DEVS) as Hl.
  { apply lookup_lt_Some in E0. unfold NB_DEVS. change (length gl_devs) with 4%nat in E0. lia. }
  destruct (refines_device s u (minor dev)) as (d & d0' & _ & E & E0' & Ed & Hb); [done|lia|].
  rewrite E0 in E0'. injection E0' as <-.
  assert (busy d = 0) as Hz by (destruct (Z.eq_dec (busy d) 0); tauto).
  apply wp_open; [lia|congruence| |].
  - intros d' _ E' _. rewrite E in E'. injection E' as <-. split; [done|]. split.
    + eapply refines_busy; [done|done|]. intros j. destruct (decide (j = minor dev)); set_solver.
    + cbn [tr]. destruct (gl_devs_row _ _ E0) as (b & nm & ->). rewrite Ed.
      by rewrite (uart_of_writes b).
  - intros _. exists d. split; [done|]. rewrite Ed. by eapply gl_devs_lcr.
Qed.
End Uart.

(** ** Witnesses: every write succeeds, a device number is its minor. *)

Definition silent : Kernel call := {| k_ret _ _ := 0; k_out _ _ _ := 0 |}.

Lemma minor24_range dev : 0 <= dev mod 16777216 < 16777216.
Proof. by apply Z.mod_pos_bound. Qed.

Definition plain_numbers : DeviceNumbers :=
  {| minor dev := dev mod 16777216; minor_range := minor24_range |}.

Definition idle : state call rs232_state := mkState (mkSt gl_devs) [].
Definition uart_on : uart := mkUart 12 0 1 0 0x13 0x0b 0 [].

Lemma idle_refines : refines (loc idle) ∅.
Proof.
  split; [done|]. intros i d E. exists d. split; [done|].
  destruct (gl_devs_row _ _ E) as (b & nm & ->). split; [done|]. cbn. set_solver.
Qed.

Example obsd_ports_exclusive_witness :
  let K := silent in let D := plain_numbers in
  let l := [Open 1; Open 1; Open 4; Close 1; Open 1] in
  wp (run_ops l) (fun rs s' => rs = [0; EBUSY; ENXIO; 0; 0] /\ refines (loc s') (snd (spec_ops l ∅))) idle.
Proof.
  intros K D l.
  exact (eq_ind (fst (spec_ops l ∅))
    (fun x => wp (run_ops l) (fun rs s' => rs = x /\ refines (loc s') (snd (spec_ops l ∅))) idle)
    (obsd_ports_exclusive l idle ∅ idle_refines) [0; EBUSY; ENXIO; 0; 0] eq_refl).
Defined.

Example obsd_open_programs_uart_witness :
  let K := silent in let D := plain_numbers in
  wp (rs232_open 2) (fun r s' => r = 0 /\ refines (loc s') ({[minor 2]} ∪ ∅) /\
    uart_of 0x2f8 uart_on (tr s') = mkUart 0 0 0 3 0 0x0b 0 []) idle.
Proof.
  intros K D. exact (obsd_open_programs_uart uart_on 2 idle ∅ _ idle_refines eq_refl (not_elem_of_empty _)).
Defined.

(** A table whose first port has a rate. *)
Definition rated : rs232_device :=
  mkDevice 0x3f8 "PCCOM_1" I386_BUS_SPACE_IO 9600 0 0 0 0 0 (s8 FCR_ENABLE_FIFO) LCR_WORD_8 0 0 0 0.

Example obsd_open_latch_witness :
  let K := silent in let D := plain_numbers in
  wp (rs232_open 0) (fun r s' => r = 0 /\
    uart_of 0x3f8 uart_on (tr s') = mkUart 0 0 0 0xC7 3 0x0b 0 []) (mkState (mkSt [rated]) []).
Proof.
  intros K D. apply (obsd_open_latch 0x3f8 uart_on rated 0);
    (reflexivity || (split; vm_compute; congruence) || (vm_compute; congruence)).
Defined.
