(* ===== verification/Rl8029.v ===== *)
(** * The OpenBSD driver of the RealTek 8029 Ethernet card

    doc/systems/openbsd/rl8029: rl8029.h (registers) and if_ne2000.c (matching,
    attachment, the interface's operations; moving packets is not written).
    Theorems on what attaching takes and gives back, on the states the driver
    can reach and on the interrupt priority level around its operations. *)

From S2P Require Import Prelude CMonad ObsdApi.

(** ** rl8029.h *)

(* PCI registers *)
Definition PCI_RL8029_VENDOR_PRODUCT := 0x00.
Definition PCI_RL8029_COMMAND_STATUS := 0x04.
Definition PCI_RL8029_RID_PIFR_SCR_BCR := 0x08.
Definition PCI_RL8029_RES_LTR_HTR_RES := 0x0c.
Definition PCI_RL8029_BAR := 0x10.
Definition PCI_RL8029_SVID_SID := 0x2c.
Definition PCI_RL8029_BROMBAR := 0x30.
Definition PCI_RL8029_ILR_IPR_RES_RES := 0x3c.

(* NE2000 registers *)
Definition RL8029_CR := 0x00.
Definition RL8029_REMOTE_DMA_PORT := 0x10.
Definition RL8029_REMOTE_DMA_SIZE := 0x08.
Definition RL8029_8029ID0 := 0x0a.
Definition RL8029_8029ID1 := 0x0b.

(** ** The headers of the kernel

    Command numbers and the codes of media and address families are parameters;
    the flags of an interface are the bits of <net/if.h>, the bounds of an MTU
    those of Ethernet. *)

Class NetHeaders := {
  SIOCSIFADDR : Z; SIOCSIFMTU : Z; SIOCSIFFLAGS : Z; SIOCADDMULTI : Z; SIOCDELMULTI : Z;
  SIOCGIFMEDIA : Z; SIOCSIFMEDIA : Z;
  net_commands_differ :
    NoDup [SIOCSIFADDR; SIOCSIFMTU; SIOCSIFFLAGS; SIOCADDMULTI; SIOCDELMULTI; SIOCGIFMEDIA; SIOCSIFMEDIA];
  AF_INET : Z;
  IFM_ETHER : Z; IFM_MANUAL : Z;
  IFCAP_VLAN_MTU : Z;
  PCI_VENDOR : Z -> Z; PCI_PRODUCT : Z -> Z;
  PCI_VENDOR_REALTEK : Z; PCI_PRODUCT_REALTEK_RT8029 : Z;
  IPL_NET : Z
}.

Definition IFF_UP := 0x1.
Definition IFF_BROADCAST := 0x2.
Definition IFF_NOTRAILERS := 0x20.
Definition IFF_RUNNING := 0x40.
Definition IFF_SIMPLEX := 0x800.
Definition IFF_MULTICAST := 0x8000.
Definition ETHERMTU := 1500.
Definition ETHERMIN := 46.

(** ** The external functions *)

Inductive call :=
| Printf (fmt : string) (args : list parg)
| Log (fmt : string) (args : list parg)         (* at LOG_ERR *)
| Splnet
| Splx (s : Z)
| PciMapregMap (reg : Z)                        (* fills tag, handle, size *)
| PciIntrMap                                    (* fills the interrupt handle *)
| PciIntrString (pc ih : Z)
| PciIntrEstablish (pc ih : Z)                  (* of rl8029_intr *)
| BusSpaceUnmap (tag bh size : Z)
| BusSpaceRead1 (tag bh off : Z)
| EtherSprintf (enaddr : bytes)
| IfqSetReady
| IfmediaInit                                   (* with mediachange, mediastatus *)
| IfmediaAdd (media : Z)
| IfmediaSet (media : Z)
| IfAttach
| EtherIfattach
| ArpIfinit
| IfmediaIoctl (cmd : Z)
| EtherIoctl (cmd : Z).

#[export] Instance call_eq_dec : EqDecision call.
Proof. solve_decision. Defined.

(** The functions an interface may point to. *)
Inductive fn := NULL | fn_start | fn_ioctl | fn_watchdog | fn_other.

#[export] Instance fn_eq_dec : EqDecision fn.
Proof. solve_decision. Defined.

Record ifnet := mkIf {
  if_xname : string;
  if_softc : bool;      (* null, or the driver's structure *)
  if_start : fn;
  if_ioctl : fn;
  if_watchdog : fn;
  if_flags : Z;
  if_capabilities : Z;
  if_mtu : Z;
  if_oerrors : Z
}.

(** rl8029_softc, with the parts of arpcom and device the driver uses. *)
Record rl8029_softc := mkSc {
  dv_xname : string;
  sc_ih : Z;
  sc_bus_tag : Z;
  sc_bus_bh : Z;
  ac_if : ifnet;
  ac_enaddr : bytes;
  sc_enabled : Z
}.

(** The argument of an ioctl: what the views of it as an address and as a
    request show. *)
Record ioctl_data := mkData { sa_family : Z; ifr_mtu : Z }.

Definition upd_if (f : ifnet -> ifnet) (sc : rl8029_softc) : rl8029_softc :=
  mkSc (dv_xname sc) (sc_ih sc) (sc_bus_tag sc) (sc_bus_bh sc) (f (ac_if sc)) (ac_enaddr sc) (sc_enabled sc).
Definition set_ih (h : Z) (sc : rl8029_softc) : rl8029_softc :=
  mkSc (dv_xname sc) h (sc_bus_tag sc) (sc_bus_bh sc) (ac_if sc) (ac_enaddr sc) (sc_enabled sc).
Definition set_bus (tag bh : Z) (sc : rl8029_softc) : rl8029_softc :=
  mkSc (dv_xname sc) (sc_ih sc) tag bh (ac_if sc) (ac_enaddr sc) (sc_enabled sc).
Definition set_enabled (e : Z) (sc : rl8029_softc) : rl8029_softc :=
  mkSc (dv_xname sc) (sc_ih sc) (sc_bus_tag sc) (sc_bus_bh sc) (ac_if sc) (ac_enaddr sc) e.

Definition with_names (name : string) (i : ifnet) : ifnet :=
  mkIf name true fn_start fn_ioctl (if_watchdog i) (if_flags i) (if_capabilities i) (if_mtu i) (if_oerrors i).
Definition with_watchdog (w : fn) (i : ifnet) : ifnet :=
  mkIf (if_xname i) (if_softc i) (if_start i) (if_ioctl i) w (if_flags i) (if_capabilities i) (if_mtu i) (if_oerrors i).
Definition with_flags (f : Z) (i : ifnet) : ifnet :=
  mkIf (if_xname i) (if_softc i) (if_start i) (if_ioctl i) (if_watchdog i) f (if_capabilities i) (if_mtu i) (if_oerrors i).
Definition with_capabilities (c : Z) (i : ifnet) : ifnet :=
  mkIf (if_xname i) (if_softc i) (if_start i) (if_ioctl i) (if_watchdog i) (if_flags i) c (if_mtu i) (if_oerrors i).
Definition with_mtu (m : Z) (i : ifnet) : ifnet :=
  mkIf (if_xname i) (if_softc i) (if_start i) (if_ioctl i) (if_watchdog i) (if_flags i) (if_capabilities i) m (if_oerrors i).
Definition with_oerrors (n : Z) (i : ifnet) : ifnet :=
  mkIf (if_xname i) (if_softc i) (if_start i) (if_ioctl i) (if_watchdog i) (if_flags i) (if_capabilities i) (if_mtu i) n.

Section Driver.
Context {K : Kernel call} {N : NetHeaders}.

Local Abbreviation M := (M call rl8029_softc).

Definition printf (fmt : string) (args : list parg) : M unit := post (Printf fmt args).

(** [sc = ifp->if_softc], dereferenced by what follows. *)
Definition softc_of : M rl8029_softc :=
  let! sc := get in if if_softc (ac_if sc) then ret sc else fail BadPointer.

(** A call of the network stack with the interface as argument: it may flip
    flags (cell 0, a mask) and set the MTU (cell 1, unless 0). *)
Definition changed (c : call) (t : list (call * Z)) (i : ifnet) : ifnet :=
  let m := u32 (k_out t c 1) in
  with_mtu (if truth m then m else if_mtu i)
    (with_flags (Z.lxor (if_flags i) (k_out t c 0)) i).

Definition ask_if (c : call) : M Z :=
  fun s => ask s32 c (mkState (upd_if (changed c (tr s)) (loc s)) (tr s)).

Definition post_if (c : call) : M unit :=
  fun s => post c (mkState (upd_if (changed c (tr s)) (loc s)) (tr s)).

(** ** if_ne2000.c: matching and attachment; a device is its [pa_id] *)

Definition is_rl8029 (pa_id : Z) : Z :=
  if (PCI_VENDOR pa_id =? PCI_VENDOR_REALTEK) && (PCI_PRODUCT pa_id =? PCI_PRODUCT_REALTEK_RT8029)
  then 1 else 0.

Definition rl8029_match (pa_id : Z) : Z := is_rl8029 pa_id.

Definition rl8029_config : M unit :=
  let! sc := get in
  modify (upd_if (with_names (dv_xname sc))) ;;
  let! sc := get in
  (if bool_decide (if_watchdog (ac_if sc) = NULL)
   then modify (upd_if (with_watchdog fn_watchdog)) else ret tt) ;;
  modify (upd_if (with_flags
    (Z.lor (Z.lor (Z.lor IFF_BROADCAST IFF_SIMPLEX) IFF_NOTRAILERS) IFF_MULTICAST))) ;;
  post IfqSetReady ;;
  modify (upd_if (with_capabilities IFCAP_VLAN_MTU)) ;;
  let! sc := get in
  let! str := ask u32 (EtherSprintf (ac_enaddr sc)) in
  printf ", adress %s" [PPtr str] ;;
  post IfmediaInit ;;
  post (IfmediaAdd (Z.lor IFM_ETHER IFM_MANUAL)) ;;
  post (IfmediaSet (Z.lor IFM_ETHER IFM_MANUAL)) ;;
  post_if IfAttach ;;
  post_if EtherIfattach.

(** [pa_pc] is the chipset of the attach arguments. *)
Definition rl8029_attach (pa_pc : Z) : M unit :=
  let pc := pa_pc in
  let c := PciMapregMap PCI_RL8029_BAR in
  let! tag := filled u32 c 0 in
  let! bh := filled u32 c 1 in
  let! iosize := filled u32 c 2 in
  let! err := ask s32 c in
  if truth err then printf "rl8029 can't map i/o space\n" [] else
  modify (set_bus tag bh) ;;
  modify (set_enabled 1) ;;
  let! ih := filled u32 PciIntrMap 0 in
  let! err := ask s32 PciIntrMap in
  if truth err then
    printf ":couldn't map interrupt\n" [] ;;
    let! sc := get in
    post (BusSpaceUnmap (sc_bus_tag sc) (sc_bus_bh sc) iosize)
  else
  let! intrstr := ask u32 (PciIntrString pc ih) in
  let! h := ask u32 (PciIntrEstablish pc ih) in
  modify (set_ih h) ;;
  let! sc := get in
  if negb (truth (sc_ih sc)) then printf "rl8029 can't establish interrupt\n" [] else
  (if truth (sc_enabled sc) then printf ": %s\n" [PPtr intrstr]
   else printf ": toto %s\n" [PPtr intrstr]) ;;
  printf "info : %.2x %.2x\n" [PInt (sc_bus_tag sc); PInt (sc_bus_bh sc)] ;;
  printf "here\n" [] ;;
  let! reg := ask u8 (BusSpaceRead1 pc (sc_bus_bh sc) RL8029_8029ID0) in
  printf "reg :%.2x\n" [PInt reg] ;;
  let! reg := ask u8 (BusSpaceRead1 pc (sc_bus_bh sc) RL8029_8029ID1) in
  printf "reg :%.2x\n" [PInt reg] ;;
  rl8029_config.

(** ** if_ne2000.c: the operations *)

Definition rl8029_intr : M Z :=
  printf ": intr\n" [] ;;
  modify (set_enabled 0) ;;
  ret 0.

Definition rl8029_start : M unit := printf "START\n" [].
Definition rl8029_stop : M unit := printf "STOP\n" [].
Definition rl8029_disable : M unit := printf "DISABLE\n" [].
Definition rl8029_enable : M Z := printf "ENABLE\n" [] ;; ret 0.
Definition rl8029_init : M unit := printf "MEDIA INIT\n" [].
Definition rl8029_mediachange : M Z := printf "MEDIA CHANGE\n" [] ;; ret 0.
Definition rl8029_mediastatus : M unit := printf "MEDIA STATUS\n" [].

Definition set_flags (f : Z -> Z) : M unit :=
  modify (upd_if (fun i => with_flags (f (if_flags i)) i)).

(** The cases of the switch of rl8029_ioctl: each ends with the value of
    [error]. *)
Definition ioctl_addr (data : ioctl_data) : M Z :=
  printf "SIOCDIFADDR\n" [] ;;
  let! error := rl8029_enable in
  if truth error then ret error else
  set_flags (fun f => Z.lor f IFF_UP) ;;
  (if sa_family data =? AF_INET
   then rl8029_init ;; post ArpIfinit
   else rl8029_init) ;;
  ret error.

Definition ioctl_mtu (data : ioctl_data) : M Z :=
  printf "SIOCSIFMTU\n" [] ;;
  if (ifr_mtu data >? ETHERMTU) || (ifr_mtu data <? ETHERMIN) then ret EINVAL else
  let! sc := get in
  (if negb (if_mtu (ac_if sc) =? ifr_mtu data)
   then modify (upd_if (with_mtu (ifr_mtu data))) else ret tt) ;;
  ret 0.

Definition ioctl_flags : M Z :=
  printf "SIOCIFFLAGS\n" [] ;;
  let! sc := get in
  let f := if_flags (ac_if sc) in
  if (Z.land f IFF_UP =? 0) && negb (Z.land f IFF_RUNNING =? 0) then
    rl8029_stop ;;
    set_flags (fun f => Z.land f (Z.lnot IFF_RUNNING)) ;;
    rl8029_disable ;;
    ret 0
  else if negb (Z.land f IFF_UP =? 0) && (Z.land f IFF_RUNNING =? 0) then
    let! error := rl8029_enable in
    if truth error then ret error else
    rl8029_init ;; ret error
  else if negb (Z.land f IFF_UP =? 0) then
    rl8029_stop ;; rl8029_init ;; ret 0
  else ret 0.

Definition ioctl_multi : M Z :=
  printf "SIOCXXXMULTI\n" [] ;;
  let! sc := get in
  if sc_enabled sc =? 0 then ret EIO else
  let error := 0 in
  if error =? ENETRESET then
    let! sc := get in
    (if truth (Z.land (if_flags (ac_if sc)) IFF_RUNNING)
     then rl8029_stop ;; rl8029_init else ret tt) ;;
    ret 0
  else ret error.

Definition ioctl_switch (cmd : Z) (data : ioctl_data) : M Z :=
  if cmd =? SIOCSIFADDR then ioctl_addr data
  else if cmd =? SIOCSIFMTU then ioctl_mtu data
  else if cmd =? SIOCSIFFLAGS then ioctl_flags
  else if (cmd =? SIOCADDMULTI) || (cmd =? SIOCDELMULTI) then ioctl_multi
  else if (cmd =? SIOCGIFMEDIA) || (cmd =? SIOCSIFMEDIA) then
    printf "SIOCXIFMEDIA\n" [] ;; ask_if (IfmediaIoctl cmd)
  else
    printf "DEFAULT\n" [] ;; ask_if (EtherIoctl cmd).

Definition rl8029_ioctl (cmd : Z) (data : ioctl_data) : M Z :=
  let! _ := softc_of in
  let! s := ask s32 Splnet in
  let! error := ioctl_switch cmd data in
  post (Splx s) ;;
  ret error.

Definition rl8029_reset : M unit :=
  let! s := ask s32 Splnet in
  rl8029_stop ;;
  rl8029_init ;;
  post (Splx s).

Definition rl8029_watchdog : M unit :=
  let! sc := softc_of in
  post (Log "%s: device timeout\n" [PStr (dv_xname sc)]) ;;
  modify (upd_if (fun i => with_oerrors (u32 (if_oerrors i + 1)) i)) ;;
  rl8029_reset.
End Driver.

(** ** Resources, and the priority level *)

Inductive resource := RMapping | RInterrupt.

#[export] Instance resource_eq_dec : EqDecision resource.
Proof. solve_decision. Defined.

#[export] Instance rl8029_resources : Resources call resource := {|
  acquires e :=
    match e with
    | (PciMapregMap _, r) => if truth r then None else Some RMapping
    | (PciIntrEstablish _ _, r) => if truth r then Some RInterrupt else None
    | _ => None
    end;
  releases e := match e with (BusSpaceUnmap _ _ _, _) => Some RMapping | _ => None end
|}.

Section Spec.
Context {K : Kernel call} {N : NetHeaders}.
Implicit Types (s : state call rl8029_softc).

(** The priority level after a trace: splnet raises it to that of the network,
    splx sets it. *)
Fixpoint spl_level (t : list (call * Z)) : Z :=
  match t with
  | [] => 0
  | (Splnet, _) :: t => Z.max (spl_level t) IPL_NET
  | (Splx l, _) :: _ => s32 l
  | _ :: t => spl_level t
  end.

(** splnet returns the level it found. *)
Definition spl_answers : Prop := forall t, s32 (k_ret t Splnet) = spl_level t.

(** The calls that stop or start the card. *)
Definition touches (c : call) : bool :=
  bool_decide (c = Printf "STOP\n" []) || bool_decide (c = Printf "MEDIA INIT\n" []) ||
  bool_decide (c = Printf "DISABLE\n" []).

(** All of them made at the level of the network. *)
Fixpoint protected (t : list (call * Z)) : Prop :=
  match t with
  | [] => True
  | (c, _) :: t => (touches c = true -> IPL_NET <= spl_level t) /\ protected t
  end.

(** What the network stack does to an interface: it leaves IFF_RUNNING to the
    driver, keeps the MTU within the bounds of Ethernet, and attaching an
    Ethernet interface sets it to the largest. *)
Definition stack_call (c : call) : bool :=
  match c with IfAttach | EtherIfattach | IfmediaIoctl _ | EtherIoctl _ => true | _ => false end.

Class StackLaws := {
  stack_running t c : stack_call c = true -> Z.testbit (k_out t c 0) 6 = false;
  stack_mtu t c : stack_call c = true ->
    let m := u32 (k_out t c 1) in m = 0 \/ ETHERMIN <= m <= ETHERMTU;
  ether_ifattach_mtu t : u32 (k_out t EtherIfattach 1) = ETHERMTU
}.

(** ** The events of an attached interface *)

Inductive event :=
| EIntr
| EStart
| EIoctl (cmd : Z) (data : ioctl_data)
| EWatchdog
| EMediaChange
| EMediaStatus
| EUserFlags (flips : Z) (* the kernel's part of SIOCSIFFLAGS, which keeps IFF_RUNNING *).

Definition handle (e : event) : M call rl8029_softc unit :=
  match e with
  | EIntr => let! _ := rl8029_intr in ret tt
  | EStart => rl8029_start
  | EIoctl cmd data => let! _ := rl8029_ioctl cmd data in ret tt
  | EWatchdog => rl8029_watchdog
  | EMediaChange => let! _ := rl8029_mediachange in ret tt
  | EMediaStatus => rl8029_mediastatus
  | EUserFlags flips => set_flags (fun f => Z.lxor f (Z.ldiff flips IFF_RUNNING))
  end.

(** A device before attachment: the kernel zeroes it but for its name and what
    the bus filled in. *)
Definition detached (sc : rl8029_softc) : Prop :=
  sc_ih sc = 0 /\ if_softc (ac_if sc) = false /\ if_flags (ac_if sc) = 0 /\ if_mtu (ac_if sc) = 0.

Inductive reachable : state call rl8029_softc -> Prop :=
| reach_attach pc s s' :
    detached (loc s) -> tr s = [] -> rl8029_attach pc s = Ok tt s' ->
    if_softc (ac_if (loc s')) = true -> reachable s'
| reach_event e s s' : reachable s -> handle e s = Ok tt s' -> reachable s'.

(** The invariant of an attached interface. *)
Record attached (sc : rl8029_softc) : Prop := {
  at_softc : if_softc (ac_if sc) = true;
  at_start : if_start (ac_if sc) = fn_start;
  at_ioctl : if_ioctl (ac_if sc) = fn_ioctl;
  at_watchdog : if_watchdog (ac_if sc) <> NULL;
  at_ih : sc_ih sc <> 0;
  at_running : Z.testbit (if_flags (ac_if sc)) 6 = false;
  at_mtu : ETHERMIN <= if_mtu (ac_if sc) <= ETHERMTU
}.

Lemma running_bit f : (Z.land f IFF_RUNNING =? 0) = negb (Z.testbit f 6).
Proof.
  change IFF_RUNNING with (2 ^ 6).
  destruct (Z.testbit f 6) eqn:E; cbn [negb].
  - apply Z.eqb_neq. intros H. apply (f_equal (fun z => Z.testbit z 6)) in H.
    rewrite Z.land_spec, E, Z.bits_0 in H. by rewrite Z.pow2_bits_true in H by lia.
  - apply Z.eqb_eq, Z.bits_inj'. intros i Hi. rewrite Z.land_spec, Z.bits_0, Z.pow2_bits_eqb by lia.
    destruct (Z.eqb_spec 6 i) as [<-|]; [by rewrite E|by rewrite andb_false_r].
Qed.

Lemma wp_ask_if h c (Q : Z -> state call rl8029_softc -> Prop) s :
  (let r := s32 (k_ret (tr s) c) in
   Q r (mkState (upd_if (changed c (tr s)) (loc s)) ((c, r) :: tr s))) -> wpx h (ask_if c) Q s.
Proof. done. Qed.

Lemma wp_post_if h c (Q : unit -> state call rl8029_softc -> Prop) s :
  Q tt (mkState (upd_if (changed c (tr s)) (loc s)) ((c, 0) :: tr s)) -> wpx h (post_if c) Q s.
Proof. done. Qed.
End Spec.

(** Straight-line code with conditionals. *)
Ltac rl_step :=
  lazymatch goal with
  | |- wpx _ (if ?b then _ else _) _ _ => destruct b eqn:?
  | |- wpx _ (ask_if _) _ _ => apply wp_ask_if; cbv zeta
  | |- wpx _ (post_if _) _ _ => apply wp_post_if
  | |- wpx _ (printf _ _) _ _ => apply wp_post
  | |- wpx _ (set_flags _) _ _ => apply wp_modify
  | |- wpx _ rl8029_stop _ _ => apply wp_post
  | |- wpx _ rl8029_init _ _ => apply wp_post
  | |- wpx _ rl8029_disable _ _ => apply wp_post
  | |- _ => step
  end; cbn [loc tr].
Ltac rl_steps := repeat rl_step.

(** ** What the stack leaves alone *)

Section Invariant.
Context {K : Kernel call} {N : NetHeaders}.
Implicit Types (s : state call rl8029_softc).

Lemma changed_running {L : StackLaws} c t i :
  stack_call c = true -> Z.testbit (if_flags (changed c t i)) 6 = Z.testbit (if_flags i) 6.
Proof.
  intros Hc. unfold changed. cbn [if_flags with_mtu with_flags].
  by rewrite Z.lxor_spec, stack_running, xorb_false_r.
Qed.

Lemma changed_mtu {L : StackLaws} c t i :
  stack_call c = true -> ETHERMIN <= if_mtu i <= ETHERMTU ->
  ETHERMIN <= if_mtu (changed c t i) <= ETHERMTU.
Proof.
  intros Hc Hi. unfold changed. cbn [if_mtu with_mtu with_flags].
  pose proof (stack_mtu t c Hc) as H. cbv zeta in H. set (m := u32 _) in *.
  destruct (truth_spec m); [|done]. destruct H; [done|lia].
Qed.

Lemma changed_attached {L : StackLaws} c t sc :
  stack_call c = true -> attached sc -> attached (upd_if (changed c t) sc).
Proof.
  intros Hc []. split; try done; cbn [ac_if upd_if].
  - by rewrite changed_running.
  - by apply changed_mtu.
Qed.

(** Changes of flags that keep IFF_RUNNING, and of the other fields. *)
Lemma flags_attached f sc :
  Z.testbit f 6 = Z.testbit (if_flags (ac_if sc)) 6 -> attached sc -> attached (upd_if (with_flags f) sc).
Proof. intros Hf []. split; try done. cbn [ac_if upd_if if_flags with_flags]. by rewrite Hf. Qed.

Lemma mtu_attached m sc :
  ETHERMIN <= m <= ETHERMTU -> attached sc -> attached (upd_if (with_mtu m) sc).
Proof. intros Hm []. by split. Qed.

Lemma oerrors_attached n sc : attached sc -> attached (upd_if (with_oerrors n) sc).
Proof. intros []. by split. Qed.

Lemma enabled_attached n sc : attached sc -> attached (set_enabled n sc).
Proof. intros []. by split. Qed.

Definition not_disable (c : call) : Prop := c <> Printf "DISABLE\n" [].

(** What an event does to an attached interface. *)
Definition effect s s' : Prop :=
  attached (loc s') /\ (sc_enabled (loc s) = 0 -> sc_enabled (loc s') = 0) /\
  grows not_disable (tr s) (tr s').

Lemma wp_softc_of h (Q : rl8029_softc -> state call rl8029_softc -> Prop) s :
  if_softc (ac_if (loc s)) = true -> Q (loc s) s -> wpx h softc_of Q s.
Proof. intros E HQ. unfold softc_of. steps. by rewrite E. Qed.

(** Close an [effect]: the invariant by its lemmas, the trace call by call. *)
Ltac effect :=
  split; [try done|split; [done|cbn [tr]; grow]].

Lemma up_bit f : Z.testbit (Z.lor f IFF_UP) 6 = Z.testbit f 6.
Proof. rewrite Z.lor_spec. change (Z.testbit IFF_UP 6) with false. apply orb_false_r. Qed.

(** The cases of the switch, on an attached interface. *)
Lemma wp_switch {L : StackLaws} h cmd data s :
  attached (loc s) -> wpx h (ioctl_switch cmd data) (fun _ => effect s) s.
Proof.
  intros Ha. unfold ioctl_switch.
  repeat lazymatch goal with
    | |- wpx _ (if _ =? _ then _ else _) _ _ => rl_step
    | |- wpx _ (if _ || _ then _ else _) _ _ => rl_step end.
  - unfold ioctl_addr, rl8029_enable. rl_steps; effect; by apply flags_attached; [apply up_bit|].
  - unfold ioctl_mtu. rl_steps; effect.
    apply mtu_attached; [|done].
    match goal with H : orb _ _ = false |- _ => apply orb_false_iff in H as [] end. lia.
  - unfold ioctl_flags, rl8029_enable. do 4 rl_step. cbv zeta.
    rewrite running_bit, (at_running _ Ha). cbn [negb]. rewrite andb_false_r, andb_true_r.
    rl_steps; effect.
  - unfold ioctl_multi. cbv zeta. rl_steps; effect.
  - rl_steps; effect. by apply changed_attached.
  - rl_steps; effect. by apply changed_attached.
Qed.

Lemma wp_ioctl {L : StackLaws} h cmd data s :
  attached (loc s) -> wpx h (rl8029_ioctl cmd data) (fun _ => effect s) s.
Proof.
  intros Ha. unfold rl8029_ioctl. step. apply wp_softc_of; [apply Ha|]. do 2 step. cbv zeta. step.
  use wp_switch; [exact Ha|]. intros r s' (Ha' & He & Hg). rl_steps. split; [done|].
  split; [done|]. cbn [tr]. apply grows_cons; [done|].
  eapply grows_trans; [|exact Hg]. cbn [tr]. grow.
Qed.

(** Every event keeps the invariant, and runs to its end. *)
Lemma wp_handle {L : StackLaws} e s :
  attached (loc s) -> wp (handle e) (fun _ => effect s) s.
Proof.
  intros Ha. destruct e as [| |cmd data| | | |flips]; cbn [handle].
  - unfold rl8029_intr. rl_steps. effect. by apply enabled_attached.
  - unfold rl8029_start. rl_steps. effect.
  - step. use wp_ioctl; [done|]. intros _ s' H. by step.
  - unfold rl8029_watchdog, rl8029_reset. step. apply wp_softc_of; [apply Ha|]. rl_steps.
    effect. by apply oerrors_attached.
  - unfold rl8029_mediachange. rl_steps. effect.
  - unfold rl8029_mediastatus. rl_steps. effect.
  - rl_steps. effect. apply flags_attached; [|done].
    rewrite Z.lxor_spec, Z.ldiff_spec. change (Z.testbit IFF_RUNNING 6) with true.
    by rewrite andb_false_r, xorb_false_r.
Qed.

(** Drop the calls that neither take nor give back. *)
Ltac held_calm := repeat (rewrite held_neutral; [|reflexivity|reflexivity]).

(** ** Attachment *)

(** What rl8029_attach holds on each of its returns. *)
Definition attach_post (pc : Z) s s' : Prop :=
  grows not_disable (tr s) (tr s') /\
  exists l, (forall x, held x (tr s') = held x (tr s) + hold_all l x) /\
    ((l = [] /\ ac_if (loc s') = ac_if (loc s)) \/
     (l = [RMapping] /\ ac_if (loc s') = ac_if (loc s) /\ sc_ih (loc s') = 0) \/
     (l = [RInterrupt; RMapping] /\ attached (loc s') /\ sc_enabled (loc s') = 1 /\
      exists r0 r1, In (BusSpaceRead1 pc (sc_bus_bh (loc s')) RL8029_8029ID0, r0) (tr s') /\
                    In (BusSpaceRead1 pc (sc_bus_bh (loc s')) RL8029_8029ID1, r1) (tr s'))).

Lemma ether_mtu {L : StackLaws} t i : if_mtu (changed EtherIfattach t i) = ETHERMTU.
Proof. unfold changed. cbn [if_mtu with_mtu]. by rewrite ether_ifattach_mtu. Qed.

(** An interface to which the stack has just been attached. *)
Lemma ifattach_attached {L : StackLaws} t1 t2 sc :
  if_softc (ac_if sc) = true -> if_start (ac_if sc) = fn_start -> if_ioctl (ac_if sc) = fn_ioctl ->
  if_watchdog (ac_if sc) <> NULL -> sc_ih sc <> 0 -> Z.testbit (if_flags (ac_if sc)) 6 = false ->
  attached (upd_if (changed EtherIfattach t2) (upd_if (changed IfAttach t1) sc)).
Proof.
  intros. split; try done; cbn [ac_if upd_if].
  - by rewrite !changed_running.
  - by rewrite ether_mtu.
Qed.

Lemma wp_config {L : StackLaws} h s (Q : unit -> state call rl8029_softc -> Prop) :
  sc_ih (loc s) <> 0 ->
  (forall s', attached (loc s') -> sc_enabled (loc s') = sc_enabled (loc s) ->
     sc_bus_bh (loc s') = sc_bus_bh (loc s) -> grows not_disable (tr s) (tr s') ->
     (forall x, held x (tr s') = held x (tr s)) -> Q tt s') ->
  wpx h rl8029_config Q s.
Proof.
  intros Hih HQ. unfold rl8029_config.
  rl_steps; (apply HQ; [|done|done|cbn [tr]; grow|intros x; cbn [tr]; held_calm; done]);
    apply ifattach_attached; try done.
  by apply bool_decide_eq_false in Heqb.
Qed.

Lemma wp_attach {L : StackLaws} pc s :
  wp (rl8029_attach pc) (fun _ => attach_post pc s) s.
Proof.
  unfold rl8029_attach. cbv zeta. rl_steps.
  - split; [cbn [tr]; grow|]. exists []. split; [|by left]. intros x. cbn [tr]. held_calm.
    rewrite held_neutral by (cbn; by rewrite ?Heqb). cbn. lia.
  - split; [cbn [tr]; grow|]. exists []. split; [|by left]. intros x. cbn [tr].
    erewrite held_release by done. held_calm.
    erewrite held_maybe; [|done|cbn; by rewrite Heqb]. cbn. unfold hold1. lia.
  - split; [cbn [tr]; grow|]. exists [RMapping]. apply negb_true_iff in Heqb1.
    cbn [sc_ih set_ih] in Heqb1. split; [|right; left; split; [done|split; [done|]]].
    + intros x. cbn [tr]. held_calm. rewrite held_neutral by (cbn; by rewrite ?Heqb1). held_calm.
      erewrite held_maybe; [|done|cbn; by rewrite Heqb]. cbn. lia.
    + by apply truth_false.
  - apply negb_false_iff in Heqb1. cbn [sc_ih set_ih] in Heqb1.
    apply wp_config; [by apply truth_true|].
    intros s' Ha He Hb Hg Hh. cbn [tr] in Hg, Hh. split.
    + eapply grows_trans; [|exact Hg]. grow.
    + exists [RInterrupt; RMapping]. split.
      * intros x. rewrite Hh. held_calm. erewrite held_maybe; [|done|cbn; by rewrite Heqb1].
        held_calm. erewrite held_maybe; [|done|cbn; by rewrite Heqb]. cbn. lia.
      * right; right. split; [done|]. split; [done|]. split; [done|]. rewrite Hb.
        do 2 eexists. split; (eapply grows_In; [exact Hg|cbn; tauto]).
  - done.
Qed.

(** Reachable states satisfy the invariant, and were never disabled. *)
Lemma reachable_attached {L : StackLaws} s :
  reachable s -> attached (loc s) /\ grows not_disable [] (tr s).
Proof.
  induction 1 as [pc s s' (Hih & Hs & _ & _) Ht E Ha|e s s' _ [Ha Hg] E].
  - pose proof (wp_ok_inv _ _ _ _ _ _ (wp_attach pc s) E) as (Hg & l & _ & H).
    rewrite Ht in Hg. split; [|done]. destruct H as [(_ & H)|[(_ & H & _)|(_ & H & _)]]; [..|done];
      rewrite H in Ha; congruence.
  - pose proof (wp_ok_inv _ _ _ _ _ _ (wp_handle e s Ha) E) as (Ha' & _ & Hg').
    split; [done|]. by eapply grows_trans.
Qed.

(** Several events, one after the other. *)
Fixpoint handle_all (l : list event) : M call rl8029_softc unit :=
  match l with
  | [] => ret tt
  | e :: l => handle e ;; handle_all l
  end.

Lemma wp_handle_all {L : StackLaws} l s :
  attached (loc s) -> wp (handle_all l) (fun _ => effect s) s.
Proof.
  revert s. induction l as [|e l IH]; intros s Ha; cbn [handle_all]; steps.
  - split; [done|]. split; [done|apply grows_refl].
  - use wp_handle; [done|]. intros _ s1 (Ha1 & He1 & Hg1).
    use IH; [done|]. intros _ s2 (Ha2 & He2 & Hg2). split; [done|]. split; [auto|].
    by eapply grows_trans.
Qed.
End Invariant.

(** ** The priority level *)

Section Priority.
Context {K : Kernel call} {N : NetHeaders}.
Implicit Types (s : state call rl8029_softc).

(** Calls that leave the level alone. *)
Definition level_calm (c : call) : Prop := match c with Splnet | Splx _ => False | _ => True end.

Lemma grows_level t t' : grows level_calm t t' -> spl_level t' = spl_level t.
Proof.
  intros (l & -> & Hl). induction Hl as [|[c r] l Hc _ IH]; [done|].
  cbn [app spl_level fst] in *. destruct c; try exact IH; by destruct Hc.
Qed.

Lemma grows_protected t t' :
  grows level_calm t t' -> IPL_NET <= spl_level t -> protected t -> protected t'.
Proof.
  intros (l & -> & Hl) Hi Hp. induction Hl as [|[c r] l Hc Hl IH]; [done|].
  cbn [app protected]. split; [|done]. intros _. rewrite (grows_level t); [done|]. by exists l.
Qed.

(** Between splnet and splx. *)
Lemma wp_raised {A} h (m : M call rl8029_softc A) s (Q : A -> state call rl8029_softc -> Prop) :
  spl_answers -> protected (tr s) ->
  (forall s', loc s' = loc s -> spl_level (tr s') = Z.max (spl_level (tr s)) IPL_NET ->
     protected (tr s') -> wpx h m (fun a s'' => grows level_calm (tr s') (tr s'') /\
       forall s3, spl_level (tr s3) = spl_level (tr s) -> protected (tr s3) -> Q a s3) s') ->
  wpx h (let! l := ask s32 Splnet in let! a := m in post (Splx l) ;; ret a) Q s.
Proof.
  intros Ha Hp Hm. do 2 step. cbv zeta. step. rewrite Ha.
  eapply wp_mono; [apply Hm; [done|done|by split]|]. intros a s' [Hg HQ]. steps.
  apply HQ; [cbn [tr spl_level]; by rewrite s32_idem, Ha|]. split; [done|]. eapply grows_protected; [exact Hg| |by split].
  cbn [tr spl_level]. lia.
Qed.

(** The switch stays between them. *)
Lemma wp_switch_calm h cmd data s :
  wpx h (ioctl_switch cmd data) (fun _ s' => grows level_calm (tr s) (tr s')) s.
Proof.
  unfold ioctl_switch, ioctl_addr, ioctl_mtu, ioctl_flags, ioctl_multi, rl8029_enable. cbv zeta.
  rl_steps; cbn [tr]; grow.
Qed.

Lemma wp_handle_level e s :
  if_softc (ac_if (loc s)) = true -> spl_answers -> protected (tr s) ->
  wp (handle e) (fun _ s' => spl_level (tr s') = spl_level (tr s) /\ protected (tr s')) s.
Proof.
  intros Hs Ha Hp. destruct e as [| |cmd data| | | |flips]; cbn [handle].
  - unfold rl8029_intr. rl_steps. by cbn.
  - unfold rl8029_start. rl_steps. by cbn.
  - step. unfold rl8029_ioctl. step. apply wp_softc_of; [done|].
    apply wp_raised; [done..|]. intros s' _ Hl Hp'. use wp_switch_calm. intros r s2 Hg.
    split; [done|]. intros s3 Hl3 Hp3. by steps.
  - unfold rl8029_watchdog, rl8029_reset. step. apply wp_softc_of; [done|]. rl_steps.
    cbn [tr spl_level protected]. rewrite s32_idem, Ha. split; [done|].
    repeat split; try done; intros _; cbn; lia.
  - unfold rl8029_mediachange. rl_steps. by cbn.
  - unfold rl8029_mediastatus. rl_steps. by cbn.
  - by rl_steps.
Qed.
End Priority.

(** ** The properties *)

Section Properties.
Context {K : Kernel call} {N : NetHeaders}.
Implicit Types (s : state call rl8029_softc).

(** C26: In every state the driver reaches from the attachment of a zeroed
    device by interrupts, ioctls, watchdogs, media calls and changes of the
    user's flags, the interface points to the driver's functions, has its
    interrupt and an MTU from 46 to 1500 and is never marked running; the
    card has never been disabled; and every further event is handled without
    a fault. *)
Theorem rl8029_reachable_invariant {L : StackLaws} s :
  reachable s ->
  attached (loc s) /\ ~ In (Printf "DISABLE\n" []) (map fst (tr s)) /\
  forall e, exists s', handle e s = Ok tt s'.
Proof.
  intros [Ha (l & E & Hl)]%reachable_attached. rewrite app_nil_r in E. split; [done|]. split.
  - rewrite E. intros (e & He & Hi)%in_map_iff. rewrite Forall_forall in Hl.
    by apply (Hl e); [apply list_elem_of_In|].
  - intros e. destruct (wp_inv _ _ _ (wp_handle e s Ha)) as ([] & s' & Es & _). eauto.
Qed.

(** rl8029_attach, whatever the bus answers, ends in one of three ways:
    it holds nothing and has left the interface alone; or it still holds the
    mapping of the registers, with no interrupt; or it holds mapping and
    interrupt, the interface is attached with the card enabled, and the two
    identification registers were read with the chipset in place of the bus
    tag. *)
Theorem rl8029_attach_outcomes {L : StackLaws} pc s :
  wp (rl8029_attach pc) (fun _ => attach_post pc s) s.
Proof. apply wp_attach. Qed.

(** C35: Every event of an attached interface leaves the interrupt priority
    level as it found it, and stops or starts the card only at the level of
    the network, provided splnet returns the level it found. *)
Theorem rl8029_priority e s :
  if_softc (ac_if (loc s)) = true -> spl_answers -> protected (tr s) ->
  wp (handle e) (fun _ s' => spl_level (tr s') = spl_level (tr s) /\ protected (tr s')) s.
Proof. apply wp_handle_level. Qed.

Lemma commands_differ i j x y :
  [SIOCSIFADDR; SIOCSIFMTU; SIOCSIFFLAGS; SIOCADDMULTI; SIOCDELMULTI; SIOCGIFMEDIA; SIOCSIFMEDIA] !! i = Some x ->
  [SIOCSIFADDR; SIOCSIFMTU; SIOCSIFFLAGS; SIOCADDMULTI; SIOCDELMULTI; SIOCGIFMEDIA; SIOCSIFMEDIA] !! j = Some y ->
  i <> j -> (x =? y) = false.
Proof.
  intros Hi Hj Hij. apply Z.eqb_neq. intros ->. apply Hij.
  by eapply NoDup_lookup; [apply net_commands_differ| |].
Qed.

Lemma switch_mtu data : ioctl_switch SIOCSIFMTU data = ioctl_mtu data.
Proof.
  unfold ioctl_switch. by rewrite (commands_differ 1 0) by done; rewrite Z.eqb_refl.
Qed.

Lemma switch_flags data : ioctl_switch SIOCSIFFLAGS data = ioctl_flags.
Proof.
  unfold ioctl_switch. rewrite (commands_differ 2 0), (commands_differ 2 1) by done.
  by rewrite Z.eqb_refl.
Qed.

Lemma switch_multi cmd data :
  cmd = SIOCADDMULTI \/ cmd = SIOCDELMULTI -> ioctl_switch cmd data = ioctl_multi.
Proof.
  unfold ioctl_switch. intros [-> | ->].
  - rewrite (commands_differ 3 0), (commands_differ 3 1), (commands_differ 3 2) by done.
    by rewrite Z.eqb_refl.
  - rewrite (commands_differ 4 0), (commands_differ 4 1), (commands_differ 4 2) by done.
    by rewrite Z.eqb_refl, orb_true_r.
Qed.

(** C36: SIOCSIFMTU accepts exactly the MTUs from ETHERMIN to ETHERMTU: it
    stores them and returns 0; any other is refused with EINVAL and nothing
    changes. *)
Theorem rl8029_set_mtu data s :
  if_softc (ac_if (loc s)) = true ->
  wp (rl8029_ioctl SIOCSIFMTU data) (fun r s' =>
    if (ETHERMIN <=? ifr_mtu data) && (ifr_mtu data <=? ETHERMTU)
    then r = 0 /\ loc s' = upd_if (with_mtu (ifr_mtu data)) (loc s)
    else r = EINVAL /\ loc s' = loc s) s.
Proof.
  intros Hs. unfold rl8029_ioctl. rewrite switch_mtu. step. apply wp_softc_of; [done|].
  unfold ioctl_mtu. rl_steps;
    destruct (Z.leb_spec ETHERMIN (ifr_mtu data)), (Z.leb_spec (ifr_mtu data) ETHERMTU); cbn [andb];
    try done; rewrite Z.gtb_ltb in Heqb;
    destruct (Z.ltb_spec ETHERMTU (ifr_mtu data)), (Z.ltb_spec (ifr_mtu data) ETHERMIN); try done; try lia.
  split; [done|]. apply negb_false_iff, Z.eqb_eq in Heqb0. rewrite <- Heqb0.
  destruct (loc s) as [? ? ? ? []]; done.
Qed.

(** In every reachable state SIOCSIFFLAGS returns 0 and changes nothing:
    it enables and initialises the card when the interface is up and does
    nothing when it is down, so taking an interface down never stops or
    disables the card. *)
Theorem rl8029_set_flags {L : StackLaws} data s :
  reachable s ->
  wp (rl8029_ioctl SIOCSIFFLAGS data) (fun r s' =>
    r = 0 /\ loc s' = loc s /\ exists l,
    tr s' = (Splx l, 0) ::
      (if Z.testbit (if_flags (ac_if (loc s))) 0
       then [(Printf "MEDIA INIT\n" [], 0); (Printf "ENABLE\n" [], 0)] else []) ++
      (Printf "SIOCIFFLAGS\n" [], 0) :: (Splnet, l) :: tr s) s.
Proof.
  intros [Ha _]%reachable_attached. unfold rl8029_ioctl. rewrite switch_flags. step.
  apply wp_softc_of; [apply Ha|]. unfold ioctl_flags, rl8029_enable. do 7 rl_step. cbv zeta.
  cbn [loc]. rewrite running_bit, (at_running _ Ha). cbn [negb]. rewrite andb_false_r, andb_true_r.
  change IFF_UP with (Z.ones 1). rewrite Z.land_ones by lia.
  rewrite <- (Z.bit0_mod (if_flags _)).
  destruct (Z.testbit _ 0); cbn [Z.b2z];
    [change (1 =? 0) with false|change (0 =? 0) with true]; cbn [negb]; cbv iota; rl_steps; try discriminate;
    eauto.
Qed.

(** Once the card has interrupted, SIOCADDMULTI and SIOCDELMULTI fail
    with EIO whatever events follow: the interrupt handler clears sc_enabled
    and nothing sets it again. *)
Theorem rl8029_multicast_dead {L : StackLaws} l cmd data s :
  reachable s -> cmd = SIOCADDMULTI \/ cmd = SIOCDELMULTI ->
  wp (handle EIntr ;; handle_all l ;; rl8029_ioctl cmd data) (fun r _ => r = EIO) s.
Proof.
  intros [Ha _]%reachable_attached Hc. step. cbn [handle]. unfold rl8029_intr. rl_steps.
  use wp_handle_all; [by apply enabled_attached|]. intros _ s1 (Ha1 & He & _). specialize (He eq_refl).
  unfold rl8029_ioctl. rewrite switch_multi by done. step. apply wp_softc_of; [apply Ha1|].
  unfold ioctl_multi. cbv zeta. do 7 rl_step. cbn [loc]. rewrite He. change (0 =? 0) with true.
  cbv iota. by rl_steps.
Qed.
End Properties.

(** ** Witnesses

    The command numbers of an OpenBSD system, and a kernel in which everything
    succeeds. *)

Definition openbsd_commands : list Z :=
  [0x8020690c; 0x8020697f; 0x80206910; 0x80206931; 0x80206932; 0xc0206938; 0xc0206937].

Lemma openbsd_commands_differ : NoDup openbsd_commands.
Proof. apply (bool_decide_unpack _). by vm_compute. Qed.

Definition openbsd_headers : NetHeaders := {|
  SIOCSIFADDR := 0x8020690c; SIOCSIFMTU := 0x8020697f; SIOCSIFFLAGS := 0x80206910;
  SIOCADDMULTI := 0x80206931; SIOCDELMULTI := 0x80206932;
  SIOCGIFMEDIA := 0xc0206938; SIOCSIFMEDIA := 0xc0206937;
  net_commands_differ := openbsd_commands_differ;
  AF_INET := 2; IFM_ETHER := 0x100; IFM_MANUAL := 1; IFCAP_VLAN_MTU := 0x10;
  PCI_VENDOR id := Z.land id 0xffff; PCI_PRODUCT id := Z.shiftr id 16;
  PCI_VENDOR_REALTEK := 0x10ec; PCI_PRODUCT_REALTEK_RT8029 := 0x8029; IPL_NET := 4
|}.

Definition quiet_kernel : Kernel call := {|
  k_ret t c :=
    match c with
    | Splnet => spl_level (N := openbsd_headers) t
    | PciIntrEstablish _ _ => 0xd0001000
    | PciIntrString _ _ => 0xd0002000
    | BusSpaceRead1 _ _ off => 0x50 + off
    | _ => 0
    end;
  k_out t c i :=
    match c, i with
    | PciMapregMap _, 1 => 0xe000
    | PciMapregMap _, 2 => 32
    | PciIntrMap, 0 => 11
    | EtherIfattach, 1 => ETHERMTU
    | _, _ => 0
    end
|}.

Lemma quiet_stack : StackLaws (K := quiet_kernel).
Proof.
  split.
  - by intros t [] H.
  - intros t [] H; try done; [by left|by right|by left|by left].
  - done.
Qed.

Lemma level_range t : -2147483648 <= spl_level (N := openbsd_headers) t < 2147483648.
Proof.
  induction t as [|[[] r] t IH]; cbn [spl_level]; try (exact IH || lia); [|apply s32_range].
  cbn [IPL_NET openbsd_headers]. lia.
Qed.

Lemma quiet_splnet : spl_answers (K := quiet_kernel) (N := openbsd_headers).
Proof. intros t. cbn. apply s32_id, level_range. Qed.

Definition rln0 : state call rl8029_softc :=
  mkState (mkSc "rln0" 0 0 0 (mkIf "" false NULL NULL NULL 0 0 0 0) [0; 0; 0; 0; 0; 0] 0) [].

Definition after {A} (m : M call rl8029_softc A) (s : state call rl8029_softc) :=
  match m s with Ok _ s' => s' | _ => s end.

(** The card attached, then brought up by the user. *)
Definition rln0_attached : state call rl8029_softc :=
  after (rl8029_attach (K := quiet_kernel) (N := openbsd_headers) 0) rln0.
Definition rln0_up : state call rl8029_softc := after (handle (K := quiet_kernel) (N := openbsd_headers) (EUserFlags 1)) rln0_attached.

Lemma rln0_attached_reachable : reachable (K := quiet_kernel) (N := openbsd_headers) rln0_attached.
Proof.
  apply (reach_attach (K := quiet_kernel) (N := openbsd_headers) 0 rln0);
    [by repeat split|done|by vm_compute|by vm_compute].
Qed.

Lemma rln0_up_reachable : reachable (K := quiet_kernel) (N := openbsd_headers) rln0_up.
Proof.
  apply (reach_event (K := quiet_kernel) (N := openbsd_headers) (EUserFlags 1) rln0_attached);
    [apply rln0_attached_reachable|by vm_compute].
Qed.

Example rl8029_reachable_invariant_witness :
  let K := quiet_kernel in let N := openbsd_headers in
  attached (loc rln0_up) /\ ~ In (Printf "DISABLE\n" []) (map fst (tr rln0_up)) /\
  forall e, exists s', handle e rln0_up = Ok tt s'.
Proof.
  intros K N. exact (rl8029_reachable_invariant (L := quiet_stack) rln0_up rln0_up_reachable).
Defined.

Example rl8029_attach_outcomes_witness :
  let K := quiet_kernel in let N := openbsd_headers in
  wp (rl8029_attach 7) (fun _ => attach_post 7 rln0) rln0.
Proof. intros K N. exact (rl8029_attach_outcomes (L := quiet_stack) 7 rln0). Defined.

Example rl8029_priority_witness :
  let K := quiet_kernel in let N := openbsd_headers in
  wp (handle EWatchdog) (fun _ s' => spl_level (tr s') = spl_level (tr rln0_attached) /\ protected (tr s'))
    rln0_attached.
Proof.
  intros K N. apply (rl8029_priority EWatchdog rln0_attached); [reflexivity|apply quiet_splnet|].
  vm_compute. repeat split; discriminate.
Defined.

Example rl8029_set_mtu_witness :
  let K := quiet_kernel in let N := openbsd_headers in
  wp (rl8029_ioctl SIOCSIFMTU (mkData 0 1501)) (fun r s' => r = EINVAL /\ loc s' = loc rln0_attached)
    rln0_attached.
Proof. intros K N. exact (rl8029_set_mtu (mkData 0 1501) rln0_attached eq_refl). Defined.

Example rl8029_set_flags_witness :
  let K := quiet_kernel in let N := openbsd_headers in
  wp (rl8029_ioctl SIOCSIFFLAGS (mkData 0 0)) (fun r s' =>
    r = 0 /\ loc s' = loc rln0_up /\ exists l,
    tr s' = (Splx l, 0) ::
      [(Printf "MEDIA INIT\n" [], 0); (Printf "ENABLE\n" [], 0)] ++
      (Printf "SIOCIFFLAGS\n" [], 0) :: (Splnet, l) :: tr rln0_up) rln0_up.
Proof.
  intros K N. exact (rl8029_set_flags (L := quiet_stack) (mkData 0 0) rln0_up rln0_up_reachable).
Defined.

Example rl8029_multicast_dead_witness :
  let K := quiet_kernel in let N := openbsd_headers in
  wp (handle EIntr ;; handle_all [EStart; EWatchdog] ;; rl8029_ioctl SIOCADDMULTI (mkData 0 0))
    (fun r _ => r = EIO) rln0_up.
Proof.
  intros K N. apply (rl8029_multicast_dead (L := quiet_stack)); [apply rln0_up_reachable|by left].
Defined.
