(* ===== verification/Lkm.v ===== *)
(** * Loadable modules of OpenBSD

    doc/systems/openbsd: chardev/ui.c and ui_mod.c (a character device whose
    operations only print, and its module) and lkm/hello.c (a module with one
    handler for every command).  A theorem on the entry points of these modules
    and of that of the serial port (ObsdRs232.v). *)

From S2P Require Import Prelude CMonad ObsdApi ObsdRs232.

Inductive call := Printf (fmt : string) | Lkmdispatch (cmd : Z).

Section Modules.
Context {K : Kernel call} {L : Lkm} {Dp : Dispatch call unit}.

Local Abbreviation M := (M call unit).

Definition printf (fmt : string) : M unit := post (Printf fmt).

(** ** chardev/ui.c *)

Definition ui_open : M Z := printf "open\n" ;; ret 0.
Definition ui_close : M Z := printf "close\n" ;; ret 0.
Definition ui_read : M Z := printf "read\n" ;; ret 0.
Definition ui_write : M Z := printf "write\n" ;; ret 0.
Definition ui_ioctl : M Z := printf "ioctl\n" ;; ret 0.

(** ** chardev/ui_mod.c *)

Definition ui_load (cmd : Z) : M Z := printf "ui_lkm loaded !\n" ;; ret 0.
Definition ui_unload (cmd : Z) : M Z := printf "ui_lkm unloaded !\n" ;; ret 0.
Definition ui_stat (cmd : Z) : M Z := printf "ui_lkm stated !\n" ;; ret 0.

(** DISPATCH returns from the function that uses it. *)
Definition ui_lkm (cmd ver : Z) : M Z := DISPATCH cmd ver ui_load ui_unload ui_stat.

(** ** lkm/hello.c *)

Definition point_handler (cmd : Z) : M Z :=
  (if cmd =? LKM_E_LOAD then printf "Hello World!\n"
   else if cmd =? LKM_E_UNLOAD then printf "Bye!!\n"
   else if cmd =? LKM_E_STAT then printf "Stat!!\n"
   else ret tt) ;;
  ret 0.

Definition my_mod (cmd ver : Z) : M Z := DISPATCH cmd ver point_handler point_handler point_handler.

Lemma commands_distinct :
  (LKM_E_UNLOAD =? LKM_E_LOAD) = false /\ (LKM_E_STAT =? LKM_E_LOAD) = false /\
  (LKM_E_STAT =? LKM_E_UNLOAD) = false.
Proof.
  pose proof lkm_commands_differ as H. rewrite !NoDup_cons, !elem_of_cons in H.
  rewrite !Z.eqb_neq. intuition congruence.
Qed.
End Modules.

(** The entry points of the three OpenBSD modules, the string device's,
    hello's and the serial port's: another version of the interface is refused
    with EINVAL and nothing is printed; for load, unload and stat each prints
    its own lines and answers what the kernel's part of the command answers,
    and none changes the state of its driver. *)
Theorem obsd_modules_announce {K : Kernel call} {K' : Kernel ObsdRs232.call} {L : Lkm}
    {Dp : Dispatch call unit} {Dp' : Dispatch ObsdRs232.call rs232_state} :
  announces ui_lkm
    [(LKM_E_LOAD, [Printf "ui_lkm loaded !\n"]);
     (LKM_E_UNLOAD, [Printf "ui_lkm unloaded !\n"]);
     (LKM_E_STAT, [Printf "ui_lkm stated !\n"])] /\
  announces my_mod
    [(LKM_E_LOAD, [Printf "Hello World!\n"]); (LKM_E_UNLOAD, [Printf "Bye!!\n"]);
     (LKM_E_STAT, [Printf "Stat!!\n"])] /\
  announces rs232_lkm
    [(LKM_E_LOAD, [ObsdRs232.Printf "rs232_lkm loaded !\n";
                   ObsdRs232.Printf "come on dude, ready to panic ?\n"]);
     (LKM_E_UNLOAD, [ObsdRs232.Printf "Get a haircut and get a real job !\n";
                     ObsdRs232.Printf "rs232_lkm unloaded !\n"]);
     (LKM_E_STAT, [ObsdRs232.Printf "Wanna see more stuff ? ;)\n";
                   ObsdRs232.Printf "rs232_lkm stated !\n"])].
Proof.
  destruct commands_distinct as (E1 & E2 & E3).
  split; [|split]; apply dispatch_announces; try done; intros s; unfold point_handler;
    by rewrite ?E1, ?E2, ?E3, ?Z.eqb_refl.
Qed.

(** A kernel whose own part of every command succeeds. *)
Example obsd_modules_announce_witness :
  let K : Kernel call := {| k_ret t c := 0; k_out t c i := 0 |} in
  let K' : Kernel ObsdRs232.call := {| k_ret t c := 0; k_out t c i := 0 |} in
  let L := numbered_lkm in let Dp := plain_dispatch K Lkmdispatch in
  let Dp' := plain_dispatch K' ObsdRs232.Lkmdispatch in
  announces ui_lkm
    [(1, [Printf "ui_lkm loaded !\n"]); (2, [Printf "ui_lkm unloaded !\n"]);
     (3, [Printf "ui_lkm stated !\n"])] /\
  announces my_mod
    [(1, [Printf "Hello World!\n"]); (2, [Printf "Bye!!\n"]); (3, [Printf "Stat!!\n"])] /\
  announces rs232_lkm
    [(1, [ObsdRs232.Printf "rs232_lkm loaded !\n"; ObsdRs232.Printf "come on dude, ready to panic ?\n"]);
     (2, [ObsdRs232.Printf "Get a haircut and get a real job !\n"; ObsdRs232.Printf "rs232_lkm unloaded !\n"]);
     (3, [ObsdRs232.Printf "Wanna see more stuff ? ;)\n"; ObsdRs232.Printf "rs232_lkm stated !\n"])].
Proof. intros K K' L Dp Dp'. exact obsd_modules_announce. Defined.
