(* ===== verification/CodeWorker.v ===== *)
(** * The values and trees of the compiler's scripts

    The compiler of Rathaxes (src/rathaxes/compiler) is written in CodeWorker, a
    scripting language whose values are all strings and whose variables are
    trees.  This file holds what the scripts modelled in the library use of the
    language: the outcome of a script function ([cw_outcome]: it returns, it calls
    [error], or the fuel given to its recursion is short), arrays ordered by
    insertion and keyed by strings ([arr]), and the comparison [<] of two values,
    which belongs to the interpreter and is the class [ValueOrder], with its
    laws in [ValueOrderLaws] and the lexicographic order of strings as an
    instance ([lex_order]). *)
From Stdlib Require Import String Ascii DecimalString OrderedTypeEx.
From S2P Require Import Prelude.

Local Open Scope string_scope.
Local Open Scope list_scope.
Local Open Scope nat_scope.

(** ** Outcomes *)

(** What becomes of a call: a result, an [error], which unwinds to the nearest
    [catch], or a recursion deeper than the fuel of the model. *)
Inductive cw_outcome (A : Type) : Type :=
| Ret (a : A)
| Error
| Short.
Arguments Ret {A} a.
Arguments Error {A}.
Arguments Short {A}.

Definition cw_bind {A B} (m : cw_outcome A) (k : A -> cw_outcome B) : cw_outcome B :=
  match m with Ret a => k a | Error => Error | Short => Short end.

Declare Scope cw_scope.
Delimit Scope cw_scope with cw.
Notation "x <- m ;; k" := (cw_bind m (fun x => k))
  (at level 100, m at next level, right associativity) : cw_scope.
Local Open Scope cw_scope.

(** [foreach] with a body that changes the state [s]. *)
Fixpoint cw_foreach {A S} (f : A -> S -> cw_outcome S) (l : list A) (s : S) : cw_outcome S :=
  match l with
  | [] => Ret s
  | x :: l => s <- f x s ;; cw_foreach f l s
  end.

Lemma cw_bind_Ret {A B} (m : cw_outcome A) (k : A -> cw_outcome B) b :
  cw_bind m k = Ret b <-> exists a, m = Ret a /\ k a = Ret b.
Proof. destruct m; simpl; split; [eauto|by intros (? & [= ->] & ?)|done|by intros (? & ? & ?)|done|by intros (? & ? & ?)]. Qed.

Lemma cw_foreach_app {A S} (f : A -> S -> cw_outcome S) l k s :
  cw_foreach f (l ++ k) s = (s <- cw_foreach f l s ;; cw_foreach f k s).
Proof.
  revert s; induction l as [|x l IH]; intros s; [done|]; simpl.
  destruct (f x s); simpl; [apply IH|done|done].
Qed.

(** The rule of [foreach]: an invariant indexed by the entries done. *)
Lemma cw_foreach_ind {A S} (f : A -> S -> cw_outcome S) (I : list A -> S -> Prop) l s :
  I [] s ->
  (forall done x rest s, l = done ++ x :: rest -> I done s ->
     exists s', f x s = Ret s' /\ I (done ++ [x]) s') ->
  exists s', cw_foreach f l s = Ret s' /\ I l s'.
Proof.
  intros Hs Hstep.
  assert (H : forall rest pre s, l = pre ++ rest -> I pre s ->
    exists s', cw_foreach f rest s = Ret s' /\ I l s').
  { induction rest as [|x rest IH]; intros pre s1 Hl Hi; simpl.
    - exists s1. rewrite app_nil_r in Hl. by subst.
    - destruct (Hstep pre x rest s1 Hl Hi) as (s2 & -> & Hi2); simpl.
      apply (IH (pre ++ [x])); [|done]. by rewrite Hl, <- app_assoc. }
  by apply (H l []).
Qed.

(** The same for a [foreach] known to return. *)
Lemma cw_foreach_inv {A S} (f : A -> S -> cw_outcome S) (I : list A -> S -> Prop) l s s' :
  I [] s ->
  (forall done x rest s s', l = done ++ x :: rest -> I done s -> f x s = Ret s' -> I (done ++ [x]) s') ->
  cw_foreach f l s = Ret s' -> I l s'.
Proof.
  intros Hs Hstep.
  assert (H : forall rest pre s, l = pre ++ rest -> I pre s -> cw_foreach f rest s = Ret s' -> I l s').
  { induction rest as [|x rest IH]; intros pre s1 Hl Hi; simpl.
    - intros [= <-]. rewrite app_nil_r in Hl. by subst.
    - intros (s2 & Hx & Hf)%cw_bind_Ret. apply (IH (pre ++ [x]) s2); [by rewrite Hl, <- app_assoc| |done].
      by apply (Hstep pre x rest s1). }
  by apply (H l []).
Qed.

(** A [foreach] whose body calls [error] on the entries a test rejects, and on
    no other. *)
Lemma cw_foreach_outcome {A S} (f : A -> S -> cw_outcome S) (ok : A -> bool) l :
  (forall x s, if ok x then exists s', f x s = Ret s' else f x s = Error) ->
  forall s, if forallb ok l then exists s', cw_foreach f l s = Ret s' else cw_foreach f l s = Error.
Proof.
  intros H. induction l as [|x l IH]; intros s; simpl; [by exists s|].
  specialize (H x s). destruct (ok x); simpl.
  - destruct H as [s1 ->]; simpl. apply IH.
  - by rewrite H.
Qed.

(** ** Arrays *)

(** An array holds its entries in the order of their insertion. *)
Definition arr (A : Type) : Type := list (string * A).

Fixpoint aget {A} (k : string) (a : arr A) : option A :=
  match a with
  | [] => None
  | (k', x) :: a => if String.eqb k k' then Some x else aget k a
  end.

(** [findElement(k, a)]. *)
Definition findElement {A} (k : string) (a : arr A) : bool :=
  match aget k a with Some _ => true | None => false end.

(** [insert a[k]] and what the code does to the entry next: an entry that is
    there keeps its place and is given to [f], a new one goes to the end. *)
Fixpoint aupd {A} (k : string) (f : option A -> A) (a : arr A) : arr A :=
  match a with
  | [] => [(k, f None)]
  | (k', x) :: a => if String.eqb k k' then (k', f (Some x)) :: a else (k', x) :: aupd k f a
  end.

Definition akeys {A} (a : arr A) : list string := map fst a.

Lemma findElement_true {A} k (a : arr A) : findElement k a = true <-> exists x, aget k a = Some x.
Proof. unfold findElement. destruct (aget k a); split; [eauto|done|done|by intros [? ?]]. Qed.

Lemma findElement_false {A} k (a : arr A) : findElement k a = false <-> aget k a = None.
Proof. unfold findElement. by destruct (aget k a). Qed.

Lemma aget_Some_keys {A} k (a : arr A) : (exists x, aget k a = Some x) <-> k ∈ akeys a.
Proof.
  induction a as [|[k' x] a IH]; simpl.
  - split; [intros [? ?]; done|intros H; by apply not_elem_of_nil in H].
  - change (akeys ((k', x) :: a)) with (k' :: akeys a). rewrite elem_of_cons.
    destruct (String.eqb_spec k k') as [->|Hk]; [split; [by left|eauto]|].
    rewrite IH. split; [by right|by intros [?|?]].
Qed.

Lemma aget_None_keys {A} k (a : arr A) : aget k a = None <-> k ∉ akeys a.
Proof.
  rewrite <- aget_Some_keys. destruct (aget k a); split; [done| |by intros _ [? ?]|done].
  intros H. destruct H. eauto.
Qed.

Lemma aget_In {A} k (a : arr A) x : aget k a = Some x -> (k, x) ∈ a.
Proof.
  induction a as [|[k' y] a IH]; simpl; [done|].
  destruct (String.eqb_spec k k') as [->|Hk]; rewrite elem_of_cons; naive_solver.
Qed.

Lemma In_aget {A} k (a : arr A) x : NoDup (akeys a) -> (k, x) ∈ a -> aget k a = Some x.
Proof.
  induction a as [|[k' y] a IH]; simpl; intros Hnd Hin; [by apply not_elem_of_nil in Hin|].
  change (NoDup (k' :: akeys a)) in Hnd. apply NoDup_cons in Hnd as [Hk' Hnd].
  apply elem_of_cons in Hin as [[= -> ->]|Hin]; [by rewrite String.eqb_refl|].
  destruct (String.eqb_spec k k') as [->|Hk]; [|by apply IH].
  destruct Hk'. apply aget_Some_keys. exists x. by apply IH.
Qed.

Lemma aget_aupd_eq {A} k f (a : arr A) : aget k (aupd k f a) = Some (f (aget k a)).
Proof.
  induction a as [|[k' x] a IH]; simpl; [by rewrite String.eqb_refl|].
  destruct (String.eqb k k') eqn:E; simpl; by rewrite E.
Qed.

Lemma aget_aupd_ne {A} k j f (a : arr A) : j <> k -> aget j (aupd k f a) = aget j a.
Proof.
  intros Hj. induction a as [|[k' x] a IH]; simpl.
  - by destruct (String.eqb_spec j k).
  - destruct (String.eqb_spec k k') as [->|Hk]; simpl.
    + by destruct (String.eqb_spec j k').
    + by rewrite IH.
Qed.

Lemma akeys_aupd {A} k f (a : arr A) :
  akeys (aupd k f a) = if findElement k a then akeys a else akeys a ++ [k].
Proof.
  unfold findElement, akeys. induction a as [|[k' x] a IH]; simpl; [done|].
  destruct (String.eqb_spec k k') as [->|Hk]; simpl; [done|].
  rewrite IH. by destruct (aget k a).
Qed.

Lemma elem_of_akeys_aupd {A} k j f (a : arr A) : j ∈ akeys (aupd k f a) <-> j = k \/ j ∈ akeys a.
Proof.
  rewrite <- (aget_Some_keys j (aupd k f a)), <- (aget_Some_keys j a). destruct (decide (j = k)) as [->|Hj].
  - rewrite aget_aupd_eq. split; [by left|eauto].
  - rewrite (aget_aupd_ne k j) by done. split; [by right|by intros [?|?]].
Qed.

Lemma elem_of_aupd {A} k (v : A) a x : x ∈ aupd k (fun _ => v) a -> x = (k, v) \/ x ∈ a.
Proof.
  induction a as [|[k' y] a IH]; simpl; [intros ->%list_elem_of_singleton; by left|].
  destruct (String.eqb_spec k k') as [->|_]; rewrite !elem_of_cons; [tauto|]. intros [?|?%IH]; tauto.
Qed.

Lemma NoDup_akeys_aupd {A} k f (a : arr A) : NoDup (akeys a) -> NoDup (akeys (aupd k f a)).
Proof.
  intros H. rewrite akeys_aupd. destruct (findElement k a) eqn:E; [done|].
  apply findElement_false, aget_None_keys in E.
  apply NoDup_app; split_and!; [done| |apply NoDup_singleton].
  intros x Hx ->%list_elem_of_singleton. done.
Qed.

(** ** Comparison of values *)

(** A number as the value it is in a script. *)
Definition cw_nat (n : nat) : string := NilEmpty.string_of_uint (Nat.to_uint n).

(** [a < b] on two values; [a > b], [a <= b] and [a >= b] are written with it. *)
Class ValueOrder := vltb : string -> string -> bool.

Definition vgtb `{ValueOrder} (a b : string) : bool := vltb b a.
Definition vgeb `{ValueOrder} (a b : string) : bool := negb (vltb a b).

(** What the scripts rely on: a strict total order, which orders the digits as
    numbers.  It says nothing of longer numerals. *)
Class ValueOrderLaws (V : ValueOrder) : Prop := {
  vlt_irrefl a : vltb a a = false;
  vlt_trans a b c : vltb a b = true -> vltb b c = true -> vltb a c = true;
  vlt_total a b : vltb a b = false -> vltb b a = false -> a = b;
  vlt_digits i j : i < 10 -> j < 10 -> vltb (cw_nat i) (cw_nat j) = (i <? j)
}.

Lemma vlt_asym {V : ValueOrder} {L : ValueOrderLaws V} a b : vltb a b = true -> vltb b a = false.
Proof.
  intros Hab. destruct (vltb b a) eqn:Hba; [|done].
  rewrite <- (vlt_irrefl a). by rewrite (vlt_trans a b a).
Qed.

(** Values compared as strings, which is what the language does outside of an
    arithmetic expression [$ ... $]. *)
#[export] Instance lex_order : ValueOrder := String.ltb.

Lemma string_ltb_lt a b : String.ltb a b = true <-> String_as_OT.lt a b.
Proof.
  rewrite <- String_as_OT.cmp_lt. unfold String.ltb.
  change (String_as_OT.cmp a b) with (String.compare a b).
  by destruct (String.compare a b).
Qed.

#[export] Instance lex_order_laws : ValueOrderLaws lex_order.
Proof.
  split; unfold vltb, lex_order.
  - intros a. destruct (String.ltb a a) eqn:E; [|done].
    by apply string_ltb_lt, String_as_OT.lt_not_eq in E.
  - intros a b c. rewrite !string_ltb_lt. apply String_as_OT.lt_trans.
  - intros a b. unfold String.ltb. rewrite (String.compare_antisym b a).
    destruct (String.compare a b) eqn:E; simpl; intros; try done.
    by apply String.compare_eq_iff.
  - intros i j Hi Hj.
    do 10 (destruct i as [|i]; [do 10 (destruct j as [|j]; [vm_compute; reflexivity|]); lia|]); lia.
Qed.
