(* ===== verification/TypeReorder.v ===== *)
(** * The reordering of C types

    Model of src/rathaxes/compiler/passes/common/rtxResolve_TypeReordering.inc.cws:
    the chunks of a block of C code, among them declarations of structures,
    unions and type names, are put in an order in which a type comes after the
    types it is made of.  A first pass builds three tables of types, with what
    each depends on; a second walks them depth first and emits the chunk of a
    type after those of its dependencies; what is left follows in its order. *)
From Stdlib Require Import String.
From S2P Require Import Prelude CodeWorker.

Local Open Scope string_scope.
Local Open Scope list_scope.
Local Open Scope nat_scope.
Local Open Scope cw_scope.
Local Infix "==" := String.eqb (at level 70).

(** ** The nodes of the C syntax tree *)

(** A declaration node: its [type], its [name], which an anonymous declaration
    lacks, and its [ctype]. *)
Record decl_of (C : Type) := CDecl { n_type : string; n_name : option string; n_ctype : C }.
Arguments CDecl {C}.
Arguments n_type {C}.
Arguments n_name {C}.
Arguments n_ctype {C}.

(** A C type.  [ct_unknown] are the keywords the parser did not know, the first
    and the others; [ct_pointer] tells whether the attribute [pointer] exists;
    [ct_body] is [body.block] and [ct_list] is [list]. *)
#[warnings="-register-all"]
Inductive cctype : Type := CType {
  ct_storage : string;
  ct_specifier : string;
  ct_identifier : string;
  ct_cdecl_type : string;
  ct_unknown : option (string * list string);
  ct_pointer : bool;
  ct_body : list (decl_of cctype);
  ct_list : list (decl_of cctype)
}.

Definition cdecl : Type := decl_of cctype.

(** ** The tables of types *)

Record dep := Dep { dep_name : string; dep_type : string; dep_aggreg : bool }.

(** An entry of a table.  [t_managed] is the attribute [managed], which does not
    exist at first; [t_aggreg] is the attribute [aggreg] of the entry, which the
    walk reads. *)
Record tentry := TEntry {
  t_location : string; t_list : list dep; t_managed : option bool; t_aggreg : option bool
}.

Inductive table := Structs | Unions | Typedefs.

#[export] Instance table_eq_dec : EqDecision table.
Proof. solve_decision. Defined.

Record deps := Deps { structs : arr tentry; unions : arr tentry; typedefs : arr tentry }.

(** A reference to an entry. *)
Definition tid : Type := table * string.

Definition get_table (tb : table) (d : deps) : arr tentry :=
  match tb with Structs => structs d | Unions => unions d | Typedefs => typedefs d end.

Definition set_table (tb : table) (a : arr tentry) (d : deps) : deps :=
  match tb with
  | Structs => Deps a (unions d) (typedefs d)
  | Unions => Deps (structs d) a (typedefs d)
  | Typedefs => Deps (structs d) (unions d) a
  end.

Definition get_entry (t : tid) (d : deps) : option tentry := aget t.2 (get_table t.1 d).

Definition upd_entry (t : tid) (f : option tentry -> tentry) (d : deps) : deps :=
  set_table t.1 (aupd t.2 f (get_table t.1 d)) d.

Definition get_list (t : tid) (d : deps) : list dep :=
  match get_entry t d with Some e => t_list e | None => [] end.

(** ** First pass: what each type depends on *)

(** The name and kind of type a declaration uses, and whether it holds the type
    itself or a pointer; no result is the call of [error]. *)
Definition dep_of (decl : cdecl) : option dep :=
  let ct := n_ctype decl in
  let depnode nm ty := Some (Dep nm ty (negb (ct_pointer ct))) in
  if ct_storage ct == "typedef" then depnode (default "" (n_name decl)) "typedef"
  else if negb (ct_specifier ct == "auto") then depnode (ct_identifier ct) (ct_specifier ct)
  else if ct_cdecl_type ct == "__primary__" then
    match ct_unknown ct with
    | Some (front, _) =>
        depnode (if ct_identifier ct == "auto" then front else ct_identifier ct) "typedef"
    | None => depnode (ct_identifier ct) "typedef"
    end
  else None.

Definition same_dep (a b : dep) : bool :=
  (dep_name a == dep_name b) && (dep_type a == dep_type b).

Definition push_dep (x : dep) (o : option tentry) : tentry :=
  match o with
  | Some e => TEntry (t_location e) (t_list e ++ [x]) (t_managed e) (t_aggreg e)
  | None => TEntry "" [x] None None
  end.

(** [deplists] are references to lists of the tables; only the first of them is
    searched for a dependency that is there already. *)
Definition rtxResolve_BlockReordering_InsertDep
    (decl : cdecl) (deplists : list tid) (d : deps) : cw_outcome deps :=
  match dep_of decl with
  | None => Error
  | Some depnode =>
      let front := match deplists with t :: _ => get_list t d | [] => [] end in
      if existsb (fun entry => same_dep entry depnode) front then Ret d
      else Ret (foldl (fun d t => upd_entry t (push_dep depnode) d) d deplists)
  end.

Definition is_field (e : cdecl) : bool :=
  (n_type e == "__field_decl__") || (n_type e == "__fwd_decl__").

Fixpoint rtxResolve_BlockReordering_RecurseTypeDecl
    (ct : cctype) (deplists : list tid) (d : deps) {struct ct} : cw_outcome deps :=
  cw_foreach (fun entry d =>
    if is_field entry then
      d <- rtxResolve_BlockReordering_RecurseTypeDecl (n_ctype entry) deplists d ;;
      rtxResolve_BlockReordering_InsertDep entry deplists d
    else Ret d) (ct_body ct) d.

Definition is_composed (e : cdecl) : bool :=
  (n_type e == "__decl__") || (n_type e == "__field_decl__") || (n_type e == "__fwd_decl__").

Definition rtxResolve_BlockReordering_IterComposed
    (ct : cctype) (deplists : list tid) (d : deps) : cw_outcome deps :=
  cw_foreach (fun entry d =>
    if is_composed entry then rtxResolve_BlockReordering_InsertDep entry deplists d
    else Ret d) (ct_list ct) d.

(** The entries a declaration opens, in order; no result is the call of [error]. *)
Definition declares (chunk : cdecl) : option (list tid) :=
  let ct := n_ctype chunk in
  let tail :=
    (if (ct_specifier ct == "struct") && negb (ct_identifier ct == "")
     then [(Structs, ct_identifier ct)] else []) ++
    (if (ct_specifier ct == "union") && negb (ct_identifier ct == "")
     then [(Unions, ct_identifier ct)] else []) in
  if ct_storage ct == "typedef" then
    match n_name chunk, ct_unknown ct with
    | Some name, _ => Some ((Typedefs, name) :: tail)
    | None, Some (front, _) => Some ((Typedefs, front) :: tail)
    | None, None => None
    end
  else Some tail.

(** [insert deps.table[name]], its [location] overwritten, its [list] kept. *)
Definition open_entry (k : string) (o : option tentry) : tentry :=
  match o with
  | Some e => TEntry k (t_list e) (t_managed e) (t_aggreg e)
  | None => TEntry k [] None None
  end.

Definition scan_chunk (kc : string * cdecl) (d : deps) : cw_outcome deps :=
  let '(k, chunk) := kc in
  if n_type chunk == "__decl__" then
    match declares chunk with
    | None => Error
    | Some deplists =>
        let d := foldl (fun d t => upd_entry t (open_entry k) d) d deplists in
        d <- rtxResolve_BlockReordering_RecurseTypeDecl (n_ctype chunk) deplists d ;;
        rtxResolve_BlockReordering_IterComposed (n_ctype chunk) deplists d
    end
  else Ret d.

(** ** Second pass: the walk *)

(** The state of the walk: the tables, the array [inserted_keys], in the order of
    its insertions, and [result]. *)
Record walk := Walk { w_deps : deps; w_inserted : list string; w_result : list cdecl }.

Definition inserted (k : string) (s : walk) : bool := existsb (String.eqb k) (w_inserted s).

(** The table a dependency is looked up in. *)
Definition dep_tid (x : dep) : tid :=
  (if dep_type x == "struct" then Structs
   else if dep_type x == "union" then Unions else Typedefs, dep_name x).

Definition set_managed (t : tid) (b : bool) (s : walk) : walk :=
  Walk (upd_entry t (fun o => match o with
          | Some e => TEntry (t_location e) (t_list e) (Some b) (t_aggreg e)
          | None => TEntry "" [] (Some b) None
          end) (w_deps s)) (w_inserted s) (w_result s).

(** [source[k]]; a key that is missing reads as an empty node. *)
Definition chunk_at (source : arr cdecl) (k : string) : cdecl :=
  default (CDecl "" None (CType "" "" "" "" None false [] [])) (aget k source).

(** [pushItem result], the copy of [source[k]], [insert inserted_keys[k]]. *)
Definition emit (source : arr cdecl) (k : string) (s : walk) : walk :=
  Walk (w_deps s) (w_inserted s ++ [k]) (w_result s ++ [chunk_at source k]).

(** [type] is an entry of the tables.  The last argument of the recursive call is
    read from the entry that was found, as in the code, and not from the
    dependency. *)
Fixpoint rtxResolve_BlockReordering_DoRecursive
    (fuel : nat) (source : arr cdecl) (type : tid) (force : bool) (s : walk) : cw_outcome walk :=
  match fuel with
  | O => Short
  | S fuel =>
      match get_entry type (w_deps s) with
      | None => Ret s
      | Some e =>
          if match t_managed e with Some m => m || negb force | None => false end then Ret s
          else if inserted (t_location e) s then Ret (set_managed type true s)
          else
            s <- cw_foreach (fun dep s =>
                   match get_entry (dep_tid dep) (w_deps s) with
                   | Some theDep =>
                       rtxResolve_BlockReordering_DoRecursive fuel source (dep_tid dep)
                         (default false (t_aggreg theDep)) s
                   | None => Ret s
                   end) (t_list e) (set_managed type force s) ;;
            if inserted (t_location e) s then Ret s
            else Ret (set_managed type true (emit source (t_location e) s))
      end
  end.

(** The entries of the tables, in the order of the three loops over them. *)
Definition all_tids (d : deps) : list tid :=
  map (pair Structs) (akeys (structs d)) ++ map (pair Unions) (akeys (unions d)) ++
  map (pair Typedefs) (akeys (typedefs d)).

Definition no_deps : deps := Deps [] [] [].

Definition build_deps (chunks : arr cdecl) : cw_outcome deps :=
  cw_foreach scan_chunk chunks no_deps.

(** How deep the calls nest: one that goes past the guard moves its entry from
    not managed to in progress, or from there to forced ([weight]). *)
Definition walk_fuel (d : deps) : nat := S (2 * length (all_tids d)).

Definition walk_types (chunks : arr cdecl) (d : deps) : cw_outcome walk :=
  cw_foreach (fun t => rtxResolve_BlockReordering_DoRecursive (walk_fuel d) chunks t false)
    (all_tids d) (Walk d [] []).

Definition append_rest (chunks : arr cdecl) (s : walk) : walk :=
  foldl (fun s k => if inserted k s then s else emit chunks k s) s (akeys chunks).

Definition rtxResolve_BlockReordering (inout_chunks : arr cdecl) : cw_outcome (list cdecl) :=
  d <- build_deps inout_chunks ;;
  s <- walk_types inout_chunks d ;;
  Ret (w_result (append_rest inout_chunks s)).

(** ** The walk on small blocks *)

Definition prim (id : string) : cctype := CType "auto" "auto" id "__primary__" None false [] [].
Definition alias (id : string) : cctype :=
  CType "auto" "auto" "auto" "__primary__" (Some (id, [])) false [] [].
Definition struct_ref (ptr : bool) (id : string) : cctype :=
  CType "auto" "struct" id "__primary__" None ptr [] [].
Definition field (nm : string) (ct : cctype) : cdecl := CDecl "__field_decl__" (Some nm) ct.
Definition struct_def (id : string) (fields : list cdecl) : cdecl :=
  CDecl "__decl__" None (CType "auto" "struct" id "__composed__" None false fields []).
Definition typedef_struct (id nm : string) (fields : list cdecl) : cdecl :=
  CDecl "__decl__" (Some nm) (CType "typedef" "struct" id "__composed__" None false fields []).
Definition typedef_prim (id nm : string) : cdecl :=
  CDecl "__decl__" (Some nm) (CType "typedef" "auto" id "__primary__" None false [] []).

(** The block of tests/internals/type_reordering.cws, but for its type of functions. *)
Definition test_block : arr cdecl :=
  [("0", typedef_struct "paf" "t_paf" []);
   ("1", struct_def "paf" [field "nxt" (struct_ref true "paf"); field "pouet" (struct_ref false "data")]);
   ("2", struct_def "pdata" [field "content" (alias "t_data"); field "color" (alias "u_test");
                             field "pafdata" (alias "t_paf")]);
   ("3", typedef_prim "int" "t_int");
   ("4", typedef_prim "char" "t_char");
   ("5", typedef_struct "data" "t_data" [field "i" (alias "t_int")]);
   ("6", CDecl "__decl__" (Some "u_test") (CType "typedef" "union" "" "__composed__" None false
           [field "i" (alias "t_int"); field "c" (alias "t_char")] []))].

Definition keys_of (chunks : arr cdecl) : cw_outcome (list string) :=
  d <- build_deps chunks ;; s <- walk_types chunks d ;; Ret (w_inserted (append_rest chunks s)).

Example test_block_order : keys_of test_block = Ret ["3"; "5"; "1"; "4"; "6"; "0"; "2"].
Proof. vm_compute. reflexivity. Qed.

(** ** The tables *)

Lemma get_upd_eq t f d : get_entry t (upd_entry t f d) = Some (f (get_entry t d)).
Proof. destruct t as [[] k]; apply aget_aupd_eq. Qed.

Lemma get_upd_ne t u f d : u <> t -> get_entry u (upd_entry t f d) = get_entry u d.
Proof.
  destruct t as [[] k], u as [[] j]; intros H; try done; apply aget_aupd_ne; simpl; by intros ->.
Qed.

Lemma all_tids_spec t d : t ∈ all_tids d <-> is_Some (get_entry t d).
Proof.
  unfold all_tids, get_entry. destruct t as [tb k]. rewrite !elem_of_app, !list_elem_of_fmap.
  assert (H : forall a : arr tentry, is_Some (aget k a) <-> k ∈ akeys a).
  { intros a. rewrite <- aget_Some_keys. split; intros [x Hx]; by exists x. }
  destruct tb; simpl; rewrite H; (split; [|eauto 10]);
    intros Hin; repeat destruct Hin as [Hin|Hin]; by destruct Hin as (? & [= <-] & ?).
Qed.

(** What the walk keeps of an entry. *)
Definition static (e : tentry) : string * list dep * option bool :=
  (t_location e, t_list e, t_aggreg e).

Definition same_shape (d0 d : deps) : Prop :=
  forall t, static <$> get_entry t d = static <$> get_entry t d0.

Definition managed (d : deps) (t : tid) : option bool :=
  match get_entry t d with Some e => t_managed e | None => None end.

Lemma same_shape_get d0 d t e :
  same_shape d0 d -> get_entry t d = Some e ->
  exists e0, get_entry t d0 = Some e0 /\ static e0 = static e.
Proof.
  intros H He. specialize (H t). rewrite He in H.
  destruct (get_entry t d0) as [e0|]; simpl in H; [|done].
  injection H as H1. exists e0. unfold static. split; [done|]. by rewrite H, H0, H1.
Qed.

Lemma same_shape_is_Some d0 d t : same_shape d0 d -> is_Some (get_entry t d) <-> is_Some (get_entry t d0).
Proof.
  intros H. specialize (H t).
  by destruct (get_entry t d), (get_entry t d0); simpl in H; rewrite ?is_Some_alt.
Qed.

Lemma set_managed_shape d0 t b s :
  is_Some (get_entry t (w_deps s)) ->
  same_shape d0 (w_deps s) -> same_shape d0 (w_deps (set_managed t b s)).
Proof.
  intros [e He] H u. simpl. destruct (decide (u = t)) as [->|Hu].
  - rewrite get_upd_eq, He. rewrite <- (H t), He. done.
  - by rewrite get_upd_ne.
Qed.

Lemma managed_set t b s : managed (w_deps (set_managed t b s)) t = Some b.
Proof. unfold managed; simpl. rewrite get_upd_eq. by destruct (get_entry t (w_deps s)). Qed.

Lemma managed_set_ne t u b s : u <> t -> managed (w_deps (set_managed t b s)) u = managed (w_deps s) u.
Proof. intros H. unfold managed; simpl. by rewrite get_upd_ne. Qed.

(** ** Termination *)

(** How many times an entry can still be entered. *)
Definition passes (o : option bool) : nat :=
  match o with None => 2 | Some false => 1 | Some true => 0 end.

Definition weight (T : list tid) (d : deps) : nat := sum_list_with (fun t => passes (managed d t)) T.

Lemma sum_list_with_le {A} (f g : A -> nat) l :
  (forall x, f x <= g x) -> sum_list_with f l <= sum_list_with g l.
Proof. intros H. induction l as [|x l IH]; simpl; [lia|]. specialize (H x). lia. Qed.

Lemma sum_list_with_lt {A} (f g : A -> nat) l x :
  (forall y, f y <= g y) -> x ∈ l -> f x < g x -> sum_list_with f l < sum_list_with g l.
Proof.
  intros Hle Hx Hlt. induction l as [|y l IH]; simpl; [by apply not_elem_of_nil in Hx|].
  pose proof (sum_list_with_le f g l Hle). pose proof (Hle y).
  apply elem_of_cons in Hx as [->|Hx]; [lia|]. specialize (IH Hx). lia.
Qed.

Lemma passes_le_2 o : passes o <= 2.
Proof. destruct o as [[]|]; simpl; lia. Qed.

Lemma weight_bound T d : weight T d <= 2 * length T.
Proof.
  unfold weight. induction T as [|t T IH]; simpl; [lia|].
  pose proof (passes_le_2 (managed d t)). lia.
Qed.

Lemma weight_set_managed_le T t b s :
  passes (Some b) <= passes (managed (w_deps s) t) ->
  weight T (w_deps (set_managed t b s)) <= weight T (w_deps s).
Proof.
  intros H. apply sum_list_with_le. intros u. destruct (decide (u = t)) as [->|Hu].
  - by rewrite managed_set.
  - by rewrite managed_set_ne.
Qed.

Lemma weight_set_managed_lt T t b s :
  t ∈ T -> passes (Some b) < passes (managed (w_deps s) t) ->
  weight T (w_deps (set_managed t b s)) < weight T (w_deps s).
Proof.
  intros Ht H. apply (sum_list_with_lt _ _ _ t); [|done|by rewrite managed_set].
  intros u. destruct (decide (u = t)) as [->|Hu]; [rewrite managed_set|rewrite managed_set_ne by done]; lia.
Qed.

(** ** The walk ends and keeps its invariant *)

Lemma inserted_true k s : inserted k s = true <-> k ∈ w_inserted s.
Proof.
  unfold inserted. rewrite existsb_exists. split.
  - intros (x & Hx & ->%String.eqb_eq). by apply list_elem_of_In.
  - intros Hk. exists k. by rewrite String.eqb_refl, <- list_elem_of_In.
Qed.

Lemma inserted_false k s : inserted k s = false <-> k ∉ w_inserted s.
Proof. rewrite <- inserted_true. by destruct (inserted k s). Qed.

(** [result] holds, once each, the chunks whose keys were inserted. *)
Definition emitted (source : arr cdecl) (s : walk) : Prop :=
  NoDup (w_inserted s) /\ w_result s = map (chunk_at source) (w_inserted s).

Lemma emitted_emit source k s : k ∉ w_inserted s -> emitted source s -> emitted source (emit source k s).
Proof.
  intros Hk [Hnd Hr]. split; simpl.
  - apply NoDup_app; split_and!; [done| |apply NoDup_singleton].
    by intros x Hx ->%list_elem_of_singleton.
  - by rewrite map_app, Hr.
Qed.

Section walk.
Context (source : arr cdecl) (d0 : deps).

Local Abbreviation T := (all_tids d0).

(** What is inserted is the location of an entry. *)
Definition walk_inv (s : walk) : Prop :=
  same_shape d0 (w_deps s) /\ emitted source s /\
  forall k, k ∈ w_inserted s -> exists t e, get_entry t d0 = Some e /\ t_location e = k.

(** One call: it keeps the invariant, enters no entry more often than it may,
    and takes nothing out of the result. *)
Definition advances (s s' : walk) : Prop :=
  walk_inv s' /\ weight T (w_deps s') <= weight T (w_deps s) /\
  w_inserted s `prefix_of` w_inserted s'.

Lemma advances_refl s : walk_inv s -> advances s s.
Proof. by intros H. Qed.

Lemma advances_trans s1 s2 s3 : advances s1 s2 -> advances s2 s3 -> advances s1 s3.
Proof. intros (_ & H1 & P1) (H & H2 & P2). split_and!; [done|lia|by etrans]. Qed.

Lemma advances_set_managed t b s :
  walk_inv s -> is_Some (get_entry t d0) ->
  passes (Some b) <= passes (managed (w_deps s) t) -> advances s (set_managed t b s).
Proof.
  intros (Hsh & He & Hk) Ht Hp. split_and!; [split_and!|by apply weight_set_managed_le|done]; [|done..].
  apply set_managed_shape; [|done]. by apply (same_shape_is_Some d0).
Qed.

Lemma advances_emit t e s :
  walk_inv s -> get_entry t d0 = Some e -> t_location e ∉ w_inserted s ->
  advances s (emit source (t_location e) s).
Proof.
  intros (Hsh & He & Hk) Ht Hn. split_and!; [split_and!|done|by apply prefix_app_r].
  - done.
  - by apply emitted_emit.
  - simpl. intros k [Hin| ->%list_elem_of_singleton]%elem_of_app; [by apply Hk|by exists t, e].
Qed.

Lemma walk_total fuel t force s :
  walk_inv s -> is_Some (get_entry t d0) -> weight T (w_deps s) < fuel ->
  exists s', rtxResolve_BlockReordering_DoRecursive fuel source t force s = Ret s' /\ advances s s'.
Proof.
  revert t force s. induction fuel as [|fuel IH]; intros t force s Hinv Ht Hw; [lia|]. simpl.
  destruct (get_entry t (w_deps s)) as [e|] eqn:He; [|by exists s].
  destruct (same_shape_get d0 _ t e (proj1 Hinv) He) as (e0 & He0 & Hst).
  assert (Hloc : t_location e = t_location e0) by (by injection Hst).
  assert (Hm : managed (w_deps s) t = t_managed e) by (unfold managed; by rewrite He).
  destruct (match t_managed e with Some m => m || negb force | None => false end) eqn:Hg; [by exists s|].
  destruct (inserted (t_location e) s) eqn:Hi.
  { exists (set_managed t true s). split; [done|]. apply advances_set_managed; [done..|simpl; lia]. }
  assert (Hlt : passes (Some force) < passes (managed (w_deps s) t)).
  { rewrite Hm. destruct (t_managed e) as [[]|], force; simpl in *; try done; lia. }
  assert (Ha : advances s (set_managed t force s)) by (apply advances_set_managed; [done..|lia]).
  pose proof (weight_set_managed_lt T t force s (proj2 (all_tids_spec t d0) Ht) Hlt) as Hwm.
  destruct (cw_foreach_ind (fun dep s =>
       match get_entry (dep_tid dep) (w_deps s) with
       | Some theDep => rtxResolve_BlockReordering_DoRecursive fuel source (dep_tid dep)
                          (default false (t_aggreg theDep)) s
       | None => Ret s
       end) (fun _ s1 => advances (set_managed t force s) s1) (t_list e) (set_managed t force s))
    as (s1 & -> & Hs1).
  { apply advances_refl, Ha. }
  { intros pre x rest s1 _ Hs1. destruct (get_entry (dep_tid x) (w_deps s1)) as [ex|] eqn:Hx; [|by exists s1].
    destruct (IH (dep_tid x) (default false (t_aggreg ex)) s1) as (s2 & -> & Hs2).
    - apply Hs1.
    - apply (same_shape_is_Some d0 (w_deps s1)); [apply Hs1|by exists ex].
    - destruct Hs1 as (_ & Hle & _). lia.
    - exists s2. split; [done|]. by eapply advances_trans. }
  simpl. pose proof (advances_trans _ _ _ Ha Hs1) as Has1.
  destruct (inserted (t_location e) s1) eqn:Hi1; [by exists s1|].
  eexists; split; [done|]. apply (advances_trans _ s1); [done|].
  apply (advances_trans _ (emit source (t_location e) s1)).
  - rewrite Hloc. apply (advances_emit t); [apply Has1|done|]. rewrite <- Hloc. by apply inserted_false.
  - apply advances_set_managed; [|done|simpl; lia].
    rewrite Hloc. apply (advances_emit t e0); [apply Has1|done|]. rewrite <- Hloc. by apply inserted_false.
Qed.

End walk.

(** ** What the first pass builds *)

Lemma cctype_nested_ind (P : cctype -> Prop) :
  (forall ct, (forall e, In e (ct_body ct) -> P (n_ctype e)) -> P ct) -> forall ct, P ct.
Proof.
  intros H. fix IH 1. intros ct. apply H. destruct ct as [? ? ? ? ? ? body ?]; simpl.
  induction body as [|e body IHb]; simpl; [intros e' []|].
  intros e' [<-|Hin]; [apply IH|by apply IHb].
Qed.

(** The declarations whose types a type uses, in the order of the recursion. *)
Fixpoint field_decls (ct : cctype) : list cdecl :=
  flat_map (fun e => if is_field e then field_decls (n_ctype e) ++ [e] else []) (ct_body ct).

Definition visited (chunk : cdecl) : list cdecl :=
  field_decls (n_ctype chunk) ++ List.filter is_composed (ct_list (n_ctype chunk)).

Lemma RecurseTypeDecl_flat dl ct d :
  rtxResolve_BlockReordering_RecurseTypeDecl ct dl d =
  cw_foreach (fun e => rtxResolve_BlockReordering_InsertDep e dl) (field_decls ct) d.
Proof.
  revert d. induction ct as [ct IH] using cctype_nested_ind. intros d.
  destruct ct as [? ? ? ? ? ? body ?]; simpl in *.
  revert d. induction body as [|e body IHb]; intros d; simpl; [done|].
  rewrite cw_foreach_app. destruct (is_field e).
  - rewrite cw_foreach_app, (IH e) by (by left).
    destruct (cw_foreach _ (field_decls _) _) as [d1| |]; simpl; [|done..].
    destruct (rtxResolve_BlockReordering_InsertDep e dl d1); simpl; [|done..].
    apply IHb. intros e' He'. apply IH. by right.
  - simpl. apply IHb. intros e' He'. apply IH. by right.
Qed.

Lemma IterComposed_flat dl ct d :
  rtxResolve_BlockReordering_IterComposed ct dl d =
  cw_foreach (fun e => rtxResolve_BlockReordering_InsertDep e dl) (List.filter is_composed (ct_list ct)) d.
Proof.
  unfold rtxResolve_BlockReordering_IterComposed. revert d.
  induction (ct_list ct) as [|e l IH]; intros d; simpl; [done|].
  destruct (is_composed e); simpl; [|apply IH].
  destruct (rtxResolve_BlockReordering_InsertDep e dl d); simpl; [apply IH|done..].
Qed.

Definition open_all (k : string) (dl : list tid) (d : deps) : deps :=
  foldl (fun d t => upd_entry t (open_entry k) d) d dl.

Lemma scan_chunk_eq k c d :
  scan_chunk (k, c) d =
  if n_type c == "__decl__" then
    match declares c with
    | None => Error
    | Some dl => cw_foreach (fun e => rtxResolve_BlockReordering_InsertDep e dl) (visited c) (open_all k dl d)
    end
  else Ret d.
Proof.
  unfold scan_chunk, visited. destruct (n_type c == "__decl__"); [|done].
  destruct (declares c) as [dl|]; [|done].
  rewrite cw_foreach_app, RecurseTypeDecl_flat. fold (open_all k dl d).
  destruct (cw_foreach _ _ _); simpl; [apply IterComposed_flat|done..].
Qed.

Lemma declares_NoDup c dl : declares c = Some dl -> NoDup dl.
Proof.
  unfold declares. intros H.
  assert (Hdl : exists nm b1 b2 i, dl = (match nm with Some n => [(Typedefs, n)] | None => [] end) ++
     (if b1 : bool then [(Structs, i)] else []) ++ (if b2 : bool then [(Unions, i)] else [])).
  { destruct (ct_storage (n_ctype c) == "typedef").
    - destruct (n_name c) as [n|].
      + injection H as <-. by exists (Some n); eexists _, _, _.
      + destruct (ct_unknown (n_ctype c)) as [[n ?]|]; [|done].
        injection H as <-. by exists (Some n); eexists _, _, _.
    - injection H as <-. by exists None; eexists _, _, _. }
  destruct Hdl as ([n|] & [] & [] & i & ->); simpl;
    repeat (apply NoDup_cons_2; [rewrite ?elem_of_cons, ?elem_of_nil; intuition congruence|]);
    apply NoDup_nil_2.
Qed.

Lemma get_foldl_upd f dl d t :
  NoDup dl ->
  get_entry t (foldl (fun d u => upd_entry u f d) d dl) =
  if decide (t ∈ dl) then Some (f (get_entry t d)) else get_entry t d.
Proof.
  revert d. induction dl as [|u dl IH]; intros d Hnd; cbn [foldl].
  - rewrite decide_False; [done|apply not_elem_of_nil].
  - apply NoDup_cons in Hnd as [Hu Hnd]. rewrite IH by done.
    destruct (decide (t = u)) as [->|Htu].
    + rewrite decide_False by done. rewrite decide_True by (by left). apply get_upd_eq.
    + rewrite get_upd_ne by done. destruct (decide (t ∈ dl)) as [Hin|Hin].
      * by rewrite decide_True by (by right).
      * rewrite decide_False; [done|]. by intros [|]%elem_of_cons.
Qed.

Lemma InsertDep_cases e dl d d' :
  rtxResolve_BlockReordering_InsertDep e dl d = Ret d' ->
  exists x, dep_of e = Some x /\
    (d' = d /\ existsb (fun y => same_dep y x) (match dl with t :: _ => get_list t d | [] => [] end) = true \/
     d' = foldl (fun d t => upd_entry t (push_dep x) d) d dl).
Proof.
  unfold rtxResolve_BlockReordering_InsertDep. destruct (dep_of e) as [x|]; [|done].
  destruct (existsb _ _) eqn:E; intros [= <-]; exists x; auto.
Qed.

(** An entry of the first pass lies in one of the chunks and is unmarked. *)
Definition fresh_entry (keys : list string) (e : tentry) : Prop :=
  t_location e ∈ keys /\ t_managed e = None /\ t_aggreg e = None.

Definition fresh_deps (keys : list string) (d : deps) : Prop :=
  forall t e, get_entry t d = Some e -> fresh_entry keys e.

Lemma fresh_upd keys f dl d :
  NoDup dl -> (forall t, t ∈ dl -> fresh_entry keys (f (get_entry t d))) ->
  fresh_deps keys d -> fresh_deps keys (foldl (fun d u => upd_entry u f d) d dl).
Proof.
  intros Hnd Hf Hd t e. rewrite get_foldl_upd by done.
  destruct (decide (t ∈ dl)); [intros [= <-]; by apply Hf|by apply Hd].
Qed.

(** The entries of a chunk are open while its declarations are visited. *)
Lemma InsertDep_fresh keys e dl d d' :
  NoDup dl -> (forall t, t ∈ dl -> is_Some (get_entry t d)) -> fresh_deps keys d ->
  rtxResolve_BlockReordering_InsertDep e dl d = Ret d' ->
  fresh_deps keys d' /\ (forall t, t ∈ dl -> is_Some (get_entry t d')).
Proof.
  intros Hnd Hdl Hd (x & _ & [[-> _]| ->])%InsertDep_cases; [done|]. split.
  - apply fresh_upd; [done| |done]. intros t Ht. destruct (Hdl t Ht) as [e1 He1].
    rewrite He1. simpl. apply (Hd t e1 He1).
  - intros t Ht. rewrite get_foldl_upd, decide_True by done. by eexists.
Qed.

Lemma open_all_get k dl d t :
  NoDup dl -> get_entry t (open_all k dl d) =
  if decide (t ∈ dl) then Some (open_entry k (get_entry t d)) else get_entry t d.
Proof. apply get_foldl_upd. Qed.

Lemma open_all_fresh keys k dl d :
  NoDup dl -> k ∈ keys -> fresh_deps keys d -> fresh_deps keys (open_all k dl d).
Proof.
  intros Hnd Hk Hd. apply fresh_upd; [done| |done]. intros t Ht.
  destruct (get_entry t d) as [e|] eqn:E; simpl; [|done].
  destruct (Hd t e E) as (_ & H1 & H2). done.
Qed.

Lemma scan_chunk_fresh keys k c d d' :
  k ∈ keys -> fresh_deps keys d -> scan_chunk (k, c) d = Ret d' -> fresh_deps keys d'.
Proof.
  intros Hk Hd. rewrite scan_chunk_eq. destruct (n_type c == "__decl__"); [|by intros [= <-]].
  destruct (declares c) as [dl|] eqn:Hdl; [|done]. apply declares_NoDup in Hdl.
  intros Hf. eapply (cw_foreach_inv _ (fun _ d => fresh_deps keys d /\ forall t, t ∈ dl -> is_Some (get_entry t d)))
    in Hf as [? _]; [done| |].
  - split; [by apply open_all_fresh|]. intros t Ht. rewrite open_all_get, decide_True by done. by eexists.
  - intros pre e rest d1 d2 _ [H1 H2]. by apply InsertDep_fresh.
Qed.

Lemma build_deps_fresh chunks d : build_deps chunks = Ret d -> fresh_deps (akeys chunks) d.
Proof.
  apply (cw_foreach_inv _ (fun _ d => fresh_deps (akeys chunks) d)).
  - intros t e. by destruct t as [[] k].
  - intros pre [k c] rest d1 d2 -> H1. apply scan_chunk_fresh; [|done].
    unfold akeys. rewrite map_app. apply elem_of_app. right. by left.
Qed.

(** ** When the first pass calls [error] *)

Definition supported (c : cdecl) : bool :=
  negb (n_type c == "__decl__") ||
  match declares c with
  | Some _ => forallb (fun e => match dep_of e with Some _ => true | None => false end) (visited c)
  | None => false
  end.

Lemma InsertDep_outcome e dl d :
  match dep_of e with
  | Some _ => exists d', rtxResolve_BlockReordering_InsertDep e dl d = Ret d'
  | None => rtxResolve_BlockReordering_InsertDep e dl d = Error
  end.
Proof.
  unfold rtxResolve_BlockReordering_InsertDep. destruct (dep_of e); [|done].
  destruct (existsb _ _); by eexists.
Qed.

Lemma scan_chunk_outcome kc d :
  if supported kc.2 then exists d', scan_chunk kc d = Ret d' else scan_chunk kc d = Error.
Proof.
  destruct kc as [k c]. rewrite scan_chunk_eq. unfold supported; simpl.
  destruct (n_type c == "__decl__"); simpl; [|by exists d].
  destruct (declares c) as [dl|]; [|done].
  apply (cw_foreach_outcome _ (fun e => match dep_of e with Some _ => true | None => false end)).
  intros e d1. pose proof (InsertDep_outcome e dl d1). by destruct (dep_of e).
Qed.

Lemma build_deps_outcome chunks :
  if forallb supported (map snd chunks) then exists d, build_deps chunks = Ret d
  else build_deps chunks = Error.
Proof.
  pose proof (cw_foreach_outcome scan_chunk (fun kc => supported kc.2) chunks scan_chunk_outcome no_deps) as H.
  replace (forallb supported (map snd chunks)) with (forallb (fun kc => supported kc.2) chunks); [done|].
  induction chunks as [|kc chunks IH]; simpl; [done|].
  by rewrite IH by (apply (cw_foreach_outcome _ (fun kc => supported kc.2)), scan_chunk_outcome).
Qed.

(** ** The result is a permutation *)

Lemma walk_inv_start chunks d : walk_inv chunks d (Walk d [] []).
Proof.
  split_and!; [done|split; [apply NoDup_nil_2|done]|]. intros k Hk. by apply not_elem_of_nil in Hk.
Qed.

Lemma walk_types_total chunks d : exists s, walk_types chunks d = Ret s /\ walk_inv chunks d s.
Proof.
  destruct (cw_foreach_ind
    (fun t => rtxResolve_BlockReordering_DoRecursive (walk_fuel d) chunks t false)
    (fun _ s => advances chunks d (Walk d [] []) s) (all_tids d) (Walk d [] [])) as (s & Hs & H & _).
  - apply advances_refl, walk_inv_start.
  - intros pre t rest s Hl Ha. destruct (walk_total chunks d (walk_fuel d) t false s) as (s' & Hs' & Ha').
    + apply Ha.
    + apply all_tids_spec. rewrite Hl. apply elem_of_app. right. by left.
    + destruct Ha as (_ & Hw & _). pose proof (weight_bound (all_tids d) d). unfold walk_fuel. simpl in *. lia.
    + exists s'. split; [done|]. by eapply advances_trans.
  - by exists s.
Qed.

Lemma append_rest_spec source ks s :
  emitted source s ->
  let s' := foldl (fun s k => if inserted k s then s else emit source k s) s ks in
  emitted source s' /\ w_inserted s `prefix_of` w_inserted s' /\
  forall k, k ∈ w_inserted s' <-> k ∈ w_inserted s \/ k ∈ ks.
Proof.
  revert s. induction ks as [|k ks IH]; intros s He; simpl.
  - split_and!; [done..|]. intros k. rewrite elem_of_nil. tauto.
  - assert (H : emitted source (if inserted k s then s else emit source k s) /\
      w_inserted s `prefix_of` w_inserted (if inserted k s then s else emit source k s) /\
      forall j, j ∈ w_inserted (if inserted k s then s else emit source k s) <-> j ∈ w_inserted s \/ j = k).
    { destruct (inserted k s) eqn:E.
      - apply inserted_true in E. split_and!; [done..|]. intros j. split; [by left|by intros [?| ->]].
      - apply inserted_false in E. split_and!; [by apply emitted_emit|by apply prefix_app_r|].
        intros j. simpl. by rewrite elem_of_app, list_elem_of_singleton. }
    destruct H as (H1 & H2 & H3). destruct (IH _ H1) as (H4 & H5 & H6).
    split_and!; [done|by etrans|]. intros j. rewrite H6, H3, elem_of_cons. tauto.
Qed.

Lemma map_chunk_at chunks : NoDup (akeys chunks) -> map (chunk_at chunks) (akeys chunks) = map snd chunks.
Proof.
  intros Hnd. unfold akeys. rewrite map_map. apply map_ext_in. intros [k c] Hin. simpl.
  unfold chunk_at. rewrite (In_aget k chunks c); [done|done|by apply list_elem_of_In].
Qed.

(** The keys of a result are those of the chunks, once each. *)
Lemma rest_keys chunks d s :
  NoDup (akeys chunks) -> fresh_deps (akeys chunks) d -> walk_inv chunks d s ->
  w_inserted (append_rest chunks s) ≡ₚ akeys chunks.
Proof.
  intros Hnd Hf (_ & He & Hk). destruct (append_rest_spec chunks (akeys chunks) s He) as ([Hnd' _] & _ & Hin).
  apply NoDup_Permutation; [done|done|]. intros k. rewrite Hin. split; [|by right].
  intros [Hi|Hi]; [|done]. destruct (Hk k Hi) as (t & e & Ht & <-). apply (Hf t e Ht).
Qed.

Lemma reorder_inv chunks out :
  rtxResolve_BlockReordering chunks = Ret out ->
  exists d s, build_deps chunks = Ret d /\ walk_types chunks d = Ret s /\ walk_inv chunks d s /\
    out = map (chunk_at chunks) (w_inserted (append_rest chunks s)).
Proof.
  intros (d & Hd & (s & Hs & [= <-])%cw_bind_Ret)%cw_bind_Ret. exists d, s.
  destruct (walk_types_total chunks d) as (s' & Hs' & Hi). rewrite Hs in Hs'. injection Hs' as <-.
  split_and!; [done..|]. apply append_rest_spec, Hi.
Qed.

(** C37: The reordering ends on every block, cyclic types included: it
    returns a block when every declaration has a kind of type the first pass
    manages, and calls error otherwise. The fuel of a walk, one more than
    twice the number of types, is therefore a bound of the depth to which
    its calls nest. *)
Theorem reorder_terminates chunks :
  if forallb supported (map snd chunks)
  then exists out, rtxResolve_BlockReordering chunks = Ret out
  else rtxResolve_BlockReordering chunks = Error.
Proof.
  pose proof (build_deps_outcome chunks) as H. unfold rtxResolve_BlockReordering.
  destruct (forallb _ _); [|by rewrite H].
  destruct H as [d ->]; simpl. destruct (walk_types_total chunks d) as (s & -> & _); simpl. by eexists.
Qed.

(** Whatever the types and their cycles, the reordered block holds
    exactly the chunks of the block, each once. *)
Theorem reorder_permutes chunks out :
  NoDup (akeys chunks) -> rtxResolve_BlockReordering chunks = Ret out -> out ≡ₚ map snd chunks.
Proof.
  intros Hnd (d & s & Hd & _ & Hi & ->)%reorder_inv. apply build_deps_fresh in Hd.
  rewrite (rest_keys chunks d s Hnd Hd Hi). by rewrite map_chunk_at.
Qed.

Example reorder_permutes_witness :
  NoDup (akeys test_block) /\
  exists out, rtxResolve_BlockReordering test_block = Ret out /\ out ≡ₚ map snd test_block.
Proof.
  assert (Hnd : NoDup (akeys test_block)) by (apply (bool_decide_unpack _); vm_compute; exact I).
  split; [exact Hnd|].
  pose proof (reorder_permutes test_block) as H.
  destruct (rtxResolve_BlockReordering test_block) as [out| |] eqn:E.
  - exists out. split; [reflexivity|]. apply H; [exact Hnd|reflexivity].
  - vm_compute in E. discriminate E.
  - vm_compute in E. discriminate E.
Defined.

(** ** The result is in order *)

Section order.
Context (source : arr cdecl) (d0 : deps) (rank : string -> nat).

Definition loc (t : tid) : string :=
  match get_entry t d0 with Some e => t_location e | None => "" end.

(** The type [t] depends on [u], which the tables know. *)
Definition uses (t u : tid) : Prop :=
  is_Some (get_entry u d0) /\
  exists e x, get_entry t d0 = Some e /\ x ∈ t_list e /\ dep_tid x = u.

Context (unforced : forall t e, get_entry t d0 = Some e -> t_aggreg e = None).
Context (shared : forall t t' u, is_Some (get_entry t' d0) -> loc t = loc t' -> uses t u -> uses t' u).
Context (acyclic : forall t u, uses t u -> loc u = loc t \/ rank (loc u) < rank (loc t)).

(** Chunks of used types come first, or are the chunk itself. *)
Definition ordered (ks : list string) : Prop :=
  forall pre k post t u, ks = pre ++ k :: post -> uses t u -> loc t = k -> loc u = k \/ loc u ∈ pre.

(** A type the walk is in the middle of. *)
Definition pending (s : walk) (p : tid) : Prop :=
  is_Some (managed (w_deps s) p) /\ loc p ∉ w_inserted s.

Lemma ordered_snoc ks k :
  ordered ks -> (forall t u, uses t u -> loc t = k -> loc u = k \/ loc u ∈ ks) -> ordered (ks ++ [k]).
Proof.
  intros Ho Hk pre j post t u Heq Hu Ht. destruct post as [|x post _] using rev_ind.
  - apply app_inj_tail in Heq as [<- <-]. by apply (Hk t).
  - rewrite app_comm_cons, app_assoc in Heq. apply app_inj_tail in Heq as [-> _].
    by apply (Ho pre j post t u).
Qed.

Lemma pending_set_managed t b s p : pending (set_managed t b s) p -> pending s p \/ p = t.
Proof.
  intros [H1 H2]. destruct (decide (p = t)) as [->|Hp]; [by right|]. left. split; [|done].
  by rewrite managed_set_ne in H1.
Qed.

(** What a call has done: [s] before, [s'] after. *)
Definition settled (t : tid) (s s' : walk) : Prop :=
  same_shape d0 (w_deps s') /\ ordered (w_inserted s') /\
  (forall p, pending s' p -> pending s p) /\ (w_inserted s) ⊆ (w_inserted s') /\
  (loc t ∈ w_inserted s' \/ pending s t).

Definition outranked (t : tid) (s : walk) : Prop :=
  forall p, pending s p -> loc p = loc t \/ rank (loc t) < rank (loc p).

Lemma settled_managed t e s :
  same_shape d0 (w_deps s) -> ordered (w_inserted s) -> get_entry t (w_deps s) = Some e ->
  is_Some (t_managed e) -> settled t s s.
Proof.
  intros Hsh Ho He Hm. split_and!; [done..|].
  destruct (decide (loc t ∈ w_inserted s)) as [|Hn]; [by left|right].
  split; [|done]. unfold managed. by rewrite He.
Qed.

Lemma settled_emit t s0 s s' :
  is_Some (get_entry t d0) -> same_shape d0 (w_deps s) -> ordered (w_inserted s) ->
  (forall p, pending s p -> pending s0 p \/ p = t) -> w_inserted s0 ⊆ w_inserted s ->
  (forall u, uses t u -> loc u ∈ w_inserted s \/ loc u = loc t) ->
  s' = (if inserted (loc t) s then s else set_managed t true (emit source (loc t) s)) ->
  settled t s0 s'.
Proof using shared.
  intros Ht Hsh Ho Hp Hsub Hu ->. destruct (inserted (loc t) s) eqn:Hi.
  - apply inserted_true in Hi. split_and!; [done..| |done|by left].
    intros p Hpp. destruct (Hp p Hpp) as [| ->]; [done|]. by destruct Hpp.
  - split_and!.
    + apply set_managed_shape; [|done]. by apply (same_shape_is_Some d0).
    + apply ordered_snoc; [done|]. intros t' u Hu' Hl.
      destruct (Hu u (shared t' t u Ht Hl Hu')); [by right|by left].
    + intros p Hpp. destruct (pending_set_managed _ _ _ _ Hpp) as [[H1 H2]| ->].
      * destruct (Hp p) as [|Hpt]; [|done|].
        { split; [done|]. intros Hin. apply H2. simpl. apply elem_of_app. by left. }
        subst. destruct H2. simpl. apply elem_of_app. right. by left.
      * destruct Hpp as [_ []]. simpl. apply elem_of_app. right. by left.
    + simpl. intros k Hk. apply elem_of_app. left. by apply Hsub.
    + left. simpl. apply elem_of_app. right. by left.
Qed.

Lemma outranked_use t u s s0 :
  outranked t s0 -> (forall p, pending s p -> pending s0 p \/ p = t) -> uses t u -> outranked u s.
Proof using acyclic.
  intros Hr Hp Hu p Hpp. destruct (acyclic t u Hu) as [E|E].
  - rewrite E. destruct (Hp p Hpp) as [H| ->]; [by apply Hr|by left].
  - right. destruct (Hp p Hpp) as [H| ->]; [|done]. destruct (Hr p H) as [-> |]; [done|lia].
Qed.

(** After the dependencies [done] of [t] were walked. *)
Definition walking (t : tid) (s0 : walk) (done : list dep) (s : walk) : Prop :=
  same_shape d0 (w_deps s) /\ ordered (w_inserted s) /\
  (forall p, pending s p -> pending s0 p \/ p = t) /\ w_inserted s0 ⊆ w_inserted s /\
  forall x, x ∈ done -> is_Some (get_entry (dep_tid x) d0) ->
    loc (dep_tid x) ∈ w_inserted s \/ loc (dep_tid x) = loc t.

Lemma walking_step t s0 done x s s' :
  outranked t s0 -> walking t s0 done s -> uses t (dep_tid x) ->
  settled (dep_tid x) s s' -> walking t s0 (done ++ [x]) s'.
Proof using acyclic.
  intros Hr (Hsh & Ho & Hp & Hsub & Hd) Hu (Hsh' & Ho' & Hp' & Hsub' & Hx).
  split_and!; [done|done|by intros p Hpp; apply Hp, Hp'|by etrans|].
  intros y [Hy| ->%list_elem_of_singleton]%elem_of_app Hs.
  - destruct (Hd y Hy Hs) as [H|H]; [left; by apply Hsub'|by right].
  - destruct Hx as [H|H]; [by left|right].
    destruct (acyclic t _ Hu) as [E|E]; [done|].
    destruct (Hp _ H) as [H1|H1]; [|by rewrite H1 in E; lia].
    destruct (Hr _ H1) as [|E1]; [done|lia].
Qed.

Lemma walk_ordered fuel t s s' :
  is_Some (get_entry t d0) -> same_shape d0 (w_deps s) -> ordered (w_inserted s) -> outranked t s ->
  rtxResolve_BlockReordering_DoRecursive fuel source t false s = Ret s' -> settled t s s'.
Proof using unforced shared acyclic.
  revert t s s'. induction fuel as [|fuel IH]; intros t s s' Ht Hsh Ho Hr; [done|]. simpl.
  destruct (get_entry t (w_deps s)) as [e|] eqn:He.
  2: { apply (same_shape_is_Some d0 _ t Hsh) in Ht. rewrite He in Ht. by destruct Ht. }
  destruct (same_shape_get d0 _ t e Hsh He) as (e0 & He0 & Hst). injection Hst as Hl0 Hd0 _.
  assert (Hloc : t_location e = loc t) by (unfold loc; by rewrite He0).
  destruct (match t_managed e with Some m => m || true | None => false end) eqn:Hg.
  { intros [= <-]. apply (settled_managed t e); [done..|]. by destruct (t_managed e). }
  destruct (inserted (t_location e) s) eqn:Hi.
  { intros [= <-]. rewrite Hloc in Hi. apply inserted_true in Hi.
    split_and!; [by apply set_managed_shape; [by exists e|]|done| |done|by left].
    intros p Hp. destruct (pending_set_managed _ _ _ _ Hp) as [| ->]; [done|]. by destruct Hp. }
  intros (s1 & Hf & Hs')%cw_bind_Ret.
  assert (Hw : walking t s (t_list e) s1).
  { eapply (cw_foreach_inv _ (walking t s)); [| |exact Hf].
    - split_and!; [by apply set_managed_shape; [by exists e|]|done|apply pending_set_managed|done|].
      intros x Hx. by apply not_elem_of_nil in Hx.
    - intros pre x rest s2 s3 Hl Hw2. cbn beta.
      destruct (get_entry (dep_tid x) (w_deps s2)) as [ex|] eqn:Hex.
      + destruct (same_shape_get d0 _ _ _ (proj1 Hw2) Hex) as (ex0 & Hex0 & Hstx).
        assert (Hu : uses t (dep_tid x)).
        { split; [by exists ex0|]. exists e0, x. split_and!; [done| |done].
          rewrite Hd0, Hl. apply elem_of_app. right. by left. }
        assert (Ha : t_aggreg ex = None) by (injection Hstx as _ _ <-; by apply (unforced (dep_tid x))).
        rewrite Ha. intros H3. apply (walking_step t s pre x s2); [done..|].
        apply IH; [by exists ex0|apply Hw2|apply Hw2| |done].
        apply (outranked_use t _ s2 s); [done|apply Hw2|done].
      + intros [= <-]. destruct Hw2 as (H1 & H2 & H3 & H4 & H5). split_and!; [done..|].
        intros y [Hy| ->%list_elem_of_singleton]%elem_of_app Hs; [by apply H5|].
        apply (same_shape_is_Some d0 _ _ H1) in Hs. rewrite Hex in Hs. by destruct Hs. }
  destruct Hw as (H1 & H2 & H3 & H4 & H5). apply (settled_emit t s s1); [done..| |].
  - intros u [Hus (e1 & x & He1 & Hx & <-)]. apply H5; [|done].
    rewrite He0 in He1. injection He1 as <-. by rewrite <- Hd0.
  - rewrite Hloc in Hs'. by destruct (inserted (loc t) s1); injection Hs'.
Qed.

End order.

Lemma walk_types_ordered source d rank s :
  (forall t e, get_entry t d = Some e -> t_managed e = None /\ t_aggreg e = None) ->
  (forall t t' u, is_Some (get_entry t' d) -> loc d t = loc d t' -> uses d t u -> uses d t' u) ->
  (forall t u, uses d t u -> loc d u = loc d t \/ rank (loc d u) < rank (loc d t)) ->
  walk_types source d = Ret s ->
  ordered d (w_inserted s) /\ forall t, is_Some (get_entry t d) -> loc d t ∈ w_inserted s.
Proof.
  intros Hf Hsh Hac Hw.
  assert (H : same_shape d (w_deps s) /\ ordered d (w_inserted s) /\ (forall p, ~ pending d s p) /\
              forall t, t ∈ all_tids d -> loc d t ∈ w_inserted s).
  { revert Hw. apply (cw_foreach_inv _ (fun done s => same_shape d (w_deps s) /\ ordered d (w_inserted s) /\
      (forall p, ~ pending d s p) /\ forall t, t ∈ done -> loc d t ∈ w_inserted s)).
    - split_and!; [done| | |intros t Ht; by apply not_elem_of_nil in Ht].
      + intros pre k post t u Hk. by destruct pre.
      + intros p [[m Hm] _]. unfold managed in Hm; simpl in Hm.
        destruct (get_entry p d) as [e|] eqn:E; [|done]. destruct (Hf p e E) as [H _]. by rewrite H in Hm.
    - intros pre t rest s1 s2 Hl (H1 & H2 & H3 & H4) Hs2.
      assert (Ht : is_Some (get_entry t d)).
      { apply all_tids_spec. rewrite Hl. apply elem_of_app. right. by left. }
      apply (walk_ordered source d rank) in Hs2 as (G1 & G2 & G3 & G4 & G5); try done.
      + split_and!; [done..|by intros p Hp; apply (H3 p), G3|].
        intros u [Hu| ->%list_elem_of_singleton]%elem_of_app; [by apply G4, H4|].
        destruct G5 as [|G5]; [done|]. by apply H3 in G5.
      + intros u e He. by apply (Hf u e).
      + intros p Hp. by apply H3 in Hp. }
  destruct H as (_ & H1 & _ & H2). split; [done|]. intros t Ht. by apply H2, all_tids_spec.
Qed.

(** ** Dependencies between chunks *)

(** The types a chunk declares, and those it is made of or points to. *)
Definition declared (c : cdecl) : list tid :=
  if n_type c == "__decl__" then default [] (declares c) else [].

Definition needs (c : cdecl) : list tid :=
  if n_type c == "__decl__" then omap (fun e => dep_tid <$> dep_of e) (visited c) else [].

(** The chunk that declares a type last, which the tables take for the place of
    the type. *)
Definition provider (chunks : arr cdecl) (t : tid) : option string :=
  foldl (fun o kc => if decide (t ∈ declared kc.2) then Some kc.1 else o) None chunks.

(** Only the last declaration of a type says what the type is made of: those
    before it are forward declarations. *)
Fixpoint forward_first (chunks : arr cdecl) : Prop :=
  match chunks with
  | [] => True
  | (_, c) :: rest =>
      (needs c = [] \/ Forall (fun t => Forall (fun kc => t ∉ declared kc.2) rest) (declared c)) /\
      forward_first rest
  end.

(** The dependencies have no cycle through two chunks. *)
Definition acyclic_chunks (rank : string -> nat) (chunks : arr cdecl) : Prop :=
  Forall (fun kc => Forall (fun u => match provider chunks u with
    | Some k => k = kc.1 \/ rank k < rank kc.1
    | None => True
    end) (needs kc.2)) chunks.

#[export] Instance forward_first_dec chunks : Decision (forward_first chunks).
Proof. induction chunks as [|[k c] rest IH]; simpl; apply _. Defined.

#[export] Instance acyclic_chunks_dec rank chunks : Decision (acyclic_chunks rank chunks).
Proof.
  apply Forall_dec. intros kc. apply Forall_dec. intros u. destruct (provider chunks u); apply _.
Defined.

Lemma provider_snoc chunks k c t :
  provider (chunks ++ [(k, c)]) t = if decide (t ∈ declared c) then Some k else provider chunks t.
Proof. unfold provider. by rewrite foldl_app. Qed.

Lemma forward_first_split pre k c rest k0 c0 t :
  forward_first (pre ++ (k, c) :: rest) -> (k0, c0) ∈ pre -> t ∈ declared c0 -> t ∈ declared c ->
  needs c0 = [].
Proof.
  induction pre as [|[k1 c1] pre IH]; simpl; [by intros _ ?%not_elem_of_nil|].
  intros [H Hf] [[= -> ->]|Hin]%elem_of_cons Ht0 Ht; [|by apply IH].
  destruct H as [|H]; [done|]. rewrite Forall_forall in H. specialize (H t Ht0).
  rewrite Forall_forall in H. destruct (H (k, c)); [|done]. apply elem_of_app. right. by left.
Qed.

Lemma same_dep_tid x y : same_dep x y = true -> dep_tid x = dep_tid y.
Proof.
  unfold same_dep, dep_tid. intros [->%String.eqb_eq ->%String.eqb_eq]%andb_prop. done.
Qed.

(** The entries [dl] of a chunk while its declarations are visited: they hold
    the same list, and no other entry changes. *)
Definition same_lists (k : string) (dl : list tid) (d d1 : deps) (seen : list tid) : Prop :=
  exists l, (forall u, u ∈ map dep_tid l <-> u ∈ seen) /\
    forall t, get_entry t d1 = if decide (t ∈ dl) then Some (TEntry k l None None) else get_entry t d.

Lemma InsertDep_same_lists k dl d d1 d2 seen e :
  NoDup dl -> dl <> [] -> same_lists k dl d d1 seen ->
  rtxResolve_BlockReordering_InsertDep e dl d1 = Ret d2 ->
  same_lists k dl d d2 (seen ++ omap (fun e => dep_tid <$> dep_of e) [e]).
Proof.
  intros Hnd Hne (l & Hl & Hd1) (x & Hx & Hcase)%InsertDep_cases. simpl. rewrite Hx. simpl.
  destruct Hcase as [[-> Hex]| ->].
  - exists l. split; [|done]. intros u. rewrite elem_of_app, list_elem_of_singleton, Hl.
    split; [by left|intros [| ->]; [done|]]. apply Hl.
    destruct dl as [|t dl]; [done|]. unfold get_list in Hex.
    rewrite Hd1, decide_True in Hex by (by left). simpl in Hex.
    apply existsb_exists in Hex as (y & Hy & <-%same_dep_tid).
    apply list_elem_of_In, in_map_iff. by exists y.
  - exists (l ++ [x]). split.
    + intros u. rewrite map_app, !elem_of_app. by rewrite Hl.
    + intros t. rewrite get_foldl_upd by done. rewrite !Hd1. by destruct (decide (t ∈ dl)).
Qed.

(** An entry that is not there, or that forward declarations have opened. *)
Definition forward (o : option tentry) : Prop :=
  o = None \/ exists k, o = Some (TEntry k [] None None).

Lemma scan_chunk_types k c d d' :
  (forall t, t ∈ declared c -> forward (get_entry t d)) ->
  scan_chunk (k, c) d = Ret d' ->
  declared c <> [] -> same_lists k (declared c) d d' (needs c).
Proof.
  intros Hn. rewrite scan_chunk_eq. unfold declared, needs in *.
  destruct (n_type c == "__decl__"); [|done].
  destruct (declares c) as [dl|] eqn:Hdl; [|done]; simpl in *. apply declares_NoDup in Hdl.
  intros Hf Hne. revert Hf.
  apply (cw_foreach_inv _ (fun pre d1 => same_lists k dl d d1 (omap (fun e => dep_tid <$> dep_of e) pre))).
  - exists []. split; [done|]. intros t. rewrite open_all_get by done.
    destruct (decide (t ∈ dl)) as [Ht|]; [|done]. by destruct (Hn t Ht) as [->|[k0 ->]].
  - intros pre e rest d1 d2 _ H1 H2. rewrite omap_app. by apply (InsertDep_same_lists k dl d d1).
Qed.

Lemma scan_chunk_no_types k c d d' :
  declared c = [] -> scan_chunk (k, c) d = Ret d' -> forall t, get_entry t d' = get_entry t d.
Proof.
  rewrite scan_chunk_eq. unfold declared. destruct (n_type c == "__decl__"); [|by intros _ [= <-]].
  destruct (declares c) as [dl|]; [|done]; simpl. intros ->.
  apply (cw_foreach_inv _ (fun _ d1 => forall t, get_entry t d1 = get_entry t d)); [done|].
  intros pre e rest d1 d2 _ H1 (x & _ & [[-> _]| ->])%InsertDep_cases; done.
Qed.

Lemma scan_chunk_others k c d d' t :
  (forall t, t ∈ declared c -> forward (get_entry t d)) ->
  scan_chunk (k, c) d = Ret d' -> t ∉ declared c -> get_entry t d' = get_entry t d.
Proof.
  intros Hn Hs Ht. destruct (declared c) as [|t0 l0] eqn:Hc; [by apply (scan_chunk_no_types k c)|].
  destruct (scan_chunk_types k c d d') as (l & _ & Hd2); [by rewrite Hc|done|by rewrite Hc|].
  rewrite Hd2, Hc. by rewrite decide_False.
Qed.

(** What the first pass knows of a type. *)
Definition type_entry (chunks : arr cdecl) (d : deps) (t : tid) : Prop :=
  match provider chunks t with
  | None => get_entry t d = None
  | Some k => exists c l, (k, c) ∈ chunks /\ t ∈ declared c /\
      get_entry t d = Some (TEntry k l None None) /\ forall u, u ∈ map dep_tid l <-> u ∈ needs c
  end.

Lemma build_deps_types chunks d :
  forward_first chunks -> build_deps chunks = Ret d -> forall t, type_entry chunks d t.
Proof.
  intros Hff. apply (cw_foreach_inv scan_chunk (fun done d => forall t, type_entry done d t)).
  { intros t. by destruct t as [[] j]. }
  intros pre [k c] rest d1 d2 Hl HI Hscan t. rewrite Hl in Hff.
  assert (Hn : forall t, t ∈ declared c -> forward (get_entry t d1)).
  { intros t' Ht. specialize (HI t'). unfold type_entry in HI.
    destruct (provider pre t') as [k0|]; [|by left]. destruct HI as (c0 & l & Hin & Ht' & -> & Hl').
    right. exists k0. rewrite (forward_first_split pre k c rest k0 c0 t' Hff Hin Ht' Ht) in Hl'.
    destruct l as [|x l]; [done|]. exfalso. apply (not_elem_of_nil (dep_tid x)), Hl'. by left. }
  unfold type_entry. rewrite provider_snoc. destruct (decide (t ∈ declared c)) as [Ht|Ht].
  - destruct (scan_chunk_types k c d1 d2) as (l & Hu & Hd2);
      [done|done|intros E; rewrite E in Ht; by apply not_elem_of_nil in Ht|].
    exists c, l. rewrite Hd2, decide_True by done. split_and!; [|done..].
    apply elem_of_app. right. by left.
  - specialize (HI t). unfold type_entry in HI. rewrite (scan_chunk_others k c d1 d2) by done.
    destruct (provider pre t); [|done]. destruct HI as (c0 & l & Hin & H). exists c0, l.
    split; [|done]. apply elem_of_app. by left.
Qed.

(** [k'] comes before [k]. *)
Definition before (k' k : string) (ks : list string) : Prop :=
  exists pre mid post, ks = pre ++ k' :: mid ++ k :: post.

Lemma before_intro k' k ks pre post : ks = pre ++ k :: post -> k' ∈ pre -> before k' k ks.
Proof.
  intros -> (a & b & ->)%list_elem_of_split. exists a, b, post.
  by rewrite <- app_assoc.
Qed.

Lemma key_functional {A} (a : arr A) k x y : NoDup (akeys a) -> (k, x) ∈ a -> (k, y) ∈ a -> x = y.
Proof.
  intros Hnd Hx Hy. pose proof (In_aget k a x Hnd Hx). pose proof (In_aget k a y Hnd Hy). congruence.
Qed.

(** The relations of the walk, in terms of chunks. *)
Section chunks.
Context (chunks : arr cdecl) (d : deps).
Context (distinct : NoDup (akeys chunks)) (types : forall t, type_entry chunks d t).

Lemma entry_provider t : is_Some (get_entry t d) -> provider chunks t = Some (loc d t).
Proof using types.
  intros [e He]. pose proof (types t) as H. unfold type_entry in H. unfold loc.
  destruct (provider chunks t) as [k|]; [|congruence]. by destruct H as (c & l & _ & _ & -> & _).
Qed.

Lemma provider_entry t k : provider chunks t = Some k -> is_Some (get_entry t d) /\ loc d t = k.
Proof using types.
  intros Hp. pose proof (types t) as H. unfold type_entry in H. rewrite Hp in H. unfold loc.
  destruct H as (c & l & _ & _ & -> & _). split; [by eexists|done].
Qed.

Lemma entry_chunk t : is_Some (get_entry t d) -> exists c, (loc d t, c) ∈ chunks /\ t ∈ declared c.
Proof using types.
  intros Ht. pose proof (types t) as H. unfold type_entry in H. rewrite (entry_provider t Ht) in H.
  destruct H as (c & l & Hin & Hc & _). by exists c.
Qed.

Lemma uses_chunk c t u :
  is_Some (get_entry t d) -> (loc d t, c) ∈ chunks ->
  uses d t u <-> is_Some (get_entry u d) /\ u ∈ needs c.
Proof using distinct types.
  intros Ht Hk. pose proof (types t) as H. unfold type_entry in H. rewrite (entry_provider t Ht) in H.
  destruct H as (c' & l & Hin & _ & He & Hn). rewrite (key_functional chunks (loc d t) c' c distinct Hin Hk) in Hn.
  rewrite <- Hn. unfold uses. rewrite list_elem_of_In, in_map_iff, He. split.
  - intros (Hu & e' & x & [= <-] & Hx & <-). split; [done|]. exists x. by rewrite <- list_elem_of_In.
  - intros (Hu & x & <- & Hx). split; [done|]. eexists _, x. rewrite list_elem_of_In. by split_and!.
Qed.

Lemma shared_chunk t t' u : is_Some (get_entry t' d) -> loc d t = loc d t' -> uses d t u -> uses d t' u.
Proof using distinct types.
  intros Ht' Hl Hu. destruct (Hu) as (_ & e & _ & He & _).
  destruct (entry_chunk t') as (c & Hc & _); [done|].
  apply (uses_chunk c t' u Ht' Hc). rewrite <- Hl in Hc. by apply (uses_chunk c t u); [exists e|..].
Qed.

Lemma acyclic_chunk (rank : string -> nat) :
  acyclic_chunks rank chunks ->
  forall t u, uses d t u -> loc d u = loc d t \/ rank (loc d u) < rank (loc d t).
Proof using distinct types.
  intros Hac t u Hu. destruct (Hu) as (Hu' & e & _ & He & _).
  destruct (entry_chunk t) as (c & Hc & _); [by exists e|].
  apply (uses_chunk c t u) in Hu as [_ Hn]; [|by exists e|done].
  unfold acyclic_chunks in Hac. rewrite Forall_forall in Hac. specialize (Hac _ Hc). simpl in Hac.
  rewrite Forall_forall in Hac. specialize (Hac u Hn). by rewrite (entry_provider u Hu') in Hac.
Qed.

End chunks.

(** The walk puts the chunk of a type after those of the types it uses. *)
Lemma walk_before chunks d s rank k c u k' :
  NoDup (akeys chunks) -> forward_first chunks -> acyclic_chunks rank chunks ->
  build_deps chunks = Ret d -> walk_types chunks d = Ret s ->
  (k, c) ∈ chunks -> u ∈ needs c -> provider chunks u = Some k' -> k <> k' ->
  k' ∈ w_inserted s /\ forall pre post, w_inserted s = pre ++ k :: post -> k' ∈ pre.
Proof.
  intros Hnd Hff Hac Hd Hs Hk Hu Hp Hne.
  pose proof (build_deps_types chunks d Hff Hd) as T.
  destruct (walk_types_ordered chunks d rank s) as [Hord Hall];
    [|by apply (shared_chunk chunks)|by apply (acyclic_chunk chunks)|done|].
  { intros t e He. by destruct (build_deps_fresh chunks d Hd t e He) as (_ & ? & ?). }
  destruct (provider_entry chunks d T u k' Hp) as [Hus Hlu]. split; [rewrite <- Hlu; by apply Hall|].
  intros pre post Heq.
  destruct (walk_types_total chunks d) as (s' & Hs' & _ & _ & Hkeys). rewrite Hs in Hs'. injection Hs' as <-.
  destruct (Hkeys k) as (t & e & He & Hle); [rewrite Heq; apply elem_of_app; right; by left|].
  assert (Hlt : loc d t = k) by (unfold loc; by rewrite He).
  destruct (Hord pre k post t u Heq) as [H|H]; [|done|congruence|by rewrite <- Hlu].
  apply (uses_chunk chunks d Hnd T c); [by exists e|by rewrite Hlt|done].
Qed.

(** C10: When only the last declaration of each type says what the type is
    made of and the dependencies have no cycle through two chunks, the block
    that the compiler reorders is a permutation of its chunks in which every
    chunk comes after the chunks that declare the types it uses, pointers
    included. *)
Theorem reorder_topological chunks rank out :
  NoDup (akeys chunks) -> forward_first chunks -> acyclic_chunks rank chunks ->
  rtxResolve_BlockReordering chunks = Ret out ->
  exists ks, ks ≡ₚ akeys chunks /\ out = map (chunk_at chunks) ks /\
    forall k c u k', (k, c) ∈ chunks -> u ∈ needs c -> provider chunks u = Some k' -> k <> k' ->
      before k' k ks.
Proof.
  intros Hnd Hff Hac (d & s & Hd & Hs & Hi & ->)%reorder_inv.
  exists (w_inserted (append_rest chunks s)). split_and!; [|done|].
  { apply (rest_keys chunks d); [done|by apply build_deps_fresh|done]. }
  intros k c u k' Hin Hu Hp Hne.
  destruct (walk_before chunks d s rank k c u k') as [Hk' Hpre]; [done..|].
  destruct (append_rest_spec chunks (akeys chunks) s (proj1 (proj2 Hi))) as (_ & [more Hmore] & Hall).
  fold (append_rest chunks s) in Hmore, Hall.
  assert (Hk : k ∈ w_inserted (append_rest chunks s)).
  { apply Hall. right. apply aget_Some_keys. exists c. by apply In_aget. }
  rewrite Hmore in *. apply elem_of_app in Hk as [(a & b & Hab)%list_elem_of_split|(a & b & ->)%list_elem_of_split].
  - apply (before_intro _ _ _ a (b ++ more)); [by rewrite Hab, <- app_assoc|by apply (Hpre a b)].
  - apply (before_intro _ _ _ (w_inserted s ++ a) b); [by rewrite <- app_assoc|]. apply elem_of_app. by left.
Qed.

Definition test_rank (k : string) : nat :=
  if k == "2" then 3 else if k == "1" then 2 else if (k == "5") || (k == "6") then 1 else 0.

Example reorder_topological_witness :
  forward_first test_block /\ acyclic_chunks test_rank test_block /\
  exists out ks, rtxResolve_BlockReordering test_block = Ret out /\ ks ≡ₚ akeys test_block /\
    before "5" "1" ks /\ before "6" "2" ks.
Proof.
  assert (Hnd : NoDup (akeys test_block)) by (apply (bool_decide_unpack _); vm_compute; exact I).
  assert (Hff : forward_first test_block) by (apply (bool_decide_unpack _); vm_compute; exact I).
  assert (Hac : acyclic_chunks test_rank test_block) by (apply (bool_decide_unpack _); vm_compute; exact I).
  split; [exact Hff|split; [exact Hac|]].
  pose proof (reorder_topological test_block test_rank) as H.
  destruct (rtxResolve_BlockReordering test_block) as [out| |] eqn:E; [|vm_compute in E; discriminate E..].
  destruct (H out Hnd Hff Hac eq_refl) as (ks & Hks & _ & Hb).
  exists out, ks. split; [reflexivity|split; [exact Hks|split]].
  - apply (Hb "1" (chunk_at test_block "1") (Structs, "data")); try reflexivity; try discriminate;
      vm_compute; repeat constructor.
  - apply (Hb "2" (chunk_at test_block "2") (Typedefs, "u_test")); try reflexivity; try discriminate;
      vm_compute; repeat constructor.
Defined.

(** ** Where the order is not that of C *)

(** [struct a] points to [struct b], which holds a [struct a]. *)
Definition pointer_block : arr cdecl :=
  [("0", struct_def "a" [field "p" (struct_ref true "b")]);
   ("1", struct_def "b" [field "x" (struct_ref false "a")])].

(** The name of a type is declared after the type. *)
Definition renamed_block : arr cdecl :=
  [("0", struct_def "a" [field "i" (prim "int")]);
   ("1", typedef_struct "a" "t_a" []);
   ("2", struct_def "b" [field "x" (struct_ref false "a")])].

(** In [pointer_block] the definition of [b] comes before that of the [a] it
    holds, though they were in order; in [renamed_block] [a] comes last. *)
Theorem reorder_misplaces :
  rtxResolve_BlockReordering pointer_block =
    Ret [chunk_at pointer_block "1"; chunk_at pointer_block "0"] /\
  rtxResolve_BlockReordering renamed_block =
    Ret [chunk_at renamed_block "1"; chunk_at renamed_block "2"; chunk_at renamed_block "0"].
Proof. split; vm_compute; reflexivity. Qed.
