(* ===== verification/ConfigMatcher.v ===== *)
(** * The matching of configurations

    Model of src/rathaxes/compiler/linker/rtxLink_ConfigMatcher.inc.cws, of the
    comparisons of typing/rules_types/number.inc.cws, symbol.inc.cws and
    string.inc.cws, and of the functions of node/rtxNode.inc.cws that prepare
    what is matched.  A block of code written for some systems carries
    constraints ([with]: an operator and a value for variables of interfaces);
    the linker keeps it when the configuration of the driver satisfies them. *)
From Stdlib Require Import String Ascii.
From S2P Require Import Prelude CodeWorker.

Local Open Scope string_scope.
Local Open Scope list_scope.
Local Open Scope nat_scope.
Local Open Scope cw_scope.
Local Infix "==" := String.eqb (at level 70).

(** ** Nodes *)

Record ident := Ident { id_scope : string; id_name : string; id_global : bool }.

(** A node of which [rtxRTypeName] asks the name: the constructors are the
    values of its attribute [type] that the function knows, [__rtx_id__] and
    [__rtx_rtype__]. *)
Inductive tnode := TId (i : ident) | TRType (name : tnode) (qualifier : string) | TOther (type : string).

(** A unit or a separator of a serial value such as [2.6.24]. *)
Record sunit := SUnit { u_type : string; u_val : string }.

(** A value: a number, a symbol and a string hold [v_val], a serial [v_list]. *)
Record vnode := VNode { v_type : string; v_rtype : tnode; v_val : string; v_list : list sunit }.

#[export] Instance ident_eq_dec : EqDecision ident.
Proof. solve_decision. Defined.
#[export] Instance tnode_eq_dec : EqDecision tnode.
Proof. solve_decision. Defined.
#[export] Instance sunit_eq_dec : EqDecision sunit.
Proof. solve_decision. Defined.
#[export] Instance vnode_eq_dec : EqDecision vnode.
Proof. solve_decision. Defined.

Definition rtxNodeIdentifier (id scope : string) : ident := Ident scope id false.

Definition rtxNodeRType (name : tnode) : tnode := TRType name "scalar".

Definition rtxNodeSerialUnit (theUnit : string) : sunit := SUnit "__rtx_serial_unit__" theUnit.

Definition rtxNodeSerialSep (theSeparator : string) : sunit := SUnit "__rtx_serial_sep__" theSeparator.

Definition rtxNodeSerial : vnode :=
  VNode "__rtx_serial__" (rtxNodeRType (TId (rtxNodeIdentifier "serial" "Builtin"))) "" [].

(** It answers whether it was given a serial. *)
Definition rtxNodeSerial_AddUnit (theSerial : vnode) (theSerialUnit : sunit) : bool * vnode :=
  if v_type theSerial == "__rtx_serial__" then
    (true, VNode (v_type theSerial) (v_rtype theSerial) (v_val theSerial) (v_list theSerial ++ [theSerialUnit]))
  else (false, theSerial).

Fixpoint rtxRTypeName (theNode : tnode) : cw_outcome string :=
  match theNode with
  | TRType name _ => rtxRTypeName name
  | TId i =>
      if negb (id_global i) && (id_scope i == "") then Ret (id_name i)
      else if id_global i then Ret ("::" ++ id_name i)%string
      else Ret (id_scope i ++ "::" ++ id_name i)%string
  | TOther _ => Error
  end.

(** ** Comparisons *)

Section comparisons.
Context {V : ValueOrder}.

(** The loop of the four comparisons of serials over the units of [ref], which
    differ in what they return: [oob] where [val] has no more units, [lt] and
    [gt] where its unit is lesser and greater.  No result: the loop went through
    [ref].  The index is compared with the number of units as two values. *)
Fixpoint serial_loop (oob lt gt : bool) (refs : list sunit) (idx : nat) (val : list sunit) : option bool :=
  match refs with
  | [] => None
  | ref_unit :: refs =>
      if vgeb (cw_nat idx) (cw_nat (length val)) then Some oob
      else
        let val_unit := nth idx val (SUnit "" "") in
        if negb (u_type val_unit == u_type ref_unit) then Some false
        else if u_type ref_unit == "__rtx_serial_unit__" then
          if vltb (u_val val_unit) (u_val ref_unit) then Some lt
          else if vgtb (u_val val_unit) (u_val ref_unit) then Some gt
          else serial_loop oob lt gt refs (S idx) val
        else if u_type ref_unit == "__rtx_serial_sep__" then
          if negb (u_val val_unit == u_val ref_unit) then Some false
          else serial_loop oob lt gt refs (S idx) val
        else Some false
  end.

(** [getArraySize(val.list) > getArraySize(ref.list)]. *)
Definition longer (val ref : list sunit) : bool := vgtb (cw_nat (length val)) (cw_nat (length ref)).

Definition serial_CompareLesser (ref val : vnode) : bool :=
  match serial_loop true true false (v_list ref) 0 (v_list val) with
  | Some b => b
  | None => if longer (v_list val) (v_list ref) then false else false
  end.

Definition serial_CompareLesserEqual (ref val : vnode) : bool :=
  match serial_loop true true false (v_list ref) 0 (v_list val) with
  | Some b => b
  | None => if longer (v_list val) (v_list ref) then false else true
  end.

(** [equalTrees(ref, val)]. *)
Definition serial_CompareEqual (ref val : vnode) : bool := bool_decide (ref = val).

Definition serial_CompareGreaterEqual (ref val : vnode) : bool :=
  match serial_loop false false true (v_list ref) 0 (v_list val) with
  | Some b => b
  | None => true
  end.

Definition serial_CompareGreater (ref val : vnode) : bool :=
  match serial_loop false false true (v_list ref) 0 (v_list val) with
  | Some b => b
  | None => if longer (v_list val) (v_list ref) then true else false
  end.

(** [cutString(s, ".", parts)]: the pieces of [s] between the points. *)
Fixpoint cutString (s : string) : list string :=
  match s with
  | EmptyString => [""]
  | String c s =>
      if Ascii.eqb c "." then "" :: cutString s
      else match cutString s with
           | p :: ps => String c p :: ps
           | [] => [String c ""]
           end
  end.

Definition number_CompareLesser (ref val : vnode) : bool :=
  let ref_parts := cutString (v_val ref) in
  let val_parts := cutString (v_val val) in
  if vltb (nth 0 val_parts "") (nth 0 ref_parts "") then true
  else if nth 0 val_parts "" == nth 0 ref_parts "" then
    if 1 <? length ref_parts then
      if length val_parts =? 1 then true
      else vltb (nth 1 val_parts "") (nth 1 ref_parts "")
    else false
  else false.

Definition number_CompareEqual (ref val : vnode) : bool := v_val ref == v_val val.

Definition number_CompareLesserEqual (ref val : vnode) : bool :=
  number_CompareLesser ref val || number_CompareEqual ref val.

Definition number_CompareGreater (ref val : vnode) : bool :=
  let ref_parts := cutString (v_val ref) in
  let val_parts := cutString (v_val val) in
  if vgtb (nth 0 val_parts "") (nth 0 ref_parts "") then true
  else if nth 0 val_parts "" == nth 0 ref_parts "" then
    if 1 <? length val_parts then
      if length ref_parts =? 1 then false
      else vgtb (nth 1 val_parts "") (nth 1 ref_parts "")
    else false
  else false.

Definition number_CompareGreaterEqual (ref val : vnode) : bool :=
  number_CompareGreater ref val || number_CompareEqual ref val.

Definition symbol_CompareEqual (ref val : vnode) : bool := v_val ref == v_val val.

Definition string_CompareEqual (ref val : vnode) : bool := v_val ref == v_val val.

(** The functions by the name [T] of a type; where a type has none of its own
    the generic one calls [error]. *)
Definition rtxLink_CompareLesser (T : string) (ref val : vnode) : cw_outcome bool :=
  if T == "Builtin::serial" then Ret (serial_CompareLesser ref val)
  else if T == "Builtin::number" then Ret (number_CompareLesser ref val)
  else Error.

Definition rtxLink_CompareLesserEqual (T : string) (ref val : vnode) : cw_outcome bool :=
  if T == "Builtin::serial" then Ret (serial_CompareLesserEqual ref val)
  else if T == "Builtin::number" then Ret (number_CompareLesserEqual ref val)
  else Error.

Definition rtxLink_CompareEqual (T : string) (ref val : vnode) : cw_outcome bool :=
  if T == "Builtin::serial" then Ret (serial_CompareEqual ref val)
  else if T == "Builtin::number" then Ret (number_CompareEqual ref val)
  else if T == "Builtin::symbol" then Ret (symbol_CompareEqual ref val)
  else if T == "Builtin::string" then Ret (string_CompareEqual ref val)
  else Error.

Definition rtxLink_CompareGreaterEqual (T : string) (ref val : vnode) : cw_outcome bool :=
  if T == "Builtin::serial" then Ret (serial_CompareGreaterEqual ref val)
  else if T == "Builtin::number" then Ret (number_CompareGreaterEqual ref val)
  else Error.

Definition rtxLink_CompareGreater (T : string) (ref val : vnode) : cw_outcome bool :=
  if T == "Builtin::serial" then Ret (serial_CompareGreater ref val)
  else if T == "Builtin::number" then Ret (number_CompareGreater ref val)
  else Error.

(** The type is that of the value of the constraint; an operator without a
    function of its own has none to call. *)
Definition rtxLink_CompareValues (op : string) (ref val : vnode) : cw_outcome bool :=
  if op == "<" then T <- rtxRTypeName (v_rtype ref) ;; rtxLink_CompareLesser T ref val
  else if op == "<=" then T <- rtxRTypeName (v_rtype ref) ;; rtxLink_CompareLesserEqual T ref val
  else if op == "=" then T <- rtxRTypeName (v_rtype ref) ;; rtxLink_CompareEqual T ref val
  else if op == ">=" then T <- rtxRTypeName (v_rtype ref) ;; rtxLink_CompareGreaterEqual T ref val
  else if op == ">" then T <- rtxRTypeName (v_rtype ref) ;; rtxLink_CompareGreater T ref val
  else Error.

(** ** Matching *)

Record constraint := Constraint { c_var : ident; c_op : string; c_val : vnode }.

(** A variable of a configuration. *)
Record cvar := CVar { cv_type : string; cv_val : vnode }.

(** Constraints and variables, by interface and then by name. *)
Definition with_node : Type := arr (arr constraint).
Definition config_node : Type := arr (arr cvar).

(** The constraints of one interface, whose variables the configuration has. *)
Fixpoint match_interface (interface : arr constraint) (vars : arr cvar) : cw_outcome bool :=
  match interface with
  | [] => Ret true
  | (cst_key, cst) :: interface =>
      match aget cst_key vars with
      | None => Ret false
      | Some v =>
          r <- rtxLink_CompareValues (c_op cst) (c_val cst) (cv_val v) ;;
          if r : bool then match_interface interface vars else Ret false
      end
  end.

Fixpoint rtxLink_IsWithNodeCompatible (wth : with_node) (config : config_node) : cw_outcome bool :=
  match wth with
  | [] => Ret true
  | (itf_key, interface) :: wth =>
      match aget itf_key config with
      | None => rtxLink_IsWithNodeCompatible wth config
      | Some vars =>
          r <- match_interface interface vars ;;
          if r : bool then rtxLink_IsWithNodeCompatible wth config else Ret false
      end
  end.

End comparisons.

(** ** Preparing what is matched *)

(** [insert a[itf][var]] and the copy of [x] into it. *)
Definition ainsert2 {A} (itf var : string) (x : A) (a : arr (arr A)) : arr (arr A) :=
  aupd itf (fun o => aupd var (fun _ => x) (default [] o)) a.

Definition aget2 {A} (itf var : string) (a : arr (arr A)) : option A :=
  match aget itf a with Some vars => aget var vars | None => None end.

Definition aremove {A} (k : string) (a : arr A) : arr A :=
  List.filter (fun kx => negb (kx.1 == k)) a.

(** A [with] of the back end: its constraints as they were parsed, and by
    interface. *)
Record rtx_with := With { w_config : with_node; w_constraints : arr constraint }.

(** A constraint is stored under the scope and the name of its variable. *)
Definition rtxNodeWith_AssocInterfaceConstraint
    (local_node : rtx_with) (interface constraint_key : string) : rtx_with :=
  match aget constraint_key (w_constraints local_node) with
  | Some cst => With (ainsert2 interface (id_name (c_var cst)) cst (w_config local_node)) (w_constraints local_node)
  | None => local_node
  end.

Definition rtxNodeWith_BuildFromConstraints (local_node : rtx_with) : rtx_with :=
  let assoc := foldl (fun w kc => rtxNodeWith_AssocInterfaceConstraint w (id_scope (c_var kc.2)) kc.1)
                 local_node (w_constraints local_node) in
  With (w_config assoc) (foldl (fun a k => aremove k a) (w_constraints assoc) (akeys (w_constraints local_node))).

(** A variable of the front end, with those of its extension where it has one. *)
#[warnings="-register-all"]
Inductive cfgvar := CfgVar { g_id : ident; g_val : vnode; g_extension : option (list cfgvar) }.

(** It answers whether the variables were defined once; what it rejects it
    leaves out, with its extension. *)
Fixpoint rtxNodeWith_BuildFromConfigVar (local_node : cfgvar) (config : config_node)
    {struct local_node} : bool * config_node :=
  let itfName := id_scope (g_id local_node) in
  let varName := id_name (g_id local_node) in
  let config := if findElement itfName config then config else aupd itfName (fun _ => []) config in
  if match aget itfName config with Some vars => findElement varName vars | None => false end
  then (false, config)
  else
    let config := ainsert2 itfName varName (CVar (v_type (g_val local_node)) (g_val local_node)) config in
    match g_extension local_node with
    | None => (true, config)
    | Some block =>
        foldl (fun r var =>
          let r' := rtxNodeWith_BuildFromConfigVar var r.2 in (r.1 && r'.1, r'.2)) (true, config) block
    end.

(** [body.block] of a node of the front end, when its type is that of a
    configuration. *)
Definition rtxNodeWith_BuildFromConfig (type : string) (block : list cfgvar) (out_config : config_node)
    : bool * config_node :=
  if negb (type == "__rtx_config__") then (false, out_config)
  else foldl (fun r var =>
         let r' := rtxNodeWith_BuildFromConfigVar var r.2 in (r.1 && r'.1, r'.2)) (true, out_config) block.

(** ** The tests of the repository (tests/03_A to 03_F) *)

Definition build_serial (units : list sunit) : vnode :=
  foldl (fun s u => (rtxNodeSerial_AddUnit s u).2) rtxNodeSerial units.

Definition build_version (v1 v2 v3 : string) : vnode :=
  build_serial [rtxNodeSerialUnit v1; rtxNodeSerialSep "."; rtxNodeSerialUnit v2;
                rtxNodeSerialSep "."; rtxNodeSerialUnit v3].

Definition build_builtin (name val : string) : vnode :=
  VNode "" (rtxNodeRType (TId (rtxNodeIdentifier name "Builtin"))) val [].

Definition cst (op : string) (val : vnode) : constraint := Constraint (Ident "" "" false) op val.

Definition test_with : with_node :=
  [("LKM", [("OS", cst "=" (build_builtin "symbol" "PigeonMouette"));
            ("version", cst ">=" (build_version "2" "6" "24"));
            ("maj", cst "=" (build_builtin "number" "1"));
            ("min", cst ">" (build_builtin "number" "3"))]);
   ("Userland", [("testkey", cst "<" (build_builtin "number" "34"))])].

Definition test_config (min : string) : config_node :=
  [("LKM", [("OS", CVar "" (build_builtin "symbol" "PigeonMouette"));
            ("version", CVar "" (build_version "2" "6" "24"));
            ("maj", CVar "" (build_builtin "number" "1"));
            ("min", CVar "" (build_builtin "number" min))]);
   ("Userland", [("testkey", CVar "" (build_builtin "number" "21"))])].

Example test_03_A :
  map (fun cw => rtxLink_CompareValues "<" cw.2 cw.1)
    [(build_version "2" "6" "34", build_version "2" "6" "35");
     (build_version "2" "6" "35", build_version "2" "6" "35");
     (build_version "2" "6" "35",
      (rtxNodeSerial_AddUnit (rtxNodeSerial_AddUnit (build_version "2" "6" "35")
         (rtxNodeSerialSep ".")).2 (rtxNodeSerialUnit "1")).2);
     (build_version "2" "6" "35", build_version "2" "6" "34");
     (build_builtin "number" "1", build_builtin "number" "2");
     (build_builtin "number" "1", build_builtin "number" "1");
     (build_builtin "number" "2", build_builtin "number" "1");
     (build_builtin "symbol" "Windows7", build_builtin "symbol" "WindowsXP")]
  = [Ret true; Ret false; Ret true; Ret false; Ret true; Ret false; Ret false; Error].
Proof. vm_compute. reflexivity. Qed.

Example test_03_F :
  (rtxLink_IsWithNodeCompatible test_with (test_config "4"),
   rtxLink_IsWithNodeCompatible test_with (test_config "3"),
   rtxLink_IsWithNodeCompatible test_with [("LKM", [])],
   rtxLink_IsWithNodeCompatible test_with [])
  = (Ret true, Ret false, Ret false, Ret true).
Proof. vm_compute. reflexivity. Qed.

(** ** Serials are compared in lexicographic order *)

Section serials.
Context {V : ValueOrder}.

(** How [val] compares to [ref]; no result: at the first difference the two have
    different separators, or a unit against a separator. *)
Fixpoint serial_cmp (refs vals : list sunit) : option comparison :=
  match refs, vals with
  | [], [] => Some Eq
  | [], _ :: _ => Some Gt
  | _ :: _, [] => Some Lt
  | r :: refs, v :: vals =>
      if negb (u_type v == u_type r) then None
      else if u_type r == "__rtx_serial_unit__" then
        if vltb (u_val v) (u_val r) then Some Lt
        else if vltb (u_val r) (u_val v) then Some Gt
        else serial_cmp refs vals
      else if u_type r == "__rtx_serial_sep__" then
        if u_val v == u_val r then serial_cmp refs vals else None
      else None
  end.

(** The loop, where running out of units counts as being lesser. *)
Lemma serial_loop_spec {L : ValueOrderLaws V} lt gt refs idx val :
  idx + length refs < 10 -> length val < 10 ->
  match serial_loop lt lt gt refs idx val with
  | Some b => match serial_cmp refs (drop idx val) with
              | Some Lt => b = lt
              | Some Gt => b = gt
              | Some Eq => False
              | None => b = false
              end
  | None => match serial_cmp refs (drop idx val) with
            | Some Eq => length val <= idx + length refs
            | Some Gt => idx + length refs < length val
            | _ => False
            end
  end.
Proof.
  revert idx. induction refs as [|r refs IH]; intros idx Hr Hv; simpl.
  - pose proof (length_drop val idx). destruct (drop idx val); simpl in *; lia.
  - simpl in Hr. unfold vgeb. rewrite vlt_digits by lia.
    destruct (Nat.ltb_spec idx (length val)) as [Hlt|Hge]; simpl.
    2: { by rewrite drop_ge by lia. }
    destruct (lookup_lt_is_Some_2 val idx Hlt) as [v Hvi].
    rewrite (drop_S val v idx Hvi), (nth_lookup_Some val idx _ v Hvi).
    destruct (negb (u_type v == u_type r)); [done|].
    specialize (IH (S idx)). replace (S idx + length refs) with (idx + S (length refs)) in IH by lia.
    specialize (IH Hr Hv). unfold vgtb.
    destruct (u_type r == "__rtx_serial_unit__").
    + destruct (vltb (u_val v) (u_val r)); [done|]. by destruct (vltb (u_val r) (u_val v)).
    + destruct (u_type r == "__rtx_serial_sep__"); [|done].
      by destruct (u_val v == u_val r).
Qed.

Lemma longer_spec {L : ValueOrderLaws V} val ref :
  length val < 10 -> length ref < 10 -> longer val ref = (length ref <? length val).
Proof. intros H1 H2. unfold longer, vgtb. by apply vlt_digits. Qed.

Definition is_cmp (P : comparison -> bool) (o : option comparison) : bool :=
  match o with Some c => P c | None => false end.

Lemma serial_compare {L : ValueOrderLaws V} ref val :
  length (v_list ref) < 10 -> length (v_list val) < 10 ->
  let c := serial_cmp (v_list ref) (v_list val) in
  rtxLink_CompareLesser "Builtin::serial" ref val =
    Ret (is_cmp (fun c => match c with Lt => true | _ => false end) c) /\
  rtxLink_CompareLesserEqual "Builtin::serial" ref val =
    Ret (is_cmp (fun c => match c with Gt => false | _ => true end) c) /\
  rtxLink_CompareGreaterEqual "Builtin::serial" ref val =
    Ret (is_cmp (fun c => match c with Lt => false | _ => true end) c) /\
  rtxLink_CompareGreater "Builtin::serial" ref val =
    Ret (is_cmp (fun c => match c with Gt => true | _ => false end) c).
Proof.
  intros Hr Hv. cbv zeta.
  unfold rtxLink_CompareLesser, rtxLink_CompareLesserEqual, rtxLink_CompareGreaterEqual, rtxLink_CompareGreater.
  rewrite !String.eqb_refl.
  unfold serial_CompareLesser, serial_CompareLesserEqual, serial_CompareGreaterEqual, serial_CompareGreater.
  rewrite !longer_spec by done.
  pose proof (serial_loop_spec true false (v_list ref) 0 (v_list val) Hr Hv) as H1.
  pose proof (serial_loop_spec false true (v_list ref) 0 (v_list val) Hr Hv) as H2.
  rewrite drop_0 in H1, H2. simpl in H1, H2.
  destruct (Nat.ltb_spec (length (v_list ref)) (length (v_list val)));
    destruct (serial_cmp _ _) as [[]|]; destruct (serial_loop true true false _ _ _) as [[]|],
      (serial_loop false false true _ _ _) as [[]|]; simpl; split_and!; intuition (congruence || lia).
Qed.

(** C15: On serial values of less than ten units and separators the four
    comparison loops implement one lexicographic comparison, which has no
    result where the separators or kinds of unit differ; then all four
    answer false. *)
Theorem serial_compare_refines {L : ValueOrderLaws V} ref val :
  length (v_list ref) < 10 -> length (v_list val) < 10 ->
  let c := serial_cmp (v_list ref) (v_list val) in
  rtxLink_CompareLesser "Builtin::serial" ref val =
    Ret (is_cmp (fun c => match c with Lt => true | _ => false end) c) /\
  rtxLink_CompareLesserEqual "Builtin::serial" ref val =
    Ret (is_cmp (fun c => match c with Gt => false | _ => true end) c) /\
  rtxLink_CompareGreaterEqual "Builtin::serial" ref val =
    Ret (is_cmp (fun c => match c with Lt => false | _ => true end) c) /\
  rtxLink_CompareGreater "Builtin::serial" ref val =
    Ret (is_cmp (fun c => match c with Gt => true | _ => false end) c).
Proof. apply serial_compare. Qed.

Lemma serial_cmp_flip {L : ValueOrderLaws V} a b : serial_cmp b a = option_map CompOpp (serial_cmp a b).
Proof.
  revert b. induction a as [|r a IH]; intros [|v b]; simpl; try done.
  rewrite (String.eqb_sym (u_type r)). destruct (String.eqb_spec (u_type v) (u_type r)) as [->|]; simpl; [|done].
  destruct (u_type r == "__rtx_serial_unit__").
  - destruct (vltb (u_val v) (u_val r)) eqn:E1; [by rewrite (vlt_asym _ _ E1)|].
    by destruct (vltb (u_val r) (u_val v)).
  - destruct (u_type r == "__rtx_serial_sep__"); [|done].
    rewrite (String.eqb_sym (u_val r)). by destruct (u_val v == u_val r).
Qed.

Lemma serial_cmp_Eq {L : ValueOrderLaws V} a b : serial_cmp a b = Some Eq -> a = b.
Proof.
  revert b. induction a as [|[rt rv] a IH]; intros [|[vt vv] b]; simpl; try done.
  destruct (String.eqb_spec vt rt) as [->|]; simpl; [|done].
  destruct (rt == "__rtx_serial_unit__").
  - destruct (vltb vv rv) eqn:E1; [done|]. destruct (vltb rv vv) eqn:E2; [done|].
    intros H. by rewrite (vlt_total _ _ E2 E1), (IH b H).
  - destruct (rt == "__rtx_serial_sep__"); [|done].
    destruct (String.eqb_spec vv rv) as [->|]; [|done]. intros H. by rewrite (IH b H).
Qed.

Lemma serial_cmp_trans {L : ValueOrderLaws V} a b c :
  serial_cmp a b = Some Lt -> serial_cmp b c = Some Lt -> serial_cmp a c = Some Lt.
Proof.
  revert b c. induction a as [|[rt rv] a IH]; intros [|[vt vv] b] [|[wt wv] c]; simpl; try done.
  destruct (String.eqb_spec vt rt) as [->|]; simpl; [|done].
  destruct (String.eqb_spec wt rt) as [->|]; simpl; [|done].
  destruct (rt == "__rtx_serial_unit__").
  - destruct (vltb vv rv) eqn:E1.
    + destruct (vltb wv vv) eqn:E2; [by rewrite (vlt_trans _ _ _ E2 E1)|].
      destruct (vltb vv wv) eqn:E3; [done|]. by rewrite (vlt_total _ _ E2 E3), E1.
    + destruct (vltb rv vv) eqn:E2; [done|]. rewrite (vlt_total _ _ E2 E1).
      destruct (vltb wv vv); [done|]. destruct (vltb vv wv); [done|]. apply IH.
  - destruct (rt == "__rtx_serial_sep__"); [|done].
    destruct (String.eqb_spec vv rv) as [->|]; [|done].
    destruct (String.eqb_spec wv rv) as [->|]; [|done]. apply IH.
Qed.

(** As far as both go, the two have the same separators at the same places. *)
Fixpoint same_form (a b : list sunit) : bool :=
  match a, b with
  | r :: a, v :: b =>
      (u_type v == u_type r) &&
      ((u_type r == "__rtx_serial_unit__") || (u_type r == "__rtx_serial_sep__") && (u_val v == u_val r)) &&
      same_form a b
  | _, _ => true
  end.

Lemma serial_cmp_form a b : same_form a b = true -> exists c, serial_cmp a b = Some c.
Proof.
  revert b. induction a as [|r a IH]; intros [|v b]; simpl; try by eexists.
  destruct (u_type v == u_type r); simpl; [|done].
  destruct (u_type r == "__rtx_serial_unit__"); simpl.
  - intros H. destruct (vltb _ _); [by eexists|]. destruct (vltb _ _); [by eexists|]. by apply IH.
  - destruct (u_type r == "__rtx_serial_sep__"); simpl; [|done].
    destruct (u_val v == u_val r); simpl; [|done]. apply IH.
Qed.

(** A serial, as [rtxNodeSerial] and [rtxNodeSerial_AddUnit] build it. *)
Definition is_serial (n : vnode) : Prop := n = build_serial (v_list n) /\ length (v_list n) < 10.

Lemma build_serial_eq us : build_serial us = VNode (v_type rtxNodeSerial) (v_rtype rtxNodeSerial) "" us.
Proof.
  unfold build_serial. induction us as [|u us IH] using rev_ind; [done|].
  rewrite foldl_app, IH. done.
Qed.

(** C38: The comparisons of serials order versions: < is irreflexive and
    transitive, > is its converse, and on serials of the same form >= is the
    negation of < and = holds exactly when neither < nor > does. *)
Theorem serial_order {L : ValueOrderLaws V} a b c :
  is_serial a -> is_serial b -> is_serial c ->
  rtxLink_CompareLesser "Builtin::serial" a a = Ret false /\
  rtxLink_CompareGreater "Builtin::serial" a b = rtxLink_CompareLesser "Builtin::serial" b a /\
  (rtxLink_CompareLesser "Builtin::serial" a b = Ret true ->
   rtxLink_CompareLesser "Builtin::serial" b c = Ret true ->
   rtxLink_CompareLesser "Builtin::serial" a c = Ret true) /\
  (same_form (v_list a) (v_list b) = true ->
   rtxLink_CompareGreaterEqual "Builtin::serial" a b =
     (l <- rtxLink_CompareLesser "Builtin::serial" a b ;; Ret (negb l)) /\
   (rtxLink_CompareEqual "Builtin::serial" a b = Ret true <->
    rtxLink_CompareLesser "Builtin::serial" a b = Ret false /\
    rtxLink_CompareGreater "Builtin::serial" a b = Ret false)).
Proof.
  intros [Ea Ha] [Eb Hb] [_ Hc].
  destruct (serial_compare a a Ha Ha) as (-> & _).
  destruct (serial_compare a b Ha Hb) as (-> & _ & -> & ->).
  destruct (serial_compare b a Hb Ha) as (-> & _).
  destruct (serial_compare b c Hb Hc) as (-> & _).
  destruct (serial_compare a c Ha Hc) as (-> & _).
  pose proof (serial_cmp_flip (v_list a) (v_list a)) as Haa.
  rewrite (serial_cmp_flip (v_list a) (v_list b)). split_and!.
  - by destruct (serial_cmp (v_list a) (v_list a)) as [[]|].
  - by destruct (serial_cmp (v_list a) (v_list b)) as [[]|].
  - destruct (serial_cmp (v_list a) (v_list b)) as [[]|] eqn:E1; try done.
    destruct (serial_cmp (v_list b) (v_list c)) as [[]|] eqn:E2; try done.
    by rewrite (serial_cmp_trans _ _ _ E1 E2).
  - intros [o Ho]%serial_cmp_form. rewrite Ho. split; [by destruct o|].
    unfold rtxLink_CompareEqual, serial_CompareEqual. rewrite String.eqb_refl. split.
    + intros [= Heq%bool_decide_eq_true]. rewrite Heq in Haa, Ho. rewrite Ho in Haa.
      by destruct o.
    + intros [H1 H2]. f_equal. apply bool_decide_eq_true.
      destruct o; try done. apply serial_cmp_Eq in Ho. by rewrite Ea, Eb, Ho.
Qed.

(** ** Numbers *)

(** A number without a point, which is all that the compiler parses. *)
Definition no_point (n : vnode) : Prop := cutString (v_val n) = [v_val n].

(** On numbers without a point the comparisons are those of their values. *)
Theorem number_order {L : ValueOrderLaws V} ref val :
  no_point ref -> no_point val ->
  rtxLink_CompareLesser "Builtin::number" ref val = Ret (vltb (v_val val) (v_val ref)) /\
  rtxLink_CompareGreater "Builtin::number" ref val = Ret (vltb (v_val ref) (v_val val)) /\
  rtxLink_CompareLesserEqual "Builtin::number" ref val = Ret (negb (vltb (v_val ref) (v_val val))) /\
  rtxLink_CompareGreaterEqual "Builtin::number" ref val = Ret (negb (vltb (v_val val) (v_val ref))) /\
  rtxLink_CompareEqual "Builtin::number" ref val =
    Ret (negb (vltb (v_val val) (v_val ref)) && negb (vltb (v_val ref) (v_val val))).
Proof.
  intros Hr Hv. unfold rtxLink_CompareLesser, rtxLink_CompareGreater, rtxLink_CompareLesserEqual,
    rtxLink_CompareGreaterEqual, rtxLink_CompareEqual. simpl.
  unfold number_CompareLesserEqual, number_CompareGreaterEqual, number_CompareLesser, number_CompareGreater,
    number_CompareEqual, vgtb. rewrite Hr, Hv. simpl.
  destruct (vltb (v_val val) (v_val ref)) eqn:E1.
  - rewrite (vlt_asym _ _ E1). destruct (String.eqb_spec (v_val ref) (v_val val)) as [E|].
    + by rewrite E, vlt_irrefl in E1.
    + by destruct (v_val val == v_val ref).
  - destruct (vltb (v_val ref) (v_val val)) eqn:E2.
    + destruct (String.eqb_spec (v_val ref) (v_val val)) as [E|]; [by rewrite E, vlt_irrefl in E2|].
      by destruct (v_val val == v_val ref).
    + rewrite (vlt_total _ _ E1 E2). by rewrite String.eqb_refl.
Qed.

(** ** Typing of constraints *)

(** The operators that the type of a value has. *)
Definition supports (op T : string) : bool :=
  if (T == "Builtin::serial") || (T == "Builtin::number") then
    (op == "<") || (op == "<=") || (op == "=") || (op == ">=") || (op == ">")
  else if (T == "Builtin::symbol") || (T == "Builtin::string") then op == "="
  else false.

Definition well_typed (c : constraint) : bool :=
  match rtxRTypeName (v_rtype (c_val c)) with Ret T => supports (c_op c) T | _ => false end.

Lemma rtxRTypeName_not_Short n : rtxRTypeName n <> Short.
Proof.
  induction n as [i|n IH q|t]; simpl; [|done|done].
  destruct (negb (id_global i) && (id_scope i == "")); [done|]. by destruct (id_global i).
Qed.

Lemma compare_values_outcome op ref val :
  if match rtxRTypeName (v_rtype ref) with Ret T => supports op T | _ => false end
  then exists b, rtxLink_CompareValues op ref val = Ret b
  else rtxLink_CompareValues op ref val = Error.
Proof.
  pose proof (rtxRTypeName_not_Short (v_rtype ref)) as Hn.
  unfold rtxLink_CompareValues. destruct (rtxRTypeName (v_rtype ref)) as [T| |]; simpl; [clear Hn| |done].
  - unfold supports, rtxLink_CompareLesser, rtxLink_CompareLesserEqual, rtxLink_CompareEqual,
      rtxLink_CompareGreaterEqual, rtxLink_CompareGreater.
    destruct (String.eqb_spec op "<") as [->|]; [|destruct (String.eqb_spec op "<=") as [->|];
      [|destruct (String.eqb_spec op "=") as [->|]; [|destruct (String.eqb_spec op ">=") as [->|];
      [|destruct (String.eqb_spec op ">") as [->|]]]]]; simpl;
    destruct (T == "Builtin::serial"), (T == "Builtin::number"), (T == "Builtin::symbol"),
      (T == "Builtin::string"); simpl; by try eexists.
  - destruct (op == "<"), (op == "<="), (op == "="), (op == ">="), (op == ">"); done.
Qed.

Lemma match_interface_typed interface vars :
  forallb (fun kc => well_typed kc.2) interface = true ->
  exists b, match_interface interface vars = Ret b.
Proof.
  induction interface as [|[k c] interface IH]; simpl; [by eexists|].
  intros [Hc Hi]%andb_prop. destruct (aget k vars) as [v|]; [|by eexists].
  pose proof (compare_values_outcome (c_op c) (c_val c) (cv_val v)) as H. unfold well_typed in Hc.
  rewrite Hc in H. destruct H as [[] ->]; simpl; [by apply IH|by eexists].
Qed.

(** Well-typed constraints do not go wrong: when each operator is one
    that the type of its value supports, matching returns true or false
    against any configuration and never calls error. *)
Theorem match_type_safety (wth : with_node) (config : config_node) :
  forallb (fun ki => forallb (fun kc => well_typed kc.2) ki.2) wth = true ->
  exists b, rtxLink_IsWithNodeCompatible wth config = Ret b.
Proof.
  induction wth as [|[itf interface] wth IH]; simpl; [by eexists|].
  intros [Hi Hw]%andb_prop. destruct (aget itf config) as [vars|]; [|by apply IH].
  destruct (match_interface_typed interface vars Hi) as [[] ->]; simpl; [by apply IH|by eexists].
Qed.

(** A comparison calls [error] exactly when the type of the constraint, where it
    has one, does not support the operator. *)
Theorem compare_values_error op ref val :
  rtxLink_CompareValues op ref val = Error <->
  (forall T, rtxRTypeName (v_rtype ref) = Ret T -> supports op T = false).
Proof.
  pose proof (compare_values_outcome op ref val) as H.
  destruct (rtxRTypeName (v_rtype ref)) as [T| |] eqn:E.
  - destruct (supports op T) eqn:Es.
    + destruct H as [b ->]. split; [done|]. intros HT. by rewrite (HT T eq_refl) in Es.
    + rewrite H. split; [|done]. by intros _ T' [= <-].
  - rewrite H. by split.
  - by destruct (rtxRTypeName_not_Short (v_rtype ref)).
Qed.

(** ** Matching is the conjunction of the constraints *)

Lemma match_interface_true interface vars :
  match_interface interface vars = Ret true <->
  forall k c, (k, c) ∈ interface ->
    exists v, aget k vars = Some v /\ rtxLink_CompareValues (c_op c) (c_val c) (cv_val v) = Ret true.
Proof.
  induction interface as [|[k c] interface IH]; simpl.
  { split; [by intros _ k c ?%not_elem_of_nil|done]. }
  split.
  - intros H j e [[= -> ->]|Hin]%elem_of_cons; destruct (aget k vars) as [v|]; try done;
      destruct (rtxLink_CompareValues (c_op c) (c_val c) (cv_val v)) as [[]| |] eqn:E; try done.
    + by exists v.
    + by apply IH.
  - intros H. destruct (H k c) as (v & -> & ->); [by left|]; simpl.
    apply IH. intros j e Hj. apply H. by right.
Qed.

Lemma match_true (wth : with_node) (config : config_node) :
  rtxLink_IsWithNodeCompatible wth config = Ret true <->
  forall itf interface vars, (itf, interface) ∈ wth -> aget itf config = Some vars ->
    match_interface interface vars = Ret true.
Proof.
  induction wth as [|[itf interface] wth IH]; simpl.
  { split; [by intros _ itf i vars ?%not_elem_of_nil|done]. }
  split.
  - intros H j i vars [[= -> ->]|Hin]%elem_of_cons Hv.
    + rewrite Hv in H. by destruct (match_interface interface vars) as [[]| |].
    + destruct (aget itf config) as [vs|]; [|by apply (proj1 IH H j i vars)].
      destruct (match_interface interface vs) as [[]| |]; try done. by apply (proj1 IH H j i vars).
  - intros H. destruct (aget itf config) as [vs|] eqn:E.
    + rewrite (H itf interface vs) by (by try left). simpl. apply IH. intros j i vars Hj. apply H. by right.
    + apply IH. intros j i vars Hj. apply H. by right.
Qed.

End serials.

(** ** What the nodes hold *)

Lemma aget2_ainsert2_eq {A} i v x (a : arr (arr A)) : aget2 i v (ainsert2 i v x a) = Some x.
Proof. unfold aget2, ainsert2. by rewrite aget_aupd_eq, aget_aupd_eq. Qed.

Lemma aget2_ainsert2_ne {A} i v j w x (a : arr (arr A)) :
  (j, w) <> (i, v) -> aget2 j w (ainsert2 i v x a) = aget2 j w a.
Proof.
  intros Hne. unfold aget2, ainsert2. destruct (decide (j = i)) as [->|Hj].
  - rewrite aget_aupd_eq, aget_aupd_ne by congruence. by destruct (aget i a).
  - by rewrite aget_aupd_ne.
Qed.

(** Arrays with each key once, at both levels. *)
Definition keyed2 {A} (a : arr (arr A)) : Prop :=
  NoDup (akeys a) /\ forall i vars, aget i a = Some vars -> NoDup (akeys vars).

Lemma keyed2_ainsert2 {A} i v (x : A) a : keyed2 a -> keyed2 (ainsert2 i v x a).
Proof.
  intros [H1 H2]. split; [by apply NoDup_akeys_aupd|]. intros j vars. unfold ainsert2.
  destruct (decide (j = i)) as [->|Hj].
  - rewrite aget_aupd_eq. intros [= <-]. apply NoDup_akeys_aupd.
    destruct (aget i a) as [vs|] eqn:E; simpl; [by apply (H2 i)|apply NoDup_nil_2].
  - rewrite aget_aupd_ne by done. apply H2.
Qed.

Lemma interface_ainsert2 {A} i v (x : A) a j :
  findElement j (ainsert2 i v x a) = (j == i) || findElement j a.
Proof.
  unfold findElement, ainsert2. destruct (String.eqb_spec j i) as [->|Hj].
  - by rewrite aget_aupd_eq.
  - by rewrite aget_aupd_ne.
Qed.

(** Building both nodes is a sequence of insertions. *)
Definition insert_all {A} (l : list (string * string * A)) (a : arr (arr A)) : arr (arr A) :=
  foldl (fun a e => ainsert2 e.1.1 e.1.2 e.2 a) a l.

Lemma insert_all_keyed2 {A} (l : list (string * string * A)) a : keyed2 a -> keyed2 (insert_all l a).
Proof. revert a. induction l as [|e l IH]; intros a H; simpl; [done|]. by apply IH, keyed2_ainsert2. Qed.

Lemma insert_all_other {A} (l : list (string * string * A)) a i v :
  (i, v) ∉ map fst l -> aget2 i v (insert_all l a) = aget2 i v a.
Proof.
  revert a. induction l as [|[[j w] y] l IH]; intros a; simpl; [done|].
  rewrite not_elem_of_cons. intros [Hne Hl]. rewrite IH by done. by apply aget2_ainsert2_ne.
Qed.

Lemma insert_all_get {A} (l : list (string * string * A)) a i v x :
  NoDup (map fst l) -> aget2 i v a = None ->
  aget2 i v (insert_all l a) = Some x <-> (i, v, x) ∈ l.
Proof.
  revert a. induction l as [|[[j w] y] l IH]; intros a Hnd Ha; simpl.
  - rewrite Ha, elem_of_nil. by split.
  - simpl in Hnd. apply NoDup_cons in Hnd as [Hjw Hnd]. rewrite elem_of_cons.
    destruct (decide ((i, v) = (j, w))) as [[= -> ->]|Hne].
    + rewrite insert_all_other, aget2_ainsert2_eq by done. split; [intros [= ->]; by left|].
      intros [[= ->]|Hin]; [done|]. destruct Hjw. apply list_elem_of_In, in_map_iff.
      exists (j, w, x). by rewrite <- list_elem_of_In.
    + rewrite IH by (try done; by rewrite aget2_ainsert2_ne). split; [by right|].
      intros [[= -> -> ->]|]; done.
Qed.

Lemma insert_all_interface {A} (l : list (string * string * A)) a i :
  findElement i (insert_all l a) = existsb (fun e => i == e.1.1) l || findElement i a.
Proof.
  revert a. induction l as [|[[j w] y] l IH]; intros a; simpl; [done|].
  rewrite IH, interface_ainsert2. by destruct (i == j), (existsb (fun e => i == e.1.1) l).
Qed.

Lemma insert_all_defined {A} (l : list (string * string * A)) i vars :
  aget i (insert_all l []) = Some vars -> exists v x, (i, v, x) ∈ l.
Proof.
  intros Hv. pose proof (insert_all_interface l [] i) as Hf. unfold findElement in Hf at 1.
  rewrite Hv, orb_false_r in Hf. symmetry in Hf. apply existsb_exists in Hf as ([[j w] y] & Hj & Heq).
  simpl in Heq. apply String.eqb_eq in Heq as ->. exists w, y. by apply list_elem_of_In.
Qed.

(** ** Building a [with] *)

Definition constraint_entry (c : constraint) : string * string * constraint :=
  (id_scope (c_var c), id_name (c_var c), c).

Lemma constraint_entries (cs : arr constraint) i v c :
  (i, v, c) ∈ map (fun kc => constraint_entry kc.2) cs <->
  exists k, (k, c) ∈ cs /\ (i, v) = (id_scope (c_var c), id_name (c_var c)).
Proof.
  unfold constraint_entry. rewrite list_elem_of_In, in_map_iff. split.
  - intros ([k c'] & [= <- <- <-] & Hc). exists k. by rewrite list_elem_of_In.
  - intros (k & Hc & [= -> ->]). exists (k, c). by rewrite <- list_elem_of_In.
Qed.

Lemma assoc_all_eq (l : arr constraint) cs cfg :
  NoDup (akeys cs) -> (forall kc, kc ∈ l -> kc ∈ cs) ->
  foldl (fun w kc => rtxNodeWith_AssocInterfaceConstraint w (id_scope (c_var kc.2)) kc.1) (With cfg cs) l =
  With (insert_all (map (fun kc => constraint_entry kc.2) l) cfg) cs.
Proof.
  intros Hnd. revert cfg. induction l as [|[k c] l IH]; intros cfg Hl; simpl; [done|].
  unfold rtxNodeWith_AssocInterfaceConstraint at 2. simpl.
  rewrite (In_aget k cs c Hnd) by (apply Hl; by left). apply IH. intros kc Hkc. apply Hl. by right.
Qed.

Lemma aremove_all (l : arr constraint) : foldl (fun a k => aremove k a) l (akeys l) = [].
Proof.
  assert (H : forall ks (a : arr constraint), (forall kc, kc ∈ a -> kc.1 ∈ ks) ->
              foldl (fun a k => aremove k a) a ks = []).
  { induction ks as [|k ks IH]; intros a Ha; simpl.
    - destruct a as [|kc a]; [done|]. destruct (not_elem_of_nil kc.1). apply Ha. by left.
    - apply IH. intros kc Hkc. apply list_elem_of_In, filter_In in Hkc as [Hin Hk].
      apply list_elem_of_In in Hin. apply Ha in Hin as [Hkk|Hin]%elem_of_cons; [|done].
      simpl in Hk. by rewrite Hkk, String.eqb_refl in Hk. }
  apply H. intros [k c] Hkc. apply aget_Some_keys. apply aget_Some_keys, list_elem_of_In, in_map_iff.
  exists (k, c). by rewrite <- list_elem_of_In.
Qed.

Lemma BuildFromConstraints_eq cfg cs :
  NoDup (akeys cs) ->
  rtxNodeWith_BuildFromConstraints (With cfg cs) =
  With (insert_all (map (fun kc => constraint_entry kc.2) cs) cfg) [].
Proof.
  intros Hnd. unfold rtxNodeWith_BuildFromConstraints. cbv zeta.
  replace (foldl _ (With cfg cs) (w_constraints (With cfg cs))) with
    (With (insert_all (map (fun kc => constraint_entry kc.2) cs) cfg) cs)
    by (symmetry; by apply assoc_all_eq).
  by rewrite aremove_all.
Qed.

(** ** Building a configuration *)

Lemma cfgvar_nested_ind (P : cfgvar -> Prop) :
  (forall v, (forall block, g_extension v = Some block -> Forall P block) -> P v) -> forall v, P v.
Proof.
  intros H. fix IH 1. intros v. apply H. destruct v as [i val [block|]]; simpl; [|done].
  intros ? [= <-]. induction block as [|w block IHb]; [apply Forall_nil_2|].
  apply Forall_cons_2; [apply IH|apply IHb].
Qed.

(** The variables in the order of the definitions. *)
Fixpoint flatten (v : cfgvar) : list (string * string * cvar) :=
  (id_scope (g_id v), id_name (g_id v), CVar (v_type (g_val v)) (g_val v)) ::
  match g_extension v with Some block => flat_map flatten block | None => [] end.

(** The entries are those of no variable that is defined already. *)
Fixpoint fresh_all (l : list (string * string * cvar)) (a : config_node) : bool :=
  match l with
  | [] => true
  | e :: l => negb (match aget2 e.1.1 e.1.2 a with Some _ => true | None => false end) &&
              fresh_all l (ainsert2 e.1.1 e.1.2 e.2 a)
  end.

Lemma fresh_all_app l k a : fresh_all (l ++ k) a = fresh_all l a && fresh_all k (insert_all l a).
Proof. revert a. induction l as [|e l IH]; intros a; simpl; [done|]. by rewrite IH, andb_assoc. Qed.

Lemma fresh_all_NoDup l a :
  fresh_all l a = true <->
  NoDup (map fst l) /\ forall i v, (i, v) ∈ map fst l -> aget2 i v a = None.
Proof.
  revert a. induction l as [|[[i v] x] l IH]; intros a; simpl.
  { split; [|done]. intros _. split; [apply NoDup_nil_2|by intros i v ?%not_elem_of_nil]. }
  destruct (aget2 i v a) as [y|] eqn:E; simpl.
  { split; [done|]. intros [_ H]. rewrite (H i v) in E; [done|by left]. }
  rewrite IH, NoDup_cons. split.
  - intros [Hnd H]. split_and!; [|done|].
    + intros Hin. apply H in Hin. by rewrite aget2_ainsert2_eq in Hin.
    + intros j w [[= -> ->]|Hin]%elem_of_cons; [done|].
      destruct (decide ((j, w) = (i, v))) as [[= -> ->]|Hne]; [done|].
      rewrite <- (aget2_ainsert2_ne i v j w x) by done. by apply H.
  - intros [[Hin Hnd] H]. split; [done|]. intros j w Hjw.
    rewrite aget2_ainsert2_ne by (by intros [= -> ->]). apply H. by right.
Qed.

Lemma ainsert2_opened i v x (a : config_node) :
  findElement i a = false -> ainsert2 i v x (aupd i (fun _ => []) a) = ainsert2 i v x a.
Proof.
  unfold findElement, ainsert2. induction a as [|[j vars] a IH]; simpl; [by rewrite String.eqb_refl|].
  destruct (i == j) eqn:E; simpl; [done|]. rewrite E. intros H. by rewrite IH.
Qed.

(** What a run of [rtxNodeWith_BuildFromConfigVar] on one or several variables
    answers and leaves. *)
Definition builds (r : bool * config_node) (b : bool) (l : list (string * string * cvar)) (a : config_node) : Prop :=
  if b && fresh_all l a then r = (true, insert_all l a) else r.1 = false.

Lemma build_block_spec block :
  Forall (fun v => forall a, builds (rtxNodeWith_BuildFromConfigVar v a) true (flatten v) a) block ->
  forall b a, builds (foldl (fun r var => let r' := rtxNodeWith_BuildFromConfigVar var r.2 in
                              (r.1 && r'.1, r'.2)) (b, a) block) b (flat_map flatten block) a.
Proof.
  unfold builds. induction 1 as [|v block Hv _ IH]; intros b a; [by destruct b|]. cbn [foldl flat_map].
  rewrite fresh_all_app. specialize (Hv a). simpl in Hv. cbv zeta. cbn [fst snd].
  destruct (rtxNodeWith_BuildFromConfigVar v a) as [ok a']; simpl in *.
  specialize (IH (b && ok) a'). destruct (fresh_all (flatten v) a); simpl.
  - injection Hv as -> ->. rewrite andb_true_r in IH |- *.
    destruct (b && fresh_all (flat_map flatten block) (insert_all (flatten v) a)); [|done].
    rewrite IH. unfold insert_all. by rewrite foldl_app.
  - rewrite Hv, andb_false_r in IH |- *. apply IH.
Qed.

Lemma BuildFromConfigVar_spec v a : builds (rtxNodeWith_BuildFromConfigVar v a) true (flatten v) a.
Proof.
  revert a. induction v as [v IH] using cfgvar_nested_ind. intros a.
  destruct v as [[sc nm gl] val ext]; simpl in *. unfold builds; simpl.
  set (a0 := if findElement sc a then a else aupd sc (fun _ => []) a).
  assert (Hdup : match aget sc a0 with Some vars => findElement nm vars | None => false end =
                 match aget2 sc nm a with Some _ => true | None => false end).
  { unfold a0, aget2, findElement. destruct (aget sc a) as [vars|] eqn:E; simpl; [by rewrite E|].
    by rewrite aget_aupd_eq. }
  rewrite Hdup. destruct (aget2 sc nm a) as [y|]; simpl; [done|].
  assert (Hins : ainsert2 sc nm (CVar (v_type val) val) a0 = ainsert2 sc nm (CVar (v_type val) val) a).
  { unfold a0. destruct (findElement sc a) eqn:E; [done|by apply ainsert2_opened]. }
  rewrite Hins. destruct ext as [block|]; [|done]. by apply (build_block_spec block (IH block eq_refl) true).
Qed.

Lemma BuildFromConfig_spec block a :
  builds (rtxNodeWith_BuildFromConfig "__rtx_config__" block a) true (flat_map flatten block) a.
Proof.
  apply (build_block_spec block). apply Forall_forall. intros v _ b. apply BuildFromConfigVar_spec.
Qed.

(** Building a configuration succeeds exactly when no variable,
    extensions included, is defined twice, and then holds exactly the
    variables of the source with their values. *)
Theorem build_config_spec block :
  let vars := flat_map flatten block in
  let r := rtxNodeWith_BuildFromConfig "__rtx_config__" block [] in
  (r.1 = true <-> NoDup (map fst vars)) /\
  (r.1 = true -> forall i v x, aget2 i v r.2 = Some x <-> (i, v, x) ∈ vars).
Proof.
  cbv zeta. pose proof (BuildFromConfig_spec block []) as H. unfold builds in H. simpl andb in H.
  destruct (fresh_all (flat_map flatten block) []) eqn:E.
  - apply fresh_all_NoDup in E as [Hnd _]. rewrite H. simpl. split; [done|]. intros _ i v x.
    by apply insert_all_get.
  - split; [|intros Hr; congruence]. split; [congruence|]. intros Hnd.
    assert (fresh_all (flat_map flatten block) [] = true) by (by apply fresh_all_NoDup).
    congruence.
Qed.

Example build_config_spec_example :
  (rtxNodeWith_BuildFromConfig "__rtx_config__"
     [CfgVar (Ident "LKM" "OS" false) (build_builtin "symbol" "Linux")
        (Some [CfgVar (Ident "LKM" "OS" false) (build_builtin "symbol" "Windows") None])] []).1 = false.
Proof. vm_compute. reflexivity. Qed.

(** ** From the sources to the decision *)

(** C11: From the sources to the decision: constraints, no two on one
    variable, and a configuration without double definitions are compatible
    exactly when every constraint on an interface that the configuration
    mentions has its variable defined there with a value that compares as
    the operator says. *)
Theorem link_match `{V : ValueOrder} cs block wth config :
  NoDup (akeys cs) -> NoDup (map (fun kc => (id_scope (c_var kc.2), id_name (c_var kc.2))) cs) ->
  rtxNodeWith_BuildFromConstraints (With [] cs) = wth ->
  rtxNodeWith_BuildFromConfig "__rtx_config__" block [] = (true, config) ->
  rtxLink_IsWithNodeCompatible (w_config wth) config = Ret true <->
  forall k c, (k, c) ∈ cs ->
    (exists v x, (id_scope (c_var c), v, x) ∈ flat_map flatten block) ->
    exists x, (id_scope (c_var c), id_name (c_var c), x) ∈ flat_map flatten block /\
      rtxLink_CompareValues (c_op c) (c_val c) (cv_val x) = Ret true.
Proof.
  intros Hk Hnd <- Hcfg. rewrite (BuildFromConstraints_eq [] cs Hk). simpl w_config.
  set (es := map (fun kc => constraint_entry kc.2) cs).
  assert (Hes : NoDup (map fst es)) by (unfold es; by rewrite map_map).
  pose proof (BuildFromConfig_spec block []) as Hb. unfold builds in Hb. rewrite Hcfg in Hb. simpl in Hb.
  destruct (fresh_all (flat_map flatten block) []) eqn:E; [|done]. injection Hb as ->.
  apply fresh_all_NoDup in E as [Hvars _]. set (vs := flat_map flatten block) in *.
  assert (H0 : forall A, keyed2 ([] : arr (arr A))) by (split; [apply NoDup_nil_2|done]).
  destruct (insert_all_keyed2 es [] (H0 _)) as [Hw1 Hw2].
  rewrite match_true. split.
  - intros H k c Hc (v & x & Hx).
    assert (He : aget2 (id_scope (c_var c)) (id_name (c_var c)) (insert_all es []) = Some c).
    { apply insert_all_get; [done|done|]. apply constraint_entries. by exists k. }
    apply (insert_all_get vs [] _ _ _ Hvars) in Hx; [|done]. unfold aget2 in He, Hx.
    destruct (aget _ (insert_all es [])) as [interface|] eqn:Ei; [|done].
    destruct (aget _ (insert_all vs [])) as [vars|] eqn:Ev; [|done].
    specialize (H _ interface vars (aget_In _ _ _ Ei) Ev). rewrite match_interface_true in H.
    destruct (H _ c (aget_In _ _ _ He)) as (y & Hy & Hcmp). exists y. split; [|done].
    apply (insert_all_get vs [] _ _ _ Hvars); [done|]. unfold aget2. by rewrite Ev.
  - intros H i interface vars Hi Hv. apply (In_aget _ _ _ Hw1) in Hi. apply match_interface_true.
    intros v c Hc. apply (In_aget _ _ _ (Hw2 i interface Hi)) in Hc.
    assert (He : (i, v, c) ∈ es) by (apply (insert_all_get es [] i v c Hes); [done|unfold aget2; by rewrite Hi]).
    apply constraint_entries in He as (k & Hkc & [= -> ->]). destruct (H k c Hkc) as (x & Hx & Hcmp).
    + by apply (insert_all_defined vs _ vars).
    + exists x. split; [|done]. apply (insert_all_get vs [] _ _ _ Hvars) in Hx; [|done].
      unfold aget2 in Hx. by rewrite Hv in Hx.
Qed.

(** The constraints of samples/rs232_mockup/lkm.blt. *)
Definition sample_constraints : arr constraint :=
  [("0", Constraint (Ident "LKM" "OS" false) "=" (build_builtin "symbol" "Linux"));
   ("1", Constraint (Ident "LKM" "version" false) ">=" (build_version "2" "6" "24"))].

Definition sample_config : list cfgvar :=
  [CfgVar (Ident "LKM" "OS" false) (build_builtin "symbol" "Linux")
     (Some [CfgVar (Ident "LKM" "version" false) (build_version "2" "6" "30") None])].

Example link_match_witness :
  NoDup (akeys sample_constraints) /\
  rtxLink_IsWithNodeCompatible (w_config (rtxNodeWith_BuildFromConstraints (With [] sample_constraints)))
    (rtxNodeWith_BuildFromConfig "__rtx_config__" sample_config []).2 = Ret true.
Proof.
  assert (H1 : NoDup (akeys sample_constraints)) by (apply (bool_decide_unpack _); vm_compute; exact I).
  assert (H2 : NoDup (map (fun kc => (id_scope (c_var kc.2), id_name (c_var kc.2))) sample_constraints))
    by (apply (bool_decide_unpack _); vm_compute; exact I).
  split; [exact H1|].
  apply (link_match sample_constraints sample_config _ _ H1 H2 eq_refl); [vm_compute; reflexivity|].
  intros k c Hc _. unfold sample_constraints in Hc. rewrite !elem_of_cons, elem_of_nil in Hc.
  destruct Hc as [[= -> ->]|[[= -> ->]|[]]]; eexists.
  - split; [simpl; left|vm_compute; reflexivity].
  - split; [simpl; right; left|vm_compute; reflexivity].
Defined.

Example serial_compare_refines_witness :
  rtxLink_CompareGreaterEqual "Builtin::serial" (build_version "2" "6" "24") (build_version "2" "6" "30") = Ret true.
Proof.
  destruct (serial_compare_refines (build_version "2" "6" "24") (build_version "2" "6" "30"))
    as (_ & _ & H & _); [vm_compute; lia|vm_compute; lia|]. exact H.
Defined.

Example serial_order_witness :
  rtxLink_CompareLesser "Builtin::serial" (build_version "2" "6" "35") (build_version "2" "4" "20") = Ret true.
Proof.
  destruct (serial_order (build_version "2" "6" "35") (build_version "2" "6" "24") (build_version "2" "4" "20"))
    as (_ & _ & H & _); [split; [reflexivity|vm_compute; lia]..|].
  apply H; vm_compute; reflexivity.
Defined.

Example number_order_witness :
  rtxLink_CompareGreaterEqual "Builtin::number" (build_builtin "number" "3") (build_builtin "number" "4") = Ret true.
Proof.
  destruct (number_order (build_builtin "number" "3") (build_builtin "number" "4"))
    as (_ & _ & _ & H & _); [reflexivity|reflexivity|]. exact H.
Defined.

Example match_type_safety_witness :
  exists b, rtxLink_IsWithNodeCompatible test_with (test_config "4") = Ret b.
Proof. apply (match_type_safety test_with). vm_compute. reflexivity. Defined.

(** ** Where the comparisons do less *)

(** 1.5 is not greater than 1, although 1 is lesser than 1.5. *)
Theorem number_decimals `{V : ValueOrder} {L : ValueOrderLaws V} :
  rtxLink_CompareLesser "Builtin::number" (build_builtin "number" "1.5") (build_builtin "number" "1") = Ret true /\
  rtxLink_CompareGreater "Builtin::number" (build_builtin "number" "1") (build_builtin "number" "1.5") = Ret false /\
  rtxLink_CompareGreaterEqual "Builtin::number" (build_builtin "number" "1") (build_builtin "number" "1.5") = Ret false.
Proof.
  unfold rtxLink_CompareLesser, rtxLink_CompareGreater, rtxLink_CompareGreaterEqual, number_CompareGreaterEqual,
    number_CompareLesser, number_CompareGreater, vgtb. simpl. by rewrite !vlt_irrefl.
Qed.

(** Units are compared as strings, and so are the index and the number of units. *)
Theorem serial_string_order :
  rtxLink_CompareGreater "Builtin::serial" (build_version "2" "6" "9") (build_version "2" "6" "10") = Ret false /\
  let long := build_serial (concat (repeat [rtxNodeSerialUnit "1"; rtxNodeSerialSep "."] 5) ++ [rtxNodeSerialUnit "1"]) in
  rtxLink_CompareLesser "Builtin::serial" long long = Ret true.
Proof. split; vm_compute; reflexivity. Qed.

(** Of two constraints on a variable the second alone is kept. *)
Theorem second_constraint_wins :
  let wth := rtxNodeWith_BuildFromConstraints (With []
    [("0", Constraint (Ident "LKM" "version" false) ">=" (build_version "2" "6" "24"));
     ("1", Constraint (Ident "LKM" "version" false) "<" (build_version "2" "6" "40"))]) in
  rtxLink_IsWithNodeCompatible (w_config wth)
    [("LKM", [("version", CVar "" (build_version "2" "4" "20"))])] = Ret true.
Proof. vm_compute. reflexivity. Qed.
