(* ===== verification/LinkSession.v ===== *)
(** * The session of the linker

    Model of src/rathaxes/compiler/linker/rtxLink.inc.cws, of the registration
    and the merging of rtxLink_Session.inc.cws and of the selections of
    rtxLink_Query.inc.cws.  The session is a table of the templates, by a hash
    of their prototype, and a table of the chunks of code, by pointcut; a template
    names its chunks by pointcut and position.  A session is also the
    cache on disk; what this run of the compiler adds is kept in a second one,
    [temp].  The matching of a configuration is ConfigMatcher.v. *)
From Stdlib Require Import String.
From S2P Require Import Prelude CodeWorker ConfigMatcher.

Local Open Scope string_scope.
Local Open Scope list_scope.
Local Open Scope nat_scope.
Local Open Scope cw_scope.
Local Infix "==" := String.eqb (at level 70).

(** ** Names *)

(** An rtype node, as a prototype or a pointcut. *)
Record proto := Proto { p_name : tnode; p_params : list tnode }.

(** The code is the same for sequences and for pointcuts. *)
Definition rtxRTypeFullQualifiedName (rTypeNode : proto) : cw_outcome string :=
  fullString <- rtxRTypeName (TRType (p_name rTypeNode) "scalar") ;;
  paramsNameList <- cw_foreach (fun entry l => n <- rtxRTypeName entry ;; Ret (l ++ [n])) (p_params rTypeNode) [] ;;
  Ret (fullString ++ "(" ++ String.concat "," paramsNameList ++ ")")%string.

Definition hashTemplatePrototype (theRType : proto) : cw_outcome string :=
  rtxRTypeFullQualifiedName theRType.

(** ** Caches *)

Record chunk_entry := ChunkEntry {
  ce_name : string; ce_with : with_node; ce_tpl_id : string; ce_script_file : string; ce_tree_file : string
}.

Record method_entry := MethodEntry { me_name : string; me_script_file : string; me_tree_file : string }.

(** [te_chunks] gives the position of a chunk among those of its pointcut;
    [te_files] are the script and tree of a template with a mapping. *)
Record tpl_entry := TplEntry {
  te_with : with_node; te_qualifier : string; te_rtype : option proto; te_decl : string;
  te_chunks : arr nat; te_methods : arr method_entry; te_files : option (string * string)
}.

Record glob_entry := GlobEntry {
  ge_with : with_node; ge_interfaces : string; ge_script_file : string; ge_tree_file : string
}.

Record ext_entry := ExtEntry { xe_with : with_node; xe_tree_file : string }.

Record itf_entry := ItfEntry { ie_name : string; ie_tree_file : option string; ie_extensions : list ext_entry }.

(** [templates] is the array [templates] itself; the tables of the templates are
    its attributes [sequences] and [types]. *)
Record cache := Cache {
  templates : arr (list tpl_entry);
  sequences : arr (list tpl_entry);
  types : arr (list tpl_entry);
  chunks : arr (list chunk_entry);
  global_code : list glob_entry;
  interfaces : arr itf_entry
}.

Definition empty_cache : cache := Cache [] [] [] [] [] [].

Record session := Session { cur : cache; temp : cache }.

#[export] Instance constraint_eq_dec : EqDecision constraint.
Proof. solve_decision. Defined.

(** The list at a key, empty where the key is missing. *)
Definition at_key {A} (k : string) (a : arr (list A)) : list A := default [] (aget k a).

(** [insert a[k]] and [pushItem a[k]]. *)
Definition push_at {A} (k : string) (x : A) (a : arr (list A)) : arr (list A) :=
  aupd k (fun o => default [] o ++ [x]) a.

(** A change of [a[k]#back]. *)
Fixpoint alter_back {A} (f : A -> A) (l : list A) : list A :=
  match l with
  | [] => []
  | [x] => [f x]
  | x :: l => x :: alter_back f l
  end.

Definition back_at {A} (k : string) (f : A -> A) (a : arr (list A)) : arr (list A) :=
  aupd k (fun o => alter_back f (default [] o)) a.

(** ** Registration *)

(** An element of the body of a template: a chunk, a declaration or a method. *)
Record item := Item {
  i_type : string; i_chunk_type : string; i_pointcut : proto; i_script_file : string; i_tree_file : string
}.

Record tpl_node := TplNode {
  tn_tpl_type : string; tn_rtype : proto; tn_qualifier : string; tn_mapping : bool;
  tn_script_file : string; tn_tree_file : string; tn_body : list item
}.

(** What a copy of a chunk that is missing holds. *)
Definition no_chunk : chunk_entry := ChunkEntry "" [] "" "" "".

(** A chunk joins those of its pointcut in both caches; the answer is its
    position in each. *)
Definition push_chunk (k : string) (e : chunk_entry) (c : cache) : nat * cache :=
  (length (at_key k (chunks c)),
   Cache (templates c) (sequences c) (types c) (push_at k e (chunks c)) (global_code c) (interfaces c)).

(** [insert theChunk.with = with_values] copies the value of a node and not the
    tree under it: the constraints are not kept with the chunk. *)
Definition rtxLink_SessionRegister_chunk
    (local_node : item) (hash : string) (s : session)
    : cw_outcome ((nat * nat) * session) :=
  full_pointcut_name <- rtxRTypeFullQualifiedName (i_pointcut local_node) ;;
  let e := ChunkEntry full_pointcut_name [] hash (i_script_file local_node) (i_tree_file local_node) in
  let '(id, c) := push_chunk full_pointcut_name e (cur s) in
  let '(id', c') := push_chunk full_pointcut_name e (temp s) in
  Ret ((id, id'), Session c c').

(** [rtxLink_CheckTplConflict]: a template of the list with the same [with]. *)
Definition rtxLink_CheckTplConflict (tpl_list : list tpl_entry) (with_values : with_node) : bool :=
  existsb (fun tpl => bool_decide (te_with tpl = with_values)) tpl_list.

(** The code asks the array [templates], not its tables. *)
Definition rtxLink_CheckSingleTpl (proto_hash : string) (with_values : with_node) (s : session) : bool :=
  if findElement proto_hash (templates (cur s))
  then rtxLink_CheckTplConflict (at_key proto_hash (templates (cur s))) with_values
  else false.

(** One of the two tables of templates. *)
Inductive tpl_table := Sequences | Types.

Definition tpls (tb : tpl_table) (c : cache) : arr (list tpl_entry) :=
  match tb with Sequences => sequences c | Types => types c end.

Definition set_tpls (tb : tpl_table) (a : arr (list tpl_entry)) (c : cache) : cache :=
  match tb with
  | Sequences => Cache (templates c) a (types c) (chunks c) (global_code c) (interfaces c)
  | Types => Cache (templates c) (sequences c) a (chunks c) (global_code c) (interfaces c)
  end.

Definition push_tpl (tb : tpl_table) (hash : string) (t : tpl_entry) (c : cache) : cache :=
  set_tpls tb (push_at hash t (tpls tb c)) c.

Definition back_tpl (tb : tpl_table) (hash : string) (f : tpl_entry -> tpl_entry) (c : cache) : cache :=
  set_tpls tb (back_at hash f (tpls tb c)) c.

Definition set_chunk (k : string) (id : nat) (t : tpl_entry) : tpl_entry :=
  TplEntry (te_with t) (te_qualifier t) (te_rtype t) (te_decl t)
    (aupd k (fun _ => id) (te_chunks t)) (te_methods t) (te_files t).

Definition set_decl (d : string) (t : tpl_entry) : tpl_entry :=
  TplEntry (te_with t) (te_qualifier t) (te_rtype t) d (te_chunks t) (te_methods t) (te_files t).

Definition set_method (k : string) (m : method_entry) (t : tpl_entry) : tpl_entry :=
  TplEntry (te_with t) (te_qualifier t) (te_rtype t) (te_decl t) (te_chunks t)
    (aupd k (fun _ => m) (te_methods t)) (te_files t).

(** What the body of a template of the table [tb] adds to it.  A template of a
    sequence holds chunks only. *)
Definition register_item (tb : tpl_table) (hash : string)
    (chunk : item) (s : session) : cw_outcome session :=
  full_pointcut_name <- rtxRTypeFullQualifiedName (i_pointcut chunk) ;;
  let as_chunk :=
    if i_type chunk == "__rtx_chunk__" then
      r <- rtxLink_SessionRegister_chunk chunk hash s ;;
      let '((id, id'), s) := r in
      let f id t :=
        set_chunk full_pointcut_name id
          (if (match tb with Types => true | Sequences => false end) && (i_chunk_type chunk == "decl")
           then set_decl full_pointcut_name t else t) in
      Ret (Session (back_tpl tb hash (f id) (cur s)) (back_tpl tb hash (f id') (temp s)))
    else Error in
  match tb with
  | Sequences => as_chunk
  | Types =>
      if (i_type chunk == "__rtx_chunk__") && negb (i_chunk_type chunk == "method") then as_chunk
      else
        let f := set_method full_pointcut_name
                   (MethodEntry full_pointcut_name (i_script_file chunk) (i_tree_file chunk)) in
        Ret (Session (back_tpl tb hash f (cur s)) (back_tpl tb hash f (temp s)))
  end.

(** The qualifier of a sequence is stored beside its templates, on the list. *)
Definition register_tpl (tb : tpl_table) (local_node : tpl_node) (with_values : with_node) (s : session)
    : cw_outcome session :=
  hash <- hashTemplatePrototype (tn_rtype local_node) ;;
  if rtxLink_CheckSingleTpl hash with_values s then Ret s
  else
    let t := TplEntry with_values (match tb with Types => tn_qualifier local_node | Sequences => "" end)
               (Some (tn_rtype local_node)) "" [] []
               (match tb with
                | Types => if tn_mapping local_node
                           then Some (tn_script_file local_node, tn_tree_file local_node) else None
                | Sequences => None
                end) in
    cw_foreach (register_item tb hash) (tn_body local_node)
      (Session (push_tpl tb hash t (cur s)) (push_tpl tb hash t (temp s))).

Definition rtxLink_SessionRegisterTpl (local_node : tpl_node) (with_values : with_node) (s : session)
    : cw_outcome session :=
  if (tn_tpl_type local_node == "type") || (tn_tpl_type local_node == "builtintype")
  then register_tpl Types local_node with_values s
  else if tn_tpl_type local_node == "sequence" then register_tpl Sequences local_node with_values s
  else Error.

(** A declaration of the back end.  [DWith] has its constraints, its first
    interface, whether it holds code of its own, and its body. *)
#[warnings="-register-all"]
Inductive decl :=
| DTpl (t : tpl_node)
| DChunk (i : item)
| DWith (constraints : arr constraint) (interface : string) (has_code : bool)
        (script_file tree_file : string) (body : list decl)
| DInterface (name : string)
| DExtension (name : string)
| DOther (known : bool).

Definition push_glob (e : glob_entry) (c : cache) : cache :=
  Cache (templates c) (sequences c) (types c) (chunks c) (global_code c ++ [e]) (interfaces c).

(** The code of a [with], unless some [with] of the same interface has code. *)
Definition register_global (theWith : with_node) (interface : string) (has_code : bool)
    (script_file tree_file : string) (s : session) : session :=
  if has_code && negb (existsb (fun glob => interface == ge_interfaces glob) (global_code (cur s)))
  then let e := GlobEntry theWith interface script_file tree_file in
       Session (push_glob e (cur s)) (push_glob e (temp s))
  else s.

Definition set_interfaces (a : arr itf_entry) (c : cache) : cache :=
  Cache (templates c) (sequences c) (types c) (chunks c) (global_code c) a.

(** An interface; [ignore] tells whether [this.cache_conflicts] is "ignore". *)
Definition rtxLink_SessionRegister_itf (ignore : bool) (itfName : string) (s : session) : cw_outcome session :=
  if findElement itfName (interfaces (cur s)) then if ignore then Ret s else Error
  else
    let itf := ItfEntry itfName (Some (itfName ++ ".tree")%string) [] in
    Ret (Session (set_interfaces (aupd itfName (fun _ => itf) (interfaces (cur s))) (cur s))
                 (set_interfaces (aupd itfName (fun _ => itf) (interfaces (temp s))) (temp s))).

Definition push_ext (x : ext_entry) (o : option itf_entry) : itf_entry :=
  match o with
  | Some i => ItfEntry (ie_name i) (ie_tree_file i) (ie_extensions i ++ [x])
  | None => ItfEntry "" None [x]
  end.

Definition rtxLink_SessionRegister_itf_extension (itfName : string) (with_values : with_node) (s : session)
    : cw_outcome session :=
  match aget itfName (interfaces (cur s)) with
  | None => Error
  | Some i =>
      let x := ExtEntry with_values
                 (itfName ++ "_ext_" ++ cw_nat (length (ie_extensions i)) ++ ".tree")%string in
      Ret (Session (set_interfaces (aupd itfName (push_ext x) (interfaces (cur s))) (cur s))
                   (set_interfaces (aupd itfName (push_ext x) (interfaces (temp s))) (temp s)))
  end.

(** [DOther]: a node of the front end or the configuration, which is skipped, or
    one that cannot be registered. *)
Fixpoint rtxLink_SessionRegister (ignore : bool) (local_node : decl) (with_values : with_node) (s : session)
    {struct local_node} : cw_outcome session :=
  match local_node with
  | DTpl t => rtxLink_SessionRegisterTpl t with_values s
  | DChunk i => r <- rtxLink_SessionRegister_chunk i "" s ;; Ret r.2
  | DWith constraints interface has_code script_file tree_file body =>
      let theWith := w_config (rtxNodeWith_BuildFromConstraints (With [] constraints)) in
      cw_foreach (fun d s => rtxLink_SessionRegister ignore d theWith s) body
        (register_global theWith interface has_code script_file tree_file s)
  | DInterface name => rtxLink_SessionRegister_itf ignore name s
  | DExtension name => rtxLink_SessionRegister_itf_extension name with_values s
  | DOther known => if known then Ret s else Error
  end.

(** The body of the root block, up to the first [error]. *)
Definition rtxLink_RegisterToCache (ignore : bool) (block : list decl) (s : session) : cw_outcome session :=
  cw_foreach (fun d s => rtxLink_SessionRegister ignore d [] s) block s.

(** ** Merging two caches *)

Definition merge_interface (ki : string * itf_entry) (dst : cache) : cw_outcome cache :=
  let '(k, itf) := ki in
  let with_itfs a := Cache (templates dst) (sequences dst) (types dst) (chunks dst) (global_code dst) a in
  match aget k (interfaces dst) with
  | None => Ret (with_itfs (interfaces dst ++ [(k, itf)]))
  | Some i =>
      match ie_tree_file itf with
      | Some _ => Error
      | None => Ret (with_itfs (aupd k (fun _ =>
                  ItfEntry (ie_name i) (ie_tree_file i) (ie_extensions i ++ ie_extensions itf)) (interfaces dst)))
      end
  end.

(** The copy of a chunk, and its position for the copy of its template. *)
Definition merge_chunk (tb : tpl_table) (hash : string) (cache2 : cache) (ki : string * nat) (dst : cache) : cache :=
  let '(chunk_name, id) := ki in
  let '(chunk_id, dst) := push_chunk chunk_name (nth id (at_key chunk_name (chunks cache2)) no_chunk) dst in
  back_tpl tb hash (set_chunk chunk_name chunk_id) dst.

Definition merge_tpl (ignore : bool) (tb : tpl_table) (cache2 : cache) (hash : string)
    (tpl : tpl_entry) (dst : cache) : cw_outcome cache :=
  if negb (rtxLink_CheckTplConflict (at_key hash (tpls tb dst)) (te_with tpl)) || ignore
  then Ret (foldl (fun dst ki => merge_chunk tb hash cache2 ki dst) (push_tpl tb hash tpl dst) (te_chunks tpl))
  else Error.

Definition merge_tpls (ignore : bool) (tb : tpl_table) (cache2 : cache)
    (kts : string * list tpl_entry) (dst : cache) : cw_outcome cache :=
  let '(hash, ts) := kts in
  cw_foreach (merge_tpl ignore tb cache2 hash) ts
    (set_tpls tb (aupd hash (default []) (tpls tb dst)) dst).

(** [ignore]: [this.cache_conflicts] is "ignore". *)
Definition rtxLink_MergeCaches (ignore : bool) (cache1 cache2 : cache) : cw_outcome cache :=
  dst <- cw_foreach merge_interface (interfaces cache2) cache1 ;;
  let dst := foldl (fun dst glob => push_glob glob dst) dst (global_code cache2) in
  dst <- cw_foreach (merge_tpls ignore Sequences cache2) (sequences cache2) dst ;;
  cw_foreach (merge_tpls ignore Types cache2) (types cache2) dst.

(** ** Selection *)

Section selection.
Context {V : ValueOrder}.

(** The nodes of a list whose [with] the configuration satisfies. *)
Definition compatible {A} (wth : A -> with_node) (config : config_node) (l : list A) : cw_outcome (list A) :=
  cw_foreach (fun x acc => b <- rtxLink_IsWithNodeCompatible (wth x) config ;;
                           Ret (if b : bool then acc ++ [x] else acc)) l [].

Fixpoint any_compatible (l : list tpl_entry) (with_values : config_node) : cw_outcome bool :=
  match l with
  | [] => Ret false
  | tpl :: l => b <- rtxLink_IsWithNodeCompatible (te_with tpl) with_values ;;
                if b : bool then Ret true else any_compatible l with_values
  end.

Definition rtxLink_HasCompatibleTpl (proto_hash : string) (with_values : config_node) (s : session)
    : cw_outcome bool :=
  if findElement proto_hash (templates (cur s))
  then any_compatible (at_key proto_hash (templates (cur s))) with_values
  else Ret false.

(** The copies of the templates of a prototype; no result where one of the
    tables that are asked has none. *)
Definition rtxLink_findTemplates (theRtype : proto) (specifier : string) (s : session)
    : cw_outcome (option (list tpl_entry * list tpl_entry)) :=
  hash <- hashTemplatePrototype theRtype ;;
  if negb (specifier == "type") && negb (findElement hash (sequences (cur s))) then Ret None
  else if negb (specifier == "sequence") && negb (findElement hash (types (cur s))) then Ret None
  else Ret (Some (if negb (specifier == "type") then at_key hash (sequences (cur s)) else [],
                  if negb (specifier == "sequence") then at_key hash (types (cur s)) else [])).

(** The one template that is left when those the configuration excludes are
    removed; no result where none or several are. *)
Definition rtxLink_selectUniqueTemplate (found : list tpl_entry * list tpl_entry) (config : config_node)
    : cw_outcome (option tpl_entry) :=
  seqs <- compatible te_with config found.1 ;;
  tys <- compatible te_with config found.2 ;;
  Ret (match seqs ++ tys with [t] => Some t | _ => None end).

Definition rtxLink_FindUniqueTemplate (tplRtype : proto) (config : config_node) (s : session)
    : cw_outcome (option tpl_entry) :=
  found <- rtxLink_findTemplates tplRtype "type" s ;;
  match found with
  | None => Ret None
  | Some found => rtxLink_selectUniqueTemplate found config
  end.

(** The chunk of a template for a pointcut; it is an error when the session has
    no such chunk. *)
Definition rtxLink_selectChunkFromTemplate (theTemplate : tpl_entry) (chunkName : string) (c : cache)
    : cw_outcome (option chunk_entry) :=
  match aget chunkName (te_chunks theTemplate) with
  | None => Ret None
  | Some id =>
      match nth_error (at_key chunkName (chunks c)) id with
      | Some chunk => Ret (Some chunk)
      | None => Error
      end
  end.

Definition rtxLink_findGlobalCode (with_values : config_node) (c : cache) : cw_outcome (list glob_entry) :=
  compatible ge_with with_values (global_code c).

Definition rtxLink_selectExtendedInterfaces (interface : itf_entry) (with_values : config_node)
    : cw_outcome (list ext_entry) :=
  compatible xe_with with_values (ie_extensions interface).

Definition rtxLink_findChunks (pointcutProto : string) (c : cache) : option (list chunk_entry) :=
  aget pointcutProto (chunks c).

Definition rtxLink_selectCompatibleChunks (l : list chunk_entry) (config : config_node)
    : cw_outcome (list chunk_entry) :=
  compatible ce_with config l.

End selection.

(** ** Arrays of lists *)

Lemma at_key_push_eq {A} k (x : A) a : at_key k (push_at k x a) = at_key k a ++ [x].
Proof. unfold at_key, push_at. by rewrite aget_aupd_eq. Qed.

Lemma at_key_push_ne {A} k j (x : A) a : j <> k -> at_key j (push_at k x a) = at_key j a.
Proof. intros H. unfold at_key, push_at. by rewrite aget_aupd_ne. Qed.

Lemma at_key_back_eq {A} k (f : A -> A) a : at_key k (back_at k f a) = alter_back f (at_key k a).
Proof. unfold at_key, back_at. by rewrite aget_aupd_eq. Qed.

Lemma at_key_back_ne {A} k j (f : A -> A) a : j <> k -> at_key j (back_at k f a) = at_key j a.
Proof. intros H. unfold at_key, back_at. by rewrite aget_aupd_ne. Qed.

Lemma at_key_default {A} k j (a : arr (list A)) : at_key j (aupd k (default []) a) = at_key j a.
Proof.
  unfold at_key. destruct (decide (j = k)) as [->|Hj]; [|by rewrite aget_aupd_ne].
  rewrite aget_aupd_eq. by destruct (aget k a).
Qed.

Lemma alter_back_snoc {A} (f : A -> A) l x : alter_back f (l ++ [x]) = l ++ [f x].
Proof.
  induction l as [|y l IH]; [done|]. simpl. rewrite IH. by destruct l.
Qed.

Lemma elem_of_alter_back {A} (f : A -> A) l x : x ∈ alter_back f l -> x ∈ l \/ exists y, y ∈ l /\ x = f y.
Proof.
  destruct l as [|y l _] using rev_ind; [by left|]. rewrite alter_back_snoc, !elem_of_app.
  intros [H| ->%list_elem_of_singleton]; [by left; left|]. right. exists y.
  split; [|done]. apply elem_of_app. right. by left.
Qed.

Lemma aupd_aupd {A} k (f g : option A -> A) a : aupd k g (aupd k f a) = aupd k (fun o => g (Some (f o))) a.
Proof.
  induction a as [|[j x] a IH]; simpl; [by rewrite String.eqb_refl|].
  destruct (k == j) eqn:E; simpl; rewrite E; [done|by rewrite IH].
Qed.

Lemma aupd_ext {A} k (f g : option A -> A) a : (forall o, f o = g o) -> aupd k f a = aupd k g a.
Proof.
  intros H. induction a as [|[j x] a IH]; simpl; [by rewrite H|]. destruct (k == j); by rewrite ?H, ?IH.
Qed.

Lemma back_at_push {A} k (f : A -> A) x a : back_at k f (push_at k x a) = push_at k (f x) a.
Proof.
  unfold back_at, push_at. rewrite aupd_aupd. apply aupd_ext. intros o. simpl. apply alter_back_snoc.
Qed.

Lemma aupd_middle {A} k (f : option A -> A) a x b :
  k ∉ akeys a -> aupd k f (a ++ (k, x) :: b) = a ++ (k, f (Some x)) :: b.
Proof.
  induction a as [|[j y] a IH]; simpl; [by rewrite String.eqb_refl|].
  rewrite not_elem_of_cons. intros [Hj Ha]. destruct (String.eqb_spec k j); [done|]. by rewrite IH.
Qed.

(** ** Caches whose templates find their chunks *)

Definition wf_tpl (c : cache) (t : tpl_entry) : Prop :=
  NoDup (akeys (te_chunks t)) /\
  forall k id, (k, id) ∈ te_chunks t -> id < length (at_key k (chunks c)).

Record wf_cache (c : cache) : Prop := {
  wf_found tb h t : t ∈ at_key h (tpls tb c) -> wf_tpl c t;
  wf_keys tb : NoDup (akeys (tpls tb c));
  wf_names k e : e ∈ at_key k (chunks c) -> ce_name e = k;
  wf_templates : templates c = []
}.

(** Chunks are only added, behind those there are. *)
Definition chunks_le (c c' : cache) : Prop :=
  forall k, at_key k (chunks c) `prefix_of` at_key k (chunks c').

#[export] Instance chunks_le_preorder : PreOrder chunks_le.
Proof. split; [intros c k; done|]. intros c1 c2 c3 H1 H2 k. etrans; [apply H1|apply H2]. Qed.

Lemma wf_tpl_le c c' t : chunks_le c c' -> wf_tpl c t -> wf_tpl c' t.
Proof.
  intros Hle [H1 H2]. split; [done|]. intros k id Hin.
  specialize (H2 k id Hin). specialize (Hle k). apply prefix_length in Hle. lia.
Qed.

(** What the chunks of a template are. *)
Definition resolve (c : cache) (t : tpl_entry) : list (string * option chunk_entry) :=
  map (fun ki => (ki.1, nth_error (at_key ki.1 (chunks c)) ki.2)) (te_chunks t).

Lemma resolve_le c c' t : chunks_le c c' -> wf_tpl c t -> resolve c' t = resolve c t.
Proof.
  intros Hle [_ H]. apply map_ext_in. intros [k id] Hin%list_elem_of_In. simpl. f_equal.
  destruct (Hle k) as [l ->]. apply nth_error_app1. by apply H.
Qed.

Lemma chunks_set_tpls tb a c : chunks (set_tpls tb a c) = chunks c.
Proof. by destruct tb. Qed.

Lemma tpls_set_eq tb a c : tpls tb (set_tpls tb a c) = a.
Proof. by destruct tb. Qed.

Lemma tpls_set_ne tb tb' a c : tb <> tb' -> tpls tb' (set_tpls tb a c) = tpls tb' c.
Proof. intros H. destruct tb, tb'; try reflexivity; by destruct H. Qed.

Lemma templates_set_tpls tb a c : templates (set_tpls tb a c) = templates c.
Proof. by destruct tb. Qed.

Lemma push_chunk_le k e c : chunks_le c (push_chunk k e c).2.
Proof.
  intros j. simpl. destruct (decide (j = k)) as [->|Hj].
  - rewrite at_key_push_eq. by apply prefix_app_r.
  - by rewrite at_key_push_ne.
Qed.

Lemma push_chunk_nth k e c :
  nth_error (at_key k (chunks (push_chunk k e c).2)) (push_chunk k e c).1 = Some e.
Proof. simpl. rewrite at_key_push_eq, nth_error_app2, Nat.sub_diag by lia. done. Qed.

Lemma tpls_push_chunk tb k e c : tpls tb (push_chunk k e c).2 = tpls tb c.
Proof. by destruct tb. Qed.

Lemma wf_push_chunk k e c : ce_name e = k -> wf_cache c -> wf_cache (push_chunk k e c).2.
Proof.
  intros He [H1 H2 H3 H4]. split.
  - intros tb h t. rewrite tpls_push_chunk. intros Ht%H1. apply (wf_tpl_le c); [apply push_chunk_le|done].
  - intros tb. by rewrite tpls_push_chunk.
  - intros j e' Hin. simpl in Hin. destruct (decide (j = k)) as [->|Hj].
    + rewrite at_key_push_eq in Hin. apply elem_of_app in Hin as [Hin| ->%list_elem_of_singleton]; [by apply H3|done].
    + rewrite at_key_push_ne in Hin by done. by apply H3.
  - done.
Qed.

(** A change of one table. *)
Lemma wf_set_tpls tb a c :
  wf_cache c -> NoDup (akeys a) -> (forall h t, t ∈ at_key h a -> wf_tpl c t) -> wf_cache (set_tpls tb a c).
Proof.
  intros [H1 H2 H3 H4] Hnd Ha.
  assert (Hc : forall t, wf_tpl (set_tpls tb a c) t <-> wf_tpl c t).
  { intros t. unfold wf_tpl. by rewrite chunks_set_tpls. }
  split.
  - intros tb' h t. rewrite Hc. destruct tb, tb'; simpl; [apply Ha|apply (H1 Types)|apply (H1 Sequences)|apply Ha].
  - intros tb'. destruct tb, tb'; simpl; [done|apply (H2 Types)|apply (H2 Sequences)|done].
  - rewrite chunks_set_tpls. apply H3.
  - by rewrite templates_set_tpls.
Qed.

Lemma wf_push_tpl tb h t c : wf_cache c -> wf_tpl c t -> wf_cache (push_tpl tb h t c).
Proof.
  intros Hwf Ht. apply wf_set_tpls; [done|apply NoDup_akeys_aupd, Hwf|]. intros j u.
  destruct (decide (j = h)) as [->|Hj].
  - rewrite at_key_push_eq. intros [Hin| ->%list_elem_of_singleton]%elem_of_app; [by apply (wf_found c Hwf tb h)|done].
  - rewrite at_key_push_ne by done. apply (wf_found c Hwf tb j).
Qed.

Lemma wf_back_tpl tb h f c :
  wf_cache c -> (forall t, wf_tpl c t -> wf_tpl c (f t)) -> wf_cache (back_tpl tb h f c).
Proof.
  intros Hwf Hf. apply wf_set_tpls; [done|apply NoDup_akeys_aupd, Hwf|]. intros j u.
  destruct (decide (j = h)) as [->|Hj].
  - rewrite at_key_back_eq. intros [Hin|(t & Ht & ->)]%elem_of_alter_back; [by apply (wf_found c Hwf tb h)|].
    by apply Hf, (wf_found c Hwf tb h).
  - rewrite at_key_back_ne by done. apply (wf_found c Hwf tb j).
Qed.

Lemma wf_set_chunk c k id t : wf_tpl c t -> id < length (at_key k (chunks c)) -> wf_tpl c (set_chunk k id t).
Proof.
  intros [H1 H2] Hid. split; [by apply NoDup_akeys_aupd|]. simpl. intros j i Hin.
  apply In_aget in Hin; [|by apply NoDup_akeys_aupd]. destruct (decide (j = k)) as [->|Hj].
  - rewrite aget_aupd_eq in Hin. by injection Hin as <-.
  - rewrite aget_aupd_ne in Hin by done. apply H2. by apply aget_In.
Qed.

(** ** Registration keeps sessions well formed *)

Definition wf_session (s : session) : Prop := wf_cache (cur s) /\ wf_cache (temp s).

Lemma register_chunk_inv i hash s r :
  rtxLink_SessionRegister_chunk i hash s = Ret r ->
  exists k e, ce_name e = k /\ rtxRTypeFullQualifiedName (i_pointcut i) = Ret k /\
    r = (((push_chunk k e (cur s)).1, (push_chunk k e (temp s)).1),
         Session (push_chunk k e (cur s)).2 (push_chunk k e (temp s)).2).
Proof.
  intros (k & Hk & Hr)%cw_bind_Ret.
  exists k, (ChunkEntry k [] hash (i_script_file i) (i_tree_file i)). split_and!; [done..|].
  by injection Hr as <-.
Qed.

Lemma wf_register_chunk i hash s r :
  wf_session s -> rtxLink_SessionRegister_chunk i hash s = Ret r -> wf_session r.2.
Proof. intros [H1 H2] (k & e & He & _ & ->)%register_chunk_inv. split; by apply wf_push_chunk. Qed.

(** The chunk that was pushed last, recorded in the template pushed last. *)
Lemma wf_record_chunk tb hash k e g c :
  ce_name e = k -> wf_cache c -> (forall d t, wf_tpl d t -> wf_tpl d (g t)) ->
  wf_cache (back_tpl tb hash (fun t => set_chunk k (push_chunk k e c).1 (g t)) (push_chunk k e c).2).
Proof.
  intros He Hwf Hg. apply wf_back_tpl; [by apply wf_push_chunk|]. intros t Ht. apply wf_set_chunk; [by apply Hg|].
  apply nth_error_Some. by rewrite push_chunk_nth.
Qed.

Lemma register_item_inv tb hash i s s' :
  register_item tb hash i s = Ret s' ->
  (exists k e g, ce_name e = k /\
     (forall t, te_chunks (g t) = te_chunks t /\ te_with (g t) = te_with t) /\
     s' = Session (back_tpl tb hash (fun t => set_chunk k (push_chunk k e (cur s)).1 (g t)) (push_chunk k e (cur s)).2)
                  (back_tpl tb hash (fun t => set_chunk k (push_chunk k e (temp s)).1 (g t)) (push_chunk k e (temp s)).2)) \/
  exists g, (forall t, te_chunks (g t) = te_chunks t /\ te_with (g t) = te_with t) /\
     s' = Session (back_tpl tb hash g (cur s)) (back_tpl tb hash g (temp s)).
Proof.
  intros (k & Hk & Hs)%cw_bind_Ret.
  assert (Hchunk : (if i_type i == "__rtx_chunk__" then
      r <- rtxLink_SessionRegister_chunk i hash s ;;
      let '((id, id'), s) := r in
      let f id t := set_chunk k id
          (if (match tb with Types => true | Sequences => false end) && (i_chunk_type i == "decl")
           then set_decl k t else t) in
      Ret (Session (back_tpl tb hash (f id) (cur s)) (back_tpl tb hash (f id') (temp s)))
    else Error) = Ret s' ->
    exists k e g, ce_name e = k /\
     (forall t, te_chunks (g t) = te_chunks t /\ te_with (g t) = te_with t) /\
     s' = Session (back_tpl tb hash (fun t => set_chunk k (push_chunk k e (cur s)).1 (g t)) (push_chunk k e (cur s)).2)
                  (back_tpl tb hash (fun t => set_chunk k (push_chunk k e (temp s)).1 (g t)) (push_chunk k e (temp s)).2)).
  { destruct (i_type i == "__rtx_chunk__"); [|done]. intros (r & Hr & Hret)%cw_bind_Ret.
    apply register_chunk_inv in Hr as (k' & e & He & Hk' & ->). rewrite Hk in Hk'. injection Hk' as ->.
    injection Hret as <-. exists k', e, (fun t =>
      if (match tb with Types => true | Sequences => false end) && (i_chunk_type i == "decl")
      then set_decl k' t else t). split_and!; [done| |done].
    intros t. by destruct (_ && _). }
  destruct tb; [left; apply Hchunk; exact Hs|].
  destruct ((i_type i == "__rtx_chunk__") && negb (i_chunk_type i == "method")); [left; apply Hchunk; exact Hs|].
  right. injection Hs as <-. exists (set_method k (MethodEntry k (i_script_file i) (i_tree_file i))). by split.
Qed.

Lemma wf_tpl_same c t u : te_chunks u = te_chunks t -> wf_tpl c t -> wf_tpl c u.
Proof. intros H. unfold wf_tpl. by rewrite H. Qed.

Lemma wf_register_item tb hash i s s' :
  wf_session s -> register_item tb hash i s = Ret s' -> wf_session s'.
Proof.
  intros [H1 H2] [(k & e & g & He & Hg & ->)|(g & Hg & ->)]%register_item_inv; split.
  - apply wf_record_chunk; [done..|]. intros d t. apply wf_tpl_same, Hg.
  - apply wf_record_chunk; [done..|]. intros d t. apply wf_tpl_same, Hg.
  - apply wf_back_tpl; [done|]. intros t. apply wf_tpl_same, Hg.
  - apply wf_back_tpl; [done|]. intros t. apply wf_tpl_same, Hg.
Qed.

Lemma wf_register_tpl tb n w s s' : wf_session s -> register_tpl tb n w s = Ret s' -> wf_session s'.
Proof.
  intros Hs (hash & _ & Hr)%cw_bind_Ret.
  destruct (rtxLink_CheckSingleTpl hash w s); [by injection Hr as <-|].
  eapply (cw_foreach_inv _ (fun _ s => wf_session s)) in Hr; [exact Hr| |].
  - destruct Hs. split; (apply wf_push_tpl; [done|split; [apply NoDup_nil_2|by intros k id ?%not_elem_of_nil]]).
  - intros pre i rest s1 s2 _. apply wf_register_item.
Qed.

(** What the interfaces and the global code do not touch. *)
Definition same_tables (c c' : cache) : Prop :=
  templates c' = templates c /\ sequences c' = sequences c /\ types c' = types c /\ chunks c' = chunks c.

Lemma same_tables_wf c c' : same_tables c c' -> wf_cache c -> wf_cache c'.
Proof.
  destruct c, c'. intros (H1 & H2 & H3 & H4) [W1 W2 W3 W4]. simpl in *. subst.
  split; [intros tb; exact (W1 tb)|intros tb; exact (W2 tb)|exact W3|done].
Qed.

Lemma register_itf_tables ignore name s s' :
  rtxLink_SessionRegister_itf ignore name s = Ret s' ->
  same_tables (cur s) (cur s') /\ same_tables (temp s) (temp s').
Proof.
  unfold rtxLink_SessionRegister_itf. destruct (findElement name (interfaces (cur s))).
  - destruct ignore; [|done]. by intros [= <-].
  - by intros [= <-].
Qed.

Lemma register_ext_tables name w s s' :
  rtxLink_SessionRegister_itf_extension name w s = Ret s' ->
  same_tables (cur s) (cur s') /\ same_tables (temp s) (temp s').
Proof.
  unfold rtxLink_SessionRegister_itf_extension. destruct (aget name (interfaces (cur s))); [|done].
  by intros [= <-].
Qed.

Lemma decl_nested_ind (P : decl -> Prop) :
  (forall d, match d with DWith _ _ _ _ _ body => Forall P body | _ => True end -> P d) -> forall d, P d.
Proof.
  intros H. fix IH 1. intros d. apply H. destruct d as [t|i|cs itf code scr tr body|nm|nm|kn]; [exact I|exact I| |exact I..].
  induction body as [|d body IHb]; [apply Forall_nil_2|]. apply Forall_cons_2; [apply IH|apply IHb].
Qed.

Lemma wf_register ignore d w s s' :
  wf_session s -> rtxLink_SessionRegister ignore d w s = Ret s' -> wf_session s'.
Proof.
  revert w s s'. induction d as [d IH] using decl_nested_ind. intros w s s' Hs.
  destruct d as [t|i|cs itf code scr tr body|nm|nm|kn]; simpl.
  - unfold rtxLink_SessionRegisterTpl. destruct (_ || _); [by apply wf_register_tpl|].
    destruct (_ == _); [by apply wf_register_tpl|done].
  - intros (r & Hr & [= <-])%cw_bind_Ret. by apply (wf_register_chunk i "" s r).
  - apply (cw_foreach_inv _ (fun _ s => wf_session s)).
    + unfold register_global. destruct (_ && _); [|done]. destruct Hs. split; [by apply (same_tables_wf (cur s))|by apply (same_tables_wf (temp s))].
    + intros pre d rest s1 s2 -> H1. rewrite Forall_forall in IH. apply IH; [|done].
      apply elem_of_app. right. by left.
  - intros [H1 H2]%register_itf_tables. destruct Hs. split; [by apply (same_tables_wf (cur s))|by apply (same_tables_wf (temp s))].
  - intros [H1 H2]%register_ext_tables. destruct Hs. split; [by apply (same_tables_wf (cur s))|by apply (same_tables_wf (temp s))].
  - destruct kn; [|done]. by intros [= <-].
Qed.

(** ** Merging, by what the templates are *)

(** A template without the positions of its chunks. *)
Definition strip (t : tpl_entry) :=
  (te_with t, te_qualifier t, te_rtype t, te_decl t, te_methods t, te_files t).

(** What a cache knows of a prototype: its templates with their chunks. *)
Definition view (tb : tpl_table) (c : cache) (h : string) :=
  map (fun t => (strip t, resolve c t)) (at_key h (tpls tb c)).

#[export] Instance tpl_table_eq_dec : EqDecision tpl_table.
Proof. solve_decision. Defined.

Lemma set_tpls_same tb c : set_tpls tb (tpls tb c) c = c.
Proof. by destruct tb, c. Qed.

Lemma set_tpls_twice tb a b c : set_tpls tb a (set_tpls tb b c) = set_tpls tb a c.
Proof. by destruct tb. Qed.

Lemma set_tpls_push_chunk tb a k e c : set_tpls tb a (push_chunk k e c).2 = (push_chunk k e (set_tpls tb a c)).2.
Proof. by destruct tb. Qed.

Lemma wf_set_chunks_le tb a c : chunks_le (set_tpls tb a c) c /\ chunks_le c (set_tpls tb a c).
Proof. split; intros k; by rewrite chunks_set_tpls. Qed.

(** The positions in [cache2] of the chunks a template still has to take over. *)
Definition to_copy (cache2 : cache) (l : arr nat) : Prop :=
  forall k id, (k, id) ∈ l -> id < length (at_key k (chunks cache2)).

Lemma copied_chunk c2 k id :
  wf_cache c2 -> id < length (at_key k (chunks c2)) ->
  let e := nth id (at_key k (chunks c2)) no_chunk in
  ce_name e = k /\ nth_error (at_key k (chunks c2)) id = Some e.
Proof.
  intros Hwf Hid. cbv zeta. split; [|by apply nth_error_nth'].
  apply (wf_names c2 Hwf k). apply list_elem_of_In, nth_In, Hid.
Qed.

Lemma merge_chunks_spec tb hash c2 rest A :
  wf_cache c2 -> to_copy c2 rest ->
  forall dst pre t, wf_cache (set_tpls tb A dst) -> tpls tb dst = push_at hash t A ->
  te_chunks t = pre ++ rest -> NoDup (akeys (te_chunks t)) -> to_copy dst pre ->
  let dst' := foldl (fun dst ki => merge_chunk tb hash c2 ki dst) dst rest in
  exists t', tpls tb dst' = push_at hash t' A /\ wf_cache (set_tpls tb A dst') /\ chunks_le dst dst' /\
    strip t' = strip t /\ wf_tpl dst' t' /\
    resolve dst' t' =
      map (fun ki => (ki.1, nth_error (at_key ki.1 (chunks dst)) ki.2)) pre ++
      map (fun ki => (ki.1, nth_error (at_key ki.1 (chunks c2)) ki.2)) rest /\
    forall tb', tb <> tb' -> tpls tb' dst' = tpls tb' dst.
Proof.
  intros Hc2. induction rest as [|[k id] rest IH]; intros Hrest dst pre t Hwf Ht Hch Hnd Hpre.
  { rewrite app_nil_r in Hch. exists t. cbn [foldl map]. rewrite app_nil_r. split_and!; try done.
    - split; [done|]. by rewrite Hch.
    - unfold resolve. by rewrite Hch. }
  cbn [foldl]. set (dst1 := merge_chunk tb hash c2 (k, id) dst).
  destruct (copied_chunk c2 k id Hc2 (Hrest k id (list_elem_of_here _ _))) as [He Hnth].
  set (e := nth id (at_key k (chunks c2)) no_chunk) in *.
  assert (Hd1 : dst1 = back_tpl tb hash (set_chunk k (push_chunk k e dst).1) (push_chunk k e dst).2) by done.
  set (nid := (push_chunk k e dst).1) in *.
  assert (Hk : k ∉ akeys pre).
  { rewrite Hch in Hnd. unfold akeys in *. rewrite map_app in Hnd. apply NoDup_app in Hnd as (_ & Hnd & _).
    intros Hin. apply (Hnd k Hin). by left. }
  assert (Hch1 : te_chunks (set_chunk k nid t) = (pre ++ [(k, nid)]) ++ rest).
  { simpl. rewrite Hch, aupd_middle by done. by rewrite <- app_assoc. }
  assert (Hle1 : chunks_le dst dst1).
  { rewrite Hd1. intros j. unfold back_tpl. rewrite chunks_set_tpls. apply push_chunk_le. }
  assert (Hnew : nth_error (at_key k (chunks dst1)) nid = Some e).
  { rewrite Hd1. unfold back_tpl. rewrite chunks_set_tpls. apply push_chunk_nth. }
  destruct (IH (fun j i Hj => Hrest j i (list_elem_of_further _ _ _ Hj)) dst1 (pre ++ [(k, nid)]) (set_chunk k nid t))
    as (t' & H1 & H2 & H3 & H4 & H5 & H6 & H7).
  - rewrite Hd1. unfold back_tpl. rewrite set_tpls_twice, set_tpls_push_chunk. by apply wf_push_chunk.
  - rewrite Hd1. unfold back_tpl. rewrite tpls_set_eq, tpls_push_chunk, Ht. apply back_at_push.
  - done.
  - simpl. by apply NoDup_akeys_aupd.
  - intros j i [Hin|[= -> ->]%list_elem_of_singleton]%elem_of_app.
    + specialize (Hpre j i Hin). destruct (Hle1 j) as [l ->]. rewrite length_app. lia.
    + apply nth_error_Some. by rewrite Hnew.
  - exists t'. split_and!; [done|done|by etrans|by rewrite H4|done| |].
    + rewrite H6, map_app, <- app_assoc. simpl. rewrite Hnew, Hnth. f_equal.
      apply map_ext_in. intros [j i] Hin%list_elem_of_In. simpl. f_equal.
      destruct (Hle1 j) as [l ->]. apply nth_error_app1. by apply (Hpre j i).
    + intros tb' Hne. rewrite H7 by done. rewrite Hd1. unfold back_tpl.
      rewrite tpls_set_ne by done. apply tpls_push_chunk.
Qed.

Lemma view_le tb c c' h : wf_cache c -> chunks_le c c' -> tpls tb c' = tpls tb c -> view tb c' h = view tb c h.
Proof.
  intros Hwf Hle Ht. unfold view. rewrite Ht. apply map_ext_in. intros t Hin%list_elem_of_In.
  f_equal. apply resolve_le; [done|]. by apply (wf_found c Hwf tb h).
Qed.

(** The cache is well formed, and knows more of one prototype. *)
Definition gains (tb : tpl_table) (h : string) l (c c' : cache) : Prop :=
  wf_cache c' /\ forall tb' h', view tb' c' h' = view tb' c h' ++ (if decide ((tb', h') = (tb, h)) then l else []).

Lemma merge_tpl_gains ignore tb c2 h t dst dst' :
  wf_cache c2 -> wf_tpl c2 t -> wf_cache dst -> merge_tpl ignore tb c2 h t dst = Ret dst' ->
  gains tb h [(strip t, resolve c2 t)] dst dst'.
Proof.
  intros Hc2 [Hnd Hid] Hwf. unfold merge_tpl. destruct (_ || _); [|done]. intros [= <-].
  destruct (merge_chunks_spec tb h c2 (te_chunks t) (tpls tb dst) Hc2 Hid (push_tpl tb h t dst) [] t)
    as (t' & H1 & H2 & H3 & H4 & H5 & H6 & H7).
  - unfold push_tpl. by rewrite set_tpls_twice, set_tpls_same.
  - apply tpls_set_eq.
  - done.
  - done.
  - by intros k id ?%not_elem_of_nil.
  - set (dst' := foldl _ _ _) in *.
    assert (Hle : chunks_le dst dst') by (intros k; rewrite <- (H3 k); unfold push_tpl; by rewrite chunks_set_tpls).
    split.
    + rewrite <- (set_tpls_same tb dst'), H1, <- (set_tpls_twice tb _ (tpls tb dst) dst').
      replace (push_at h t' (tpls tb dst)) with (push_at h t' (tpls tb (set_tpls tb (tpls tb dst) dst')))
        by (by rewrite tpls_set_eq).
      apply wf_push_tpl; [done|]. apply (wf_tpl_le dst'); [apply wf_set_chunks_le|done].
    + intros tb' h'. destruct (decide (tb' = tb)) as [->|Htb].
      * unfold view at 1. rewrite H1. destruct (decide ((tb, h') = (tb, h))) as [[= ->]|Hh].
        -- rewrite at_key_push_eq, map_app. simpl. rewrite H4, H6. f_equal. unfold view.
           apply map_ext_in. intros u Hin%list_elem_of_In. f_equal.
           apply resolve_le; [done|]. by apply (wf_found dst Hwf tb h).
        -- rewrite at_key_push_ne, app_nil_r by congruence. apply map_ext_in.
           intros u Hin%list_elem_of_In. f_equal. apply resolve_le; [done|]. by apply (wf_found dst Hwf tb h').
      * rewrite decide_False, app_nil_r by congruence. apply view_le; [done..|].
        rewrite H7 by congruence. by apply tpls_set_ne.
Qed.

Definition viewed (c : cache) (t : tpl_entry) := (strip t, resolve c t).

Lemma gains_none tb h c : wf_cache c -> gains tb h [] c c.
Proof. intros H. split; [done|]. intros tb' h'. destruct (decide _); by rewrite app_nil_r. Qed.

Lemma gains_app tb h l1 l2 c1 c2 c3 : gains tb h l1 c1 c2 -> gains tb h l2 c2 c3 -> gains tb h (l1 ++ l2) c1 c3.
Proof.
  intros [_ H1] [Hwf H2]. split; [done|]. intros tb' h'. rewrite H2, H1, <- app_assoc.
  by destruct (decide _).
Qed.

Lemma merge_list_gains ignore tb c2 h ts dst dst' :
  wf_cache c2 -> (forall t, t ∈ ts -> wf_tpl c2 t) -> wf_cache dst ->
  cw_foreach (merge_tpl ignore tb c2 h) ts dst = Ret dst' -> gains tb h (map (viewed c2) ts) dst dst'.
Proof.
  intros Hc2 Hts Hwf.
  apply (cw_foreach_inv _ (fun pre d => gains tb h (map (viewed c2) pre) dst d)); [by apply gains_none|].
  intros pre t rest d d' -> Hg Hm. rewrite map_app. eapply gains_app; [exact Hg|].
  apply (merge_tpl_gains ignore tb c2 h t d d' Hc2); [|apply Hg|done].
  apply Hts, elem_of_app. right. by left.
Qed.

Lemma merge_tpls_gains ignore tb c2 h ts dst dst' :
  wf_cache c2 -> (forall t, t ∈ ts -> wf_tpl c2 t) -> wf_cache dst ->
  merge_tpls ignore tb c2 (h, ts) dst = Ret dst' -> gains tb h (map (viewed c2) ts) dst dst'.
Proof.
  intros Hc2 Hts Hwf Hm. set (d := set_tpls tb (aupd h (default []) (tpls tb dst)) dst).
  assert (Hd : wf_cache d).
  { apply wf_set_tpls; [done|apply NoDup_akeys_aupd, Hwf|]. intros j t. rewrite at_key_default.
    apply (wf_found dst Hwf tb j). }
  destruct (merge_list_gains ignore tb c2 h ts d dst' Hc2 Hts Hd Hm) as [H1 H2]. split; [done|].
  intros tb' h'. rewrite H2. f_equal. unfold view, d. destruct (decide (tb = tb')) as [->|Hne].
  - rewrite tpls_set_eq, at_key_default. apply map_ext. intros t. unfold resolve. by rewrite chunks_set_tpls.
  - rewrite tpls_set_ne by done. apply map_ext. intros t. unfold resolve. by rewrite chunks_set_tpls.
Qed.

(** A whole table of [c2] is taken over. *)
Lemma at_key_snoc {A} h k (x : list A) a :
  NoDup (akeys (a ++ [(k, x)])) -> at_key h (a ++ [(k, x)]) = at_key h a ++ (if decide (h = k) then x else []).
Proof.
  intros Hnd. unfold at_key. destruct (decide (h = k)) as [->|Hne].
  - assert (Ha : aget k a = None).
    { apply aget_None_keys. unfold akeys in *. rewrite map_app in Hnd.
      apply NoDup_app in Hnd as (_ & Hnd & _). intros Hin. apply (Hnd k Hin). by left. }
    rewrite Ha, (In_aget k _ x Hnd); [done|]. apply elem_of_app. right. by left.
  - rewrite app_nil_r. clear Hnd. induction a as [|[j y] a IH]; simpl; [by destruct (String.eqb_spec h k)|].
    destruct (h == j); [done|apply IH].
Qed.

Lemma merge_table ignore tb c2 dst dst' :
  wf_cache c2 -> wf_cache dst ->
  cw_foreach (merge_tpls ignore tb c2) (tpls tb c2) dst = Ret dst' ->
  wf_cache dst' /\ forall tb' h, view tb' dst' h = view tb' dst h ++ (if decide (tb' = tb) then view tb c2 h else []).
Proof.
  intros Hc2 Hwf Hm.
  assert (H : wf_cache dst' /\ forall tb' h, view tb' dst' h =
     view tb' dst h ++ (if decide (tb' = tb) then map (viewed c2) (at_key h (tpls tb c2)) else [])); [|done].
  revert Hm. apply (cw_foreach_inv _ (fun pre d => wf_cache d /\ forall tb' h, view tb' d h =
     view tb' dst h ++ (if decide (tb' = tb) then map (viewed c2) (at_key h pre) else []))).
  { split; [done|]. intros tb' h. destruct (decide _); by rewrite app_nil_r. }
  intros pre [k ts] rest d d' Hl [Hd Hv] Hm.
  assert (Hk : NoDup (akeys (pre ++ [(k, ts)]))).
  { pose proof (wf_keys c2 Hc2 tb) as Hk. rewrite Hl in Hk. unfold akeys in *. rewrite map_app in *.
    simpl in *. apply NoDup_app in Hk as (Hp & Hd' & Hr). apply NoDup_cons in Hr as [_ Hr].
    apply NoDup_app; split_and!; [done| |apply NoDup_singleton].
    intros x Hx ->%list_elem_of_singleton. apply (Hd' k Hx). by left. }
  assert (Hts : forall t, t ∈ ts -> wf_tpl c2 t).
  { intros t Ht. apply (wf_found c2 Hc2 tb k). unfold at_key.
    rewrite (In_aget k (tpls tb c2) ts (wf_keys c2 Hc2 tb)); [done|]. rewrite Hl.
    apply elem_of_app. right. by left. }
  destruct (merge_tpls_gains ignore tb c2 k ts d d' Hc2 Hts Hd Hm) as [Hd' Hg]. split; [done|].
  intros tb' h. rewrite Hg, Hv, <- app_assoc. f_equal.
  destruct (decide (tb' = tb)) as [->|Htb]; [|by rewrite decide_False by congruence].
  rewrite at_key_snoc by done. destruct (decide (h = k)) as [->|Hh].
  - rewrite decide_True, map_app by done. done.
  - rewrite decide_False by congruence. by rewrite !app_nil_r.
Qed.

Lemma same_tables_view tb c c' h : same_tables c c' -> view tb c' h = view tb c h.
Proof. destruct c, c'. intros (H1 & H2 & H3 & H4). simpl in *. subst. by destruct tb. Qed.

Lemma merge_interface_tables ki dst dst' : merge_interface ki dst = Ret dst' -> same_tables dst dst'.
Proof.
  destruct ki as [k itf]. unfold merge_interface. destruct (aget k (interfaces dst)) as [i|].
  - destruct (ie_tree_file itf); [done|]. by intros [= <-].
  - by intros [= <-].
Qed.

Lemma merge_prologue c1 c2 dst :
  cw_foreach merge_interface (interfaces c2) c1 = Ret dst ->
  same_tables c1 (foldl (fun dst glob => push_glob glob dst) dst (global_code c2)).
Proof.
  intros Hm.
  assert (H : same_tables c1 dst).
  { revert Hm. apply (cw_foreach_inv _ (fun _ d => same_tables c1 d)); [done|].
    intros pre ki rest d d' _ H Hm%merge_interface_tables. unfold same_tables in *. intuition congruence. }
  clear Hm. revert dst H. induction (global_code c2) as [|g l IH]; intros dst H; simpl; [done|].
  by apply IH.
Qed.

Lemma merge_caches ignore c1 c2 c :
  wf_cache c1 -> wf_cache c2 -> rtxLink_MergeCaches ignore c1 c2 = Ret c ->
  wf_cache c /\ forall tb h, view tb c h = view tb c1 h ++ view tb c2 h.
Proof.
  intros H1 H2 (d0 & Hd0 & (d1 & Hd1 & Hc)%cw_bind_Ret)%cw_bind_Ret.
  apply merge_prologue in Hd0. apply (merge_table ignore Sequences c2) in Hd1 as [W1 V1];
    [|done|by apply (same_tables_wf c1)].
  apply (merge_table ignore Types c2) in Hc as [W2 V2]; [|done..]. split; [done|].
  intros tb h. rewrite V2, V1, (same_tables_view tb c1) by done.
  destruct tb; simpl; by rewrite ?app_nil_r.
Qed.

(** C13: Merging two caches, when it returns, appends for every prototype
    the templates of the second cache to those of the first: each template
    keeps its contents and finds, under its new positions, the chunks it
    had; and the result is well formed. *)
Theorem merge_refines ignore c1 c2 c :
  wf_cache c1 -> wf_cache c2 -> rtxLink_MergeCaches ignore c1 c2 = Ret c ->
  wf_cache c /\ forall tb h, view tb c h = view tb c1 h ++ view tb c2 h.
Proof. apply merge_caches. Qed.

(** ** Sessions of a run *)

(** A run loads a session from two caches, or starts with an empty one, and
    registers declarations. *)
Inductive reachable (ignore : bool) : session -> Prop :=
| reach_start : reachable ignore (Session empty_cache empty_cache)
| reach_load s1 s2 c :
    reachable ignore s1 -> reachable ignore s2 ->
    rtxLink_MergeCaches ignore (cur s1) (cur s2) = Ret c -> reachable ignore (Session c empty_cache)
| reach_register d w s s' :
    reachable ignore s -> rtxLink_SessionRegister ignore d w s = Ret s' -> reachable ignore s'.

Lemma wf_empty : wf_cache empty_cache.
Proof.
  split; [|intros []; apply NoDup_nil_2| |done]; [intros [] h t|intros k e]; by intros ?%not_elem_of_nil.
Qed.

Lemma reachable_wf ignore s : reachable ignore s -> wf_session s.
Proof.
  induction 1 as [|s1 s2 c _ [H1 _] _ [H2 _] Hc|d w s s' _ H Hr].
  - split; apply wf_empty.
  - split; [by apply (merge_caches ignore (cur s1) (cur s2) c)|apply wf_empty].
  - by apply (wf_register ignore d w s).
Qed.

(** C12: In every session that registrations and merges reach, in the
    session and in its temporary cache, the positions a template keeps are
    those of chunks that are there: selecting a chunk of a template for one
    of its pointcuts finds a chunk registered for that pointcut and never
    fails. *)
Theorem session_resolves ignore s c tb h t k :
  reachable ignore s -> c = cur s \/ c = temp s ->
  t ∈ at_key h (tpls tb c) -> k ∈ akeys (te_chunks t) ->
  exists e, rtxLink_selectChunkFromTemplate t k c = Ret (Some e) /\ ce_name e = k.
Proof.
  intros Hs%reachable_wf Hc Ht Hk.
  assert (Hwf : wf_cache c) by (destruct Hs, Hc; by subst).
  destruct (wf_found c Hwf tb h t Ht) as [Hnd Hid]. apply aget_Some_keys in Hk as [id Hk].
  unfold rtxLink_selectChunkFromTemplate. rewrite Hk. specialize (Hid k id (aget_In _ _ _ Hk)).
  destruct (nth_error (at_key k (chunks c)) id) as [e|] eqn:E; [|by apply nth_error_None in E; lia].
  exists e. split; [done|]. apply (wf_names c Hwf k). by apply list_elem_of_In, (nth_error_In _ id).
Qed.

(** ** Templates registered twice *)

(** The [with] of the templates of a prototype. *)
Definition withs (tb : tpl_table) (c : cache) (h : string) : list with_node :=
  map te_with (at_key h (tpls tb c)).

Lemma withs_view tb c c' h l :
  view tb c' h = view tb c h ++ l -> withs tb c' h = withs tb c h ++ map (fun v => v.1.1.1.1.1.1) l.
Proof.
  intros H. assert (Hw : forall c, withs tb c h = map (fun v => v.1.1.1.1.1.1) (view tb c h)).
  { intros d. unfold withs, view. by rewrite map_map. }
  by rewrite !Hw, H, map_app.
Qed.

Lemma merge_list_distinct tb c2 h ts dst dst' :
  wf_cache c2 -> (forall t, t ∈ ts -> wf_tpl c2 t) -> wf_cache dst ->
  cw_foreach (merge_tpl false tb c2 h) ts dst = Ret dst' ->
  NoDup (map te_with ts) /\ forall w, w ∈ map te_with ts -> w ∉ withs tb dst h.
Proof.
  intros Hc2 Hts Hwf Hm.
  enough (H : gains tb h (map (viewed c2) ts) dst dst' /\ NoDup (map te_with ts) /\
              forall w, w ∈ map te_with ts -> w ∉ withs tb dst h) by apply H.
  revert Hm. apply (cw_foreach_inv _ (fun pre d => gains tb h (map (viewed c2) pre) dst d /\
     NoDup (map te_with pre) /\ forall w, w ∈ map te_with pre -> w ∉ withs tb dst h)).
  { split_and!; [by apply gains_none|apply NoDup_nil_2|by intros w ?%not_elem_of_nil]. }
  intros pre t rest d d' Hl (Hg & Hnd & Hdis) Hm.
  assert (Hw : te_with t ∉ withs tb d h).
  { unfold merge_tpl in Hm. rewrite orb_false_r in Hm.
    destruct (rtxLink_CheckTplConflict (at_key h (tpls tb d)) (te_with t)) eqn:E; [done|].
    intros Hin. apply list_elem_of_In, in_map_iff in Hin as (u & Hu & Hin).
    assert (rtxLink_CheckTplConflict (at_key h (tpls tb d)) (te_with t) = true); [|congruence].
    apply existsb_exists. exists u. split; [done|]. by apply bool_decide_eq_true. }
  pose proof Hg as [Hd Hv]. specialize (Hv tb h). rewrite decide_True in Hv by done.
  rewrite (withs_view _ _ _ _ _ Hv), not_elem_of_app, map_map in Hw. destruct Hw as [Hw1 Hw2].
  split_and!.
  - rewrite map_app. eapply gains_app; [exact Hg|]. apply (merge_tpl_gains false tb c2 h t d d' Hc2); [|done|done].
    apply Hts. rewrite Hl. apply elem_of_app. right. by left.
  - rewrite map_app. apply NoDup_app; split_and!; [done| |apply NoDup_singleton].
    by intros w Hin ->%list_elem_of_singleton.
  - intros w. rewrite map_app. intros [Hin| ->%list_elem_of_singleton]%elem_of_app; [by apply Hdis|done].
Qed.

(** What the merging of a table does not accept. *)
Lemma merge_table_distinct tb c2 dst dst' h :
  wf_cache c2 -> wf_cache dst ->
  cw_foreach (merge_tpls false tb c2) (tpls tb c2) dst = Ret dst' -> NoDup (withs tb c2 h).
Proof.
  intros Hc2 Hwf Hm.
  assert (H : forall k ts, (k, ts) ∈ tpls tb c2 -> NoDup (map te_with ts)).
  { enough (H : wf_cache dst' /\ forall k ts, (k, ts) ∈ tpls tb c2 -> NoDup (map te_with ts)) by apply H.
    revert Hm. apply (cw_foreach_inv _ (fun pre d => wf_cache d /\ forall k ts, (k, ts) ∈ pre -> NoDup (map te_with ts))).
    { split; [done|]. by intros k ts ?%not_elem_of_nil. }
    intros pre [k ts] rest d d' Hl [Hd Hp] Hm.
    assert (Hts : forall t, t ∈ ts -> wf_tpl c2 t).
    { intros t Ht. apply (wf_found c2 Hc2 tb k). unfold at_key.
      rewrite (In_aget k (tpls tb c2) ts (wf_keys c2 Hc2 tb)); [done|]. rewrite Hl.
      apply elem_of_app. right. by left. }
    pose proof (merge_tpls_gains false tb c2 k ts d d' Hc2 Hts Hd Hm) as [Hd' _]. split; [done|].
    intros k' ts' [Hin|[= -> ->]%list_elem_of_singleton]%elem_of_app; [by apply (Hp k')|].
    unfold merge_tpls in Hm. eapply merge_list_distinct in Hm as [Hnd _]; [done|done|done|].
    apply wf_set_tpls; [done|apply NoDup_akeys_aupd, Hd|]. intros j t. rewrite at_key_default.
    apply (wf_found d Hd tb j). }
  unfold withs, at_key. destruct (aget h (tpls tb c2)) as [ts|] eqn:E; simpl; [|apply NoDup_nil_2].
  by apply (H h), aget_In.
Qed.

Lemma merge_distinct c1 c2 c tb h :
  wf_cache c1 -> wf_cache c2 -> rtxLink_MergeCaches false c1 c2 = Ret c -> NoDup (withs tb c2 h).
Proof.
  intros H1 H2 (d0 & Hd0 & (d1 & Hd1 & Hc)%cw_bind_Ret)%cw_bind_Ret.
  apply merge_prologue in Hd0. pose proof (same_tables_wf c1 _ Hd0 H1) as W0.
  destruct tb; [by apply (merge_table_distinct Sequences c2 _ _ h H2 W0 Hd1)|].
  apply (merge_table false Sequences c2) in Hd1 as [W1 _]; [|done..].
  by apply (merge_table_distinct Types c2 _ _ h H2 W1 Hc).
Qed.

Lemma register_item_tpls tb hash i s s' t A :
  register_item tb hash i s = Ret s' -> tpls tb (cur s) = push_at hash t A ->
  exists t', te_with t' = te_with t /\ tpls tb (cur s') = push_at hash t' A.
Proof.
  intros [(k & e & g & _ & Hg & ->)|(g & Hg & ->)]%register_item_inv Ht; cbn [cur]; unfold back_tpl; rewrite tpls_set_eq.
  - exists (set_chunk k (push_chunk k e (cur s)).1 (g t)). split; [unfold set_chunk; cbn [te_with]; exact (proj2 (Hg t))|].
    by rewrite tpls_push_chunk, Ht, back_at_push.
  - exists (g t). split; [exact (proj2 (Hg t))|]. rewrite Ht. apply back_at_push.
Qed.

(** Registration adds a template, whatever the session holds. *)
Lemma register_tpl_adds tb n w s s' :
  wf_session s -> register_tpl tb n w s = Ret s' ->
  exists h t, hashTemplatePrototype (tn_rtype n) = Ret h /\ te_with t = w /\
    tpls tb (cur s') = push_at h t (tpls tb (cur s)).
Proof.
  intros [Hwf _] (h & Hh & Hr)%cw_bind_Ret. unfold rtxLink_CheckSingleTpl in Hr.
  rewrite (wf_templates _ Hwf) in Hr. simpl in Hr. exists h.
  enough (H : exists t, te_with t = w /\ tpls tb (cur s') = push_at h t (tpls tb (cur s))).
  { destruct H as (t & H1 & H2). by exists t. }
  revert Hr. apply (cw_foreach_inv _ (fun _ s1 => exists t, te_with t = w /\
    tpls tb (cur s1) = push_at h t (tpls tb (cur s)))).
  - cbn [cur]. unfold push_tpl. rewrite tpls_set_eq. eexists. split; [|reflexivity]. done.
  - intros pre i rest s1 s2 _ (t & Ht & H1) Hi. destruct (register_item_tpls tb h i s1 s2 t _ Hi H1) as (t' & Ht' & H2).
    exists t'. by rewrite Ht'.
Qed.

Lemma compatible_Ret `{V : ValueOrder} {A} (wth : A -> with_node) config l acc :
  compatible wth config l = Ret acc ->
  acc = List.filter (fun x => match rtxLink_IsWithNodeCompatible (wth x) config with Ret b => b | _ => false end) l.
Proof.
  apply (cw_foreach_inv _ (fun pre acc => acc = List.filter (fun x =>
    match rtxLink_IsWithNodeCompatible (wth x) config with Ret b => b | _ => false end) pre)); [done|].
  intros pre x rest s s' _ -> (b & Hb & [= <-])%cw_bind_Ret. rewrite List.filter_app. simpl. rewrite Hb.
  destruct b; [done|by rewrite app_nil_r].
Qed.

(** Registration never sees that a type template is there already:
    registering one twice with the same constraints adds it twice, after
    which no configuration that satisfies them selects a template and the
    session cannot be merged into any cache. *)
Theorem duplicate_template_unusable `{V : ValueOrder} ignore s n w s1 s2 :
  reachable ignore s -> tn_tpl_type n = "type" ->
  rtxLink_SessionRegisterTpl n w s = Ret s1 -> rtxLink_SessionRegisterTpl n w s1 = Ret s2 ->
  (forall c1 c, wf_cache c1 -> rtxLink_MergeCaches false c1 (cur s2) <> Ret c) /\
  forall config t, rtxLink_IsWithNodeCompatible w config = Ret true ->
    rtxLink_FindUniqueTemplate (tn_rtype n) config s2 <> Ret (Some t).
Proof.
  intros Hs%reachable_wf Hty. unfold rtxLink_SessionRegisterTpl. rewrite Hty. simpl. intros H1 H2.
  pose proof (wf_register_tpl Types n w s s1 Hs H1) as Hs1.
  pose proof (wf_register_tpl Types n w s1 s2 Hs1 H2) as Hs2.
  destruct (register_tpl_adds Types n w s s1 Hs H1) as (h & t1 & Hh & Ht1 & E1).
  destruct (register_tpl_adds Types n w s1 s2 Hs1 H2) as (h' & t2 & Hh' & Ht2 & E2).
  rewrite Hh in Hh'. injection Hh' as <-. simpl in E1, E2.
  assert (E : at_key h (types (cur s2)) = at_key h (types (cur s)) ++ [t1; t2]).
  { by rewrite E2, at_key_push_eq, E1, at_key_push_eq, <- app_assoc. }
  split.
  - intros c1 c Hc1 Hm. apply (merge_distinct c1 (cur s2) c Types h Hc1 (proj1 Hs2)) in Hm.
    unfold withs in Hm. simpl in Hm. rewrite E, map_app in Hm. simpl in Hm. rewrite Ht1, Ht2 in Hm.
    apply NoDup_app in Hm as (_ & _ & [Hm _]%NoDup_cons). destruct Hm. by left.
  - intros config t Hw (f & Hf & Hsel)%cw_bind_Ret. unfold rtxLink_findTemplates in Hf.
    rewrite Hh in Hf. simpl in Hf. destruct (findElement h (types (cur s2))); simpl in Hf; injection Hf as <-; [|done].
    unfold rtxLink_selectUniqueTemplate in Hsel. simpl in Hsel.
    apply cw_bind_Ret in Hsel as (tys & Ht%compatible_Ret & Hsel).
    rewrite E, List.filter_app in Ht. simpl in Ht. rewrite Ht1, Ht2, Hw in Ht.
    destruct (List.filter _ _) as [|a [|b l]]; simpl in Ht; by subst.
Qed.

(** The template found is the only one of its prototype whose constraints the
    configuration satisfies. *)
Theorem find_unique_spec `{V : ValueOrder} p config s t :
  rtxLink_FindUniqueTemplate p config s = Ret (Some t) ->
  exists h pre post, hashTemplatePrototype p = Ret h /\
    at_key h (types (cur s)) = pre ++ t :: post /\
    rtxLink_IsWithNodeCompatible (te_with t) config = Ret true /\
    forall x, x ∈ pre ++ post -> rtxLink_IsWithNodeCompatible (te_with x) config <> Ret true.
Proof.
  intros (f & (h & Hh & Hf)%cw_bind_Ret & Hsel)%cw_bind_Ret. exists h.
  simpl in Hf. destruct (findElement h (types (cur s))); simpl in Hf; injection Hf as <-; [|done].
  apply cw_bind_Ret in Hsel as (seqs & Hseqs%compatible_Ret & (tys & Ht%compatible_Ret & Hr)%cw_bind_Ret).
  simpl in Hseqs. subst seqs. simpl in Hr. set (ok := fun x => match _ with Ret b => b | _ => false end) in *.
  assert (Htys : tys = [t]) by (destruct tys as [|a [|b l]]; simpl in Hr; congruence).
  rewrite Htys in Ht. simpl in Ht.
  assert (Hin : In t (List.filter ok (at_key h (types (cur s))))) by (rewrite <- Ht; by left).
  apply filter_In in Hin as [Hin Hok].
  apply in_split in Hin as (pre & post & E). exists pre, post. split_and!; [done|done| |].
  - unfold ok in Hok. by destruct (rtxLink_IsWithNodeCompatible (te_with t) config) as [[]| |].
  - rewrite E, List.filter_app in Ht. simpl in Ht. rewrite Hok in Ht.
    intros x Hx Hc. assert (Hx' : In x (List.filter ok pre ++ List.filter ok post)).
    { rewrite <- List.filter_app. apply filter_In. rewrite <- list_elem_of_In. split; [done|].
      unfold ok. by rewrite Hc. }
    destruct (List.filter ok pre) as [|a l]; simpl in *.
    + injection Ht as Ht. by rewrite <- Ht in Hx'.
    + destruct l; simpl in Ht; discriminate Ht.
Qed.

(** ** A session of two systems *)

Definition chunk_item (kind name file : string) : item :=
  Item "__rtx_chunk__" kind (Proto (TId (Ident "LKM" name false)) []) (file ++ ".cws")%string (file ++ ".tree")%string.

Definition context_tpl (file : string) : tpl_node :=
  TplNode "type" (Proto (TId (Ident "LKM" "Context" false)) []) "scalar" true "map.cws" "map.tree"
    [chunk_item "decl" "Context" file; chunk_item "method" "init" file].

Definition os_is (name : string) : arr constraint :=
  [("0", Constraint (Ident "LKM" "OS" false) "=" (build_builtin "symbol" name))].

Definition os_config (name : string) : config_node := [("LKM", [("OS", CVar "" (build_builtin "symbol" name))])].

Definition with_os (name : string) : decl :=
  DWith (os_is name) "LKM" true (name ++ ".cws")%string (name ++ ".tree")%string [DTpl (context_tpl name)].

Definition started : session := Session empty_cache empty_cache.

Definition two_systems : session :=
  match rtxLink_RegisterToCache false [with_os "Linux"; with_os "Windows"] started with Ret s => s | _ => started end.

Lemma two_systems_reachable : reachable false two_systems.
Proof.
  assert (H1 : rtxLink_SessionRegister false (with_os "Linux") [] started =
    Ret (match rtxLink_SessionRegister false (with_os "Linux") [] started with Ret s => s | _ => started end))
    by (vm_compute; reflexivity).
  eapply reach_register; [eapply reach_register; [apply reach_start|exact H1]|].
  instantiate (1 := []). instantiate (1 := with_os "Windows"). vm_compute. reflexivity.
Qed.

Definition the_decl (s : session) (os : string) : cw_outcome (option string) :=
  t <- rtxLink_FindUniqueTemplate (Proto (TId (Ident "LKM" "Context" false)) []) (os_config os) s ;;
  match t with
  | None => Ret None
  | Some t => e <- rtxLink_selectChunkFromTemplate t (te_decl t) (cur s) ;;
              Ret (option_map ce_tree_file e)
  end.

Example two_systems_decl :
  map (the_decl two_systems) ["Linux"; "Windows"; "OpenBSD"] =
  [Ret (Some "Linux.tree"); Ret (Some "Windows.tree"); Ret None].
Proof. vm_compute. reflexivity. Qed.

(** The code of the second [with] of an interface is not registered. *)
Theorem second_global_code_lost :
  map ge_tree_file (global_code (cur two_systems)) = ["Linux.tree"] /\
  rtxLink_findGlobalCode (os_config "Windows") (cur two_systems) = Ret [].
Proof. split; vm_compute; reflexivity. Qed.

Definition linux_tpl : tpl_entry :=
  match at_key "LKM::Context()" (types (cur two_systems)) with t :: _ => t | [] => TplEntry [] "" None "" [] [] None end.

Example session_resolves_witness :
  exists e, rtxLink_selectChunkFromTemplate linux_tpl "LKM::Context()" (cur two_systems) = Ret (Some e) /\
    ce_name e = "LKM::Context()".
Proof.
  apply (session_resolves false two_systems (cur two_systems) Types "LKM::Context()" linux_tpl "LKM::Context()").
  - exact two_systems_reachable.
  - left. reflexivity.
  - vm_compute. left.
  - vm_compute. left.
Defined.

Example merge_refines_witness :
  exists c, rtxLink_MergeCaches true (cur two_systems) (cur two_systems) = Ret c /\
    length (view Types c "LKM::Context()") = 4.
Proof.
  destruct (rtxLink_MergeCaches true (cur two_systems) (cur two_systems)) as [c| |] eqn:E;
    [|vm_compute in E; discriminate E..].
  destruct (merge_refines true (cur two_systems) (cur two_systems) c) as [_ Hv];
    [apply (reachable_wf false), two_systems_reachable..|exact E|].
  exists c. split; [reflexivity|]. rewrite (Hv Types "LKM::Context()"). vm_compute. reflexivity.
Defined.

Definition linux_with : with_node := w_config (rtxNodeWith_BuildFromConstraints (With [] (os_is "Linux"))).

Definition register_linux (s : session) : session :=
  match rtxLink_SessionRegisterTpl (context_tpl "Linux") linux_with s with Ret s => s | _ => s end.

Example duplicate_template_unusable_witness :
  rtxLink_FindUniqueTemplate (Proto (TId (Ident "LKM" "Context" false)) []) (os_config "Linux")
    (register_linux started) <> Ret None /\
  forall t, rtxLink_FindUniqueTemplate (Proto (TId (Ident "LKM" "Context" false)) []) (os_config "Linux")
    (register_linux (register_linux started)) <> Ret (Some t).
Proof.
  split; [vm_compute; discriminate|].
  destruct (duplicate_template_unusable false started (context_tpl "Linux") linux_with
    (register_linux started) (register_linux (register_linux started))) as [_ H];
    [apply reach_start|reflexivity|vm_compute; reflexivity|vm_compute; reflexivity|].
  intros t. apply (H (os_config "Linux") t). vm_compute. reflexivity.
Defined.

Example find_unique_spec_witness :
  exists t, rtxLink_FindUniqueTemplate (Proto (TId (Ident "LKM" "Context" false)) []) (os_config "Linux") two_systems
    = Ret (Some t) /\ rtxLink_IsWithNodeCompatible (te_with t) (os_config "Linux") = Ret true.
Proof.
  pose proof (find_unique_spec (Proto (TId (Ident "LKM" "Context" false)) []) (os_config "Linux") two_systems) as H.
  destruct (rtxLink_FindUniqueTemplate (Proto (TId (Ident "LKM" "Context" false)) []) (os_config "Linux") two_systems)
    as [[t|]| |] eqn:E; [|vm_compute in E; discriminate E..].
  exists t. split; [reflexivity|]. destruct (H t eq_refl) as (h & pre & post & _ & _ & Hc & _). exact Hc.
Defined.
