(* ===== verification/LinkCache.v ===== *)
(** * The caches of the linker on disk

    Model of the loading, saving and installing of caches of
    src/rathaxes/compiler/linker/rtxLink_Session.inc.cws.  A run loads two caches,
    the local one of the user and the global one, merged into its session; what it
    registers is written to files of the working directory, which saving copies
    into the local library under names of their own before it merges the temporary
    session into the local cache.  Installing moves the local cache and its files
    into the global ones.  LinkSession.v has the session and the merging. *)
From Stdlib Require Import String.
From S2P Require Import Prelude CodeWorker ConfigMatcher LinkSession.

Local Open Scope string_scope.
Local Open Scope list_scope.
Local Open Scope nat_scope.
Local Open Scope cw_scope.

(** ** Files *)

(** The paths, which end in a slash; the files that may be written; the digest,
    and the text of a [with]. *)
Class Library := {
  local_backlib_path : string;
  backlib_path : string;
  local_cache_path : string;
  cache_path : string;
  writable : string -> bool;
  computeMD5 : string -> string;
  toString : with_node -> string
}.

(** Files with a content, and caches that were saved. *)
Record disk := Disk { contents : gmap string string; projects : gmap string cache }.

(** The variables of the linker, and the disk. *)
Record linker := Linker { c_global : cache; c_local : cache; c_session : session; c_disk : disk }.

(** A function that is given nodes by reference, and answers whether it
    succeeded: what it has renamed before a failure stays renamed, and the files
    it has copied stay. *)
Definition step (A : Type) : Type := A -> disk -> bool * A * disk.

(** A [foreach] over the entries of an array, with their numbers, up to the first
    that fails. *)
Fixpoint each {A} (f : nat -> step A) (i : nat) (l : list A) (d : disk) : bool * list A * disk :=
  match l with
  | [] => (true, [], d)
  | x :: l =>
      let '(ok, x, d) := f i x d in
      if ok then let '(ok, l, d) := each f (S i) l d in (ok, x :: l, d) else (false, x :: l, d)
  end.

Section library.
Context {L : Library}.

(** An error where the source is not there or the copy cannot be written. *)
Definition copyFile (src dst : string) (d : disk) : option disk :=
  match contents d !! src with
  | Some c => if writable dst then Some (Disk (<[dst := c]> (contents d)) (projects d)) else None
  | None => None
  end.

Definition deleteFile (path : string) (d : disk) : disk := Disk (delete path (contents d)) (projects d).

(** ** Saving *)

Definition file_name (theKey : string) (tmpWith : with_node) : string :=
  computeMD5 (theKey ++ "_" ++ toString tmpWith)%string.

(** On the names of a tree and of a script. *)
Definition rtxLink_ValidateFiles (backend_path theKey : string) (tmpWith : with_node) : step (string * string) :=
  fun f d =>
  let '(tree_file, script_file) := f in
  let filename := file_name theKey tmpWith in
  match copyFile tree_file (backend_path ++ filename ++ ".tree")%string d with
  | None => (false, f, d)
  | Some d =>
      match copyFile script_file (backend_path ++ filename ++ ".cws")%string d with
      | None => (false, f, d)
      | Some d => (true, ((filename ++ ".tree")%string, (filename ++ ".cws")%string), d)
      end
  end.

(** The name is changed before the copy. *)
Definition rtxLink_ValidateItf (backend_path : string) : step string := fun oldFile d =>
  let tree_file := ("interfaces/" ++ oldFile)%string in
  match copyFile oldFile (backend_path ++ tree_file)%string d with
  | None => (false, tree_file, d)
  | Some d => (true, tree_file, d)
  end.

Definition validate_ext : step ext_entry := fun x d =>
  let '(ok, f, d) := rtxLink_ValidateItf local_backlib_path (xe_tree_file x) d in
  (ok, ExtEntry (xe_with x) f, d).

(** An interface and its extensions; one that was only extended has no tree. *)
Definition validate_itf : step (string * itf_entry) := fun ki d =>
  let '(k, itf) := ki in
  let '(ok, f, d) := rtxLink_ValidateItf local_backlib_path (default "" (ie_tree_file itf)) d in
  if ok then
    let '(ok, exts, d) := each (fun _ => validate_ext) 0 (ie_extensions itf) d in
    (ok, (k, ItfEntry (ie_name itf) (Some f) exts), d)
  else (false, (k, ItfEntry (ie_name itf) (Some f) (ie_extensions itf)), d).

Definition glob_key (i : nat) : string := ("glob_" ++ cw_nat i)%string.

Definition validate_glob (i : nat) : step glob_entry := fun glob d =>
  let '(ok, f, d) := rtxLink_ValidateFiles local_backlib_path (glob_key i) (ge_with glob)
                       (ge_tree_file glob, ge_script_file glob) d in
  (ok, GlobEntry (ge_with glob) (ge_interfaces glob) f.2 f.1, d).

Definition chunk_key (pointcut : string) (i : nat) (chunk : chunk_entry) : string :=
  ("chunk_" ++ ce_tpl_id chunk ++ "_" ++ pointcut ++ "_" ++ cw_nat i)%string.

Definition validate_chunk (pointcut : string) (i : nat) : step chunk_entry := fun chunk d =>
  let '(ok, f, d) := rtxLink_ValidateFiles local_backlib_path (chunk_key pointcut i chunk) (ce_with chunk)
                       (ce_tree_file chunk, ce_script_file chunk) d in
  (ok, ChunkEntry (ce_name chunk) (ce_with chunk) (ce_tpl_id chunk) f.2 f.1, d).

Definition validate_pointcut : step (string * list chunk_entry) := fun kc d =>
  let '(ok, cs, d) := each (validate_chunk kc.1) 0 kc.2 d in (ok, (kc.1, cs), d).

(** The loops over the templates visit the lists of templates, which have no
    file: they do nothing. *)
Definition validate_temp : step cache := fun t d =>
  let '(ok, itfs, d) := each (fun _ => validate_itf) 0 (interfaces t) d in
  let t := set_interfaces itfs t in
  if negb ok then (false, t, d) else
  let '(ok, globs, d) := each validate_glob 0 (global_code t) d in
  let t := Cache (templates t) (sequences t) (types t) (chunks t) globs (interfaces t) in
  if negb ok then (false, t, d) else
  let '(ok, cs, d) := each (fun _ => validate_pointcut) 0 (chunks t) d in
  (ok, Cache (templates t) (sequences t) (types t) cs (global_code t) (interfaces t), d).

(** [ignore]: [this.cache_conflicts] is "ignore". *)
Definition rtxLink_ValidateDiff (ignore : bool) (k : linker) : cw_outcome (bool * linker) :=
  let '(ok, t, d) := validate_temp (temp (c_session k)) (c_disk k) in
  let k := Linker (c_global k) (c_local k) (Session (cur (c_session k)) t) d in
  if negb ok then Ret (false, k)
  else
    c <- rtxLink_MergeCaches ignore (c_local k) t ;;
    Ret (true, Linker (c_global k) c (c_session k) (c_disk k)).

Definition cache_file (path : string) : string := (path ++ "rtxLink_Cache.tree")%string.

Definition save_project (path : string) (c : cache) (d : disk) : disk :=
  Disk (contents d) (<[cache_file path := c]> (projects d)).

Definition rtxLink_SaveCache (ignore local_only_flag : bool) (k : linker) : cw_outcome (bool * linker) :=
  r <- rtxLink_ValidateDiff ignore k ;;
  let '(ok, k) := r in
  if negb ok then Ret (false, k)
  else
    let d := save_project local_cache_path (c_local k) (c_disk k) in
    let d := if local_only_flag then d else save_project cache_path (c_global k) d in
    Ret (true, Linker (c_global k) (c_local k) (Session (cur (c_session k)) empty_cache) d).

(** ** Loading *)

(** The global cache may be missing, the local one may not. *)
Definition rtxLink_LoadCache (ignore : bool) (k : linker) : cw_outcome (bool * linker) :=
  let global := default (c_global k) (projects (c_disk k) !! cache_file cache_path) in
  match projects (c_disk k) !! cache_file local_cache_path with
  | None => Ret (false, Linker global (c_local k) (c_session k) (c_disk k))
  | Some l =>
      c <- rtxLink_MergeCaches ignore global l ;;
      Ret (true, Linker global l (Session c empty_cache) (c_disk k))
  end.

(** ** Installing *)

(** A call outside of a [try]: a failure is an error of the run. *)
Definition unguarded (r : option disk) : cw_outcome disk :=
  match r with Some d => Ret d | None => Error end.

(** Both parts copy and delete the script. *)
Definition rtxLink_InstallItem (script_file tree_file : option string) (itf_flag : bool) (d : disk) : cw_outcome disk :=
  let sub := if itf_flag then "interfaces/" else "" in
  let local_path := (local_backlib_path ++ sub)%string in
  let glob_path := (backlib_path ++ sub)%string in
  let script := default "" script_file in
  let install d :=
    d <- unguarded (copyFile (local_path ++ script)%string (glob_path ++ script)%string d) ;;
    Ret (deleteFile (local_path ++ script)%string d) in
  d <- (if script_file is Some _ then install d else Ret d) ;;
  if tree_file is Some _ then install d else Ret d.

Definition install_itf (ki : string * itf_entry) (d : disk) : cw_outcome disk :=
  d <- rtxLink_InstallItem None (ie_tree_file ki.2) true d ;;
  cw_foreach (fun x d => rtxLink_InstallItem None (Some (xe_tree_file x)) true d) (ie_extensions ki.2) d.

Definition install_tpl (t : tpl_entry) (d : disk) : cw_outcome disk :=
  rtxLink_InstallItem (option_map fst (te_files t)) (option_map snd (te_files t)) false d.

Definition install_chunk (c : chunk_entry) (d : disk) : cw_outcome disk :=
  rtxLink_InstallItem (Some (ce_script_file c)) (Some (ce_tree_file c)) false d.

(** [caches.local.glob] is never set: no global code is installed. *)
Definition install_files (l : cache) (d : disk) : cw_outcome disk :=
  d <- cw_foreach install_itf (interfaces l) d ;;
  d <- cw_foreach (fun kts => cw_foreach install_tpl kts.2) (sequences l) d ;;
  d <- cw_foreach (fun kts => cw_foreach install_tpl kts.2) (types l) d ;;
  cw_foreach (fun kcs => cw_foreach install_chunk kcs.2) (chunks l) d.

(** From a run that has no session yet, as the command line enters it. *)
Definition rtxLink_InstallLocalCache (ignore : bool) (k : linker) : cw_outcome (bool * linker) :=
  r <- rtxLink_LoadCache ignore k ;;
  let k := r.2 in
  d <- install_files (c_local k) (c_disk k) ;;
  new_cache <- rtxLink_MergeCaches ignore (c_global k) (c_local k) ;;
  rtxLink_SaveCache ignore false (Linker new_cache empty_cache (c_session k) d).

(** ** The commands of the command line that change the caches *)

(** [blt-register], of which the load of the caches comes first, and the
    registration and the save last; in between the file is parsed, checked and
    generated, and gives [block]. *)
Definition register_run (ignore : bool) (block : list decl) (k : linker) : cw_outcome linker :=
  r <- rtxLink_LoadCache ignore k ;;
  let k := r.2 in
  s <- rtxLink_RegisterToCache ignore block (c_session k) ;;
  r <- rtxLink_SaveCache ignore true (Linker (c_global k) (c_local k) s (c_disk k)) ;;
  if r.1 then Ret r.2 else Error.

(** [cache clear]. *)
Definition cache_clear (ignore : bool) (k : linker) : cw_outcome linker :=
  r <- rtxLink_LoadCache ignore k ;;
  r <- rtxLink_SaveCache ignore true (Linker (c_global r.2) empty_cache (c_session r.2) (c_disk r.2)) ;;
  Ret r.2.

(** ** The copies of a save *)

(** Copies, in order, up to one that fails. *)
Fixpoint copies (l : list (string * string)) (d : disk) : option disk :=
  match l with
  | [] => Some d
  | (src, dst) :: l => d ← copyFile src dst d; copies l d
  end.

(** A function that renames as [g] does and makes the copies [J]. *)
Definition implements {A} (f : step A) (g : A -> A) (J : A -> list (string * string)) : Prop :=
  forall x d, match copies (J x) d with
              | Some d' => f x d = (true, g x, d')
              | None => (f x d).1.1 = false
              end.

Definition file_names (theKey : string) (w : with_node) : string * string :=
  ((file_name theKey w ++ ".tree")%string, (file_name theKey w ++ ".cws")%string).

Definition files_jobs (theKey : string) (w : with_node) (f : string * string) : list (string * string) :=
  [(f.1, (local_backlib_path ++ (file_names theKey w).1)%string);
   (f.2, (local_backlib_path ++ (file_names theKey w).2)%string)].

Definition itf_job (f : string) : string * string :=
  (f, (local_backlib_path ++ "interfaces/" ++ f)%string).

Definition installed_chunk (pointcut : string) (i : nat) (e : chunk_entry) : chunk_entry :=
  let f := file_names (chunk_key pointcut i e) (ce_with e) in
  ChunkEntry (ce_name e) (ce_with e) (ce_tpl_id e) f.2 f.1.

Definition chunk_jobs (pointcut : string) (i : nat) (e : chunk_entry) : list (string * string) :=
  files_jobs (chunk_key pointcut i e) (ce_with e) (ce_tree_file e, ce_script_file e).

Definition installed_itf (ki : string * itf_entry) : string * itf_entry :=
  (ki.1, ItfEntry (ie_name ki.2) (Some ("interfaces/" ++ default "" (ie_tree_file ki.2))%string)
           (map (fun x => ExtEntry (xe_with x) ("interfaces/" ++ xe_tree_file x)%string) (ie_extensions ki.2))).

Definition installed_glob (i : nat) (g : glob_entry) : glob_entry :=
  let f := file_names (glob_key i) (ge_with g) in GlobEntry (ge_with g) (ge_interfaces g) f.2 f.1.

Definition installed_chunks (kc : string * list chunk_entry) : string * list chunk_entry :=
  (kc.1, imap (installed_chunk kc.1) kc.2).

(** The temporary cache with the files' new names, and the copies that make
    them. *)
Definition installed (t : cache) : cache :=
  Cache (templates t) (sequences t) (types t) (map installed_chunks (chunks t))
    (imap installed_glob (global_code t)) (map installed_itf (interfaces t)).

Definition jobs (t : cache) : list (string * string) :=
  flat_map (fun ki => itf_job (default "" (ie_tree_file ki.2)) :: flat_map (fun x => [itf_job (xe_tree_file x)]) (ie_extensions ki.2))
    (interfaces t) ++
  concat (imap (fun i g => files_jobs (glob_key i) (ge_with g) (ge_tree_file g, ge_script_file g)) (global_code t)) ++
  flat_map (fun kc => concat (imap (chunk_jobs kc.1) kc.2)) (chunks t).

Lemma copies_app l k d : copies (l ++ k) d = (d ← copies l d; copies k d).
Proof.
  revert d; induction l as [|[src dst] l IH]; intros d; [done|]; simpl.
  destruct (copyFile src dst d); [apply IH|done].
Qed.

Lemma implements_each {A} (f : nat -> step A) g (J : nat -> A -> list (string * string)) :
  (forall i, implements (f i) (g i) (J i)) ->
  forall i, implements (each f i) (imap (fun j => g (i + j))) (fun l => concat (imap (fun j => J (i + j)) l)).
Proof.
  intros H i l. revert i. induction l as [|x l IH]; intros i d; [done|].
  specialize (IH (S i)). simpl. rewrite Nat.add_0_r, copies_app.
  rewrite (imap_ext (fun j => J (i + S j)) (fun j => J (S i + j)))
    by (intros; by rewrite Nat.add_succ_r).
  rewrite (imap_ext (fun j => g (i + S j)) (fun j => g (S i + j)))
    by (intros; by rewrite Nat.add_succ_r).
  specialize (H i x d). destruct (copies (J i x) d) as [d1|]; simpl.
  - rewrite H. specialize (IH d1). destruct (copies _ d1) as [d2|]; [by rewrite IH|].
    destruct (each f (S i) l d1) as [[ok l'] d2]. by simpl in *; subst.
  - destruct (f i x d) as [[ok x'] d1]. by simpl in *; subst.
Qed.

Lemma implements_each_const {A} (f : step A) g J :
  implements f g J -> implements (each (fun _ => f) 0) (map g) (flat_map J).
Proof.
  intros H l d. pose proof (implements_each (fun _ => f) (fun _ => g) (fun _ => J) (fun _ => H) 0 l d) as Hl.
  simpl in Hl. rewrite flat_map_concat_map.
  assert (Hm : forall B (h : A -> B) l, imap (fun _ => h) l = map h l).
  { intros B h k. induction k as [|x k IH]; [done|]. simpl. f_equal. exact IH. }
  by rewrite !Hm in Hl.
Qed.

Lemma implements_files theKey w :
  implements (rtxLink_ValidateFiles local_backlib_path theKey w) (fun _ => file_names theKey w)
    (files_jobs theKey w).
Proof.
  intros [tree script] d. simpl. destruct (copyFile tree _ d) as [d1|]; [|done]. simpl.
  by destruct (copyFile script _ d1).
Qed.

Lemma implements_chunk p i : implements (validate_chunk p i) (installed_chunk p i) (chunk_jobs p i).
Proof.
  intros e d. unfold validate_chunk, chunk_jobs.
  pose proof (implements_files (chunk_key p i e) (ce_with e) (ce_tree_file e, ce_script_file e) d) as H.
  destruct (copies _ d); [by rewrite H|].
  destruct (rtxLink_ValidateFiles _ _ _ _ d) as [[ok f] d1]. by simpl in *; subst.
Qed.

Lemma implements_glob i : implements (validate_glob i) (installed_glob i)
  (fun g => files_jobs (glob_key i) (ge_with g) (ge_tree_file g, ge_script_file g)).
Proof.
  intros e d. unfold validate_glob.
  pose proof (implements_files (glob_key i) (ge_with e) (ge_tree_file e, ge_script_file e) d) as H.
  destruct (copies _ d); [by rewrite H|].
  destruct (rtxLink_ValidateFiles _ _ _ _ d) as [[ok f] d1]. by simpl in *; subst.
Qed.

Lemma implements_itf_file : implements (rtxLink_ValidateItf local_backlib_path)
  (fun f => ("interfaces/" ++ f)%string) (fun f => [itf_job f]).
Proof.
  intros f d. unfold rtxLink_ValidateItf. simpl. by destruct (copyFile f _ d).
Qed.

Lemma implements_ext : implements validate_ext
  (fun x => ExtEntry (xe_with x) ("interfaces/" ++ xe_tree_file x)%string) (fun x => [itf_job (xe_tree_file x)]).
Proof.
  intros x d. unfold validate_ext. pose proof (implements_itf_file (xe_tree_file x) d) as H.
  destruct (copies _ d); [by rewrite H|].
  destruct (rtxLink_ValidateItf _ _ d) as [[ok f] d1]. by simpl in *; subst.
Qed.

Lemma implements_itf : implements validate_itf installed_itf
  (fun ki => itf_job (default "" (ie_tree_file ki.2)) :: flat_map (fun x => [itf_job (xe_tree_file x)]) (ie_extensions ki.2)).
Proof.
  intros [k itf] d. cbn [snd].
  change (itf_job (default "" (ie_tree_file itf)) :: flat_map (fun x => [itf_job (xe_tree_file x)]) (ie_extensions itf))
    with ([itf_job (default "" (ie_tree_file itf))] ++ flat_map (fun x => [itf_job (xe_tree_file x)]) (ie_extensions itf)).
  rewrite copies_app. unfold validate_itf.
  pose proof (implements_itf_file (default "" (ie_tree_file itf)) d) as H.
  cbv beta in H. destruct (copies [_] d) as [d1|]; simpl.
  - rewrite H. pose proof (implements_each_const _ _ _ implements_ext (ie_extensions itf) d1) as Hx.
    destruct (copies _ d1); [by rewrite Hx|].
    destruct (each _ 0 _ d1) as [[ok l] d2]. by simpl in *; subst.
  - destruct (rtxLink_ValidateItf _ _ d) as [[ok f] d1]. by simpl in *; subst.
Qed.

Lemma implements_pointcut : implements validate_pointcut installed_chunks
  (fun kc => concat (imap (chunk_jobs kc.1) kc.2)).
Proof.
  intros [p cs] d. unfold validate_pointcut, installed_chunks. cbn [fst snd].
  pose proof (implements_each _ _ _ (implements_chunk p) 0 cs d) as H.
  cbn [Nat.add] in H. destruct (copies _ d); [by rewrite H|].
  destruct (each _ 0 cs d) as [[ok l] d1]. by simpl in *; subst.
Qed.

(** A save copies as the list of its copies says, and fails where they do. *)
Lemma implements_temp : implements validate_temp installed jobs.
Proof.
  intros t d. unfold validate_temp, jobs, installed. rewrite !copies_app.
  pose proof (implements_each_const _ _ _ implements_itf (interfaces t) d) as H1.
  destruct (copies _ d) as [d1|]; simpl.
  - rewrite H1. rewrite copies_app. pose proof (implements_each _ _ _ implements_glob 0 (global_code t) d1) as H2.
    cbn [Nat.add] in H2. cbn [negb global_code].
    destruct (copies _ d1) as [d2|]; simpl.
    + rewrite H2. cbn [negb]. pose proof (implements_each_const _ _ _ implements_pointcut (chunks t) d2) as H3.
      cbn [chunks set_interfaces]. destruct (copies _ d2); [by rewrite H3|].
      destruct (each _ 0 (chunks t) d2) as [[ok l] d3]. by simpl in *; subst.
    + destruct (each _ 0 (global_code t) d1) as [[ok l] d3]. by simpl in *; subst.
  - destruct (each _ 0 (interfaces t) d) as [[ok l] d3]. by simpl in *; subst.
Qed.

Lemma copyFile_inv src dst d d' :
  copyFile src dst d = Some d' ->
  exists c, contents d !! src = Some c /\ d' = Disk (<[dst := c]> (contents d)) (projects d).
Proof.
  unfold copyFile. destruct (contents d !! src) as [c|]; [|done]. destruct (writable dst); [|done].
  intros [= <-]. by exists c.
Qed.

(** Copies to distinct files, none of which is copied. *)
Lemma copies_kept l d d' :
  NoDup (map snd l) -> (forall p, p ∈ map fst l -> p ∉ map snd l) -> copies l d = Some d' ->
  projects d' = projects d /\
  (forall x, x ∉ map snd l -> contents d' !! x = contents d !! x) /\
  forall p, p ∈ l -> is_Some (contents d !! p.1) /\ contents d' !! p.2 = contents d !! p.1.
Proof.
  revert d; induction l as [|[src dst] l IH]; intros d; simpl.
  - intros _ _ [= <-]. split_and!; [done|done|by intros p ?%not_elem_of_nil].
  - intros [Hdst Hnd]%NoDup_cons Hdis. destruct (copyFile src dst d) as [d1|] eqn:E; [|done].
    apply copyFile_inv in E as (c & Hc & ->). intros Hl. simpl in Hl.
    assert (Hsrc : forall p, p ∈ src :: map fst l -> p <> dst).
    { intros p Hp ->. apply (Hdis dst Hp). by left. }
    apply IH in Hl as (Hp & Hk & Hj); [|done|intros p Hp Hin; apply (Hdis p); by right].
    simpl in *. split_and!; [done| |].
    + intros x [Hx Hx']%not_elem_of_cons. by rewrite Hk, lookup_insert_ne.
    + intros p [->|Hin]%elem_of_cons; simpl.
      * split; [by exists c|]. by rewrite Hk, lookup_insert_eq, Hc.
      * destruct (Hj p Hin) as [Hs He]. rewrite lookup_insert_ne in Hs, He; [done|..].
        all: apply not_eq_sym, Hsrc; right; by apply list_elem_of_In, in_map, list_elem_of_In.
Qed.

(** ** The cache a save installs *)

Lemma at_key_installed p a : at_key p (map installed_chunks a) = imap (installed_chunk p) (at_key p a).
Proof.
  unfold at_key. induction a as [|[k l] a IH]; [done|]. simpl.
  destruct (String.eqb_spec p k) as [->|]; [done|apply IH].
Qed.

Lemma chunk_jobs_in p i e (c : cache) : at_key p (chunks c) !! i = Some e -> chunk_jobs p i e ⊆ jobs c.
Proof.
  unfold at_key. destruct (aget p (chunks c)) as [l|] eqn:E; [|done]. simpl. intros Hi j Hj.
  apply aget_In in E. unfold jobs. rewrite !elem_of_app. right. right.
  apply list_elem_of_In, in_flat_map. exists (p, l). split; [by apply list_elem_of_In|].
  apply in_concat. exists (chunk_jobs p i e). split; [|by apply list_elem_of_In].
  apply list_elem_of_In, list_elem_of_lookup. exists i. simpl. by rewrite list_lookup_imap, Hi.
Qed.

Lemma wf_installed c : wf_cache c -> wf_cache (installed c).
Proof.
  intros [H1 H2 H3 H4]. split; [|intros tb; exact (H2 tb)| |done].
  - intros tb h t Ht. destruct (H1 tb h t Ht) as [Hn Hk]. split; [done|]. intros k id Hin. simpl.
    rewrite at_key_installed, length_imap. by apply Hk.
  - intros k e. simpl. rewrite at_key_installed. intros (i & x & -> & Hx)%elem_of_lookup_imap. simpl.
    apply H3, list_elem_of_lookup. by exists i.
Qed.

Lemma nth_error_lookup {A} (l : list A) i : nth_error l i = l !! i.
Proof. revert i; induction l as [|x l IH]; intros [|i]; [done..|apply IH]. Qed.

Lemma resolve_installed c t p e :
  (p, Some e) ∈ resolve c t ->
  exists i, at_key p (chunks c) !! i = Some e /\ (p, Some (installed_chunk p i e)) ∈ resolve (installed c) t.
Proof.
  unfold resolve. rewrite list_elem_of_In, in_map_iff. intros ([k i] & [= -> He] & Hin). simpl in He.
  exists i. rewrite <- nth_error_lookup. split; [done|].
  apply list_elem_of_In, in_map_iff. exists (p, i). split; [|done]. simpl. f_equal.
  by rewrite at_key_installed, nth_error_lookup, list_lookup_imap, <- nth_error_lookup, He.
Qed.

Lemma save_inv ignore k k1 :
  rtxLink_SaveCache ignore true k = Ret (true, k1) ->
  exists d, copies (jobs (temp (c_session k))) (c_disk k) = Some d /\
    rtxLink_MergeCaches ignore (c_local k) (installed (temp (c_session k))) = Ret (c_local k1) /\
    c_disk k1 = save_project local_cache_path (c_local k1) d.
Proof.
  unfold rtxLink_SaveCache, rtxLink_ValidateDiff.
  pose proof (implements_temp (temp (c_session k)) (c_disk k)) as H.
  destruct (copies _ (c_disk k)) as [d|].
  - rewrite H. simpl. destruct (rtxLink_MergeCaches ignore (c_local k) _) as [c| |]; [|done..].
    simpl. intros [= <-]. by exists d.
  - destruct (validate_temp _ _) as [[ok t'] d]. simpl in H. subst ok. done.
Qed.

Lemma load_inv ignore k k1 :
  rtxLink_LoadCache ignore k = Ret (true, k1) ->
  projects (c_disk k) !! cache_file local_cache_path = Some (c_local k1) /\
  rtxLink_MergeCaches ignore (default (c_global k) (projects (c_disk k) !! cache_file cache_path)) (c_local k1)
    = Ret (cur (c_session k1)).
Proof.
  unfold rtxLink_LoadCache. destruct (projects (c_disk k) !! cache_file local_cache_path) as [l|]; [|done].
  destruct (rtxLink_MergeCaches _ _ l) as [c| |] eqn:E; [|done..]. simpl. intros [= <-]. done.
Qed.

(** What a template of a view is. *)
Lemma view_inv tb c h t r :
  (strip t, r) ∈ view tb c h -> exists t', t' ∈ at_key h (tpls tb c) /\ strip t' = strip t /\ resolve c t' = r.
Proof.
  unfold view. rewrite list_elem_of_In, in_map_iff. intros (t' & Heq & Hin).
  exists t'. split_and!; [by apply list_elem_of_In|exact (f_equal fst Heq)|exact (f_equal snd Heq)].
Qed.

Lemma resolve_select c t p e :
  NoDup (akeys (te_chunks t)) -> (p, Some e) ∈ resolve c t ->
  rtxLink_selectChunkFromTemplate t p c = Ret (Some e).
Proof.
  intros Hn. unfold resolve. rewrite list_elem_of_In, in_map_iff. intros ([k i] & [= -> He] & Hin%list_elem_of_In).
  simpl in He. unfold rtxLink_selectChunkFromTemplate. by rewrite (In_aget p _ i), He.
Qed.

(** C14: What a run registers and saves is what the next run loads: each
    template of the temporary session is found again with its contents, its
    chunks under the same pointcuts, and the files these name in the local
    library have the contents of the files the first run generated, provided
    the names given are distinct from each other and from those of the
    originals. *)
Theorem saved_session_loaded ignore k k1 k2 k3 tb h t p e :
  wf_cache (c_local k) -> wf_cache (temp (c_session k)) ->
  NoDup (map snd (jobs (temp (c_session k)))) ->
  (forall f, f ∈ map fst (jobs (temp (c_session k))) -> f ∉ map snd (jobs (temp (c_session k)))) ->
  rtxLink_SaveCache ignore true k = Ret (true, k1) ->
  c_disk k2 = c_disk k1 ->
  wf_cache (default (c_global k2) (projects (c_disk k2) !! cache_file cache_path)) ->
  rtxLink_LoadCache ignore k2 = Ret (true, k3) ->
  t ∈ at_key h (tpls tb (temp (c_session k))) ->
  (p, Some e) ∈ resolve (temp (c_session k)) t ->
  exists t' e',
    t' ∈ at_key h (tpls tb (cur (c_session k3))) /\ strip t' = strip t /\
    rtxLink_selectChunkFromTemplate t' p (cur (c_session k3)) = Ret (Some e') /\
    contents (c_disk k2) !! (local_backlib_path ++ ce_tree_file e')%string = contents (c_disk k) !! ce_tree_file e /\
    contents (c_disk k2) !! (local_backlib_path ++ ce_script_file e')%string = contents (c_disk k) !! ce_script_file e.
Proof.
  intros Wl Wt Hnd Hdis (d & Hd & Hm1 & Hk1)%save_inv Hk2 Wg [Hl Hm2]%load_inv Ht He.
  destruct (copies_kept _ _ _ Hnd Hdis Hd) as (_ & _ & Hj).
  destruct (resolve_installed _ _ _ _ He) as (i & Hi & He').
  rewrite Hk2, Hk1 in Hl. simpl in Hl. rewrite lookup_insert_eq in Hl. injection Hl as Hl. rewrite Hl in Hm1.
  apply merge_caches in Hm1 as [W1 V1]; [|done|by apply wf_installed].
  apply merge_caches in Hm2 as [W2 V2]; [|done..].
  assert (Hv : (strip t, resolve (installed (temp (c_session k))) t) ∈ view tb (cur (c_session k3)) h).
  { rewrite V2, V1, !elem_of_app. right. right. apply list_elem_of_In, in_map_iff. exists t.
    split; [done|]. apply list_elem_of_In. by destruct tb. }
  apply view_inv in Hv as (t' & Ht' & Hs & Hr). exists t', (installed_chunk p i e).
  split_and!; [done|done| | |].
  - apply resolve_select; [by apply (wf_found _ W2 tb h)|by rewrite Hr].
  - rewrite Hk2, Hk1. apply (Hj (_, _)), (chunk_jobs_in p i e); [done|]. left.
  - rewrite Hk2, Hk1. apply (Hj (_, _)), (chunk_jobs_in p i e); [done|]. right. left.
Qed.

(** ** Installing *)

Lemma cw_foreach_total {A S} (f : A -> S -> cw_outcome S) l :
  (forall x s, f x s <> Short) -> forall s, cw_foreach f l s <> Short.
Proof.
  intros H. induction l as [|x l IH]; intros s; simpl; [done|].
  specialize (H x s). destruct (f x s); simpl; [apply IH|done|done].
Qed.

Lemma cw_foreach_error {A S} (f : A -> S -> cw_outcome S) l x s :
  (forall x s, f x s <> Short) -> x ∈ l -> (forall s, f x s = Error) -> cw_foreach f l s = Error.
Proof.
  intros H Hin Hx. apply list_elem_of_split in Hin as (l1 & l2 & ->). rewrite cw_foreach_app. simpl.
  pose proof (cw_foreach_total f l1 H s) as H1.
  destruct (cw_foreach f l1 s) as [s1| |]; [|done..]. simpl. by rewrite Hx.
Qed.

Lemma cw_bind_error {A B} (m : cw_outcome A) (k : A -> cw_outcome B) :
  m <> Short -> (forall a, k a = Error) -> cw_bind m k = Error.
Proof. destruct m; simpl; auto. done. Qed.

Lemma cw_bind_total {A B} (m : cw_outcome A) (k : A -> cw_outcome B) :
  m <> Short -> (forall a, k a <> Short) -> cw_bind m k <> Short.
Proof. destruct m; simpl; auto. Qed.

Lemma install_item_total script tree flag d : rtxLink_InstallItem script tree flag d <> Short.
Proof.
  assert (Hu : forall r, unguarded r <> Short) by (by intros []).
  unfold rtxLink_InstallItem. apply cw_bind_total.
  - destruct script; [|done]. by apply cw_bind_total.
  - intros d1. destruct tree; [|done]. by apply cw_bind_total.
Qed.

(** The script is gone when it is copied for the second time. *)
Lemma install_item_error script tree flag d : rtxLink_InstallItem (Some script) (Some tree) flag d = Error.
Proof.
  unfold rtxLink_InstallItem. simpl. destruct (copyFile _ _ d) as [d1|]; [|done]. simpl.
  unfold copyFile at 1. simpl. by rewrite lookup_delete_eq.
Qed.

Lemma install_itf_total ki d : install_itf ki d <> Short.
Proof.
  unfold install_itf. pose proof (install_item_total None (ie_tree_file ki.2) true d) as H.
  destruct (rtxLink_InstallItem _ _ true d); simpl; [|done..].
  apply cw_foreach_total. intros x s. apply install_item_total.
Qed.

Lemma install_list_total {A} (f : A -> disk -> cw_outcome disk) (kts : string * list A) d :
  (forall x d, f x d <> Short) -> cw_foreach f kts.2 d <> Short.
Proof. intros H. by apply cw_foreach_total. Qed.

Lemma install_table_error {A} (f : A -> disk -> cw_outcome disk) (a : arr (list A)) k l x d :
  (forall x d, f x d <> Short) -> (k, l) ∈ a -> x ∈ l -> (forall d, f x d = Error) ->
  cw_foreach (fun kts => cw_foreach f kts.2) a d = Error.
Proof.
  intros H Hk Hx He. apply (cw_foreach_error _ a (k, l)); [by intros; apply cw_foreach_total|done|].
  intros s. by apply (cw_foreach_error _ l x).
Qed.

(** What has both a script and a tree. *)
Definition has_files (c : cache) : Prop :=
  (exists p l e, (p, l) ∈ chunks c /\ e ∈ l) \/
  (exists tb h ts t, (h, ts) ∈ tpls tb c /\ t ∈ ts /\ is_Some (te_files t)).

Lemma install_files_error c d : has_files c -> install_files c d = Error.
Proof.
  assert (Hc : forall e d, install_chunk e d <> Short) by (intros; apply install_item_total).
  assert (Ht : forall t d, install_tpl t d <> Short) by (intros; apply install_item_total).
  intros Hf. unfold install_files.
  apply cw_bind_error; [apply cw_foreach_total, install_itf_total|]. intros d1.
  destruct Hf as [(p & l & e & Hp & He)|(tb & h & ts & t & Hh & Hin & [[s f] Hs])].
  - apply cw_bind_error; [by apply cw_foreach_total; intros; apply cw_foreach_total|]. intros d2.
    apply cw_bind_error; [by apply cw_foreach_total; intros; apply cw_foreach_total|]. intros d3.
    apply (install_table_error _ _ p l e); [done..|]. intros d4. apply install_item_error.
  - assert (He : forall d, install_tpl t d = Error)
      by (intros; unfold install_tpl; rewrite Hs; apply install_item_error).
    destruct tb; simpl in Hh.
    + by rewrite (install_table_error install_tpl (sequences c) h ts t).
    + apply cw_bind_error; [by apply cw_foreach_total; intros; apply cw_foreach_total|]. intros d2.
      by rewrite (install_table_error install_tpl (types c) h ts t).
Qed.

(** C40: Installing the local cache ends in an error whenever it holds a
    chunk, or a template with a mapping: the script is copied and removed,
    and then copied again in place of the tree. *)
Theorem install_never_succeeds ignore k b k1 :
  rtxLink_LoadCache ignore k = Ret (b, k1) -> has_files (c_local k1) ->
  rtxLink_InstallLocalCache ignore k = Error.
Proof. intros Hl Hf. unfold rtxLink_InstallLocalCache. rewrite Hl. simpl. by rewrite install_files_error. Qed.

(** ** Names of two runs *)

Lemma append_inv_head (a b c : string) : (a ++ b)%string = (a ++ c)%string -> b = c.
Proof. induction a as [|x a IH]; simpl; [done|]. intros [= H]. by apply IH. Qed.

(** The names a chunk gets depend on its prototype, its pointcut, its position in
    the temporary session and its [with]: of two chunks of two runs that share
    them, the second takes the file of the first. *)
Theorem later_run_overwrites p i e1 e2 r1 r2 d1 d1' d2 d2' :
  ce_tpl_id e1 = ce_tpl_id e2 -> ce_with e1 = ce_with e2 ->
  validate_chunk p i e1 d1 = (true, r1, d1') -> validate_chunk p i e2 d2 = (true, r2, d2') ->
  ce_tree_file r1 = ce_tree_file r2 /\ ce_script_file r1 = ce_script_file r2 /\
  contents d2' !! (local_backlib_path ++ ce_tree_file r1)%string = contents d2 !! ce_tree_file e2.
Proof.
  intros Hid Hw H1 H2.
  pose proof (implements_chunk p i e1 d1) as J1. rewrite H1 in J1.
  pose proof (implements_chunk p i e2 d2) as J2. rewrite H2 in J2.
  destruct (copies _ d1) as [dx|]; [|done]. destruct (copies (chunk_jobs p i e2) d2) as [d|] eqn:E; [|done].
  injection J1 as -> ->. injection J2 as -> ->.
  assert (Hn : file_names (chunk_key p i e1) (ce_with e1) = file_names (chunk_key p i e2) (ce_with e2))
    by (unfold chunk_key; by rewrite Hid, Hw).
  unfold installed_chunk. rewrite Hn. split_and!; [done|done|]. simpl.
  unfold chunk_jobs in E. simpl in E.
  destruct (copyFile (ce_tree_file e2) _ d2) as [d3|] eqn:E3; [|done]. simpl in E.
  destruct (copyFile (ce_script_file e2) _ d3) as [d4|] eqn:E4; [|done]. injection E as <-.
  apply copyFile_inv in E3 as (c3 & H3 & ->). apply copyFile_inv in E4 as (c4 & H4 & ->). simpl.
  rewrite lookup_insert_ne, lookup_insert_eq, H3; [done|].
  by intros ?%append_inv_head%append_inv_head.
Qed.

End library.

(** ** Two runs *)

Definition paths : Library := {|
  local_backlib_path := "~/backend_library/"; backlib_path := "/backend_library/";
  local_cache_path := "~/cache/"; cache_path := "/cache/";
  writable _ := true;
  computeMD5 s := s;
  toString w := String.concat " " (akeys w)
|}.
#[local] Existing Instance paths.

Definition generated : disk :=
  Disk (list_to_map [("Linux.tree", "linux"); ("Linux.cws", "linux script");
                     ("Windows.tree", "windows"); ("Windows.cws", "windows script")]) ∅.

(** What the variables of the linker are when a run starts. *)
Definition fresh (d : disk) : linker := Linker empty_cache empty_cache started d.

Definition after (r : cw_outcome linker) : disk :=
  match r with Ret k => c_disk k | _ => Disk ∅ ∅ end.

(** The content of the declaration of LKM::Context for a system, in the session that a run
    on this disk loads. *)
Definition loaded_decl (os : string) (d : disk) : cw_outcome (option string) :=
  r <- rtxLink_LoadCache false (fresh d) ;;
  f <- the_decl (c_session r.2) os ;;
  Ret (f ← f; contents d !! (local_backlib_path ++ f)%string).

Definition linux_run : cw_outcome linker := register_run false [with_os "Linux"] (fresh generated).

Definition windows_run : cw_outcome linker := register_run false [with_os "Windows"] (fresh (after linux_run)).

(** The Linux template of the cache means Linux after the first run, and Windows
    after the second. *)
Example two_runs_decl :
  loaded_decl "Linux" (after linux_run) = Ret (Some "linux") /\
  loaded_decl "Linux" (after windows_run) = Ret (Some "windows") /\
  loaded_decl "Windows" (after windows_run) = Ret (Some "windows").
Proof. split_and!; vm_compute; reflexivity. Qed.

Example cleared_cache :
  match cache_clear false (fresh (after linux_run)) with
  | Ret k => rtxLink_InstallLocalCache false (fresh (c_disk k)) <> Error
  | _ => False
  end.
Proof. vm_compute. discriminate. Qed.

(** ** Witnesses *)

Definition linux_session : session :=
  match rtxLink_RegisterToCache false [with_os "Linux"] started with Ret s => s | _ => started end.

Lemma linux_session_reachable : reachable false linux_session.
Proof.
  apply (reach_register false (with_os "Linux") [] started); [apply reach_start|]. vm_compute. reflexivity.
Qed.

Definition registered : linker := Linker empty_cache empty_cache linux_session generated.

Definition saved : linker :=
  match rtxLink_SaveCache false true registered with Ret (_, k) => k | _ => registered end.

Definition reloaded : linker :=
  match rtxLink_LoadCache false (fresh (c_disk saved)) with Ret (_, k) => k | _ => saved end.

Definition registered_tpl : tpl_entry :=
  match at_key "LKM::Context()" (types (temp linux_session)) with t :: _ => t | [] => linux_tpl end.

Definition registered_chunk : chunk_entry :=
  match at_key "LKM::Context()" (chunks (temp linux_session)) with e :: _ => e | [] => no_chunk end.

Example saved_session_loaded_witness :
  exists t' e',
    t' ∈ at_key "LKM::Context()" (tpls Types (cur (c_session reloaded))) /\
    rtxLink_selectChunkFromTemplate t' "LKM::Context()" (cur (c_session reloaded)) = Ret (Some e') /\
    contents (c_disk (fresh (c_disk saved))) !! (local_backlib_path ++ ce_tree_file e')%string = Some "linux".
Proof.
  destruct (saved_session_loaded false registered saved (fresh (c_disk saved)) reloaded Types "LKM::Context()"
    registered_tpl "LKM::Context()" registered_chunk) as (t' & e' & Ht & _ & Hs & Hc & _).
  - apply wf_empty.
  - apply (reachable_wf false), linux_session_reachable.
  - refine (bool_decide_unpack _ _). vm_compute. exact I.
  - apply (Forall_forall (fun f => f ∉ map snd (jobs (temp (c_session registered))))).
    refine (bool_decide_unpack _ _). vm_compute. exact I.
  - vm_compute. reflexivity.
  - reflexivity.
  - apply wf_empty.
  - vm_compute. reflexivity.
  - vm_compute. left.
  - vm_compute. left.
  - exists t', e'. split; [exact Ht|]. split; [exact Hs|].
    etransitivity; [exact Hc|]. vm_compute. reflexivity.
Defined.

Example install_never_succeeds_witness :
  rtxLink_InstallLocalCache false (fresh (c_disk saved)) = Error.
Proof.
  apply (install_never_succeeds false (fresh (c_disk saved)) true reloaded); [vm_compute; reflexivity|].
  left. exists "LKM::Context()", (at_key "LKM::Context()" (chunks (c_local reloaded))).
  eexists. split; vm_compute; left.
Defined.

Definition chunk_of (os : string) : chunk_entry :=
  ChunkEntry "LKM::Context()" [] "LKM::Context()" (os ++ ".cws") (os ++ ".tree").

Example later_run_overwrites_witness :
  contents (validate_chunk "LKM::Context()" 0 (chunk_of "Windows") (c_disk saved)).2 !!
    (local_backlib_path ++ "chunk_LKM::Context()_LKM::Context()_0_.tree")%string = Some "windows".
Proof.
  destruct (later_run_overwrites "LKM::Context()" 0 (chunk_of "Linux") (chunk_of "Windows")
    (validate_chunk "LKM::Context()" 0 (chunk_of "Linux") generated).1.2
    (validate_chunk "LKM::Context()" 0 (chunk_of "Windows") (c_disk saved)).1.2
    generated (validate_chunk "LKM::Context()" 0 (chunk_of "Linux") generated).2
    (c_disk saved) (validate_chunk "LKM::Context()" 0 (chunk_of "Windows") (c_disk saved)).2) as (_ & _ & H).
  - reflexivity.
  - reflexivity.
  - vm_compute. reflexivity.
  - vm_compute. reflexivity.
  - etransitivity; [exact H|]. vm_compute. reflexivity.
Defined.
