(* ===== verification/RegisterMask.v ===== *)
(** * The fields of registers

    Model of the bit arrays of src/rathaxes/compiler/misc/rtxTools.inc.cws and of
    rtxTypeCheck_Register of typing/routines/rtxTypingRoutines_Front.inc.cws.  A
    driver describes a register by a pattern, a character for each bit, the most
    significant first ("." a bit to be chosen, "0" and "1" a bit that must have
    that value, "*" a reserved bit), by ranges of bits as fields, and by named
    values of a field.  The compiler computes from it what the code of the driver
    is to write: two masks for each field and a number for each value. *)
From Stdlib Require Import String Ascii.
From S2P Require Import Prelude CodeWorker.

Local Open Scope string_scope.
Local Open Scope list_scope.
Local Open Scope Z_scope.
Local Open Scope cw_scope.

(** ** Bit arrays *)

(** The number that the arithmetic of the language makes of a character.  What the
    scripts compute, [+], [<<], [>>] and [%], is between [$ ... $], on numbers. *)
Class Arith := { digit : ascii -> Z }.

(** What the scripts rely on. *)
Class ArithLaws (A : Arith) : Prop := {
  digit_0 : digit "0" = 0;
  digit_1 : digit "1" = 1
}.

(** [pushItem list = charAt(str, i)] for each of the [n] positions from [i]. *)
Fixpoint stringToArray_from (n : nat) (str : string) (i : nat) (l : list ascii) : list ascii :=
  match n with
  | O => l
  | S n => stringToArray_from n str (S i) (l ++ [default "000"%char (String.get i str)])
  end.

Definition stringToArray (str : string) : list ascii :=
  stringToArray_from (String.length str) str 0 [].

Section bits.
Context {A : Arith}.

Fixpoint bitArrayValue_from (l : list ascii) (res : Z) : Z :=
  match l with
  | [] => res
  | bit :: l =>
      let res := res + digit bit in
      bitArrayValue_from l (match l with [] => res | _ :: _ => Z.shiftl res 1 end)
  end.

Definition bitArrayValue (l : list ascii) : Z := bitArrayValue_from l 0.

Definition bitToValue (str : string) : Z := bitArrayValue (stringToArray str).

Definition repr : list ascii :=
  ["0"; "1"; "2"; "3"; "4"; "5"; "6"; "7"; "8"; "9"; "A"; "B"; "C"; "D"; "E"; "F"]%char.

Fixpoint valueToHex_from (fuel : nat) (num : Z) (res : string) : cw_outcome string :=
  match fuel with
  | O => Short
  | S fuel =>
      if 0 <? num
      then valueToHex_from fuel (Z.shiftr num 4) (String (nth (Z.to_nat (num mod 16)) repr "000"%char) res)
      else Ret res
  end.

(** A round for each digit, and the last test. *)
Definition hex_fuel (num : Z) : nat := Z.to_nat (Z.log2 num) + 2.

Definition valueToHex (num : Z) : cw_outcome string :=
  if num =? 0 then Ret "0" else valueToHex_from (hex_fuel num) num "".

(** A mask: bits to keep and bits to set, as written, as numbers and in
    hexadecimal. *)
Record mask := Mask {
  m_and : string; m_or : string; and_int : Z; or_int : Z; and_hex : string; or_hex : string
}.

(** What a bit of the pattern adds to the two masks. *)
Definition mask_bits (thebit : ascii) : option (ascii * ascii) :=
  if Ascii.eqb thebit "." then Some ("1", "0")%char
  else if Ascii.eqb thebit "1" then Some ("0", "1")%char
  else if Ascii.eqb thebit "0" then Some ("0", "0")%char
  else None.

(** The loop over the pattern from its last bit, [idx] the number of the bit. *)
Fixpoint extract_from (first last : Z) (bits : list ascii) (idx : Z) (m : string * string)
    : option (string * string) :=
  match bits with
  | [] => Some m
  | thebit :: bits =>
      if (first <=? idx) && (idx <=? last) then
        match mask_bits thebit with
        | Some (a, o) => extract_from first last bits (idx + 1) (String a m.1, String o m.2)
        | None => None
        end
      else extract_from first last bits (idx + 1) m
  end.

(** No result: the code answers false. *)
Definition bitArrayExtractMask (l : list ascii) (first last : Z) : cw_outcome (option mask) :=
  match extract_from first last (rev l) 0 ("", "") with
  | None => Ret None
  | Some (a, o) =>
      ah <- valueToHex (bitToValue a) ;;
      oh <- valueToHex (bitToValue o) ;;
      Ret (Some (Mask a o (bitToValue a) (bitToValue o) ah oh))
  end.

(** ** Registers *)

Record bit_mask := BitMask { bm_mask : string; bm_name : string }.

(** A field: its bits, one or a range, and its values. *)
Record regmap := RegMap {
  f_name : string; f_begin : Z; f_end : option Z; f_listmask : list bit_mask
}.

Record register := Register { r_name : string; r_pattern : string; r_body : list regmap }.

(** What the check inserts in the nodes; the bounds of a field are in order. *)
Record checked_value := CheckedValue { k_name : string; k_bitsize : Z; k_value : Z }.

Record checked_map := CheckedMap {
  c_name : string; c_begin : Z; c_end : option Z; c_bitsize : Z;
  c_pattern : mask; c_values : list checked_value
}.

Record checked_register := CheckedRegister { c_size : Z; c_body : list checked_map }.

Definition check_value (field_bitsize first : Z) (value : bit_mask) : option checked_value :=
  let valuePattern := stringToArray (bm_mask value) in
  let value_bitsize := Z.of_nat (length valuePattern) in
  if negb (value_bitsize =? field_bitsize) then None
  else Some (CheckedValue (bm_name value) value_bitsize (Z.shiftl (bitArrayValue valuePattern) first)).

(** The bounds of a field, exchanged when they are not in order. *)
Definition ordered_bounds (field : regmap) : Z * option Z :=
  match f_end field with
  | Some e => if e <=? f_begin field then (e, Some (f_begin field)) else (f_begin field, Some e)
  | None => (f_begin field, None)
  end.

Definition check_field (bitsize : Z) (likePattern : list ascii) (field : regmap)
    : cw_outcome (option checked_map) :=
  let '(first, end_) := ordered_bounds field in
  if (first <? 0) || (bitsize - 1 <? first) ||
     match end_ with Some e => bitsize - 1 <? e | None => false end then Ret None
  else
    let field_bitsize := match end_ with Some e => 1 + e - first | None => 1 end in
    let last := match end_ with Some e => e | None => first end in
    m <- bitArrayExtractMask likePattern first last ;;
    Ret (m ← m; vs ← mapM (check_value field_bitsize first) (f_listmask field);
         Some (CheckedMap (f_name field) first end_ field_bitsize m vs)).

Fixpoint check_fields (bitsize : Z) (likePattern : list ascii) (body : list regmap)
    : cw_outcome (option (list checked_map)) :=
  match body with
  | [] => Ret (Some [])
  | field :: body =>
      c <- check_field bitsize likePattern field ;;
      match c with
      | None => Ret None
      | Some c => cs <- check_fields bitsize likePattern body ;; Ret (cs ← cs; Some (c :: cs))
      end
  end.

(** No result: the description is rejected, which ends the compilation. *)
Definition rtxTypeCheck_Register (theRegister : register) : cw_outcome (option checked_register) :=
  let likePattern := stringToArray (r_pattern theRegister) in
  let bitsize := Z.of_nat (length likePattern) in
  cs <- check_fields bitsize likePattern (r_body theRegister) ;;
  Ret (cs ← cs; Some (CheckedRegister bitsize cs)).

End bits.

(** The digit [1] is one; everything else counts for nothing. *)
#[export] Instance z_arith : Arith := {| digit c := if Ascii.eqb c "1" then 1 else 0 |}.

#[export] Instance z_arith_laws : ArithLaws z_arith.
Proof. by split. Qed.

(** ** Numbers in base two *)

Lemma length_array str : length (list_ascii_of_string str) = String.length str.
Proof. induction str as [|c str IH]; simpl; [done|by rewrite IH]. Qed.

Lemma stringToArray_eq str : stringToArray str = list_ascii_of_string str.
Proof.
  assert (H : forall n i l, (i + n = String.length str)%nat ->
    stringToArray_from n str i l = l ++ drop i (list_ascii_of_string str)).
  { induction n as [|n IH]; intros i l Hn; simpl.
    - rewrite drop_ge; [by rewrite app_nil_r|]. rewrite length_array. lia.
    - rewrite IH, <- app_assoc by lia. f_equal.
      assert (Hi : (i < length (list_ascii_of_string str))%nat) by (rewrite length_array; lia).
      apply lookup_lt_is_Some in Hi as [c Hc]. rewrite (drop_S _ c i Hc). simpl. f_equal.
      clear IH Hn. revert i Hc. induction str as [|d str IHs]; intros [|i]; simpl; try done; [by intros [= <-]|].
      apply IHs. }
  unfold stringToArray. by rewrite H.
Qed.

(** Characters that are binary digits, and the number they write. *)
Definition is_bit (c : ascii) : bool := Ascii.eqb c "0" || Ascii.eqb c "1".

Lemma is_bit_cases c : is_bit c -> c = "0"%char \/ c = "1"%char.
Proof. intros [H|H]%orb_prop_elim; apply Is_true_true, Ascii.eqb_eq in H; auto. Qed.

Definition value_of (l : list ascii) : Z :=
  foldl (fun r c => 2 * r + if Ascii.eqb c "1" then 1 else 0) 0 l.

(** The bit [i] of a pattern, from the last character. *)
Definition bit_at (l : list ascii) (i : Z) : ascii := nth (Z.to_nat i) (rev l) "000"%char.

Lemma value_of_snoc l c : value_of (l ++ [c]) = 2 * value_of l + if Ascii.eqb c "1" then 1 else 0.
Proof. unfold value_of. by rewrite foldl_app. Qed.

Lemma value_of_range l : 0 <= value_of l < 2 ^ Z.of_nat (length l).
Proof.
  induction l as [|c l IH] using rev_ind; [by compute|]. rewrite value_of_snoc, length_app. simpl.
  rewrite Nat2Z.inj_add, Z.pow_add_r by lia. change (2 ^ Z.of_nat 1) with 2. destruct (Ascii.eqb c "1"); lia.
Qed.

Lemma value_of_testbit l i : 0 <= i -> Z.testbit (value_of l) i = Ascii.eqb (bit_at l i) "1".
Proof.
  intros Hi. revert i Hi. induction l as [|c l IH] using rev_ind; intros i Hi.
  { unfold bit_at. rewrite Z.testbit_0_l. by destruct (Z.to_nat i). }
  rewrite value_of_snoc. unfold bit_at. rewrite rev_app_distr. cbn [rev app].
  destruct (decide (i = 0)) as [->|Hne].
  - change (nth (Z.to_nat 0) (c :: rev l) "000"%char) with c.
    destruct (Ascii.eqb c "1"); [apply Z.testbit_odd_0|]. rewrite Z.add_0_r. apply Z.testbit_even_0.
  - replace i with (Z.succ (i - 1)) at 1 by lia. replace (Z.to_nat i) with (S (Z.to_nat (i - 1))) by lia.
    cbn [nth]. fold (bit_at l (i - 1)). rewrite <- (IH (i - 1)) by lia.
    destruct (Ascii.eqb c "1"); [apply Z.testbit_odd_succ; lia|].
    rewrite Z.add_0_r. apply Z.testbit_even_succ; lia.
Qed.

Lemma bitArrayValue_eq {A : Arith} {L : ArithLaws A} l :
  Forall is_bit l -> bitArrayValue l = value_of l.
Proof.
  assert (Hd : forall c, is_bit c -> digit c = if Ascii.eqb c "1" then 1 else 0).
  { intros c [-> | ->]%is_bit_cases; [apply digit_0|apply digit_1]. }
  assert (H : forall l c res, Forall is_bit (c :: l) -> bitArrayValue_from (c :: l) res =
    foldl (fun r c => 2 * r + if Ascii.eqb c "1" then 1 else 0) (res + if Ascii.eqb c "1" then 1 else 0) l).
  { clear l. induction l as [|d l IH]; intros c res [Hc Hl]%Forall_cons; [simpl; by rewrite Hd|].
    change (bitArrayValue_from (c :: d :: l) res) with (bitArrayValue_from (d :: l) (Z.shiftl (res + digit c) 1)).
    rewrite IH by done. simpl. rewrite Hd by done. f_equal. }
  unfold bitArrayValue, value_of. destruct l as [|c l]; [done|]. intros Hl. rewrite (H l c 0) by done. done.
Qed.

(** ** Hexadecimal *)

(** The value of a digit, and the number that digits write. *)
Definition hex_digit (c : ascii) : Z :=
  match list_find (fun d => Ascii.eqb c d) repr with Some (i, _) => Z.of_nat i | None => 0 end.

Definition hex_value (s : string) : Z :=
  foldl (fun r c => 16 * r + hex_digit c) 0 (list_ascii_of_string s).

Lemma hex_digit_repr d : 0 <= d < 16 -> hex_digit (nth (Z.to_nat d) repr "000"%char) = d.
Proof.
  intros Hd. replace d with (Z.of_nat (Z.to_nat d)) at 2 by lia.
  assert (H : (Z.to_nat d < 16)%nat) by lia. revert H. generalize (Z.to_nat d). clear Hd d. intros n Hn.
  do 16 (destruct n as [|n]; [reflexivity|]). lia.
Qed.

Lemma valueToHex_from_spec fuel num res :
  0 <= num < 2 ^ Z.of_nat fuel ->
  exists ds s, valueToHex_from (S fuel) num res = Ret s /\
    list_ascii_of_string s = ds ++ list_ascii_of_string res /\
    foldl (fun r c => 16 * r + hex_digit c) 0 ds = num /\
    forall c, head ds = Some c -> hex_digit c <> 0.
Proof.
  revert num res. induction fuel as [|fuel IH]; intros num res Hn.
  - exists [], res. simpl in Hn |- *. destruct (Z.ltb_spec 0 num); [lia|]. split_and!; [done..|lia|done].
  - change (valueToHex_from (S (S fuel)) num res) with
      (if 0 <? num then valueToHex_from (S fuel) (Z.shiftr num 4)
         (String (nth (Z.to_nat (num mod 16)) repr "000"%char) res) else Ret res).
    destruct (Z.ltb_spec 0 num) as [Hpos|]; [|exists [], res; split_and!; [done..|simpl; lia|done]].
    rewrite Z.shiftr_div_pow2 by lia. change (2 ^ 4) with 16. rewrite Nat2Z.inj_succ, Z.pow_succ_r in Hn by lia.
    assert (Hm : 0 <= num mod 16 < 16) by (apply Z.mod_pos_bound; lia).
    pose proof (Z.div_mod num 16 ltac:(lia)) as Hdm.
    destruct (IH (num / 16) (String (nth (Z.to_nat (num mod 16)) repr "000"%char) res)) as (ds & s & Hs & Hl & Hv & Hh).
    { split; [apply Z.div_pos; lia|]. apply Z.div_lt_upper_bound; lia. }
    exists (ds ++ [nth (Z.to_nat (num mod 16)) repr "000"%char]), s. split_and!; [done| | |].
    + by rewrite Hl, <- app_assoc.
    + rewrite foldl_app. cbn [foldl]. rewrite Hv, hex_digit_repr by done. lia.
    + intros c. destruct ds as [|d ds]; [|apply Hh]. cbn [foldl] in Hv. cbn [app head].
      intros Hc. assert (c = nth (Z.to_nat (num mod 16)) repr "000"%char) as -> by congruence.
      rewrite hex_digit_repr by done. lia.
Qed.

Lemma valueToHex_spec num :
  0 <= num ->
  exists s, valueToHex num = Ret s /\ hex_value s = num /\
    (0 < num -> exists c s', s = String c s' /\ hex_digit c <> 0).
Proof.
  intros Hn. unfold valueToHex. destruct (Z.eqb_spec num 0) as [->|Hne].
  { exists "0". split_and!; [done..|lia]. }
  destruct (valueToHex_from_spec (S (Z.to_nat (Z.log2 num))) num "") as (ds & s & Hs & Hl & Hv & Hh).
  { split; [done|]. pose proof (Z.log2_nonneg num). rewrite Nat2Z.inj_succ, Z2Nat.id by done.
    apply Z.log2_spec. lia. }
  exists s. unfold hex_fuel. rewrite Nat.add_comm. simpl in Hl. rewrite app_nil_r in Hl. split_and!; [exact Hs| |].
  { unfold hex_value. by rewrite Hl. }
  intros _. destruct s as [|c s]; simpl in Hl; subst ds; [simpl in Hv; lia|]. exists c, s. split; [done|]. by apply Hh.
Qed.

(** The text is not one of C: it has no prefix. *)
Theorem hex_text_unprefixed num s :
  0 < num -> valueToHex num = Ret s -> String.prefix "0x" s = false.
Proof.
  intros Hn Hs. destruct (valueToHex_spec num) as (s' & Hs' & _ & Hh); [lia|]. rewrite Hs in Hs'. injection Hs' as <-.
  destruct (Hh Hn) as (c & s' & -> & Hc). cbn [String.prefix].
  destruct (ascii_dec "0" c) as [<-|]; [by destruct Hc|reflexivity].
Qed.

(** ** Masks *)

(** The bits of a pattern that the loop of [bitArrayExtractMask] takes, from the
    lowest. *)
Fixpoint segment (first last : Z) (bits : list ascii) (idx : Z) : list ascii :=
  match bits with
  | [] => []
  | c :: bits =>
      if (first <=? idx) && (idx <=? last) then c :: segment first last bits (idx + 1)
      else segment first last bits (idx + 1)
  end.

Definition free_or_fixed (c : ascii) : bool := Ascii.eqb c "." || Ascii.eqb c "1" || Ascii.eqb c "0".

Definition bit_char (b : bool) : ascii := if b then "1"%char else "0"%char.

Lemma mask_bits_eq c :
  mask_bits c = if free_or_fixed c then Some (bit_char (Ascii.eqb c "."), bit_char (Ascii.eqb c "1")) else None.
Proof.
  unfold mask_bits, free_or_fixed. destruct (Ascii.eqb_spec c ".") as [->|]; [done|].
  destruct (Ascii.eqb_spec c "1") as [->|]; [done|]. by destruct (Ascii.eqb c "0").
Qed.

Lemma extract_from_spec first last bits idx m :
  match extract_from first last bits idx m with
  | Some m' =>
      forallb free_or_fixed (segment first last bits idx) = true /\
      list_ascii_of_string m'.1 =
        rev (map (fun c => bit_char (Ascii.eqb c ".")) (segment first last bits idx)) ++ list_ascii_of_string m.1 /\
      list_ascii_of_string m'.2 =
        rev (map (fun c => bit_char (Ascii.eqb c "1")) (segment first last bits idx)) ++ list_ascii_of_string m.2
  | None => forallb free_or_fixed (segment first last bits idx) = false
  end.
Proof.
  revert idx m. induction bits as [|c bits IH]; intros idx m; simpl; [done|].
  destruct ((first <=? idx) && (idx <=? last)); [|apply IH]. rewrite mask_bits_eq. simpl.
  destruct (free_or_fixed c); simpl; [|done].
  specialize (IH (idx + 1) (String (bit_char (Ascii.eqb c ".")) m.1, String (bit_char (Ascii.eqb c "1")) m.2)).
  destruct (extract_from _ _ _ _ _) as [m'|]; [|done]. destruct IH as (H1 & H2 & H3). split; [done|].
  rewrite H2, H3, <- !app_assoc. done.
Qed.

Lemma segment_above first last bits idx : last < idx -> segment first last bits idx = [].
Proof.
  revert idx. induction bits as [|c bits IH]; intros idx Hi; simpl; [done|].
  destruct (Z.leb_spec idx last); [lia|]. rewrite andb_false_r. apply IH. lia.
Qed.

Lemma segment_inside first last bits idx :
  first <= idx -> segment first last bits idx = take (Z.to_nat (last - idx + 1)) bits.
Proof.
  revert idx. induction bits as [|c bits IH]; intros idx Hi; simpl; [by rewrite take_nil|].
  destruct (Z.leb_spec first idx); [|lia]. destruct (Z.leb_spec idx last); simpl.
  - rewrite IH by lia. replace (Z.to_nat (last - idx + 1)) with (S (Z.to_nat (last - (idx + 1) + 1))) by lia. done.
  - rewrite segment_above by lia. by replace (Z.to_nat (last - idx + 1)) with O by lia.
Qed.

Lemma segment_eq first last bits idx :
  idx <= first <= last + 1 ->
  segment first last bits idx = take (Z.to_nat (last - first + 1)) (drop (Z.to_nat (first - idx)) bits).
Proof.
  revert idx. induction bits as [|c bits IH]; intros idx Hi.
  - simpl. by rewrite drop_nil, take_nil.
  - destruct (decide (idx = first)) as [->|Hne].
    + rewrite segment_inside by lia. by rewrite Z.sub_diag.
    + simpl. destruct (Z.leb_spec first idx); [lia|]. simpl. rewrite IH by lia.
      by replace (Z.to_nat (first - idx)) with (S (Z.to_nat (first - (idx + 1)))) by lia.
Qed.

(** The bits of a field, from the lowest. *)
Definition field_bits (l : list ascii) (first last : Z) : list ascii :=
  take (Z.to_nat (last - first + 1)) (drop (Z.to_nat first) (rev l)).

Lemma length_field_bits l first last :
  0 <= first <= last + 1 -> last < Z.of_nat (length l) ->
  length (field_bits l first last) = Z.to_nat (last - first + 1).
Proof. intros H1 H2. unfold field_bits. rewrite length_take, length_drop, length_rev. lia. Qed.

Lemma nth_field_bits l first last i :
  0 <= first -> 0 <= i < last - first + 1 ->
  nth (Z.to_nat i) (field_bits l first last) "000"%char = bit_at l (first + i).
Proof.
  intros H1 H2. unfold field_bits, bit_at. rewrite nth_firstn. destruct (Nat.ltb_spec (Z.to_nat i) (Z.to_nat (last - first + 1))); [|lia].
  rewrite nth_skipn. f_equal. lia.
Qed.

(** The number whose bits tell which bits of the field are [d]. *)
Definition where_ (d : ascii) (seg : list ascii) : list ascii :=
  rev (map (fun c => bit_char (Ascii.eqb c d)) seg).

Lemma where_bits d seg : Forall is_bit (where_ d seg).
Proof.
  apply Forall_forall. intros c. unfold where_. rewrite list_elem_of_In, <- in_rev, in_map_iff.
  intros (x & <- & _). by destruct (Ascii.eqb x d).
Qed.

Lemma where_testbit d l first last i :
  0 <= first -> 0 <= i < last - first + 1 -> last < Z.of_nat (length l) ->
  Z.testbit (value_of (where_ d (field_bits l first last))) i = Ascii.eqb (bit_at l (first + i)) d.
Proof.
  intros H1 H2 H3. rewrite value_of_testbit by lia. unfold bit_at at 1, where_. rewrite rev_involutive.
  rewrite <- (nth_field_bits l first last i) by lia.
  pose proof (length_field_bits l first last ltac:(lia) ltac:(lia)) as Hlen.
  rewrite (nth_indep _ _ (bit_char (Ascii.eqb "000" d))) by (rewrite length_map; lia).
  rewrite (map_nth (fun c => bit_char (Ascii.eqb c d))). by destruct (Ascii.eqb _ d).
Qed.

Lemma where_range d l first last :
  0 <= first <= last + 1 -> last < Z.of_nat (length l) ->
  0 <= value_of (where_ d (field_bits l first last)) < 2 ^ (last - first + 1).
Proof.
  intros H1 H2. pose proof (value_of_range (where_ d (field_bits l first last))) as H.
  assert (Hlen : length (where_ d (field_bits l first last)) = Z.to_nat (last - first + 1)).
  { unfold where_. rewrite length_rev, length_map. apply length_field_bits; lia. }
  by rewrite Hlen, Z2Nat.id in H by lia.
Qed.

(** What the mask of a field is. *)
Record mask_of (l : list ascii) (first last : Z) (m : mask) : Prop := {
  mask_and : and_int m = value_of (where_ "." (field_bits l first last));
  mask_or : or_int m = value_of (where_ "1" (field_bits l first last));
  mask_and_text : hex_value (and_hex m) = and_int m;
  mask_or_text : hex_value (or_hex m) = or_int m
}.

Lemma bitToValue_eq {A : Arith} {L : ArithLaws A} s :
  Forall is_bit (list_ascii_of_string s) -> bitToValue s = value_of (list_ascii_of_string s).
Proof. intros H. unfold bitToValue. rewrite stringToArray_eq. by apply bitArrayValue_eq. Qed.

Lemma extract_mask_spec {A : Arith} {L : ArithLaws A} l first last :
  0 <= first <= last ->
  exists r, bitArrayExtractMask l first last = Ret r /\
    match r with
    | Some m => forallb free_or_fixed (field_bits l first last) = true /\ mask_of l first last m
    | None => forallb free_or_fixed (field_bits l first last) = false
    end.
Proof.
  intros Hf. unfold bitArrayExtractMask.
  pose proof (extract_from_spec first last (rev l) 0 ("", "")) as H.
  rewrite (segment_eq first last (rev l) 0), Z.sub_0_r in H by lia. fold (field_bits l first last) in H.
  destruct (extract_from first last (rev l) 0 ("", "")) as [[a o]|]; [|by exists None].
  destruct H as (Hok & Ha & Ho). simpl in Ha, Ho. rewrite app_nil_r in Ha, Ho.
  fold (where_ "." (field_bits l first last)) in Ha. fold (where_ "1" (field_bits l first last)) in Ho.
  assert (Va : bitToValue a = value_of (where_ "." (field_bits l first last))).
  { rewrite <- Ha. apply bitToValue_eq. rewrite Ha. apply where_bits. }
  assert (Vo : bitToValue o = value_of (where_ "1" (field_bits l first last))).
  { rewrite <- Ho. apply bitToValue_eq. rewrite Ho. apply where_bits. }
  destruct (valueToHex_spec (bitToValue a)) as (ah & Hah & Tah & _); [rewrite Va; apply value_of_range|].
  destruct (valueToHex_spec (bitToValue o)) as (oh & Hoh & Toh & _); [rewrite Vo; apply value_of_range|].
  rewrite Hah, Hoh. eexists. split; [reflexivity|]. split; [done|]. by split.
Qed.

(** Writing a field through its masks keeps the bits that are free and sets the
    others as the pattern says; the texts write the numbers. *)
Theorem field_masks_write {A : Arith} {L : ArithLaws A} pattern first last m :
  let l := stringToArray pattern in
  0 <= first <= last -> last < Z.of_nat (length l) ->
  bitArrayExtractMask l first last = Ret (Some m) ->
  (forall v i, 0 <= i <= last - first ->
    Z.testbit (Z.lor (Z.land v (and_int m)) (or_int m)) i =
      if Ascii.eqb (bit_at l (first + i)) "." then Z.testbit v i else Ascii.eqb (bit_at l (first + i)) "1") /\
  0 <= and_int m < 2 ^ (last - first + 1) /\ 0 <= or_int m < 2 ^ (last - first + 1) /\
  hex_value (and_hex m) = and_int m /\ hex_value (or_hex m) = or_int m.
Proof.
  intros l Hf Hl Hm. destruct (extract_mask_spec l first last Hf) as (r & Hr & H). rewrite Hm in Hr.
  injection Hr as <-. destruct H as [_ [Ha Ho Ta To]]. rewrite Ha, Ho in *. split_and!; [|apply where_range; lia..|done|done].
  intros v i Hi. rewrite Z.lor_spec, Z.land_spec, !where_testbit by lia.
  destruct (Ascii.eqb_spec (bit_at l (first + i)) ".") as [->|]; simpl; [by rewrite andb_true_r, orb_false_r|].
  by rewrite andb_false_r.
Qed.

(** ** The check of a register *)

Definition bounds (field : regmap) : Z * Z :=
  ((ordered_bounds field).1, default (ordered_bounds field).1 (ordered_bounds field).2).

Lemma bounds_ordered field : (bounds field).1 <= (bounds field).2.
Proof.
  unfold bounds, ordered_bounds. destruct (f_end field) as [e|]; simpl; [|lia].
  destruct (Z.leb_spec e (f_begin field)); simpl; lia.
Qed.

(** What a description is to be for the check to accept it: every field is
    inside the pattern, has no reserved bit, and has the size of its values. *)
Definition field_ok (l : list ascii) (field : regmap) : bool :=
  let '(first, last) := bounds field in
  (0 <=? first) && (last <? Z.of_nat (length l)) && forallb free_or_fixed (field_bits l first last) &&
  forallb (fun v => Z.of_nat (String.length (bm_mask v)) =? last - first + 1) (f_listmask field).

(** A value of a field, placed at its bits. *)
Definition value_for (first : Z) (v : bit_mask) (k : checked_value) : Prop :=
  k_name k = bm_name v /\ k_bitsize k = Z.of_nat (String.length (bm_mask v)) /\
  (Forall is_bit (list_ascii_of_string (bm_mask v)) ->
   k_value k = Z.shiftl (value_of (list_ascii_of_string (bm_mask v))) first).

Definition checked_for (l : list ascii) (field : regmap) (c : checked_map) : Prop :=
  let '(first, last) := bounds field in
  c_name c = f_name field /\ c_begin c = first /\ c_bitsize c = last - first + 1 /\
  mask_of l first last (c_pattern c) /\ Forall2 (value_for first) (f_listmask field) (c_values c).

Lemma check_value_spec {A : Arith} {L : ArithLaws A} size first v :
  match check_value size first v with
  | Some k => (Z.of_nat (String.length (bm_mask v)) =? size) = true /\ value_for first v k
  | None => (Z.of_nat (String.length (bm_mask v)) =? size) = false
  end.
Proof.
  unfold check_value. rewrite stringToArray_eq, length_array.
  destruct (Z.of_nat (String.length (bm_mask v)) =? size); simpl; [|done]. split; [done|]. split_and!; [done..|].
  intros Hb. simpl. by rewrite bitArrayValue_eq.
Qed.

Lemma check_values_spec {A : Arith} {L : ArithLaws A} size first vs :
  match mapM (check_value size first) vs with
  | Some ks => forallb (fun v => Z.of_nat (String.length (bm_mask v)) =? size) vs = true /\
               Forall2 (value_for first) vs ks
  | None => forallb (fun v => Z.of_nat (String.length (bm_mask v)) =? size) vs = false
  end.
Proof.
  induction vs as [|v vs IH]; simpl; [by split|]. pose proof (check_value_spec size first v) as Hv.
  destruct (check_value size first v) as [k|]; simpl; [|by rewrite Hv]. destruct Hv as [-> Hv]. simpl.
  destruct (mapM (check_value size first) vs) as [ks|]; simpl; [|done]. destruct IH as [-> IH].
  split; [done|]. by constructor.
Qed.

Lemma check_field_spec {A : Arith} {L : ArithLaws A} l field :
  exists r, check_field (Z.of_nat (length l)) l field = Ret r /\
    match r with
    | Some c => field_ok l field = true /\ checked_for l field c
    | None => field_ok l field = false
    end.
Proof.
  pose proof (bounds_ordered field) as Hord. unfold check_field, field_ok, checked_for. unfold bounds in *.
  destruct (ordered_bounds field) as [first end_]. cbn [fst snd] in *.
  set (last := default first end_) in *.
  assert (Hlast : match end_ with Some e => e | None => first end = last) by (by destruct end_).
  assert (Hsize : match end_ with Some e => 1 + e - first | None => 1 end = last - first + 1)
    by (unfold last; destruct end_; simpl; lia).
  assert (Hrange : ((first <? 0) || (Z.of_nat (length l) - 1 <? first) ||
     match end_ with Some e => Z.of_nat (length l) - 1 <? e | None => false end) =
     negb ((0 <=? first) && (last <? Z.of_nat (length l)))).
  { apply eq_true_iff_eq. rewrite negb_true_iff, andb_false_iff, !orb_true_iff.
    unfold last in *. destruct end_ as [e|]; simpl in *; intuition (discriminate || lia). }
  rewrite Hrange, Hlast, Hsize.
  destruct ((0 <=? first) && (last <? Z.of_nat (length l))) eqn:Hin; simpl; [|by exists None].
  apply andb_prop in Hin as [H1%Z.leb_le H2%Z.ltb_lt].
  destruct (extract_mask_spec l first last) as (m & -> & Hm); [lia|]. simpl.
  eexists. split; [reflexivity|]. destruct m as [m|]; simpl; [|by rewrite Hm]. destruct Hm as [-> Hm]. simpl.
  pose proof (check_values_spec (last - first + 1) first (f_listmask field)) as Hv.
  destruct (mapM _ (f_listmask field)) as [vs|]; simpl; [|done]. destruct Hv as [-> Hv]. by split_and!.
Qed.

Lemma check_fields_spec {A : Arith} {L : ArithLaws A} l body :
  exists r, check_fields (Z.of_nat (length l)) l body = Ret r /\
    match r with
    | Some cs => forallb (field_ok l) body = true /\ Forall2 (checked_for l) body cs
    | None => forallb (field_ok l) body = false
    end.
Proof.
  induction body as [|f body (r & Hr & IH)]; simpl; [exists (Some []); by split_and!|].
  destruct (check_field_spec l f) as ([c|] & -> & Hc); simpl; [|exists None; by rewrite Hc].
  destruct Hc as [-> Hc]. rewrite Hr. simpl. eexists. split; [reflexivity|].
  destruct r as [cs|]; simpl; [|done]. destruct IH as [-> IH]. split; [done|]. by constructor.
Qed.

(** C39: The check of a register accepts exactly the descriptions whose
    fields lie inside the pattern, hold no reserved bit and have the size of
    their values; it then gives each field its two masks, as numbers and in
    hexadecimal, and each value its number at the place of the field. *)
Theorem register_check_spec {A : Arith} {L : ArithLaws A} r :
  let l := stringToArray (r_pattern r) in
  exists verdict, rtxTypeCheck_Register r = Ret verdict /\
    match verdict with
    | Some c => forallb (field_ok l) (r_body r) = true /\ c_size c = Z.of_nat (length l) /\
                Forall2 (checked_for l) (r_body r) (c_body c)
    | None => forallb (field_ok l) (r_body r) = false
    end.
Proof.
  intros l. unfold rtxTypeCheck_Register. fold l.
  destruct (check_fields_spec l (r_body r)) as ([cs|] & -> & Hcs); simpl; eexists; (split; [reflexivity|]); simpl; [|done].
  destruct Hcs. by split_and!.
Qed.

(** ** Values written together *)

Definition top (f : checked_map) : Z := c_begin f + c_bitsize f.

Definition apart (f g : checked_map) : bool := (top f <=? c_begin g) || (top g <=? c_begin f).

(** The fields share no bit; the check does not ask for it. *)
Fixpoint disjoint_fields (fs : list checked_map) : bool :=
  match fs with
  | [] => true
  | f :: fs => forallb (apart f) fs && disjoint_fields fs
  end.

(** The descriptions that the grammar of the language can write. *)
Definition binary_masks (r : register) : bool :=
  forallb (fun f => forallb (fun v => forallb is_bit (list_ascii_of_string (bm_mask v))) (f_listmask f)) (r_body r).

(** The value is a number at the bits of the field. *)
Definition placed (f : checked_map) (v : checked_value) : Prop :=
  0 <= c_begin f /\ exists n, 0 <= n < 2 ^ c_bitsize f /\ k_value v = Z.shiftl n (c_begin f).

(** The bits of a field. *)
Definition in_field (f : checked_map) (i : Z) : Prop := c_begin f <= i < top f.

Lemma placed_outside f v i : placed f v -> 0 <= i -> ~ in_field f i -> Z.testbit (k_value v) i = false.
Proof.
  intros (Hb & n & Hn & ->) Hi Hout. rewrite Z.shiftl_spec by done. unfold in_field, top in Hout.
  destruct (Z.ltb_spec i (c_begin f)); [apply Z.testbit_neg_r; lia|].
  destruct (Z.ltb_spec (c_bitsize f) 0); [rewrite Z.pow_neg_r in Hn; lia|].
  apply (bounded_testbit (c_bitsize f)); lia.
Qed.

Lemma apart_outside f g i : apart f g -> in_field f i -> ~ in_field g i.
Proof. unfold apart, in_field. intros H%Is_true_true. apply orb_prop in H as [H|H]; apply Z.leb_le in H; lia. Qed.

Definition all_values (vs : list checked_value) : Z := foldr (fun v r => Z.lor (k_value v) r) 0 vs.

Lemma all_values_outside f fs vs i :
  Forall2 placed fs vs -> forallb (apart f) fs = true -> 0 <= i -> in_field f i ->
  Z.testbit (all_values vs) i = false.
Proof.
  intros H. induction H as [|g v fs vs Hv _ IH]; simpl; intros Ha Hi Hin; [apply Z.testbit_0_l|].
  apply andb_prop in Ha as [Ha1 Ha2]. rewrite Z.lor_spec, IH, orb_false_r by done.
  apply (placed_outside g); [done..|]. apply (apart_outside f); [by rewrite Ha1|done].
Qed.

Lemma all_values_bits fs vs acc :
  Forall2 placed fs vs -> disjoint_fields fs = true ->
  Forall (fun f => forall i, 0 <= i -> in_field f i -> Z.testbit acc i = false) fs ->
  Forall2 (fun f v => forall i, 0 <= i -> in_field f i ->
             Z.testbit (Z.lor acc (all_values vs)) i = Z.testbit (k_value v) i) fs vs.
Proof.
  intros H. revert acc. induction H as [|f v fs vs Hv Hvs IH]; intros acc; [constructor|].
  intros [Ha Hd]%andb_prop [Hf Hfs]%Forall_cons. constructor.
  - intros i Hi Hin. simpl. rewrite !Z.lor_spec, Hf, (all_values_outside f fs vs) by done. apply orb_false_r.
  - simpl. rewrite Z.lor_assoc. apply IH; [done|]. rewrite Forall_forall in *. intros g Hg i Hi Hin.
    rewrite Z.lor_spec, (Hfs g) by done. simpl. apply (placed_outside f); [done..|].
    intros Hf'. apply (apart_outside f g i); [|done..].
    rewrite forallb_forall in Ha. by rewrite (Ha g) by (by apply list_elem_of_In).
Qed.

(** Reading a field of a register. *)
Definition read_field (f : checked_map) (reg : Z) : Z := Z.land (Z.shiftr reg (c_begin f)) (Z.ones (c_bitsize f)).

Lemma read_field_eq f v reg :
  placed f v -> (forall i, 0 <= i -> in_field f i -> Z.testbit reg i = Z.testbit (k_value v) i) ->
  read_field f reg = Z.shiftr (k_value v) (c_begin f).
Proof.
  intros Hp H. pose proof Hp as (Hb & n & Hn & Hv). unfold read_field.
  destruct (Z.ltb_spec (c_bitsize f) 0); [rewrite Z.pow_neg_r in Hn; lia|].
  apply Z.bits_inj'. intros i Hi. rewrite Z.land_spec, !Z.shiftr_spec, Z.testbit_ones_nonneg by lia.
  destruct (Z.ltb_spec i (c_bitsize f)).
  - rewrite andb_true_r. apply H; unfold in_field, top; lia.
  - rewrite andb_false_r. symmetry. apply (placed_outside f); [done|lia|]. unfold in_field, top. lia.
Qed.

Lemma values_placed {A : Arith} {L : ArithLaws A} l field c v :
  field_ok l field = true -> checked_for l field c ->
  forallb (fun v => forallb is_bit (list_ascii_of_string (bm_mask v))) (f_listmask field) = true ->
  v ∈ c_values c -> placed c v.
Proof.
  unfold field_ok, checked_for. destruct (bounds field) as [first last].
  intros Hok (_ & Hb & Hs & _ & Hvs) Hbin Hv.
  apply andb_prop in Hok as [[[H1%Z.leb_le _]%andb_prop _]%andb_prop Hsz].
  apply list_elem_of_lookup in Hv as [i Hi]. destruct (Forall2_lookup_r _ _ _ _ _ Hvs Hi) as (m & Hm & _ & _ & Hval).
  apply list_elem_of_lookup_2, list_elem_of_In in Hm. rewrite forallb_forall in Hsz, Hbin.
  specialize (Hsz m Hm). specialize (Hbin m Hm). apply Z.eqb_eq in Hsz. split; [by rewrite Hb|].
  exists (value_of (list_ascii_of_string (bm_mask m))). rewrite Hb, Hs. split.
  - pose proof (value_of_range (list_ascii_of_string (bm_mask m))) as Hr. by rewrite length_array, Hsz in Hr.
  - apply Hval. apply Forall_forall. intros d Hd. apply Is_true_true.
    rewrite forallb_forall in Hbin. by apply Hbin, list_elem_of_In.
Qed.

(** What the later users of an accepted register rely on. *)
Lemma checked_fields {A : Arith} {L : ArithLaws A} r c :
  rtxTypeCheck_Register r = Ret (Some c) -> binary_masks r = true ->
  forall f, f ∈ c_body c ->
    0 <= c_begin f /\ 0 < c_bitsize f /\ top f <= c_size c /\ forall v, v ∈ c_values f -> placed f v.
Proof.
  unfold rtxTypeCheck_Register, binary_masks. set (l := stringToArray (r_pattern r)).
  destruct (check_fields_spec l (r_body r)) as ([cs|] & -> & Hcs); simpl; [|done]. intros [= <-] Hbin f Hf.
  simpl in *. destruct Hcs as [Hok Hcs]. rewrite forallb_forall in Hok, Hbin.
  apply list_elem_of_lookup in Hf as [i Hf]. destruct (Forall2_lookup_r _ _ _ _ _ Hcs Hf) as (field & Hfield & Hfor).
  apply list_elem_of_lookup_2, list_elem_of_In in Hfield. pose proof (Hok field Hfield) as Hfo.
  split_and!; [| | |intros v; by apply (values_placed l field), Hbin].
  all: pose proof (bounds_ordered field) as Hord; unfold field_ok, checked_for, top in *; destruct (bounds field) as [first last]; simpl in Hord;
    destruct Hfor as (_ & Hb & Hs & _); apply andb_prop in Hfo as [[[H1%Z.leb_le H2%Z.ltb_lt]%andb_prop _]%andb_prop _]; lia.
Qed.

(** C17: When the fields of an accepted register share no bit, any choice of
    one value for each field can be or-ed together and read back: each field
    holds the value chosen for it. *)
Theorem register_values_roundtrip {A : Arith} {L : ArithLaws A} r c vs :
  rtxTypeCheck_Register r = Ret (Some c) -> binary_masks r = true -> disjoint_fields (c_body c) = true ->
  Forall2 (fun f v => v ∈ c_values f) (c_body c) vs ->
  Forall2 (fun f v => read_field f (all_values vs) = Z.shiftr (k_value v) (c_begin f)) (c_body c) vs.
Proof.
  intros Hc Hbin Hd Hpick. pose proof (checked_fields r c Hc Hbin) as Hall.
  assert (Hpl : Forall2 placed (c_body c) vs).
  { apply Forall2_same_length_lookup_2; [by eapply Forall2_length|]. intros i f v Hf Hv.
    apply Hall; [by eapply list_elem_of_lookup_2|]. by apply (Forall2_lookup_lr _ _ _ i _ _ Hpick). }
  pose proof (all_values_bits (c_body c) vs 0 Hpl Hd) as H. rewrite Z.lor_0_l in H.
  apply Forall2_same_length_lookup_2; [by eapply Forall2_length|]. intros i f v Hf Hv.
  apply read_field_eq; [by apply (Forall2_lookup_lr _ _ _ i _ _ Hpl)|].
  apply (Forall2_lookup_lr _ _ _ i f v (H ltac:(apply Forall_forall; intros; apply Z.testbit_0_l)) Hf Hv).
Qed.

(** ** The registers of the tests of the repository (tests/04_C_test_front_all) *)

Definition lcr : register := Register "LCR" "........"
  [RegMap "word_lengh" 0 (Some 1)
     [BitMask "00" "_5bits"; BitMask "01" "_6bits"; BitMask "10" "_7bits"; BitMask "11" "_8bits"];
   RegMap "stop_bits" 2 None [BitMask "0" "_1stop_bits"; BitMask "1" "_2stop_bits"];
   RegMap "parity_type" 3 (Some 5)
     [BitMask "000" "none"; BitMask "001" "odd"; BitMask "011" "even"; BitMask "101" "high"; BitMask "111" "low"];
   RegMap "break_signal" 6 None [BitMask "0" "disable"; BitMask "1" "enable"];
   RegMap "dlab" 7 None [BitMask "0" "buffers"; BitMask "1" "clock"]].

Definition mcr : register := Register "MCR" "****.*.."
  [RegMap "dtr" 0 None []; RegMap "rts" 1 None []; RegMap "ao2" 3 None []].

Definition checked (r : register) : checked_register :=
  match rtxTypeCheck_Register r with Ret (Some c) => c | _ => CheckedRegister 0 [] end.

(** A field on a reserved bit is rejected; bounds in the wrong order are not. *)
Example mcr_verdicts :
  is_Some (match rtxTypeCheck_Register mcr with Ret v => v | _ => None end) /\
  rtxTypeCheck_Register (Register "MCR" "****.*.." [RegMap "x" 2 None []]) = Ret None /\
  option_map (fun c => map (fun f => (c_begin f, c_end f)) (c_body c))
    (match rtxTypeCheck_Register (Register "LCR" "........" [RegMap "x" 5 (Some 3) []]) with Ret v => v | _ => None end)
    = Some [(3, Some 5)].
Proof. vm_compute. split_and!; [by eexists|done|done]. Qed.

Example field_masks_write_witness :
  exists m, bitArrayExtractMask (stringToArray "..01*...") 4 7 = Ret (Some m) /\
    Z.testbit (Z.lor (Z.land 15 (and_int m)) (or_int m)) 1 = false.
Proof.
  destruct (bitArrayExtractMask (stringToArray "..01*...") 4 7) as [[m|]| |] eqn:E;
    [|vm_compute in E; discriminate E..].
  exists m. split; [reflexivity|].
  destruct (field_masks_write "..01*..." 4 7 m) as [H _]; [lia|vm_compute; reflexivity|exact E|].
  rewrite (H 15 1) by lia. reflexivity.
Defined.

Definition lcr_choice : list checked_value :=
  [CheckedValue "_8bits" 2 3; CheckedValue "_1stop_bits" 1 0; CheckedValue "even" 3 24;
   CheckedValue "disable" 1 0; CheckedValue "buffers" 1 0].

Example register_values_roundtrip_witness :
  all_values lcr_choice = 0x1b /\
  Forall2 (fun f v => read_field f (all_values lcr_choice) = Z.shiftr (k_value v) (c_begin f))
    (c_body (checked lcr)) lcr_choice.
Proof.
  split; [reflexivity|].
  apply (register_values_roundtrip lcr (checked lcr) lcr_choice); [vm_compute; reflexivity..|].
  vm_compute. repeat (constructor; [repeat constructor|]). constructor.
Defined.

Example register_check_spec_witness :
  exists c, rtxTypeCheck_Register lcr = Ret (Some c) /\
    Forall2 (checked_for (stringToArray (r_pattern lcr))) (r_body lcr) (c_body c).
Proof.
  destruct (register_check_spec lcr) as (v & Hv & H).
  destruct v as [c|]; [|vm_compute in H; discriminate H]. destruct H as (_ & _ & H). exists c. split; [exact Hv|exact H].
Defined.
