(* ===== verification/RegisterUart.v ===== *)
(** * The registers of the compiler and the register writes of a driver

    The description of the line control register of a UART that the tests of the
    compiler use, and the constants and setreg of the Linux serial driver, which
    were written by hand for the same register.  RegisterMask.v models what the
    compiler computes, LinuxRs232.v the driver. *)
From Stdlib Require Import String Ascii.
From S2P Require Import Prelude Uart16550 LinuxRs232 CodeWorker RegisterMask.

Local Open Scope string_scope.
Local Open Scope list_scope.
Local Open Scope Z_scope.

(** The bits of a field, as the masks of the driver are written. *)
Definition field_mask (f : checked_map) : Z := Z.shiftl (Z.ones (c_bitsize f)) (c_begin f).

(** The values of a field, by name. *)
Definition field_values (r : checked_register) (name : string) : list (string * Z) :=
  flat_map (fun f => if String.eqb (c_name f) name then map (fun v => (k_name v, k_value v)) (c_values f) else [])
    (c_body r).

(** What the compiler computes from the description is what the header of the
    driver defines. *)
Theorem lcr_constants :
  exists c, rtxTypeCheck_Register lcr = Ret (Some c) /\
    map (fun f => (c_name f, field_mask f)) (c_body c) =
      [("word_lengh", LCR_WDL); ("stop_bits", LCR_STP); ("parity_type", LCR_PAR);
       ("break_signal", LCR_BRK); ("dlab", LCR_DLAB)] /\
    field_values c "word_lengh" =
      [("_5bits", LCR_5_BIT_WORD); ("_6bits", LCR_6_BIT_WORD); ("_7bits", LCR_7_BIT_WORD); ("_8bits", LCR_8_BIT_WORD)] /\
    field_values c "stop_bits" = [("_1stop_bits", LCR_1_STOP_BIT); ("_2stop_bits", LCR_2_STOP_BIT)] /\
    firstn 3 (field_values c "parity_type") =
      [("none", LCR_NO_PARITY); ("odd", LCR_ODD_PARITY); ("even", LCR_EVEN_PARITY)] /\
    field_values c "break_signal" = [("disable", LCR_BREAK_SIG_DISABLE); ("enable", LCR_BREAK_SIG_ENABLE)] /\
    field_values c "dlab" = [("buffers", LCR_DLAB_RW_MODE); ("clock", LCR_DLAB_LATCH_MODE)].
Proof. eexists. split; [vm_compute; reflexivity|]. vm_compute. split_and!; reflexivity. Qed.

Lemma field_mask_testbit f i :
  0 <= c_begin f -> 0 <= c_bitsize f -> 0 <= i ->
  Z.testbit (field_mask f) i = bool_decide (in_field f i).
Proof.
  intros Hb Hs Hi. unfold field_mask, in_field, top. rewrite Z.shiftl_spec by done.
  destruct (Z.ltb_spec i (c_begin f)).
  - rewrite Z.testbit_neg_r by lia. symmetry. apply bool_decide_eq_false. lia.
  - rewrite Z.testbit_ones_nonneg by lia.
    destruct (Z.ltb_spec (i - c_begin f) (c_bitsize f)); symmetry;
      [apply bool_decide_eq_true|apply bool_decide_eq_false]; lia.
Qed.

(** C24: Compiler and driver agree on what a field is: setreg of the Linux
    serial driver, given a value and the bits of a field that the compiler
    computed from a description, writes that value to the field and leaves
    every field apart from it as it was. *)
Theorem setreg_writes_field {A : Arith} {L : ArithLaws A} r c f v reg :
  rtxTypeCheck_Register r = Ret (Some c) -> binary_masks r = true -> c_size c <= 8 ->
  f ∈ c_body c -> v ∈ c_values f -> 0 <= reg < 256 ->
  let new := newreg (k_value v) (field_mask f) reg in
  read_field f new = Z.shiftr (k_value v) (c_begin f) /\
  forall g, g ∈ c_body c -> apart f g = true -> read_field g new = read_field g reg.
Proof.
  intros Hc Hbin Hsize Hf Hv Hreg new. pose proof (checked_fields r c Hc Hbin) as Hall.
  destruct (Hall f Hf) as (Hb & Hs & Ht & Hpl). specialize (Hpl v Hv).
  split.
  - apply (read_field_eq f v); [done|]. intros i Hi Hin. unfold in_field in Hin. unfold new.
    rewrite newreg_bits, field_mask_testbit by lia. by rewrite bool_decide_eq_true_2.
  - intros g Hg Hap. destruct (Hall g Hg) as (Hbg & Hsg & Htg & _). unfold read_field.
    apply Z.bits_inj'. intros i Hi. rewrite !Z.land_spec, !Z.shiftr_spec by lia.
    destruct (decide (i < c_bitsize g)) as [Hlt|Hge].
    + assert (Hin : in_field g (i + c_begin g)) by (unfold in_field, top in *; lia).
      assert (Hout : ~ in_field f (i + c_begin g)).
      { intros Hf'. by apply (apart_outside f g (i + c_begin g)); [rewrite Hap|..]. }
      f_equal. unfold new. unfold in_field, top in Hin, Htg.
      rewrite newreg_bits, field_mask_testbit by lia. rewrite bool_decide_eq_false_2 by done.
      rewrite (placed_outside f v) by (done || lia). apply orb_false_r.
    + rewrite Z.testbit_ones_nonneg by lia. destruct (Z.ltb_spec i (c_bitsize g)); [lia|]. by rewrite !andb_false_r.
Qed.

Example setreg_writes_field_witness :
  exists f v, c_name f = "dlab" /\ k_name v = "clock" /\
    read_field f (newreg (k_value v) (field_mask f) 0x1b) = 1.
Proof.
  eexists (nth 4 (c_body (checked lcr)) (CheckedMap "" 0 None 0 (Mask "" "" 0 0 "" "") [])), (CheckedValue "clock" 1 128).
  split; [vm_compute; reflexivity|]. split; [reflexivity|].
  destruct (setreg_writes_field lcr (checked lcr)
    (nth 4 (c_body (checked lcr)) (CheckedMap "" 0 None 0 (Mask "" "" 0 0 "" "") [])) (CheckedValue "clock" 1 128) 0x1b)
    as [H _]; [vm_compute; reflexivity|vm_compute; reflexivity|vm_compute; discriminate|
      vm_compute; repeat constructor|vm_compute; repeat constructor|lia|].
  exact H.
Defined.
