(* ===== verification/FrontCheck.v ===== *)
(** * The type check of the front end

    Model of src/rathaxes/compiler/passes/front/rtxTypeCheck.inc.cws, of
    typing/routines/rtxTypingRoutines_Front.inc.cws, of the search of sequences of
    typing/routines/rtxTypingRoutines_Common.inc.cws, of the typing of calls of
    node/rtxNode.inc.cws, and of the loading of the tree of an interface of
    linker/rtxLink_Query.inc.cws.  A device implements sequences that its
    interfaces declare and calls others; interfaces inherit from interfaces.  A
    prototype need not be qualified: the check looks for the declarations it may
    stand for, and completes it when there is one. *)
From Stdlib Require Import String.
From S2P Require Import Prelude CodeWorker ConfigMatcher LinkSession RegisterMask.

Local Open Scope string_scope.
Local Open Scope list_scope.
Local Open Scope nat_scope.
Local Open Scope cw_scope.
Local Infix "==" := String.eqb (at level 70).

(** ** Trees of interfaces *)

(** A prototype of a sequence: its name and the types of its parameters. *)
Record seq_proto := SeqProto { q_name : ident; q_params : list ident }.

(** A declaration of a sequence; [qualifier] is "required" or "provided". *)
Record seq_decl := SeqDecl { e_rtype : seq_proto; e_qualifier : string }.

(** An element of the body of an interface. *)
Record itf_item := ItfItem { m_type : string; m_specifier : string; m_decl : seq_decl }.

(** [t_sequences]: the declarations by name and by full name; [t_inheritance]: the
    keys of [inheritance]. *)
Record itf_tree := ItfTree {
  t_name : string; t_sequences : arr (arr seq_decl); t_inheritance : list string; t_block : list itf_item
}.

#[export] Instance seq_proto_eq_dec : EqDecision seq_proto.
Proof. solve_decision. Defined.
#[export] Instance seq_decl_eq_dec : EqDecision seq_decl.
Proof. solve_decision. Defined.

(** The paths of the compiler, and the trees in the files that exist; [T] is what
    the reader of a tree keeps of it. *)
Class Disk (T : Type) := {
  catPath : string -> string -> string;
  local_backlib_path : string;
  backlib_path : string;
  tree_at : string -> option T
}.

(** [rtxRTypeFullQualifiedName<"sequence">] of a prototype. *)
Definition full_name (p : seq_proto) : cw_outcome string :=
  rtxRTypeFullQualifiedName (Proto (TId (q_name p)) (map TId (q_params p))).

Definition set_scope (scope : string) (p : seq_proto) : seq_proto :=
  SeqProto (Ident scope (id_name (q_name p)) (id_global (q_name p))) (q_params p).

Definition rtxLink_findInterface (itfName : string) (s : session) : option itf_entry :=
  aget itfName (interfaces (cur s)).

Section loading.
Context {T : Type} {D : Disk T}.

(** The tree of an interface, without a script. *)
Definition rtxLink_LoadItem (cache_node : itf_entry) : cw_outcome T :=
  match ie_tree_file cache_node with
  | None => Error
  | Some file =>
      match tree_at (catPath "./" file) with
      | Some t => Ret t
      | None =>
          match tree_at (catPath local_backlib_path file) with
          | Some t => Ret t
          | None => match tree_at (catPath backlib_path file) with Some t => Ret t | None => Error end
          end
      end
  end.

(** Both, as their callers do; no result where there is no such interface. *)
Definition load_itf (itfName : string) (s : session) : cw_outcome (option T) :=
  match rtxLink_findInterface itfName s with
  | None => Ret None
  | Some itfNode => t <- rtxLink_LoadItem itfNode ;; Ret (Some t)
  end.

End loading.

(** ** The search of a sequence *)

Section front.
Context {D : Disk itf_tree}.

Definition unscoped (i : ident) : bool := negb (id_global i) && (id_scope i == "").

Definition proto_is_qualified (p : seq_proto) : bool :=
  negb (existsb unscoped (q_params p)) && negb (unscoped (q_name p)).

(** A parameter of the prototype against one of a declaration. *)
Definition param_matches (reftype type : ident) : bool :=
  (id_name reftype == id_name type) &&
  (id_global reftype || (id_scope reftype == "") || (id_scope reftype == id_scope type)).

Definition params_match (prototype : seq_proto) (seq : seq_decl) : bool :=
  (length (q_params (e_rtype seq)) =? length (q_params prototype)) &&
  forallb (fun rt => param_matches rt.1 rt.2) (zip (q_params prototype) (q_params (e_rtype seq))).

(** It answers whether the match is without a doubt, and appends to the
    possibilities; the qualifiers, a list of their own, are with them. *)
Definition rtxTypeCheck_ItfDefinesSequence
    (prototype : seq_proto) (itfTree : itf_tree) (possibilities : list seq_decl)
    : cw_outcome (bool * list seq_decl) :=
  match aget (id_name (q_name prototype)) (t_sequences itfTree) with
  | None => Ret (false, possibilities)
  | Some seqs =>
      if proto_is_qualified prototype then
        qualifiedName <- full_name (set_scope (t_name itfTree) prototype) ;;
        match aget qualifiedName seqs with
        | Some seq => Ret (true, possibilities ++ [seq])
        | None => Ret (false, possibilities)
        end
      else Ret (false, possibilities ++ List.filter (params_match prototype) (map snd seqs))
  end.

(** The interface [itfName] and those it inherits from, or the list of
    interfaces when there is no name.  The prototype is changed in place. *)
Fixpoint rtxTypeCheck_ItfNameDefinesSequence_recursive
    (fuel : nat) (s : session) (theSequence : seq_proto) (itfName : string) (interface_list : list string)
    (possibilities : list seq_decl) : cw_outcome (bool * (seq_proto * list seq_decl)) :=
  match fuel with
  | O => Short
  | S fuel =>
      let each itf st :=
        r <- rtxTypeCheck_ItfNameDefinesSequence_recursive fuel s st.1 itf [] st.2 ;; Ret r.2 in
      if negb (itfName == "") then
        itfTree <- load_itf itfName s ;;
        match itfTree with
        | None => Ret (false, (theSequence, possibilities))
        | Some itfTree =>
            r <- rtxTypeCheck_ItfDefinesSequence theSequence itfTree possibilities ;;
            if r.1 : bool then Ret (true, (set_scope itfName theSequence, r.2))
            else st <- cw_foreach each (t_inheritance itfTree) (theSequence, r.2) ;; Ret (false, st)
        end
      else st <- cw_foreach each interface_list (theSequence, possibilities) ;; Ret (false, st)
  end.

(** The possibilities by full name, each once. *)
Definition unique_possibilities (possibilities : list seq_decl) : cw_outcome (arr seq_proto) :=
  cw_foreach (fun entry u =>
    fullName <- full_name (e_rtype entry) ;;
    Ret (if findElement fullName u then u else u ++ [(fullName, e_rtype entry)])) possibilities [].

(** The answer, the prototype, and [out_qualifier], kept where it is false. *)
Definition rtxTypeCheck_ItfNameDefinesSequence
    (fuel : nat) (s : session) (theSequence : seq_proto) (itfName : string) (interface_list : list string)
    (out_qualifier : string) : cw_outcome (bool * (seq_proto * string)) :=
  r <- rtxTypeCheck_ItfNameDefinesSequence_recursive fuel s theSequence itfName interface_list [] ;;
  let '(found, (theSequence, possibilities)) := r in
  let front := match possibilities with e :: _ => e_qualifier e | [] => "" end in
  if found : bool then Ret (true, (theSequence, front))
  else
    u <- unique_possibilities possibilities ;;
    match u with
    | [(_, rtype)] => Ret (true, (rtype, front))
    | _ => Ret (false, (theSequence, out_qualifier))
    end.

(** ** Calls *)

(** An argument, by the type of its node: [AField] and [AValue] hold an array,
    and so does a data field, whose own value is empty. *)
Inductive call_arg :=
| AString
| ANumber
| AField (val : list string)
| AValue (val : list string)
| AData
| ASymbol (val : string)
| AOther (type : string).

Record seq_call := SeqCall { c_sequence : ident; c_args : list call_arg }.

Record sequence := Sequence { s_rtype : seq_proto; s_paramNames : list string; s_calls : list seq_call }.

(** [root.map.registers]: the names of registers, of their fields and of the
    values of these.  An empty array is an attribute [map] that is missing. *)
Definition reg_names : Type := arr (arr (arr unit)).

Definition add_register (m : reg_names) (r : register) : reg_names :=
  aupd (r_name r) (fun o =>
    foldl (fun fields f => aupd (f_name f) (fun o =>
             foldl (fun values v => aupd (bm_name v) (fun _ => tt) values) (default [] o) (f_listmask f)) fields)
          (default [] o) (r_body r)) m.

Definition register_names (rs : list register) : reg_names := foldl add_register [] rs.

Definition field_names (m : reg_names) (r : string) : arr (arr unit) := default [] (aget r m).

(** The parameter of the sequence with this name. *)
Definition named_param (theSequence : sequence) (name : string) : option ident :=
  match list_find (fun item => item = name) (s_paramNames theSequence) with
  | Some (i, _) => q_params (s_rtype theSequence) !! i
  | None => None
  end.

(** No result: the argument has no type.  [registers] are those of the device. *)
Definition rtxNodeCall_paramType (m : reg_names) (registers : list string) (theSequence : sequence)
    (theParam : call_arg) : cw_outcome (option ident) :=
  match theParam with
  | AString => Ret (Some (rtxNodeIdentifier "string" "Builtin"))
  | ANumber => Ret (Some (rtxNodeIdentifier "number" "Builtin"))
  | AField [r; f] =>
      Ret (if findElement f (field_names m r) then Some (rtxNodeIdentifier "register_field" "Builtin") else None)
  | AField _ => Ret None
  | AValue [r; f; v] =>
      Ret (if findElement v (default [] (aget f (field_names m r)))
           then Some (rtxNodeIdentifier "register_value" "Builtin") else None)
  | AValue _ => Ret None
  | AData => Ret (named_param theSequence "")
  | ASymbol val =>
      Ret (match named_param theSequence val with
           | Some i => Some i
           | None => if existsb (String.eqb val) registers
                     then Some (rtxNodeIdentifier "register" "Builtin") else None
           end)
  | AOther _ => Error
  end.

(** The prototype of a call; a parameter that has no type is an empty node, the
    name of which is then asked for, and is an error. *)
Definition rtxNodeCall_toRtype (m : reg_names) (registers : list string) (theSequence : sequence)
    (theCall : seq_call) : cw_outcome seq_proto :=
  params <- cw_foreach (fun param params =>
              i <- rtxNodeCall_paramType m registers theSequence param ;; Ret (params ++ [i])) (c_args theCall) [] ;;
  match mapM (M := option) id params with
  | Some params => Ret (SeqProto (c_sequence theCall) params)
  | None => Error
  end.

(** ** Sequences and devices *)

(** The answer and the prototype, completed.  [qualifier] is the variable of the
    code: each search may change it. *)
Definition rtxTypeCheck_Sequence (fuel : nat) (s : session) (m : reg_names) (registers : list string)
    (theSequence : sequence) (interface_list : list string) : cw_outcome (bool * sequence) :=
  r <- rtxTypeCheck_ItfNameDefinesSequence fuel s (s_rtype theSequence)
         (id_scope (q_name (s_rtype theSequence))) interface_list "" ;;
  let '(ok, (rtype, qualifier)) := r in
  let theSequence := Sequence rtype (s_paramNames theSequence) (s_calls theSequence) in
  if negb ok || (qualifier == "provided") then Ret (false, theSequence)
  else
    st <- cw_foreach (fun call st =>
      rtype <- rtxNodeCall_toRtype m registers theSequence call ;;
      r <- rtxTypeCheck_ItfNameDefinesSequence fuel s rtype (id_scope (q_name rtype)) interface_list st.2 ;;
      let '(ok, (_, qualifier)) := r in
      Ret (st.1 && negb (negb ok || negb (qualifier == "provided")), qualifier))
      (s_calls theSequence) (true, qualifier) ;;
    Ret (st.1, theSequence).

(** The nodes of the front end.  [FMiddle] are those of the other ends, which are
    accepted here; [FOther] has no check. *)
#[warnings="-register-all"]
Inductive front_node :=
| FRegister (r : register)
| FSequence (q : sequence)
| FProperty
| FConfig
| FMiddle
| FDevice (use : list string) (body : list front_node)
| FOther (type : string).

Definition rtxTypeCheck_DeviceHasSequence (body : list front_node) (itfSeqNode : seq_proto) : cw_outcome bool :=
  itfSeqProto <- full_name itfSeqNode ;;
  cw_foreach (fun n found =>
    match n with
    | FSequence q => k <- full_name (s_rtype q) ;; Ret (found || (itfSeqProto == k))
    | _ => Ret found
    end) body false.

(** A required sequence of an interface, with the scope it has there. *)
Definition required_sequence (itfTree : itf_tree) (n : itf_item) : option seq_proto :=
  if (m_type n == "__rtx_itf_decl__") && (m_specifier n == "sequence") && (e_qualifier (m_decl n) == "required")
  then Some (if id_scope (q_name (e_rtype (m_decl n))) == ""
             then set_scope (t_name itfTree) (e_rtype (m_decl n)) else e_rtype (m_decl n))
  else None.

Definition rtxTypeCheck_DeviceRespectsItf (s : session) (body : list front_node) (itfName : string)
    : cw_outcome bool :=
  if itfName == "" then Ret false
  else
    t <- load_itf itfName s ;;
    match t with
    | None => Ret false
    | Some itfTree =>
        cw_foreach (fun n ok =>
          match required_sequence itfTree n with
          | Some p => b <- rtxTypeCheck_DeviceHasSequence body p ;; Ret (ok && b)
          | None => Ret ok
          end) (t_block itfTree) true
    end.

Definition rtxTypeCheck_Device (s : session) (use : list string) (body : list front_node) : cw_outcome bool :=
  cw_foreach (fun itfName ok => b <- rtxTypeCheck_DeviceRespectsItf s body itfName ;; Ret (ok && b)) use true.

Definition device_registers (body : list front_node) : list string :=
  omap (fun n => match n with FRegister r => Some (r_name r) | _ => None end) body.

Context {A : Arith}.

(** [registers] and [itf_list] are those of the device around the node.  The
    answer, and the node as the checks leave it. *)
Fixpoint rtxFront_TypeCheckNode (fuel : nat) (s : session) (m : reg_names) (registers : list string)
    (local_node : front_node) (itf_list : list string) {struct local_node} : cw_outcome (bool * front_node) :=
  match local_node with
  | FRegister r => v <- rtxTypeCheck_Register r ;; Ret (bool_decide (is_Some v), FRegister r)
  | FSequence q => r <- rtxTypeCheck_Sequence fuel s m registers q itf_list ;; Ret (r.1, FSequence r.2)
  | FProperty => Ret (true, FProperty)
  | FConfig => Ret (true, FConfig)
  | FMiddle => Ret (true, FMiddle)
  | FDevice use body =>
      st <- cw_foreach (fun n st =>
              r <- rtxFront_TypeCheckNode fuel s m (device_registers body) n use ;;
              Ret (st.1 && r.1, st.2 ++ [r.2])) body (true, []) ;;
      b <- rtxTypeCheck_Device s use st.2 ;;
      Ret (st.1 && b, FDevice use st.2)
  | FOther _ => Error
  end.

(** The registers of the whole tree. *)
Fixpoint all_registers (n : front_node) : list register :=
  match n with
  | FRegister r => [r]
  | FDevice _ body => flat_map all_registers body
  | _ => []
  end.

Definition rtxFront_TypeCheck (fuel : nat) (s : session) (block : list front_node) : cw_outcome (bool * list front_node) :=
  cw_foreach (fun n st =>
    r <- rtxFront_TypeCheckNode fuel s (register_names (flat_map all_registers block)) [] n [] ;;
    Ret (st.1 && r.1, st.2 ++ [r.2])) block (true, []).

End front.

(** ** Names *)

(** The full name as a string: the function returns one on every prototype. *)
Definition seq_key (p : seq_proto) : string := match full_name p with Ret k => k | _ => "" end.

Lemma ident_name_Ret i : exists k, rtxRTypeName (TId i) = Ret k.
Proof. simpl. destruct (_ && _); [by eexists|]. destruct (id_global i); by eexists. Qed.

Lemma full_name_Ret p : full_name p = Ret (seq_key p).
Proof.
  unfold seq_key. enough (exists k, full_name p = Ret k) as [k ->] by done.
  unfold full_name, rtxRTypeFullQualifiedName. cbn [p_name p_params].
  change (rtxRTypeName (TRType (TId (q_name p)) "scalar")) with (rtxRTypeName (TId (q_name p))).
  destruct (ident_name_Ret (q_name p)) as [k ->]. cbn [cw_bind].
  destruct (cw_foreach_ind (fun entry l => n <- rtxRTypeName entry ;; Ret (l ++ [n])) (fun _ _ => True)
    (map TId (q_params p)) []) as (names & -> & _); [done| |by eexists].
  intros pre t rest l Ht _. assert (Hin : t ∈ map TId (q_params p)).
  { rewrite Ht. apply elem_of_app. right. by left. }
  apply list_elem_of_In, in_map_iff in Hin as (i & <- & _). destruct (ident_name_Ret i) as [n ->]. by eexists.
Qed.

Lemma qualified_set_scope p x : proto_is_qualified p = true -> x <> "" -> proto_is_qualified (set_scope x p) = true.
Proof.
  unfold proto_is_qualified. intros [Hps _]%andb_prop Hx. simpl. rewrite Hps.
  unfold unscoped. simpl. destruct (String.eqb_spec x ""); [done|]. by rewrite andb_false_r.
Qed.

(** ** The declarations a prototype may stand for *)

Section search.
Context {D : Disk itf_tree}.

Definition tree_of (s : session) (x : string) (t : itf_tree) : Prop :=
  x <> "" /\ load_itf x s = Ret (Some t).

(** The declarations of one interface that match. *)
Definition matches (p : seq_proto) (t : itf_tree) : list seq_decl :=
  match aget (id_name (q_name p)) (t_sequences t) with
  | None => []
  | Some seqs =>
      if proto_is_qualified p then option_list (aget (seq_key (set_scope (t_name t) p)) seqs)
      else List.filter (params_match p) (map snd seqs)
  end.

Definition itf_parent (s : session) (x y : string) : Prop :=
  exists t, tree_of s x t /\ y ∈ t_inheritance t /\ y <> "".

(** Where the search starts. *)
Definition roots (itfName : string) (interface_list : list string) : list string :=
  if itfName == "" then interface_list else [itfName].

(** A declaration of an interface of the list, or that one of them inherits. *)
Definition declared_from (s : session) (rs : list string) (p : seq_proto) (e : seq_decl) : Prop :=
  exists r x t, r ∈ rs /\ r <> "" /\ rtc (itf_parent s) r x /\ tree_of s x t /\ e ∈ matches p t.

Lemma ItfDefinesSequence_eq p t acc :
  rtxTypeCheck_ItfDefinesSequence p t acc =
  Ret (proto_is_qualified p && negb (match matches p t with [] => true | _ => false end), acc ++ matches p t).
Proof.
  unfold rtxTypeCheck_ItfDefinesSequence, matches.
  destruct (aget (id_name (q_name p)) (t_sequences t)) as [seqs|]; [|by rewrite app_nil_r, andb_false_r].
  destruct (proto_is_qualified p); [|done]. rewrite full_name_Ret. simpl.
  destruct (aget (seq_key (set_scope (t_name t) p)) seqs); [done|]. by rewrite app_nil_r.
Qed.

(** What the search may do to the prototype: give a scope to a qualified one. *)
Definition same_query (p p' : seq_proto) : Prop :=
  p' = p \/ (proto_is_qualified p = true /\ exists x, x <> "" /\ p' = set_scope x p).

Lemma same_query_trans p1 p2 p3 : same_query p1 p2 -> same_query p2 p3 -> same_query p1 p3.
Proof.
  intros [->|(Hq & x & Hx & ->)]; [done|]. intros [->|(_ & y & Hy & ->)]; right; (split; [done|]); [by exists x|by exists y].
Qed.

Lemma matches_same p p' t : same_query p p' -> matches p' t = matches p t.
Proof.
  intros [->|(Hq & x & Hx & ->)]; [done|]. unfold matches. rewrite (qualified_set_scope p x Hq Hx), Hq. done.
Qed.

Lemma declared_from_same s rs p p' e : same_query p p' -> declared_from s rs p' e -> declared_from s rs p e.
Proof. intros Hp (r & x & t & H1 & H2 & H3 & H4 & H5). rewrite (matches_same p p' t Hp) in H5. by exists r, x, t. Qed.

Lemma declared_from_parent s x t y p e :
  tree_of s x t -> y ∈ t_inheritance t -> declared_from s (roots y []) p e -> declared_from s [x] p e.
Proof.
  intros Ht Hy (r & z & u & Hr & Hne & Hz & Hu & He). exists x, z, u. split_and!; [by left|apply Ht| |done..].
  unfold roots in Hr. destruct (y == ""); [by apply not_elem_of_nil in Hr|].
  apply list_elem_of_singleton in Hr as ->. apply (rtc_l _ _ y); [|done]. by exists t.
Qed.

Lemma tree_of_fun s x t u : tree_of s x t -> tree_of s x u -> t = u.
Proof. intros [_ Ht] [_ Hu]. congruence. Qed.

(** The one declaration a qualified prototype names in an interface. *)
Definition named_in (s : session) (itf : string) (p : seq_proto) (e : seq_decl) : Prop :=
  proto_is_qualified p = true /\ exists t, tree_of s itf t /\ matches p t = [e].

(** The possibilities that the search adds. *)
Definition adds (s : session) (p : seq_proto) (rs : list string) (acc acc' : list seq_decl) : Prop :=
  exists new, acc' = acc ++ new /\ forall e, e ∈ new -> declared_from s rs p e.

Lemma adds_trans s p rs a b c : adds s p rs a b -> adds s p rs b c -> adds s p rs a c.
Proof.
  intros (n1 & -> & H1) (n2 & -> & H2). exists (n1 ++ n2). split; [by rewrite app_assoc|].
  intros e [He|He]%elem_of_app; [by apply H1|by apply H2].
Qed.

Local Abbreviation search := rtxTypeCheck_ItfNameDefinesSequence_recursive.

Lemma load_itf_tree s x t : (x == "") = false -> load_itf x s = Ret (Some t) -> tree_of s x t.
Proof. intros Hx Ht. split; [|done]. by apply String.eqb_neq. Qed.

Lemma search_sound fuel s p itf lst acc b p' acc' :
  search fuel s p itf lst acc = Ret (b, (p', acc')) ->
  same_query p p' /\ adds s p (roots itf lst) acc acc' /\
  (b = true -> p' = set_scope itf p /\ exists e, named_in s itf p e /\ acc' = acc ++ [e]).
Proof.
  revert p itf lst acc b p' acc'. induction fuel as [|fuel IH]; intros p itf lst acc b p' acc'; [done|].
  assert (Hloop : forall l rs p0 acc0 st,
    (forall y e, y ∈ l -> declared_from s (roots y []) p0 e -> declared_from s rs p0 e) ->
    cw_foreach (fun y st => r <- search fuel s st.1 y [] st.2 ;; Ret r.2) l (p0, acc0) = Ret st ->
    same_query p0 st.1 /\ adds s p0 rs acc0 st.2).
  { intros l rs p0 acc0 st Hl.
    apply (cw_foreach_inv _ (fun _ st => same_query p0 st.1 /\ adds s p0 rs acc0 st.2)).
    { split; [by left|]. exists []. rewrite app_nil_r. split; [done|]. by intros e ?%not_elem_of_nil. }
    intros pre y rest s1 s2 Hpre [Hq Ha] ([b1 [p1 acc1]] & Hr & [= <-])%cw_bind_Ret.
    apply IH in Hr as (Hq1 & (new & Hacc & Hn) & _). split; [by apply (same_query_trans _ s1.1)|].
    apply (adds_trans s p0 rs acc0 s1.2); [done|]. exists new. split; [done|]. intros e He.
    apply (Hl y); [rewrite Hpre; apply elem_of_app; right; by left|]. by apply (declared_from_same s _ p0 s1.1), Hn. }
  simpl. unfold roots at 1. destruct (itf == "") eqn:Hitf; simpl.
  - intros (st & Hst & [= <- ->])%cw_bind_Ret. apply (Hloop _ lst) in Hst as [Hq Ha].
    { split_and!; [done..|]. done. }
    intros y e Hy (r & x & t & Hr & Hne & Hx). exists r, x, t. split; [|done]. unfold roots in Hr.
    destruct (y == ""); [by apply not_elem_of_nil in Hr|]. by apply list_elem_of_singleton in Hr as ->.
  - intros ([t|] & Ht & Hr)%cw_bind_Ret; [|injection Hr as <- <- <-; split_and!; [by left| |done]; exists [];
      rewrite app_nil_r; split; [done|by intros e ?%not_elem_of_nil]].
    apply load_itf_tree in Ht; [|done]. rewrite ItfDefinesSequence_eq in Hr. simpl in Hr.
    assert (Hm : forall e, e ∈ matches p t -> declared_from s [itf] p e).
    { intros e He. exists itf, itf, t. split_and!; [by left|apply Ht|apply rtc_refl|done..]. }
    destruct (proto_is_qualified p && _) eqn:Hfound.
    + injection Hr as <- <- <-. apply andb_prop in Hfound as [Hq Hne]. split_and!.
      * right. split; [done|]. exists itf. split; [apply Ht|done].
      * by exists (matches p t).
      * intros _. split; [done|]. assert (H : exists e, matches p t = [e]).
        { unfold matches in Hne |- *. destruct (aget _ (t_sequences t)) as [seqs|]; [|done].
          rewrite Hq in *. destruct (aget _ seqs) as [e|]; [|done]. by exists e. }
        destruct H as [e He]. exists e. rewrite He. split; [|done]. split; [done|]. by exists t.
    + apply cw_bind_Ret in Hr as (st & Hst & [= <- ->]). apply (Hloop _ [itf]) in Hst as [Hq Ha].
      { split_and!; [done| |done]. apply (adds_trans _ _ _ _ (acc ++ matches p t)); [|done]. by exists (matches p t). }
      intros y e Hy. by apply (declared_from_parent s itf t).
Qed.

(** An unqualified prototype is not changed, and nothing is missed. *)
Lemma search_complete fuel s p itf lst acc b p' acc' :
  proto_is_qualified p = false ->
  search fuel s p itf lst acc = Ret (b, (p', acc')) ->
  b = false /\ p' = p /\ (forall e, e ∈ acc -> e ∈ acc') /\
  forall e, declared_from s (roots itf lst) p e -> e ∈ acc'.
Proof.
  intros Hp. revert itf lst acc b p' acc'. induction fuel as [|fuel IH]; intros itf lst acc b p' acc'; [done|].
  assert (Hloop : forall l acc0 st,
    cw_foreach (fun y st => r <- search fuel s st.1 y [] st.2 ;; Ret r.2) l (p, acc0) = Ret st ->
    st.1 = p /\ (forall e, e ∈ acc0 -> e ∈ st.2) /\
    forall y e, y ∈ l -> y <> "" -> declared_from s [y] p e -> e ∈ st.2).
  { intros l acc0 st. apply (cw_foreach_inv _ (fun pre st => st.1 = p /\ (forall e, e ∈ acc0 -> e ∈ st.2) /\
      forall y e, y ∈ pre -> y <> "" -> declared_from s [y] p e -> e ∈ st.2)).
    { split_and!; [done..|]. by intros y e ?%not_elem_of_nil. }
    intros pre y rest [p1 acc1] s2 _ (Hq & Ha & Hpre) ([b1 [p2 acc2]] & Hr & [= <-])%cw_bind_Ret.
    simpl in *. subst p1. apply IH in Hr as (_ & -> & Hacc & Hn). split_and!; [done|by intros e He; apply Hacc, Ha|].
    intros z e [Hz|Hz%list_elem_of_singleton]%elem_of_app Hne He; [by apply Hacc, (Hpre z)|]. subst z.
    apply Hn. unfold roots. by apply String.eqb_neq in Hne as ->. }
  simpl. unfold roots. destruct (itf == "") eqn:Hitf; simpl.
  - intros (st & Hst & [= <- ->])%cw_bind_Ret. apply Hloop in Hst as (Hq & Ha & Hl). split_and!; [done..|].
    intros e (r & x & t & Hr & Hne & H). apply (Hl r); [done..|]. exists r, x, t. split; [by left|done].
  - intros ([t|] & Ht & Hr)%cw_bind_Ret.
    2:{ injection Hr as <- <- <-. split_and!; [done..|]. intros e (r & x & t & ->%list_elem_of_singleton & Hne & Hx & Htr & He).
        exfalso. inversion Hx as [|? y ? (u & [_ Hu] & _) _]; subst; [destruct Htr as [_ Htr]|]; congruence. }
    apply load_itf_tree in Ht; [|done]. rewrite ItfDefinesSequence_eq, Hp in Hr. simpl in Hr.
    apply cw_bind_Ret in Hr as (st & Hst & [= <- ->]). apply Hloop in Hst as (Hq & Ha & Hl). simpl in *.
    split_and!; [done|done|intros e He; apply Ha, elem_of_app; by left|].
    intros e (r & x & u & ->%list_elem_of_singleton & Hne & Hx & Hu & He).
    inversion Hx as [|? y ? (v & Hv & Hy & Hyne) Hrest]; subst.
    + rewrite (tree_of_fun s x u t) in He by done. apply Ha, elem_of_app. by right.
    + rewrite (tree_of_fun s itf v t) in Hy by done. apply (Hl y); [done..|]. exists y, x, u. split; [by left|done].
Qed.

Lemma unique_spec l :
  exists u, unique_possibilities l = Ret u /\
    (forall k rt, (k, rt) ∈ u -> exists e, e ∈ l /\ rt = e_rtype e /\ k = seq_key rt) /\
    (forall e, e ∈ l -> seq_key (e_rtype e) ∈ akeys u) /\ NoDup (akeys u).
Proof.
  unfold unique_possibilities.
  apply (cw_foreach_ind _ (fun done u =>
    (forall k rt, (k, rt) ∈ u -> exists e, e ∈ done /\ rt = e_rtype e /\ k = seq_key rt) /\
    (forall e, e ∈ done -> seq_key (e_rtype e) ∈ akeys u) /\ NoDup (akeys u))).
  { split_and!; [by intros k rt ?%not_elem_of_nil|by intros e ?%not_elem_of_nil|apply NoDup_nil_2]. }
  intros pre e rest u _ (H1 & H2 & H3). rewrite full_name_Ret. simpl. eexists. split; [reflexivity|].
  destruct (findElement (seq_key (e_rtype e)) u) eqn:Hf.
  - split_and!; [| |done].
    + intros k rt (e' & He' & H)%H1. exists e'. split; [|done]. apply elem_of_app. by left.
    + intros e' [He'| ->%list_elem_of_singleton]%elem_of_app; [by apply H2|].
      apply aget_Some_keys. by apply findElement_true.
  - apply findElement_false, aget_None_keys in Hf. unfold akeys in *. rewrite map_app. split_and!.
    + intros k rt [(e' & He' & H)%H1|[= -> ->]%list_elem_of_singleton]%elem_of_app.
      * exists e'. split; [|done]. apply elem_of_app. by left.
      * exists e. split_and!; [|done..]. apply elem_of_app. right. by left.
    + intros e' [He'| ->%list_elem_of_singleton]%elem_of_app; apply elem_of_app; [left; by apply H2|right; by left].
    + apply NoDup_app; split_and!; [done| |apply NoDup_singleton]. by intros k Hk ->%list_elem_of_singleton.
Qed.

(** One name among the possibilities, or not. *)
Lemma unique_singleton l u :
  unique_possibilities l = Ret u ->
  match u with
  | [(_, rt)] => exists e l', l = e :: l' /\ (exists e1, e1 ∈ l /\ rt = e_rtype e1) /\
                   forall e, e ∈ l -> seq_key (e_rtype e) = seq_key rt
  | _ => forall e, e ∈ l -> exists e', e' ∈ l /\ seq_key (e_rtype e') <> seq_key (e_rtype e)
  end.
Proof.
  intros Hu. destruct (unique_spec l) as (u' & Hu' & H1 & H2 & H3). rewrite Hu in Hu'. injection Hu' as <-.
  destruct u as [|[k rt] [|[k2 rt2] u]].
  - intros e He. by apply H2, not_elem_of_nil in He.
  - destruct (H1 k rt) as (e1 & He1 & Hrt & Hk); [by left|].
    destruct l as [|e l']; [by apply not_elem_of_nil in He1|]. exists e, l'. split_and!; [done|by exists e1|].
    intros e' He'. apply H2, list_elem_of_singleton in He'. by rewrite He'.
  - intros e _. unfold akeys in H3. simpl in H3. apply NoDup_cons in H3 as [H3 _].
    assert (k <> k2) by (intros ->; apply H3; by left).
    destruct (H1 k rt) as (e1 & He1 & -> & ->); [by left|].
    destruct (H1 k2 rt2) as (e2 & He2 & -> & ->); [right; by left|].
    destruct (decide (seq_key (e_rtype e) = seq_key (e_rtype e1))) as [Heq|]; [exists e2; split; congruence|by exists e1].
Qed.

(** A search that returns, for a prototype that is not qualified. *)
Lemma search_resolves fuel s p itf lst q b p' q' :
  proto_is_qualified p = false ->
  rtxTypeCheck_ItfNameDefinesSequence fuel s p itf lst q = Ret (b, (p', q')) ->
  let candidate := declared_from s (roots itf lst) p in
  if b
  then (exists e, candidate e /\ p' = e_rtype e) /\ (exists e, candidate e /\ q' = e_qualifier e) /\
       forall e, candidate e -> seq_key (e_rtype e) = seq_key p'
  else p' = p /\ q' = q /\
       forall e, candidate e -> exists e', candidate e' /\ seq_key (e_rtype e') <> seq_key (e_rtype e).
Proof.
  intros Hp ([found [p1 acc]] & Hs & Hr)%cw_bind_Ret.
  pose proof (search_complete fuel s p itf lst [] found p1 acc Hp Hs) as (-> & -> & _ & Hall).
  pose proof (search_sound fuel s p itf lst [] false p acc Hs) as (_ & (new & Hnew & Hin) & _).
  simpl in Hnew. subst new. apply cw_bind_Ret in Hr as (u & Hu & Hr). apply unique_singleton in Hu.
  assert (Hno : (forall e, e ∈ acc -> exists e', e' ∈ acc /\ seq_key (e_rtype e') <> seq_key (e_rtype e)) ->
    forall e, declared_from s (roots itf lst) p e ->
      exists e', declared_from s (roots itf lst) p e' /\ seq_key (e_rtype e') <> seq_key (e_rtype e)).
  { intros H e He. destruct (H e) as (e' & He' & Hne); [by apply Hall|]. exists e'. split; [by apply Hin|done]. }
  destruct u as [|[k rt] [|[k2 rt2] u]].
  - injection Hr as <- <- <-. split_and!; [done..|by apply Hno].
  - injection Hr as <- <- <-. destruct Hu as (e & l' & -> & (e1 & He1 & ->) & Hsame). split_and!.
    + exists e1. split; [by apply Hin|done].
    + exists e. split; [apply Hin; by left|done].
    + intros e' He'. by apply Hsame, Hall.
  - injection Hr as <- <- <-. split_and!; [done..|by apply Hno].
Qed.

(** The prototype that a search from [itf] resolves to: that of a declaration, or
    the qualified one that was asked for, in the interface that declares it. *)
Definition resolved (s : session) (itf : string) (p p' : seq_proto) (e : seq_decl) : Prop :=
  p' = e_rtype e \/ (p' = set_scope itf p /\ named_in s itf p e).

(** A search that succeeds, whatever the prototype: the qualifier is that of a
    declaration it may stand for, and the prototype is resolved to one. *)
Lemma name_defines_sound fuel s p itf lst q p' q' :
  rtxTypeCheck_ItfNameDefinesSequence fuel s p itf lst q = Ret (true, (p', q')) ->
  (exists e, declared_from s (roots itf lst) p e /\ q' = e_qualifier e) /\
  (exists e, declared_from s (roots itf lst) p e /\ resolved s itf p p' e).
Proof.
  intros ([found [p1 acc]] & Hs & Hr)%cw_bind_Ret.
  pose proof (search_sound fuel s p itf lst [] found p1 acc Hs) as (_ & (new & Hnew & Hin) & Hfound).
  simpl in Hnew. subst new. destruct found.
  - destruct (Hfound eq_refl) as (-> & e & He & ->). injection Hr as <- <-.
    assert (Hd : declared_from s (roots itf lst) p e) by (apply Hin; by left).
    split; exists e; (split; [done|]); [done|by right].
  - apply cw_bind_Ret in Hr as (u & Hu & Hr). apply unique_singleton in Hu.
    destruct u as [|[k rt] [|[k2 rt2] u]]; [done| |done]. injection Hr as <- <-.
    destruct Hu as (e & l' & -> & (e1 & He1 & ->) & _). split.
    + exists e. split; [apply Hin; by left|done].
    + exists e1. split; [by apply Hin|by left].
Qed.

(** ** Termination of the search *)

Lemma load_itf_not_Short x s : load_itf x s <> Short.
Proof.
  unfold load_itf, rtxLink_LoadItem. destruct (rtxLink_findInterface x s) as [i|]; [|done].
  destruct (ie_tree_file i) as [f|]; [|done]. destruct (tree_at (catPath "./" f)); [done|].
  destruct (tree_at (catPath local_backlib_path f)); [done|]. by destruct (tree_at (catPath backlib_path f)).
Qed.

Lemma cw_foreach_not_Short {B S} (f : B -> S -> cw_outcome S) l st :
  (forall x st, x ∈ l -> f x st <> Short) -> cw_foreach f l st <> Short.
Proof.
  revert st. induction l as [|x l IH]; intros st H; simpl; [done|].
  pose proof (H x st ltac:(by left)) as Hx. destruct (f x st) as [st'| |]; simpl; [|done|done].
  apply IH. intros y st2 Hy. apply H. by right.
Qed.

(** The depth of a search from an interface whose inheritance is ranked. *)
Definition depth (rank : string -> nat) (x : string) : nat := if x == "" then 1 else rank x + 2.

Lemma search_terminates (rank : string -> nat) fuel s p itf lst acc :
  (forall x y, itf_parent s x y -> rank y < rank x) ->
  depth rank itf <= fuel -> (itf = "" -> forall y, y ∈ lst -> depth rank y < fuel) ->
  search fuel s p itf lst acc <> Short.
Proof.
  intros Hrank. revert p itf lst acc. induction fuel as [|fuel IH]; intros p itf lst acc Hf Hl.
  { unfold depth in Hf. destruct (itf == ""); lia. }
  assert (Hloop : forall l st, (forall y, y ∈ l -> depth rank y <= fuel) ->
    cw_foreach (fun y st => r <- search fuel s st.1 y [] st.2 ;; Ret r.2) l st <> Short).
  { intros l st Hd. apply cw_foreach_not_Short. intros y st' Hin.
    pose proof (IH st'.1 y [] st'.2 (Hd y Hin)) as H.
    destruct (search fuel s st'.1 y [] st'.2); [done..|]. exfalso. apply H; [|done].
    by intros _ z ?%not_elem_of_nil. }
  simpl. destruct (itf == "") eqn:Hitf; simpl.
  - apply String.eqb_eq in Hitf. pose proof (Hloop lst (p, acc)) as H.
    destruct (cw_foreach _ lst (p, acc)); [done..|]. exfalso. apply H; [|done].
    intros y Hy. specialize (Hl Hitf y Hy). lia.
  - pose proof (load_itf_not_Short itf s) as Hns. destruct (load_itf itf s) as [[t|]| |] eqn:Ht; [|done..]. clear Hns.
    apply load_itf_tree in Ht; [|done]. simpl. rewrite ItfDefinesSequence_eq. simpl. destruct (_ && _); [done|].
    pose proof (Hloop (t_inheritance t) (p, acc ++ matches p t)) as H.
    destruct (cw_foreach _ (t_inheritance t) _); [done..|]. exfalso. apply H; [|done]. intros y Hin.
    unfold depth in *. rewrite Hitf in Hf. destruct (String.eqb_spec y ""); [lia|].
    enough (rank y < rank itf) by lia. apply Hrank. by exists t.
Qed.

(** Every interface that the search may meet, from those of [rs], can be loaded:
    it is not known to the session, or its tree is there. *)
Definition loadable (s : session) (rs : list string) : Prop :=
  forall r x, r ∈ rs -> r <> "" -> rtc (itf_parent s) r x -> load_itf x s <> Error.

Lemma loadable_root s r rs : r ∈ rs -> loadable s rs -> loadable s (roots r []).
Proof.
  intros Hr H r' x Hr'. unfold roots in Hr'. destruct (r == ""); [by apply not_elem_of_nil in Hr'|].
  apply list_elem_of_singleton in Hr' as ->. by apply H.
Qed.

Lemma loadable_parent s x t y :
  tree_of s x t -> y ∈ t_inheritance t -> loadable s [x] -> loadable s (roots y []).
Proof.
  intros Ht Hy H r z Hr Hne Hz. unfold roots in Hr. destruct (y == ""); [by apply not_elem_of_nil in Hr|].
  apply list_elem_of_singleton in Hr as ->. apply (H x z); [by left|apply Ht|].
  apply (rtc_l _ _ y); [|done]. by exists t.
Qed.

Lemma cw_foreach_not_Error {B S} (f : B -> S -> cw_outcome S) l st :
  (forall x st, x ∈ l -> f x st <> Error) -> cw_foreach f l st <> Error.
Proof.
  revert st. induction l as [|x l IH]; intros st H; simpl; [done|].
  pose proof (H x st ltac:(by left)) as Hx. destruct (f x st) as [st'| |]; simpl; [|done|done].
  apply IH. intros y st2 Hy. apply H. by right.
Qed.

Lemma search_not_Error fuel s p itf lst acc :
  loadable s (roots itf lst) -> search fuel s p itf lst acc <> Error.
Proof.
  revert p itf lst acc. induction fuel as [|fuel IH]; intros p itf lst acc Hload; [done|].
  assert (Hloop : forall l st, (forall y, y ∈ l -> loadable s (roots y [])) ->
    cw_foreach (fun y st => r <- search fuel s st.1 y [] st.2 ;; Ret r.2) l st <> Error).
  { intros l st Hl. apply cw_foreach_not_Error. intros y st' Hy. pose proof (IH st'.1 y [] st'.2 (Hl y Hy)).
    by destruct (search fuel s st'.1 y [] st'.2). }
  simpl. unfold roots in Hload. destruct (itf == "") eqn:Hitf; simpl.
  - pose proof (Hloop lst (p, acc) (fun y Hy => loadable_root s y lst Hy Hload)).
    by destruct (cw_foreach _ lst (p, acc)).
  - assert (Hl : load_itf itf s <> Error).
    { apply (Hload itf itf); [by left|by apply String.eqb_neq|apply rtc_refl]. }
    destruct (load_itf itf s) as [[t|]| |] eqn:Ht; [|done..]. apply load_itf_tree in Ht; [|done]. simpl.
    rewrite ItfDefinesSequence_eq. simpl. destruct (_ && _); [done|].
    pose proof (Hloop (t_inheritance t) (p, acc ++ matches p t)
      (fun y Hy => loadable_parent s itf t y Ht Hy Hload)).
    by destruct (cw_foreach _ (t_inheritance t) _).
Qed.

(** Enough fuel for a search from [itf], or from the interfaces of [lst]. *)
Definition search_fuel (rank : string -> nat) (itf : string) (lst : list string) : nat :=
  depth rank itf + S (sum_list_with (depth rank) lst).

Lemma search_fuel_enough (rank : string -> nat) fuel s p itf lst acc :
  (forall x y, itf_parent s x y -> rank y < rank x) -> search_fuel rank itf lst <= fuel ->
  search fuel s p itf lst acc <> Short.
Proof.
  unfold search_fuel. intros Hrank Hf. apply (search_terminates rank); [done|lia|]. intros _ y Hy.
  enough (depth rank y <= sum_list_with (depth rank) lst) by lia. clear -Hy.
  induction lst as [|z lst IH]; [by apply not_elem_of_nil in Hy|]. simpl.
  apply elem_of_cons in Hy as [->|Hy]; [lia|]. specialize (IH Hy). lia.
Qed.

(** The call ends as the search does. *)
Lemma name_defines_ends fuel s p itf lst q :
  match search fuel s p itf lst [] with
  | Ret _ => exists b p' q', rtxTypeCheck_ItfNameDefinesSequence fuel s p itf lst q = Ret (b, (p', q'))
  | Error => rtxTypeCheck_ItfNameDefinesSequence fuel s p itf lst q = Error
  | Short => rtxTypeCheck_ItfNameDefinesSequence fuel s p itf lst q = Short
  end.
Proof.
  unfold rtxTypeCheck_ItfNameDefinesSequence.
  destruct (search fuel s p itf lst []) as [[found [p1 acc]]| |]; simpl; [|done|done].
  destruct found; [by repeat eexists|]. destruct (unique_spec acc) as (u & -> & _). simpl.
  destruct u as [|[k rt] [|]]; by repeat eexists.
Qed.

(** Where no interface inherits from itself, directly or not, the
    search of a sequence ends. *)
Theorem sequence_search_terminates (rank : string -> nat) s p itf lst q :
  (forall x y, itf_parent s x y -> rank y < rank x) ->
  forall fuel, search_fuel rank itf lst <= fuel ->
  rtxTypeCheck_ItfNameDefinesSequence fuel s p itf lst q <> Short.
Proof.
  intros Hrank fuel Hf. pose proof (search_fuel_enough rank fuel s p itf lst [] Hrank Hf) as H.
  pose proof (name_defines_ends fuel s p itf lst q) as He.
  destruct (search fuel s p itf lst []); [by destruct He as (b & p' & q' & ->)|by rewrite He|done].
Qed.

(** C16: On a session whose inheritance has no cycle and whose interfaces,
    those the search may meet, can be loaded, the search of a prototype that
    is not qualified returns, on any fuel from a bound that the ranks of the
    interfaces give. It answers true exactly when the declarations the
    prototype may stand for, in the interfaces it is looked for in and in
    all they inherit from, are not none and have one full name; the
    prototype is then one of them and the qualifier is that of one of them.
    Otherwise, with none or with two names (the ambiguity that a comment
    says is not managed), it answers false and nothing changes. *)
Theorem sequence_resolution (rank : string -> nat) s p itf lst q fuel :
  proto_is_qualified p = false ->
  (forall x y, itf_parent s x y -> rank y < rank x) -> loadable s (roots itf lst) ->
  search_fuel rank itf lst <= fuel ->
  let candidate := declared_from s (roots itf lst) p in
  exists b p' q', rtxTypeCheck_ItfNameDefinesSequence fuel s p itf lst q = Ret (b, (p', q')) /\
  if b
  then (exists e, candidate e /\ p' = e_rtype e) /\ (exists e, candidate e /\ q' = e_qualifier e) /\
       forall e, candidate e -> seq_key (e_rtype e) = seq_key p'
  else p' = p /\ q' = q /\
       forall e, candidate e -> exists e', candidate e' /\ seq_key (e_rtype e') <> seq_key (e_rtype e).
Proof.
  intros Hp Hrank Hload Hf candidate.
  pose proof (search_fuel_enough rank fuel s p itf lst [] Hrank Hf) as Hs.
  pose proof (search_not_Error fuel s p itf lst [] Hload) as Hn.
  pose proof (name_defines_ends fuel s p itf lst q) as He.
  destruct (search fuel s p itf lst []); [|done..]. destruct He as (b & p' & q' & Hr).
  exists b, p', q'. split; [done|]. by apply (search_resolves fuel s p itf lst q b p' q' Hp Hr).
Qed.

(** An interface that inherits from itself first is searched for ever, unless it
    has a match without a doubt. *)
Theorem inheritance_cycle_hangs s p x t rest lst acc :
  tree_of s x t -> t_inheritance t = x :: rest -> proto_is_qualified p = false ->
  forall fuel, search fuel s p x lst acc = Short.
Proof.
  intros Ht Hi Hp fuel. revert lst acc. induction fuel as [|fuel IH]; intros lst acc; [done|]. simpl.
  destruct Ht as [Hx Ht]. apply String.eqb_neq in Hx as Hb. rewrite Hb, Ht. simpl.
  rewrite ItfDefinesSequence_eq, Hp. simpl. rewrite Hi. simpl. by rewrite IH.
Qed.

End search.

(** ** What an accepted device has *)

Section device.
Context {D : Disk itf_tree} {A : Arith}.
Context (s : session) (m : reg_names).

(** A prototype, looked for in the interface of its scope, or in the list where
    it has none, may stand for a declaration whose qualifier satisfies [ok]. *)
Definition declared_as (use : list string) (p : seq_proto) (ok : string -> Prop) : Prop :=
  exists e, declared_from s (roots (id_scope (q_name p)) use) p e /\ ok (e_qualifier e).

Definition sequence_ok (registers use : list string) (q q' : sequence) : Prop :=
  declared_as use (s_rtype q) (fun k => k <> "provided") /\ s_calls q' = s_calls q /\
  Forall (fun call => exists p, rtxNodeCall_toRtype m registers q' call = Ret p /\
                        declared_as use p (fun k => k = "provided")) (s_calls q).

Lemma sequence_check_sound fuel registers q use q' :
  rtxTypeCheck_Sequence fuel s m registers q use = Ret (true, q') -> sequence_ok registers use q q'.
Proof.
  intros ([ok [rtype k]] & Hr & Hc)%cw_bind_Ret. destruct ok; simpl in Hc; [|done].
  apply name_defines_sound in Hr as [(e & He & ->) _].
  destruct (String.eqb_spec (e_qualifier e) "provided") as [|Hk]; [done|].
  apply cw_bind_Ret in Hc as (st & Hst & [= Ht <-]). split; [by exists e|split; [done|]].
  set (q' := Sequence rtype (s_paramNames q) (s_calls q)) in *. revert Hst Ht.
  apply (cw_foreach_inv _ (fun pre st => st.1 = true -> Forall (fun call => exists p,
    rtxNodeCall_toRtype m registers q' call = Ret p /\ declared_as use p (fun k => k = "provided")) pre)); [done|].
  intros pre call rest s1 s2 _ Hpre (p & Hp & ([ok [p1 k1]] & Hr & [= <-])%cw_bind_Ret)%cw_bind_Ret. simpl.
  intros [H1 H2]%andb_prop. apply Forall_app. split; [by apply Hpre|]. apply Forall_singleton. exists p. split; [done|].
  destruct ok; [|done]. apply name_defines_sound in Hr as [(e1 & He1 & ->) _]. exists e1. split; [done|].
  simpl in H2. apply negb_true_iff, negb_false_iff, String.eqb_eq in H2. done.
Qed.

(** The names of the sequences that a device implements. *)
Definition implements (body : list front_node) (p : seq_proto) : Prop :=
  exists q, FSequence q ∈ body /\ seq_key (s_rtype q) = seq_key p.

Lemma has_sequence_sound body p : rtxTypeCheck_DeviceHasSequence body p = Ret true -> implements body p.
Proof.
  unfold rtxTypeCheck_DeviceHasSequence. rewrite full_name_Ret. simpl. intros H.
  enough (Hi : true = true -> implements body p) by by apply Hi. revert H.
  apply (cw_foreach_inv _ (fun pre b => b = true -> implements pre p)); [done|].
  intros pre n rest b1 b2 _ IH Hn.
  assert (Hmono : b1 = true -> implements (pre ++ [n]) p).
  { intros (q & Hq & Hk)%IH. exists q. split; [|done]. apply elem_of_app. by left. }
  destruct n; try by injection Hn as <-. rewrite full_name_Ret in Hn. injection Hn as <-.
  intros [H|H]%orb_prop; [by apply Hmono|]. apply String.eqb_eq in H. exists q. split; [|done].
  apply elem_of_app. right. by left.
Qed.

(** The required sequences of an interface are in the device. *)
Definition respects (body : list front_node) (itfName : string) : Prop :=
  exists t, tree_of s itfName t /\
    forall n p, n ∈ t_block t -> required_sequence t n = Some p -> implements body p.

Lemma respects_sound body itfName : rtxTypeCheck_DeviceRespectsItf s body itfName = Ret true -> respects body itfName.
Proof.
  unfold rtxTypeCheck_DeviceRespectsItf. destruct (itfName == "") eqn:Hn; [done|].
  intros ([t|] & Ht & H)%cw_bind_Ret; [|done]. exists t. split; [by apply load_itf_tree|].
  enough (Hi : true = true -> forall n p, n ∈ t_block t -> required_sequence t n = Some p -> implements body p)
    by by apply Hi. revert H.
  apply (cw_foreach_inv _ (fun pre b => b = true -> forall n p, n ∈ pre -> required_sequence t n = Some p -> implements body p)).
  { by intros _ n p ?%not_elem_of_nil. }
  intros pre n rest b1 b2 _ IH Hb Hb2 n' p Hin Hp.
  destruct (required_sequence t n) as [p0|] eqn:Hp0.
  - apply cw_bind_Ret in Hb as (b & Hb & [= <-]). apply andb_prop in Hb2 as [-> ->].
    apply elem_of_app in Hin as [Hin| ->%list_elem_of_singleton]; [by apply (IH eq_refl n')|].
    rewrite Hp0 in Hp. injection Hp as <-. by apply has_sequence_sound.
  - injection Hb as <-. apply elem_of_app in Hin as [Hin| ->%list_elem_of_singleton]; [by apply (IH Hb2 n')|congruence].
Qed.

Lemma device_sound use body : rtxTypeCheck_Device s use body = Ret true -> forall itf, itf ∈ use -> respects body itf.
Proof.
  unfold rtxTypeCheck_Device. intros H.
  enough (Hi : true = true -> forall itf, itf ∈ use -> respects body itf) by by apply Hi.
  revert H.
  apply (cw_foreach_inv _ (fun pre b => b = true -> forall itf, itf ∈ pre -> respects body itf)).
  { by intros _ itf ?%not_elem_of_nil. }
  intros pre x rest b1 b2 _ IH (b' & Hb & [= <-])%cw_bind_Ret [-> ->]%andb_prop itf
    [Hin| ->%list_elem_of_singleton]%elem_of_app; [by apply IH|by apply respects_sound].
Qed.

(** What the check of a node of a device ensures. *)
Definition node_ok (registers use : list string) (n n' : front_node) : Prop :=
  match n with
  | FRegister r => n' = n /\ exists c, rtxTypeCheck_Register r = Ret (Some c)
  | FSequence q => exists q', n' = FSequence q' /\ sequence_ok registers use q q'
  | _ => True
  end.

Lemma node_check_sound fuel registers n use n' :
  rtxFront_TypeCheckNode fuel s m registers n use = Ret (true, n') -> node_ok registers use n n'.
Proof.
  destruct n; simpl; try done.
  - intros (v & Hv & [= Hb <-])%cw_bind_Ret. split; [done|].
    apply bool_decide_eq_true in Hb as [c ->]. by exists c.
  - intros ([b q'] & Hq & [= Hb <-])%cw_bind_Ret. simpl in Hb. subst b. exists q'. split; [done|].
    by apply (sequence_check_sound fuel).
Qed.

(** C18: What an accepted device has: every register passed its check, every
    sequence may stand for a declaration that is not provided and calls only
    provided sequences with typed arguments, and every sequence that an
    interface of the device requires is implemented under its full name. *)
Theorem front_device_sound fuel registers use body itf_list n' :
  rtxFront_TypeCheckNode fuel s m registers (FDevice use body) itf_list = Ret (true, n') ->
  exists body', n' = FDevice use body' /\ Forall2 (node_ok (device_registers body) use) body body' /\
    forall itf, itf ∈ use -> respects body' itf.
Proof.
  simpl. intros ([ok body'] & Hst & (b & Hb & [= Ht <-])%cw_bind_Ret)%cw_bind_Ret. simpl in *.
  apply andb_prop in Ht as [-> ->]. exists body'. split; [done|]. split; [|by apply device_sound].
  enough (Hi : (true, body').1 = true -> Forall2 (node_ok (device_registers body) use) body (true, body').2) by by apply Hi.
  revert Hst.
  apply (cw_foreach_inv _ (fun pre st => st.1 = true -> Forall2 (node_ok (device_registers body) use) pre st.2)); [done|].
  intros pre n rest s1 s2 _ IH ([b n2] & Hn & [= <-])%cw_bind_Ret [H1 H2]%andb_prop. simpl in *. subst b.
  apply Forall2_app; [by apply IH|]. constructor; [|constructor]. by apply (node_check_sound fuel).
Qed.

End device.

(** A data field, such as [x.size], is compared by the value of its node, which is
    empty: no named parameter gives it a type. *)
Theorem data_field_untyped m registers q :
  "" ∉ s_paramNames q -> rtxNodeCall_paramType m registers q AData = Ret None.
Proof.
  intros H. simpl. unfold named_param. f_equal. destruct (list_find _ (s_paramNames q)) as [[i x]|] eqn:E; [|done].
  apply list_find_Some in E as (Hi & -> & _). by apply list_elem_of_lookup_2 in Hi.
Qed.

(** ** A device of two interfaces *)

Definition builtin (name : string) : ident := Ident "Builtin" name false.

(** [Base] declares a sequence, [LKM] inherits from [Base] and requires another. *)
Definition base_itf : itf_tree :=
  ItfTree "Base" [("open", [("Base::open(Builtin::string)",
    SeqDecl (SeqProto (Ident "Base" "open" false) [builtin "string"]) "provided")])] [] [].

Definition on_init : seq_decl := SeqDecl (SeqProto (Ident "LKM" "onInit" false) []) "required".

Definition lkm_itf : itf_tree :=
  ItfTree "LKM" [("onInit", [("LKM::onInit()", on_init)])] ["Base"]
    [ItfItem "__rtx_itf_decl__" "sequence" on_init].

(** An interface that declares [open] as [Base] does. *)
Definition other_itf : itf_tree :=
  ItfTree "Other" [("open", [("Other::open(Builtin::string)",
    SeqDecl (SeqProto (Ident "Other" "open" false) [builtin "string"]) "provided")])] [] [].

#[local] Instance test_disk : Disk itf_tree := {|
  catPath := String.append; local_backlib_path := "local/"; backlib_path := "lib/";
  tree_at f := if f == "lib/Base.tree" then Some base_itf
               else if f == "./LKM.tree" then Some lkm_itf
               else if f == "local/Other.tree" then Some other_itf else None
|}.

Definition test_session : session :=
  let itf n := (n, ItfEntry n (Some (n ++ ".tree")%string) []) in
  Session (Cache [] [] [] [] [] [itf "Base"; itf "LKM"; itf "Other"]) empty_cache.

Definition test_sequence : sequence :=
  Sequence (SeqProto (Ident "" "onInit" false) []) [] [SeqCall (Ident "" "open" false) [AString]].

Definition test_device : front_node := FDevice ["LKM"] [FRegister lcr; FSequence test_sequence].

Definition check_device (use : list string) : cw_outcome bool :=
  r <- rtxFront_TypeCheck 5 test_session [FDevice use [FRegister lcr; FSequence test_sequence]] ;; Ret r.1.

(** The device is accepted; with [Other] the call is ambiguous. *)
Example check_devices :
  map check_device [["LKM"]; ["LKM"; "Other"]; ["Base"]] = [Ret true; Ret false; Ret false].
Proof. vm_compute. reflexivity. Qed.

Definition test_call : seq_proto := SeqProto (Ident "" "open" false) [builtin "string"].

Definition test_depth (x : string) : nat := if x == "LKM" then 1 else 0.

Lemma test_ranked x y : itf_parent test_session x y -> test_depth y < test_depth x.
Proof.
  intros (t & [_ Ht] & Hy & _). unfold load_itf, rtxLink_findInterface, test_session in Ht. simpl in Ht.
  destruct (String.eqb_spec x "Base") as [->|]; [vm_compute in Ht; injection Ht as <-; by apply not_elem_of_nil in Hy|].
  destruct (String.eqb_spec x "LKM") as [->|].
  { vm_compute in Ht. injection Ht as <-. apply list_elem_of_singleton in Hy as ->. vm_compute. lia. }
  destruct (String.eqb_spec x "Other") as [->|]; [vm_compute in Ht; injection Ht as <-; by apply not_elem_of_nil in Hy|done].
Qed.

Lemma test_loads x : load_itf x test_session <> Error.
Proof.
  unfold load_itf, rtxLink_findInterface, test_session. simpl.
  destruct (String.eqb_spec x "Base") as [->|]; [by vm_compute|].
  destruct (String.eqb_spec x "LKM") as [->|]; [by vm_compute|].
  by destruct (String.eqb_spec x "Other") as [->|]; [by vm_compute|].
Qed.

Example sequence_search_terminates_witness :
  rtxTypeCheck_ItfNameDefinesSequence 9 test_session test_call "" ["LKM"; "Other"] "" <> Short.
Proof. apply (sequence_search_terminates test_depth); [exact test_ranked|vm_compute; lia]. Defined.

(** [LKM] inherits the sequence from [Base]; beside [Other] it is ambiguous. *)
Example sequence_resolution_witness :
  (exists p' q', rtxTypeCheck_ItfNameDefinesSequence 9 test_session test_call "" ["LKM"] "" = Ret (true, (p', q')) /\
     forall e, declared_from test_session ["LKM"] test_call e -> seq_key (e_rtype e) = seq_key p') /\
  rtxTypeCheck_ItfNameDefinesSequence 9 test_session test_call "" ["LKM"; "Other"] "" = Ret (false, (test_call, "")).
Proof.
  split.
  - destruct (sequence_resolution test_depth test_session test_call "" ["LKM"] "" 9) as (b & p' & q' & Hr & H);
      [reflexivity|exact test_ranked|intros r x _ _ _; apply test_loads|vm_compute; lia|].
    exists p', q'. destruct b; [|vm_compute in Hr; discriminate Hr]. split; [exact Hr|]. apply H.
  - destruct (sequence_resolution test_depth test_session test_call "" ["LKM"; "Other"] "" 9) as (b & p' & q' & Hr & H);
      [reflexivity|exact test_ranked|intros r x _ _ _; apply test_loads|vm_compute; lia|].
    destruct b; [vm_compute in Hr; discriminate Hr|]. destruct H as (-> & -> & _). exact Hr.
Defined.

Example front_device_sound_witness :
  exists body', rtxFront_TypeCheckNode 5 test_session (register_names [lcr]) [] test_device [] = Ret (true, FDevice ["LKM"] body') /\
    respects test_session body' "LKM".
Proof.
  destruct (rtxFront_TypeCheckNode 5 test_session (register_names [lcr]) [] test_device []) as [[b n]| |] eqn:E;
    [|vm_compute in E; discriminate E..].
  destruct b; [|vm_compute in E; discriminate E].
  destruct (front_device_sound test_session (register_names [lcr]) 5 [] ["LKM"] [FRegister lcr; FSequence test_sequence] [] n E)
    as (body' & -> & _ & H).
  exists body'. split; [reflexivity|]. apply H. left.
Defined.
