(* ===== verification/MiddleCheck.v ===== *)
(** * The type check of the middle end

    Model of src/rathaxes/compiler/passes/mid/rtxTypeCheck.inc.cws, of
    typing/routines/rtxTypingRoutines_Mid.inc.cws, of the search of pointcuts of
    typing/routines/rtxTypingRoutines_Common.inc.cws, and of the tables of
    node/rtxNodeMiddle.inc.cws.  An interface declares types, pointcuts, sequences
    and variables, and inherits from interfaces of the same file or of the cache;
    the check enters the declarations into tables of the interface, in order, and
    completes the names they use.  The interfaces of a file refer to each other,
    and the trees of the others are loaded into the ones that inherit from them
    when a search first needs them: the nodes are in a store, and inheritance
    holds places of it. *)
From Stdlib Require Import String.
From S2P Require Import Prelude CodeWorker ConfigMatcher LinkSession RegisterMask FrontCheck.

Local Open Scope string_scope.
Local Open Scope list_scope.
Local Open Scope nat_scope.
Local Open Scope cw_scope.
Local Infix "==" := String.eqb (at level 70).

(** ** Interfaces *)

(** The tables of an interface: of types and variables the checks read the names
    only; pointcuts and sequences are by name and by full name. *)
Record tables := Tables {
  k_types : list string; k_variables : list string;
  k_pointcuts : arr (arr seq_decl); k_sequences : arr (arr seq_decl)
}.

Definition no_tables : tables := Tables [] [] [] [].

(** A node; a parent is a place, or an entry that is still empty. *)
Record inode := INode { n_name : string; n_tables : tables; n_inheritance : arr (option nat) }.

Abbreviation heap := (list inode).

(** What an attribute that is missing reads as. *)
Definition empty_node : inode := INode "" no_tables [].

Definition node (h : heap) (l : nat) : inode := default empty_node (h !! l).

(** The tree of an interface in a file, with those of its parents that were saved
    with it. *)
#[warnings="-register-all"]
Inductive saved := Saved (name : string) (t : tables) (inheritance : list (string * option saved)).

(** A tree that is read becomes nodes of the store. *)
Fixpoint alloc (t : saved) (h : heap) : nat * heap :=
  match t with
  | Saved name tb inh =>
      let fix parents inh h :=
        match inh with
        | [] => ([], h)
        | (k, o) :: inh =>
            let '(p, h) := match o with
                           | Some t => let '(l, h) := alloc t h in (Some l, h)
                           | None => (None, h)
                           end in
            let '(ps, h) := parents inh h in ((k, p) :: ps, h)
        end in
      let '(ps, h) := parents inh h in (length h, h ++ [INode name tb ps])
  end.

Definition set_parent (l : nat) (k : string) (j : nat) (h : heap) : heap :=
  alter (fun n => INode (n_name n) (n_tables n) (aupd k (fun _ => Some j) (n_inheritance n))) l h.

Definition set_tables (l : nat) (f : tables -> tables) (h : heap) : heap :=
  alter (fun n => INode (n_name n) (f (n_tables n)) (n_inheritance n)) l h.

Definition in_names (x : string) (l : list string) : bool := existsb (String.eqb x) l.

Definition has_type (x : string) (n : inode) : bool := in_names x (k_types (n_tables n)).

(** The entries of [l] up to one for which [f] answers [true]. *)
Fixpoint cw_first {A S} (f : A -> S -> cw_outcome (bool * S)) (l : list A) (st : S) : cw_outcome (bool * S) :=
  match l with
  | [] => Ret (false, st)
  | x :: l => r <- f x st ;; if r.1 : bool then Ret (true, r.2) else cw_first f l r.2
  end.

Section middle.
Context {D : Disk saved}.

(** ** Names of types *)

(** The parent under [key]: an empty entry is filled from the cache, unless the
    cache has no such interface. *)
Definition load_parent (s : session) (l : nat) (key : string) (h : heap) : cw_outcome (option nat * heap) :=
  match aget key (n_inheritance (node h l)) with
  | Some (Some j) => Ret (Some j, h)
  | _ =>
      t <- load_itf key s ;;
      Ret (match t with
           | None => (None, h)
           | Some t => let '(j, h) := alloc t h in (Some j, set_parent l key j h)
           end)
  end.

Definition builtin_types : list string :=
  ["register"; "register_field"; "register_value"; "string"; "number"; "numser"].

(** The possibilities are names of interfaces.  In the search for a name with a
    scope an empty entry is an interface without a name, types or parents. *)
Fixpoint rtxInterfaceHasType_recursive (fuel : nat) (s : session) (i : ident) (l : nat)
    (h : heap) (possibilities : list string) : cw_outcome (bool * (heap * list string)) :=
  match fuel with
  | O => Short
  | S fuel =>
      let interfaceNode := node h l in
      if unscoped i then
        st <- cw_foreach (fun key st =>
                p <- load_parent s l key st.1 ;;
                match p with
                | (None, h) => Ret (h, st.2)
                | (Some j, h) => r <- rtxInterfaceHasType_recursive fuel s i j h st.2 ;; Ret r.2
                end)
              (akeys (n_inheritance interfaceNode))
              (h, if has_type (id_name i) interfaceNode then possibilities ++ [n_name interfaceNode] else possibilities) ;;
        Ret (false, st)
      else if negb (id_global i) then
        if negb (id_scope i == n_name interfaceNode) then
          match aget (id_scope i) (n_inheritance interfaceNode) with
          | None =>
              cw_first (fun p st =>
                match p with
                | None => Ret (false, st)
                | Some j => rtxInterfaceHasType_recursive fuel s i j st.1 st.2
                end) (map snd (n_inheritance interfaceNode)) (h, possibilities)
          | Some p => Ret (match p with Some j => has_type (id_name i) (node h j) | None => false end, (h, possibilities))
          end
        else Ret (has_type (id_name i) interfaceNode, (h, possibilities))
      else Ret (in_names (id_name i) builtin_types, (h, possibilities))
  end.

(** The entries, each once. *)
Definition unique_names (l : list string) : list string :=
  foldl (fun u e => if in_names e u then u else u ++ [e]) [] l.

(** The answer and the name, with the scope that was found. *)
Definition rtxInterfaceHasType (fuel : nat) (s : session) (i : ident) (l : nat) (h : heap)
    : cw_outcome (bool * (ident * heap)) :=
  r <- rtxInterfaceHasType_recursive fuel s i l h [] ;;
  let '(found, (h, possibilities)) := r in
  Ret (if found : bool then (true, (i, h))
       else match unique_names possibilities with
            | [x] => (true, (Ident x (id_name i) (id_global i), h))
            | _ => (false, (i, h))
            end).

(** ** Pointcuts *)

(** The pointcut is changed in place; the qualifiers, a table of their own, are
    those of the possibilities.  [typed]: a parameter is a type, the node of
    which has no scope of its own; in an interface all are names. *)
Definition rtxTypeCheck_ItfDefinesPointcut (typed : bool) (pointcut : seq_proto) (itfTree : inode)
    (possibilities : arr seq_decl) : cw_outcome (bool * (seq_proto * arr seq_decl)) :=
  match aget (id_name (q_name pointcut)) (k_pointcuts (n_tables itfTree)) with
  | None => Ret (false, (pointcut, possibilities))
  | Some refs =>
      if negb typed && proto_is_qualified pointcut then
        let pointcut := set_scope (n_name itfTree) pointcut in
        qualifiedName <- full_name pointcut ;;
        Ret (match aget qualifiedName refs with
             | Some d => (true, (pointcut, aupd qualifiedName (fun _ => d) possibilities))
             | None => (false, (pointcut, possibilities))
             end)
      else
        Ret (false, (pointcut,
          foldl (fun ps kd => if params_match pointcut kd.2 then aupd kd.1 (fun _ => kd.2) ps else ps)
            possibilities refs))
  end.

(** A name without a scope is not qualified: its search in one interface never
    answers [true]. *)
Fixpoint rtxTypeCheck_ItfCheckPointcut_recursive (fuel : nat) (h : heap) (l : nat)
    (pointcut : seq_proto) (possibilities : arr seq_decl) : cw_outcome (bool * (seq_proto * arr seq_decl)) :=
  match fuel with
  | O => Short
  | S fuel =>
      let interfaceNode := node h l in
      let parent p st :=
        match p with
        | None => Ret (false, st)
        | Some j => rtxTypeCheck_ItfCheckPointcut_recursive fuel h j st.1 st.2
        end in
      if unscoped (q_name pointcut) then
        r <- rtxTypeCheck_ItfDefinesPointcut false pointcut interfaceNode possibilities ;;
        st <- cw_foreach (fun p st => r <- parent p st ;; Ret r.2) (map snd (n_inheritance interfaceNode)) r.2 ;;
        Ret (false, st)
      else if negb (id_global (q_name pointcut)) then
        if negb (id_scope (q_name pointcut) == n_name interfaceNode)
           && match n_inheritance interfaceNode with [] => false | _ => true end then
          match aget (id_scope (q_name pointcut)) (n_inheritance interfaceNode) with
          | None => cw_first parent (map snd (n_inheritance interfaceNode)) (pointcut, possibilities)
          | Some p =>
              rtxTypeCheck_ItfDefinesPointcut false pointcut
                (match p with Some j => node h j | None => empty_node end) possibilities
          end
        else rtxTypeCheck_ItfDefinesPointcut false pointcut interfaceNode possibilities
      else Ret (in_names (id_name (q_name pointcut)) ["IMPLEMENTATION"; "CALL"], (pointcut, possibilities))
  end.

Definition rtxTypeCheck_ItfCheckPointcut (fuel : nat) (h : heap) (l : nat) (pointcut : seq_proto)
    : cw_outcome (bool * seq_proto) :=
  r <- rtxTypeCheck_ItfCheckPointcut_recursive fuel h l pointcut [] ;;
  let '(found, (pointcut, possibilities)) := r in
  Ret (if found : bool then (true, pointcut)
       else match possibilities with
            | [(_, d)] => (true, e_rtype d)
            | _ => (false, pointcut)
            end).

(** ** Tables *)

(** [rtxItfAddTypeToList] of a sequence or a pointcut, and of any other
    declaration; no result where it is there already. *)
Definition rtxItfAddTypeToList_proto (d : seq_decl) (nameList : arr (arr seq_decl))
    : cw_outcome (option (arr (arr seq_decl))) :=
  fullName <- full_name (e_rtype d) ;;
  let name := id_name (q_name (e_rtype d)) in
  Ret (if findElement fullName (default [] (aget name nameList)) then None
       else Some (aupd name (fun o => aupd fullName (fun _ => d) (default [] o)) nameList)).

Definition rtxItfAddTypeToList (name : string) (nameList : list string) : option (list string) :=
  if in_names name nameList then None else Some (nameList ++ [name]).

(** The tables of a type: by name and full name; [y_decl] tells whether it has
    its [decl]. *)
Record type_tables := TypeTables {
  y_pointcuts : arr (list string); y_chunks : arr (list string); y_methods : arr (list string);
  y_attributes : list string; y_decl : bool
}.

Definition no_type_tables : type_tables := TypeTables [] [] [] [] false.

(** An element of the body of a type.  Attributes have a type and a name. *)
Inductive type_item :=
| TPointcut (p : seq_proto)
| TChunk (p : seq_proto)
| TMethod (p : seq_proto)
| TDecl (p : seq_proto)
| TAttribute (rtype : ident) (name : string)
| TUnknown (type : string).

Definition add_full (p : seq_proto) (a : arr (list string)) : cw_outcome (option (arr (list string))) :=
  qualified_name <- full_name p ;;
  let decl_key := id_name (q_name p) in
  Ret (if in_names qualified_name (default [] (aget decl_key a)) then None
       else Some (aupd decl_key (fun o => default [] o ++ [qualified_name]) a)).

Definition rtxItfAddDeclToType (theDecl : type_item) (y : type_tables) : cw_outcome (option type_tables) :=
  match theDecl with
  | TPointcut p =>
      a <- add_full p (y_pointcuts y) ;;
      Ret (a ← a; Some (TypeTables a (y_chunks y) (y_methods y) (y_attributes y) (y_decl y)))
  | TChunk p =>
      a <- add_full p (y_chunks y) ;;
      Ret (a ← a; Some (TypeTables (y_pointcuts y) a (y_methods y) (y_attributes y) (y_decl y)))
  | TMethod p =>
      a <- add_full p (y_methods y) ;;
      Ret (a ← a; Some (TypeTables (y_pointcuts y) (y_chunks y) a (y_attributes y) (y_decl y)))
  | TDecl _ =>
      Ret (if y_decl y then None
           else Some (TypeTables (y_pointcuts y) (y_chunks y) (y_methods y) (y_attributes y) true))
  | TAttribute _ name =>
      Ret (a ← rtxItfAddTypeToList name (y_attributes y);
           Some (TypeTables (y_pointcuts y) (y_chunks y) (y_methods y) a (y_decl y)))
  | TUnknown _ => Ret (Some y)
  end.

(** ** Declarations *)

(** An element of the body of a sequence. *)
Inductive seq_item :=
| SChunk (p : seq_proto)
| SPointcut (qualifier : string) (p : seq_proto)
| SForbidden.

(** A declaration of an interface, by its specifier; a builtin type may have no
    body. *)
Inductive mdecl :=
| MSequence (qualifier : string) (p : seq_proto) (body : list seq_item)
| MVariable (rtype : ident) (name : string)
| MType (rtype : ident) (body : list type_item)
| MBuiltin (rtype : ident) (body : option (list type_item))
| MPointcut (qualifier : string) (p : seq_proto)
| MChunk (p : seq_proto).

(** A parameter: its type is looked for as that of an rtype node; where it has no
    scope, it is global. *)
Definition check_param (fuel : nat) (s : session) (l : nat) (param : ident) (h : heap)
    : cw_outcome (bool * (ident * heap)) :=
  r <- rtxInterfaceHasType fuel s param l h ;;
  let '(ok, (i, h)) := r in
  Ret (if ok : bool then (true, (Ident (id_scope i) (id_name i) (id_global i || (id_scope i == "")), h))
       else (false, (param, h))).

(** All of them, even after one that is not found. *)
Definition check_params (fuel : nat) (s : session) (l : nat) (params : list ident) (h : heap)
    : cw_outcome (bool * (list ident * heap)) :=
  cw_foreach (fun param st =>
    r <- check_param fuel s l param st.2.2 ;;
    Ret (st.1 && r.1, (st.2.1 ++ [r.2.1], r.2.2))) params (true, ([], h)).

Definition set_scope_id (scope : string) (i : ident) : ident :=
  if id_global i then i else Ident scope (id_name i) false.

Definition set_pointcuts (a : arr (arr seq_decl)) (t : tables) : tables :=
  Tables (k_types t) (k_variables t) a (k_sequences t).

Definition set_sequences (a : arr (arr seq_decl)) (t : tables) : tables :=
  Tables (k_types t) (k_variables t) (k_pointcuts t) a.

Definition set_types (a : list string) (t : tables) : tables :=
  Tables a (k_variables t) (k_pointcuts t) (k_sequences t).

Definition set_variables (a : list string) (t : tables) : tables :=
  Tables (k_types t) a (k_pointcuts t) (k_sequences t).

Definition pointcut_CheckTypesDeclarations (fuel : nat) (s : session) (l : nat) (qualifier : string)
    (p : seq_proto) (h : heap) : cw_outcome (bool * (seq_proto * heap)) :=
  let name := set_scope_id (n_name (node h l)) (q_name p) in
  r <- check_params fuel s l (q_params p) h ;;
  let '(ok, (params, h)) := r in
  let p := SeqProto name params in
  if negb ok then Ret (false, (p, h))
  else if id_global name && (id_scope name == "") then Ret (true, (p, h))
  else
    a <- rtxItfAddTypeToList_proto (SeqDecl p qualifier) (k_pointcuts (n_tables (node h l))) ;;
    Ret (match a with
         | None => (false, (p, h))
         | Some a => (true, (p, set_tables l (set_pointcuts a) h))
         end).

(** One element of the body of a type, up to its entry in the tables of the
    type; those that are not entered leave the switch before. *)
Definition check_type_item (fuel : nat) (s : session) (l : nat) (decl : type_item) (h : heap)
    : cw_outcome (bool * (type_item * heap)) :=
  match decl with
  | TPointcut p =>
      r <- pointcut_CheckTypesDeclarations fuel s l "" p h ;;
      Ret (r.1, (TPointcut r.2.1, r.2.2))
  | TChunk p =>
      r <- rtxTypeCheck_ItfCheckPointcut fuel h l p ;; Ret (r.1, (TChunk r.2, h))
  | TMethod p =>
      r <- check_params fuel s l (q_params p) h ;;
      Ret (r.1, (TMethod (SeqProto (Ident "" (id_name (q_name p)) true) r.2.1), r.2.2))
  | TDecl p =>
      match q_params p with
      | [] => r <- rtxTypeCheck_ItfCheckPointcut fuel h l p ;; Ret (r.1, (TDecl r.2, h))
      | _ => Ret (false, (decl, h))
      end
  | TAttribute rtype name =>
      r <- rtxInterfaceHasType fuel s rtype l h ;; Ret (r.1, (TAttribute r.2.1 name, r.2.2))
  | TUnknown _ => Ret (false, (decl, h))
  end.

(** The state of the loop over a body: no error so far, the elements done, the
    tables, the store. *)
Definition body_step (fuel : nat) (s : session) (l : nat) (decl : type_item)
    (st : bool * (list type_item * (type_tables * heap))) : cw_outcome (bool * (list type_item * (type_tables * heap))) :=
  let '(ok, (items, (y, h))) := st in
  r <- check_type_item fuel s l decl h ;;
  let '(good, (decl, h)) := r in
  if good : bool then
    y' <- rtxItfAddDeclToType decl y ;;
    Ret (match y' with
         | Some y => (ok, (items ++ [decl], (y, h)))
         | None => (false, (items ++ [decl], (y, h)))
         end)
  else Ret (false, (items ++ [decl], (y, h))).

Definition is_decl (x : type_item) : bool := match x with TDecl _ => true | _ => false end.

(** An empty type is only warned of. *)
Definition type_CheckTypesDeclarations (fuel : nat) (s : session) (l : nat) (rtype : ident)
    (body : list type_item) (h : heap) : cw_outcome (bool * (mdecl * heap)) :=
  let rtype := set_scope_id (n_name (node h l)) rtype in
  match rtxItfAddTypeToList (id_name rtype) (k_types (n_tables (node h l))) with
  | None => Ret (false, (MType rtype body, h))
  | Some a =>
      st <- cw_foreach (body_step fuel s l) body (true, ([], (no_type_tables, set_tables l (set_types a) h))) ;;
      let '(ok, (body, (_, h))) := st in
      let n_decls := length (List.filter is_decl body) in
      Ret (ok && (n_decls =? 1), (MType rtype body, h))
  end.

(** A builtin type with a body is then checked as a type. *)
Definition builtintype_CheckTypesDeclarations (fuel : nat) (s : session) (l : nat) (rtype : ident)
    (body : option (list type_item)) (h : heap) : cw_outcome (bool * (mdecl * heap)) :=
  let rtype := set_scope_id (n_name (node h l)) rtype in
  match rtxItfAddTypeToList (id_name rtype) (k_types (n_tables (node h l))) with
  | None => Ret (false, (MBuiltin rtype body, h))
  | Some a =>
      let h := set_tables l (set_types a) h in
      match body with
      | None => Ret (true, (MBuiltin rtype body, h))
      | Some body =>
          r <- type_CheckTypesDeclarations fuel s l rtype body h ;;
          Ret (r.1, (MBuiltin rtype (match r.2.1 with MType _ body => Some body | _ => Some body end), r.2.2))
      end
  end.

Definition variable_CheckTypesDeclarations (fuel : nat) (s : session) (l : nat) (rtype : ident)
    (name : string) (h : heap) : cw_outcome (bool * (mdecl * heap)) :=
  if (id_scope rtype == "") && negb (id_global rtype) then Ret (false, (MVariable rtype name, h))
  else
    r <- rtxInterfaceHasType fuel s rtype l h ;;
    let '(ok, (rtype, h)) := r in
    if negb ok then Ret (false, (MVariable rtype name, h))
    else
      Ret (match rtxItfAddTypeToList name (k_variables (n_tables (node h l))) with
           | None => (false, (MVariable rtype name, h))
           | Some a => (true, (MVariable rtype name, set_tables l (set_variables a) h))
           end).

Definition check_seq_item (fuel : nat) (s : session) (l : nat) (decl : seq_item) (h : heap)
    : cw_outcome (bool * (seq_item * heap)) :=
  match decl with
  | SChunk p => r <- rtxTypeCheck_ItfCheckPointcut fuel h l p ;; Ret (r.1, (SChunk r.2, h))
  | SPointcut q p =>
      r <- pointcut_CheckTypesDeclarations fuel s l q p h ;; Ret (r.1, (SPointcut q r.2.1, r.2.2))
  | SForbidden => Ret (false, (decl, h))
  end.

Definition sequence_CheckTypesDeclarations (fuel : nat) (s : session) (l : nat) (qualifier : string)
    (p : seq_proto) (body : list seq_item) (h : heap) : cw_outcome (bool * (mdecl * heap)) :=
  r <- check_params fuel s l (q_params p) h ;;
  let '(ok, (params, h)) := r in
  st <- cw_foreach (fun decl st =>
          r <- check_seq_item fuel s l decl st.2.2 ;; Ret (st.1 && r.1, (st.2.1 ++ [r.2.1], r.2.2)))
          body (ok, ([], h)) ;;
  let '(ok, (body, h)) := st in
  if negb ok then Ret (false, (MSequence qualifier (SeqProto (q_name p) params) body, h))
  else
    let p := SeqProto (set_scope_id (n_name (node h l)) (q_name p)) params in
    a <- rtxItfAddTypeToList_proto (SeqDecl p qualifier) (k_sequences (n_tables (node h l))) ;;
    Ret (match a with
         | None => (false, (MSequence qualifier p body, h))
         | Some a => (true, (MSequence qualifier p body, set_tables l (set_sequences a) h))
         end).

Definition chunk_CheckTypesDeclarations (fuel : nat) (l : nat) (p : seq_proto) (h : heap)
    : cw_outcome (bool * (mdecl * heap)) :=
  r <- rtxTypeCheck_ItfCheckPointcut fuel h l p ;; Ret (r.1, (MChunk r.2, h)).

(** [rtxItfCheckTypesDeclarations<decl.specifier>]. *)
Definition rtxItfCheckTypesDeclarations (fuel : nat) (s : session) (l : nat) (decl : mdecl) (h : heap)
    : cw_outcome (bool * (mdecl * heap)) :=
  match decl with
  | MSequence q p body => sequence_CheckTypesDeclarations fuel s l q p body h
  | MVariable rtype name => variable_CheckTypesDeclarations fuel s l rtype name h
  | MType rtype body => type_CheckTypesDeclarations fuel s l rtype body h
  | MBuiltin rtype body => builtintype_CheckTypesDeclarations fuel s l rtype body h
  | MPointcut q p =>
      r <- pointcut_CheckTypesDeclarations fuel s l q p h ;; Ret (r.1, (MPointcut q r.2.1, r.2.2))
  | MChunk p => chunk_CheckTypesDeclarations fuel l p h
  end.

Definition itf_CheckTypesDeclarations (fuel : nat) (s : session) (l : nat) (body : list mdecl) (h : heap)
    : cw_outcome (bool * (list mdecl * heap)) :=
  cw_foreach (fun decl st =>
    r <- rtxItfCheckTypesDeclarations fuel s l decl st.2.2 ;;
    Ret (st.1 && r.1, (st.2.1 ++ [r.2.1], r.2.2))) body (true, ([], h)).

(** ** Files *)

(** A node of a block: an interface, at its place; a [with]; or a node of the
    other ends, of which the check accepts every one. *)
#[warnings="-register-all"]
Inductive mid_node :=
| MItf (l : nat) (body : list mdecl)
| MWith (body : list mid_node)
| MRest.

(** The same as they are parsed, interfaces with their parents. *)
Record itf_source := ItfSource { o_name : string; o_parents : list string; o_body : list mdecl }.

#[warnings="-register-all"]
Inductive src_node :=
| OItf (o : itf_source)
| OWith (body : list src_node)
| ORest.

Definition parsed_node (o : itf_source) : inode :=
  INode (o_name o) no_tables (foldl (fun a p => aupd p (fun _ => None) a) [] (o_parents o)).

Fixpoint interfaces_of (n : src_node) : list itf_source :=
  match n with
  | OItf o => [o]
  | OWith body => flat_map interfaces_of body
  | ORest => []
  end.

(** The table [interfaces] of the root: of two interfaces of one name, it has the
    last. *)
Definition parsed_interfaces (os : list itf_source) : arr nat :=
  foldl (fun a il => aupd il.2 (fun _ => il.1) a) [] (imap (fun i o => (i, o_name o)) os).

(** Interfaces are placed in the order of the file. *)
Fixpoint parsed (n : src_node) (k : nat) : mid_node * nat :=
  match n with
  | OItf o => (MItf k (o_body o), S k)
  | OWith body =>
      let fix parsed_body body k :=
        match body with
        | [] => ([], k)
        | n :: body => let '(n, k) := parsed n k in let '(ns, k) := parsed_body body k in (n :: ns, k)
        end in
      let '(ns, k) := parsed_body body k in (MWith ns, k)
  | ORest => (MRest, k)
  end.

(** Each parent becomes a reference to an interface of the file, or is read from
    the cache. *)
Definition rtxItfCheckInheritance_walk_itf (s : session) (interfaces_list : arr nat) (l : nat) (h : heap)
    : cw_outcome (bool * heap) :=
  r <- cw_first (fun parentName h =>
         match aget parentName interfaces_list with
         | Some j => Ret (false, set_parent l parentName j h)
         | None =>
             match rtxLink_findInterface parentName s with
             | None => Ret (true, h)
             | Some parentRef =>
                 t <- rtxLink_LoadItem parentRef ;;
                 let '(j, h) := alloc t h in Ret (false, set_parent l parentName j h)
             end
         end) (akeys (n_inheritance (node h l))) h ;;
  Ret (negb r.1, r.2).

Fixpoint rtxItfCheckInheritance_walk (s : session) (interfaces_list : arr nat) (n : mid_node) (h : heap)
    {struct n} : cw_outcome (bool * heap) :=
  match n with
  | MItf l _ => rtxItfCheckInheritance_walk_itf s interfaces_list l h
  | MWith body =>
      cw_foreach (fun n st =>
        r <- rtxItfCheckInheritance_walk s interfaces_list n st.2 ;; Ret (st.1 && r.1, r.2)) body (true, h)
  | MRest => Ret (true, h)
  end.

(** The declarations of a [with] are in its body, which the check does not
    visit. *)
Definition rtxItfCheckTypesDeclarations_walk (fuel : nat) (s : session) (block : list mid_node) (h : heap)
    : cw_outcome (bool * (list mid_node * heap)) :=
  cw_foreach (fun n st =>
    match n with
    | MItf l body =>
        r <- itf_CheckTypesDeclarations fuel s l body st.2.2 ;;
        Ret (st.1 && r.1, (st.2.1 ++ [MItf l r.2.1], r.2.2))
    | MWith _ | MRest => Ret (st.1, (st.2.1 ++ [n], st.2.2))
    end) block (true, ([], h)).

(** An interface with a parent that is nowhere ends the run, as an error does. *)
Definition rtxMiddle_TypeCheck (fuel : nat) (s : session) (interfaces_list : arr nat) (block : list mid_node)
    (h : heap) : cw_outcome (bool * (list mid_node * heap)) :=
  h <- cw_foreach (fun n h =>
         r <- rtxItfCheckInheritance_walk s interfaces_list n h ;; if r.1 : bool then Ret r.2 else Error) block h ;;
  rtxItfCheckTypesDeclarations_walk fuel s block h.

(** On a file: its nodes as a root block. *)
Definition check_source (fuel : nat) (s : session) (root : list src_node) : cw_outcome (bool * (list mid_node * heap)) :=
  let os := flat_map interfaces_of root in
  match parsed (OWith root) 0 with
  | (MWith block, _) => rtxMiddle_TypeCheck fuel s (parsed_interfaces os) block (map parsed_node os)
  | _ => Error
  end.

End middle.

(** ** The tests of the repository *)

#[local] Instance no_disk : Disk saved := {|
  catPath := String.append; local_backlib_path := ""; backlib_path := ""; tree_at _ := None
|}.

Definition bare (x : string) : ident := Ident "" x false.

Definition scoped (x y : string) : ident := Ident x y false.

Definition proto_of (x : string) (ps : list ident) : seq_proto := SeqProto (bare x) ps.

Definition fresh : session := Session empty_cache empty_cache.

(** The answer of the check of a file. *)
Definition verdict (root : list src_node) : option bool :=
  match check_source 50 fresh root with Ret r => Some r.1 | _ => None end.

Definition with_bomb (base lkm : list mdecl) : list src_node :=
  [OItf (ItfSource "Builtin" [] (MBuiltin (bare "String") None :: base));
   OItf (ItfSource "LKM" ["Builtin"] (MBuiltin (bare "String") None :: lkm))].

Definition insert_type : mdecl := MPointcut "provided" (proto_of "insert_type" []).

Definition bomb (items : list type_item) : list mdecl := [insert_type; MType (bare "Bomb") items].

Definition the_decl : type_item := TDecl (proto_of "insert_type" []).

(** tests/typing/01_A to 01_F, on sequences. *)
Definition lkm (parents : list string) (body : list mdecl) : src_node := OItf (ItfSource "LKM" parents body).

Definition notype (x : string) (ps : list ident) (body : list seq_item) : mdecl :=
  MSequence "required" (SeqProto (scoped "LKM" x) ps) body.

Definition test_01 : list (list src_node) := [
  [lkm [] [notype "a" [] []; notype "a" [scoped "LKM" "Context"] []; notype "a" [bare "Context"] []]];
  [OItf (ItfSource "Builtin" [] [MBuiltin (bare "String") None]);
   OItf (ItfSource "Types" [] [MType (bare "String") [TAttribute (scoped "Builtin" "String") "value"]]);
   lkm ["Builtin"; "Types"] [notype "a" [bare "String"] []]];
  [lkm [] [notype "a" [] [SChunk (SeqProto (scoped "LKM" "pouet") [])]]];
  [OItf (ItfSource "Builtin" [] [MSequence "required" (proto_of "test_sequence" [])
                                   [SPointcut "provided" (proto_of "test_pointcut" [])]]);
   lkm ["Builtin"] [MPointcut "provided" (proto_of "test_pointcut" []);
                    notype "a" [] [SChunk (proto_of "test_pointcut" [])]]];
  with_bomb [] [notype "a" [] []; notype "a" [] []];
  [OItf (ItfSource "Builtin" [] [MBuiltin (bare "String") None]);
   lkm ["Builtin"] [MPointcut "provided" (proto_of "testpointcut" []);
                    notype "a" [] [SChunk (proto_of "testpointcut" [])];
                    notype "a" [bare "String"] [SChunk (proto_of "testpointcut" [])]]]
].

Example verdict_01 :
  map verdict test_01 = [Some false; Some false; Some false; Some false; Some false; Some true].
Proof. vm_compute. reflexivity. Qed.

(** tests/typing/04_A to 04_L, on types. *)
Definition pouet_string (scope : string) : seq_proto := proto_of "pouet" [scoped scope "String"].

Definition test_04 : list (list src_node) := [
  [lkm [] [MType (bare "Bomb") []]];
  [OItf (ItfSource "Builtin" [] [MBuiltin (bare "String") None]);
   lkm ["Builtin"] [MPointcut "provided" (proto_of "insert_type" [bare "String"]);
                    MType (bare "Bomb") [TDecl (proto_of "insert_type" [bare "String"])]]];
  [lkm [] (bomb [the_decl])];
  [lkm [] (bomb [the_decl; TAttribute (scoped "Builtin" "String") "field"])];
  with_bomb [] (bomb [the_decl; TAttribute (bare "String") "field"]);
  with_bomb [] (bomb [the_decl; TMethod (proto_of "pouet" [bare "Context"])]);
  with_bomb [] (bomb [the_decl; TMethod (proto_of "pouet" [bare "String"])]);
  with_bomb [] (bomb [the_decl; TChunk (proto_of "pouet" [bare "String"])]);
  with_bomb [] (MPointcut "provided" (pouet_string "LKM") ::
                bomb [the_decl; TChunk (proto_of "pouet" [bare "Context"])]);
  with_bomb [MPointcut "provided" (proto_of "pouet" [])]
            (MPointcut "provided" (proto_of "pouet" []) :: bomb [the_decl; TChunk (proto_of "pouet" [])]);
  with_bomb [MPointcut "provided" (pouet_string "")]
            (MPointcut "provided" (pouet_string "LKM") ::
             bomb [the_decl; TChunk (proto_of "pouet" [bare "String"])]);
  with_bomb [MPointcut "provided" (pouet_string "")]
            (MPointcut "provided" (pouet_string "LKM") ::
             bomb [the_decl; TChunk (pouet_string "LKM"); TMethod (proto_of "init" [scoped "LKM" "String"]);
                   TAttribute (scoped "Builtin" "String") "paf"])
].

Example verdict_04 :
  map verdict test_04 = [Some false; Some false; Some true; Some false; Some false; Some false; Some false;
                         Some false; Some false; Some false; Some false; Some true].
Proof. vm_compute. reflexivity. Qed.

(** A child before its parent: the tables of the parent are not filled yet. *)
Example child_before_parent :
  map verdict
    (let base := OItf (ItfSource "Builtin" [] [MBuiltin (bare "String") None]) in
     let child := lkm ["Builtin"] [notype "a" [bare "String"] []] in
     [[base; child]; [child; base]]) = [Some true; Some false].
Proof. vm_compute. reflexivity. Qed.
