(* ===== verification/MiddleSound.v ===== *)
(** * What the check of the middle end establishes

    The theorems on MiddleCheck.v.  The names in the declarations that the check
    accepts denote types and pointcuts of the interface or of what it inherits
    from, and the declarations are in its tables ([ok_mdecl]); what a name
    denotes stays as the store grows ([heap_le]).  Searches follow the
    inheritance of the store and of the cache, which [unfolds] describes as a
    tree. *)
From Stdlib Require Import String.
From S2P Require Import Prelude CodeWorker ConfigMatcher LinkSession RegisterMask FrontCheck MiddleCheck.

Local Open Scope string_scope.
Local Open Scope list_scope.
Local Open Scope nat_scope.
Local Open Scope cw_scope.
Local Infix "==" := String.eqb (at level 70).

(** ** Stores *)

(** One interface is a parent of another; inheritance. *)
Definition extends (h : heap) (l j : nat) : Prop := exists k, (k, Some j) ∈ n_inheritance (node h l).

Definition inherits (h : heap) : nat -> nat -> Prop := rtc (extends h).

(** Pointcuts are under their names and full names. *)
Definition tables_ok (t : tables) : Prop :=
  forall name refs k d, aget name (k_pointcuts t) = Some refs -> (k, d) ∈ refs ->
    k = seq_key (e_rtype d) /\ name = id_name (q_name (e_rtype d)).

(** Parents are interfaces with the names they are inherited by. *)
Record heap_ok (h : heap) : Prop := {
  ok_parent l k j : (k, Some j) ∈ n_inheritance (node h l) -> j < length h /\ n_name (node h j) = k;
  ok_name l : l < length h -> n_name (node h l) <> "";
  ok_tables l : tables_ok (n_tables (node h l))
}.

(** The same of a tree on disk that is loaded as the interface [k]. *)
Inductive saved_ok : string -> saved -> Prop :=
| saved_ok_intro name t inh :
    name <> "" -> tables_ok t ->
    (forall k p, (k, Some p) ∈ inh -> saved_ok k p) -> saved_ok name (Saved name t inh).

Record node_le (n n' : inode) : Prop := {
  le_name : n_name n' = n_name n;
  le_types x : has_type x n = true -> has_type x n' = true;
  le_variables x : in_names x (k_variables (n_tables n)) = true -> in_names x (k_variables (n_tables n')) = true;
  le_pointcuts name refs k d :
    aget name (k_pointcuts (n_tables n)) = Some refs -> aget k refs = Some d ->
    exists refs', aget name (k_pointcuts (n_tables n')) = Some refs' /\ aget k refs' = Some d;
  le_sequences name refs k d :
    aget name (k_sequences (n_tables n)) = Some refs -> aget k refs = Some d ->
    exists refs', aget name (k_sequences (n_tables n')) = Some refs' /\ aget k refs' = Some d;
  le_parent k j : (k, Some j) ∈ n_inheritance n -> (k, Some j) ∈ n_inheritance n'
}.

(** A store grows. *)
Definition heap_le (h h' : heap) : Prop :=
  length h <= length h' /\ forall l, l < length h -> node_le (node h l) (node h' l).

#[export] Instance node_le_preorder : PreOrder node_le.
Proof.
  split; [intros n; split; eauto|]. intros n1 n2 n3 [A1 A2 A3 A4 A5 A6] [B1 B2 B3 B4 B5 B6].
  split; [congruence|auto..|auto].
  - intros name refs k d H1 H2. destruct (A4 _ _ _ _ H1 H2) as (r & H3 & H4). by apply (B4 _ r).
  - intros name refs k d H1 H2. destruct (A5 _ _ _ _ H1 H2) as (r & H3 & H4). by apply (B5 _ r).
Qed.

#[export] Instance heap_le_preorder : PreOrder heap_le.
Proof.
  split; [by split|]. intros h1 h2 h3 [A1 A2] [B1 B2]. split; [lia|].
  intros l Hl. etrans; [by apply A2|apply B2; lia].
Qed.

Lemma node_out h l : length h <= l -> node h l = empty_node.
Proof. intros H. unfold node. by rewrite lookup_ge_None_2. Qed.

Lemma extends_in h l j : extends h l j -> l < length h.
Proof.
  intros [k Hk]. destruct (decide (l < length h)) as [|Hl]; [done|].
  rewrite node_out in Hk by lia. by apply not_elem_of_nil in Hk.
Qed.

Lemma inherits_in h l j : heap_ok h -> l < length h -> inherits h l j -> j < length h.
Proof. intros Hh Hl. induction 1 as [|l m j [k Hk] _ IH]; [done|]. apply IH, (ok_parent h Hh l k m Hk). Qed.

Lemma extends_le h h' l j : heap_le h h' -> extends h l j -> extends h' l j.
Proof. intros Hle H. pose proof (extends_in _ _ _ H) as Hl. destruct H as [k Hk]. exists k. by apply Hle. Qed.

Lemma inherits_le h h' l j : heap_le h h' -> inherits h l j -> inherits h' l j.
Proof.
  intros Hle. induction 1 as [|l m j H _ IH]; [apply rtc_refl|].
  apply (rtc_l _ l m); [by apply (extends_le h)|done].
Qed.

Lemma inherits_parent h l k m j : (k, Some m) ∈ n_inheritance (node h l) -> inherits h m j -> inherits h l j.
Proof. intros Hk. apply rtc_l. by exists k. Qed.

(** ** Changes of a store *)

Lemma node_app h h1 l : l < length h -> node (h ++ h1) l = node h l.
Proof. intros H. unfold node. by rewrite lookup_app_l. Qed.

Lemma heap_le_app h h1 : heap_le h (h ++ h1).
Proof. split; [rewrite length_app; lia|]. intros l Hl. by rewrite node_app. Qed.

Lemma node_alter f l h j :
  node (alter f l h) j = if decide (l = j /\ j < length h) then f (node h j) else node h j.
Proof.
  unfold node. destruct (decide _) as [[-> Hj]|Hn].
  - rewrite list_lookup_alter_eq. destruct (lookup_lt_is_Some_2 h j Hj) as [n ->]. done.
  - destruct (decide (l = j)) as [->|Hl]; [|by rewrite list_lookup_alter_ne].
    rewrite list_lookup_alter_eq, lookup_ge_None_2; [done|lia].
Qed.

Lemma heap_le_alter f l h : (l < length h -> node_le (node h l) (f (node h l))) -> heap_le h (alter f l h).
Proof.
  intros Hf. split; [by rewrite length_alter|]. intros j Hj. rewrite node_alter.
  destruct (decide _) as [[-> _]|]; [by apply Hf|done].
Qed.

Lemma aupd_keeps {A} k (v w : A) a k' : aget k a <> Some w -> (k', w) ∈ a -> (k', w) ∈ aupd k (fun _ => v) a.
Proof.
  induction a as [|[k1 y] a IH]; simpl; [by intros _ ?%not_elem_of_nil|].
  destruct (String.eqb_spec k k1) as [->|_]; rewrite !elem_of_cons.
  - intros Hn [[= -> ->]|Hin]; [done|by right].
  - intros Hn [H|Hin]; [by left|right; by apply IH].
Qed.

Lemma heap_ok_alter f l h :
  heap_ok h -> (l < length h -> n_name (f (node h l)) = n_name (node h l)) ->
  (l < length h -> tables_ok (n_tables (f (node h l)))) ->
  (forall k j, l < length h -> (k, Some j) ∈ n_inheritance (f (node h l)) -> j < length h /\ n_name (node h j) = k) ->
  heap_ok (alter f l h).
Proof.
  intros [H1 H2 H3] Hn Ht Hp.
  assert (Hname : forall j, n_name (node (alter f l h) j) = n_name (node h j)).
  { intros j. rewrite node_alter. destruct (decide _) as [[-> Hj]|]; [by apply Hn|done]. }
  split.
  - intros j k m. rewrite length_alter, Hname, node_alter. destruct (decide _) as [[-> Hj]|]; [by apply Hp|apply H1].
  - intros j. rewrite length_alter, Hname. apply H2.
  - intros j. rewrite node_alter. destruct (decide _) as [[-> Hj]|]; [by apply Ht|apply H3].
Qed.

Lemma set_parent_ok l k j h :
  heap_ok h -> j < length h -> n_name (node h j) = k -> heap_ok (set_parent l k j h).
Proof.
  intros Hh Hj Hk. apply heap_ok_alter; [done|done|intros _; apply (ok_tables h Hh)|].
  intros k' j' _ [[= -> ->]|Hin]%elem_of_aupd; [done|]. by apply (ok_parent h Hh l).
Qed.

Lemma set_parent_le l k j h :
  (forall m, aget k (n_inheritance (node h l)) <> Some (Some m)) -> heap_le h (set_parent l k j h).
Proof. intros Hk. apply heap_le_alter. intros _. split; simpl; eauto. intros k' j'. by apply aupd_keeps. Qed.

Lemma saved_nested_ind (P : saved -> Prop) :
  (forall name t inh, Forall (fun kp => match kp.2 with Some p => P p | None => True end) inh -> P (Saved name t inh)) ->
  forall t, P t.
Proof.
  intros H. fix IH 1. intros [name t inh]. apply H.
  induction inh as [|[k [p|]] inh IHi]; [apply Forall_nil_2|apply Forall_cons_2; [apply IH|apply IHi]|].
  apply Forall_cons_2; [exact I|apply IHi].
Qed.

(** What [alloc] gives: a place for the tree, after those there were. *)
Definition allocated (k : string) (h : heap) (r : nat * heap) : Prop :=
  (exists h1, r.2 = h ++ h1) /\ heap_ok r.2 /\ r.1 < length r.2 /\ n_name (node r.2 r.1) = k.

Fixpoint alloc_parents (inh : list (string * option saved)) (h : heap) : arr (option nat) * heap :=
  match inh with
  | [] => ([], h)
  | (k, o) :: inh =>
      let '(p, h) := match o with Some t => let '(l, h) := alloc t h in (Some l, h) | None => (None, h) end in
      let '(ps, h) := alloc_parents inh h in ((k, p) :: ps, h)
  end.

Lemma alloc_eq name t inh h :
  alloc (Saved name t inh) h =
  (let '(ps, h) := alloc_parents inh h in (length h, h ++ [INode name t ps])).
Proof.
  simpl. match goal with |- (let '(_, _) := ?f inh h in _) = _ => assert (H : forall h, f inh h = alloc_parents inh h) end.
  { induction inh as [|[k [p|]] inh IH]; intros h'; simpl; [done| |by rewrite IH].
    destruct (alloc p h') as [l h1]. by rewrite IH. }
  by rewrite H.
Qed.

Lemma heap_ok_snoc h n :
  heap_ok h -> n_name n <> "" -> tables_ok (n_tables n) ->
  (forall k j, (k, Some j) ∈ n_inheritance n -> j < length h /\ n_name (node h j) = k) -> heap_ok (h ++ [n]).
Proof.
  intros [H1 H2 H3] Hn Ht Hp.
  assert (Hnode : forall l, node (h ++ [n]) l = if decide (l = length h) then n else node h l).
  { intros l. destruct (decide _) as [->|Hl].
    - unfold node. by rewrite lookup_app_r, Nat.sub_diag by lia.
    - destruct (decide (l < length h)); [by apply node_app|].
      rewrite !node_out; [done|lia|rewrite length_app; simpl; lia]. }
  assert (Hname : forall l, l < length h -> n_name (node (h ++ [n]) l) = n_name (node h l))
    by (intros; by rewrite node_app).
  split.
  - intros l k j. rewrite (Hnode l), length_app. simpl. intros Hin.
    assert (Hj : j < length h /\ n_name (node h j) = k) by (destruct (decide _); [by apply Hp|by apply (H1 l)]).
    destruct Hj as [Hj <-]. split; [lia|by apply Hname].
  - intros l Hl. rewrite Hnode. rewrite length_app in Hl. simpl in Hl. destruct (decide _); [done|]. apply H2. lia.
  - intros l. rewrite Hnode. by destruct (decide _).
Qed.

Lemma alloc_ok t : forall k h, saved_ok k t -> heap_ok h -> allocated k h (alloc t h).
Proof.
  induction t as [name tb inh IH] using saved_nested_ind. intros k h Hs Hh.
  inversion Hs as [? ? ? Hn Ht Hp]; subst. rewrite alloc_eq.
  assert (H : (exists h1, (alloc_parents inh h).2 = h ++ h1) /\ heap_ok (alloc_parents inh h).2 /\
    forall k j, (k, Some j) ∈ (alloc_parents inh h).1 ->
      j < length (alloc_parents inh h).2 /\ n_name (node (alloc_parents inh h).2 j) = k).
  { clear Hs. revert h Hh. induction inh as [|[k0 o] inh IHi]; intros h Hh; simpl.
    { split_and!; [exists []; by rewrite app_nil_r|done|by intros k' j ?%not_elem_of_nil]. }
    apply Forall_cons in IH as [IHo IH]. simpl in IHo.
    specialize (IHi IH (fun k p H => Hp k p (list_elem_of_further _ _ _ H))).
    destruct o as [p|].
    - specialize (IHo k0 h (Hp k0 p (list_elem_of_here _ _)) Hh) as ((h1 & E1) & O1 & L1 & N1).
      destruct (alloc p h) as [j1 h2]. simpl in *. subst h2. specialize (IHi _ O1) as ((h3 & E3) & O3 & P3).
      destruct (alloc_parents inh (h ++ h1)) as [ps h4]. simpl in *. subst h4. split_and!; [exists (h1 ++ h3); by rewrite app_assoc|done|].
      intros k' j [[= -> ->]|Hin]%elem_of_cons; [|by apply P3].
      rewrite node_app by done. rewrite (length_app (h ++ h1)). split; [lia|done].
    - specialize (IHi h Hh) as (E3 & O3 & P3). destruct (alloc_parents inh h) as [ps h4]. simpl in *.
      split_and!; [done|done|]. intros k' j [Heq|Hin]%elem_of_cons; [discriminate Heq|by apply P3]. }
  destruct (alloc_parents inh h) as [ps h2]. simpl in *. destruct H as ((h1 & ->) & O & P).
  unfold allocated. simpl. split_and!.
  - exists (h1 ++ [INode name tb ps]). by rewrite app_assoc.
  - by apply heap_ok_snoc.
  - rewrite (length_app (h ++ h1)). simpl. lia.
  - unfold node. by rewrite lookup_app_r, Nat.sub_diag by lia.
Qed.

(** ** What names denote *)

(** A builtin type, or a type of an interface by its scope. *)
Definition denotes_type (h : heap) (l : nat) (i : ident) : Prop :=
  (id_global i = true /\ in_names (id_name i) builtin_types = true) \/
  (id_global i = false /\ id_scope i <> "" /\
   exists j, inherits h l j /\ n_name (node h j) = id_scope i /\ has_type (id_name i) (node h j) = true).

(** A builtin pointcut, or one of an interface by its full name. *)
Definition denotes_pointcut (h : heap) (l : nat) (p : seq_proto) : Prop :=
  (id_global (q_name p) = true /\ in_names (id_name (q_name p)) ["IMPLEMENTATION"; "CALL"] = true) \/
  exists j refs d, inherits h l j /\ aget (id_name (q_name p)) (k_pointcuts (n_tables (node h j))) = Some refs /\
    aget (seq_key p) refs = Some d.

Definition params_denote (h : heap) (l : nat) (p : seq_proto) : Prop := Forall (denotes_type h l) (q_params p).

(** In the table of the interface itself; a global pointcut is in none. *)
Definition registered_pointcut (h : heap) (l : nat) (p : seq_proto) : Prop :=
  (id_global (q_name p) = true /\ id_scope (q_name p) = "") \/
  exists refs d, aget (id_name (q_name p)) (k_pointcuts (n_tables (node h l))) = Some refs /\
    aget (seq_key p) refs = Some d.

Definition registered_sequence (h : heap) (l : nat) (p : seq_proto) : Prop :=
  exists refs d, aget (id_name (q_name p)) (k_sequences (n_tables (node h l))) = Some refs /\
    aget (seq_key p) refs = Some d.

Definition ok_type_item (h : heap) (l : nat) (x : type_item) : Prop :=
  match x with
  | TPointcut p => params_denote h l p /\ registered_pointcut h l p
  | TChunk p | TDecl p => denotes_pointcut h l p
  | TMethod p => params_denote h l p
  | TAttribute i _ => denotes_type h l i
  | TUnknown _ => False
  end.

Definition ok_seq_item (h : heap) (l : nat) (x : seq_item) : Prop :=
  match x with
  | SChunk p => denotes_pointcut h l p
  | SPointcut _ p => params_denote h l p /\ registered_pointcut h l p
  | SForbidden => False
  end.

(** A declaration whose names denote and which is in the tables. *)
Definition ok_mdecl (h : heap) (l : nat) (d : mdecl) : Prop :=
  match d with
  | MSequence _ p body => params_denote h l p /\ Forall (ok_seq_item h l) body /\ registered_sequence h l p
  | MVariable i x => denotes_type h l i /\ in_names x (k_variables (n_tables (node h l))) = true
  | MType i body =>
      has_type (id_name i) (node h l) = true /\ Forall (ok_type_item h l) body /\ length (List.filter is_decl body) = 1
  | MBuiltin i None => has_type (id_name i) (node h l) = true
  | MBuiltin _ (Some _) => False
  | MPointcut _ p => params_denote h l p /\ registered_pointcut h l p
  | MChunk p => denotes_pointcut h l p
  end.

(** A store in which [l] is an interface. *)
Definition good (l : nat) (h : heap) : Prop := heap_ok h /\ l < length h.

(** What stays true as the store grows. *)
Definition stays {A} (l : nat) (P : heap -> A -> Prop) : Prop :=
  forall h h' a, good l h -> heap_le h h' -> P h a -> P h' a.

Lemma denotes_type_stays l : stays l (fun h => denotes_type h l).
Proof.
  intros h h' i [Hh Hl] Hle [H|(Hg & Hs & j & Hj & Hn & Ht)]; [by left|right].
  split_and!; [done|done|]. exists j. assert (Hr : j < length h) by by apply (inherits_in h l).
  destruct Hle as [H1 H2]. specialize (H2 j Hr) as Hle'. split_and!.
  - by apply (inherits_le h).
  - rewrite <- Hn. apply Hle'.
  - by apply Hle'.
Qed.

Lemma denotes_pointcut_stays l : stays l (fun h => denotes_pointcut h l).
Proof.
  intros h h' i [Hh Hl] Hle [H|(j & refs & d & Hj & Hr & Hd)]; [by left|right].
  assert (Hin : j < length h) by by apply (inherits_in h l).
  destruct (le_pointcuts _ _ (proj2 Hle j Hin) _ _ _ _ Hr Hd) as (refs' & H1 & H2).
  exists j, refs', d. split_and!; [by apply (inherits_le h)|done|done].
Qed.

Lemma params_denote_stays l : stays l (fun h => params_denote h l).
Proof. intros h h' p Hg Hle H. apply (Forall_impl _ _ _ H). intros i. by apply denotes_type_stays. Qed.

Lemma registered_pointcut_stays l : stays l (fun h => registered_pointcut h l).
Proof.
  intros h h' p [Hh Hl] Hle [H|(refs & d & Hr & Hd)]; [by left|right].
  destruct (le_pointcuts _ _ (proj2 Hle l Hl) _ _ _ _ Hr Hd) as (refs' & H1 & H2). by exists refs', d.
Qed.

Lemma registered_sequence_stays l : stays l (fun h => registered_sequence h l).
Proof.
  intros h h' p [Hh Hl] Hle (refs & d & Hr & Hd).
  destruct (le_sequences _ _ (proj2 Hle l Hl) _ _ _ _ Hr Hd) as (refs' & H1 & H2). by exists refs', d.
Qed.

Lemma ok_type_item_stays l : stays l (fun h => ok_type_item h l).
Proof.
  intros h h' x Hg Hle. destruct x; simpl; try done.
  all: try (by eapply denotes_pointcut_stays); try (by eapply params_denote_stays); try (by eapply denotes_type_stays).
  intros [H1 H2]. split; [by eapply params_denote_stays|by eapply registered_pointcut_stays].
Qed.

Lemma ok_seq_item_stays l : stays l (fun h => ok_seq_item h l).
Proof.
  intros h h' x Hg Hle. destruct x; simpl; [by eapply denotes_pointcut_stays| |done].
  intros [H1 H2]. split; [by eapply params_denote_stays|by eapply registered_pointcut_stays].
Qed.

Lemma Forall_stays {A} l (P : heap -> A -> Prop) : stays l P -> stays l (fun h => Forall (P h)).
Proof. intros H h h' xs Hg Hle Hx. apply (Forall_impl _ _ _ Hx). intros x. by apply H. Qed.

Lemma ok_mdecl_stays l : stays l (fun h => ok_mdecl h l).
Proof.
  intros h h' d Hg Hle. pose proof (proj2 Hle l (proj2 Hg)) as Hn. destruct d as [q p body|i x|i body|i [body|]|q p|p]; simpl.
  - intros (H1 & H2 & H3). split_and!; [by eapply params_denote_stays| |by eapply registered_sequence_stays].
    by eapply (Forall_stays l _ (ok_seq_item_stays l)).
  - intros [H1 H2]. split; [by eapply denotes_type_stays|by apply Hn].
  - intros (H1 & H2 & H3). split_and!; [by apply Hn| |done]. by eapply (Forall_stays l _ (ok_type_item_stays l)).
  - done.
  - apply Hn.
  - intros [H1 H2]. split; [by eapply params_denote_stays|by eapply registered_pointcut_stays].
  - by eapply denotes_pointcut_stays.
Qed.

(** ** Searches find what is there *)

(** What the cache has. *)
Definition cache_ok {D : Disk saved} (s : session) : Prop :=
  forall k t, load_itf k s = Ret (Some t) -> saved_ok k t.

(** A step from a store to another that grew. *)
Definition grows (h h' : heap) : Prop := heap_le h h' /\ heap_ok h'.

Lemma store_grows_trans h1 h2 h3 : grows h1 h2 -> grows h2 h3 -> grows h1 h3.
Proof. intros [H1 _] [H2 H3]. split; [by etrans|done]. Qed.

Lemma good_grows l h h' : good l h -> grows h h' -> good l h'.
Proof. intros [_ Hl] [[Hle _] Hh]. split; [done|lia]. Qed.

Lemma unique_names_in l x : x ∈ unique_names l -> x ∈ l.
Proof.
  assert (H : forall u, x ∈ foldl (fun u e => if in_names e u then u else u ++ [e]) u l -> x ∈ u ++ l); [|apply (H [])].
  induction l as [|e l IH]; intros u; simpl; [by rewrite app_nil_r|].
  destruct (in_names e u).
  - intros H%IH. rewrite elem_of_app, elem_of_cons in *. tauto.
  - intros H%IH. by rewrite <- app_assoc in H.
Qed.

Lemma cw_first_true {A S} (f : A -> S -> cw_outcome (bool * S)) (I : S -> Prop) l st b st' :
  I st -> (forall x st r, x ∈ l -> I st -> f x st = Ret r -> I r.2) ->
  cw_first f l st = Ret (b, st') ->
  I st' /\ (b = true -> exists x st0, x ∈ l /\ I st0 /\ f x st0 = Ret (true, st')).
Proof.
  intros Hst Hf. revert st Hst. induction l as [|x l IH]; intros st Hst; simpl; [by intros [= <- <-]|].
  intros ([b1 st1] & Hx & H)%cw_bind_Ret. simpl in H. destruct b1.
  - injection H as <- <-. split; [apply (Hf x st (true, st1) (list_elem_of_here _ _) Hst Hx)|].
    intros _. exists x, st. split_and!; [by left|done|done].
  - apply IH in H as [H1 H2].
    + split; [done|]. intros Hb. destruct (H2 Hb) as (y & st0 & Hy & H0). exists y, st0. split; [by right|done].
    + intros y st2 r Hy. apply Hf. by right.
    + apply (Hf x st (false, st1) (list_elem_of_here _ _) Hst Hx).
Qed.

Section sound.
Context {D : Disk saved}.
Variables (s : session) (Hs : cache_ok s).

Lemma load_parent_sound l k h p h' :
  good l h -> load_parent s l k h = Ret (p, h') ->
  grows h h' /\ forall j, p = Some j -> (k, Some j) ∈ n_inheritance (node h' l).
Proof using Hs.
  intros [Hh Hl]. unfold load_parent.
  destruct (aget k (n_inheritance (node h l))) as [[j|]|] eqn:E.
  { intros [= <- <-]. split; [done|]. intros j' [= <-]. by apply aget_In. }
  all: intros (o & Ho & H)%cw_bind_Ret; destruct o as [t|]; [|injection H as <- <-; done].
  all: pose proof (alloc_ok t k h (Hs k t Ho) Hh) as ((h1 & E1) & O1 & L1 & N1).
  all: destruct (alloc t h) as [j h2]; simpl in *; injection H as <- <-; subst h2.
  all: assert (Hn : node (h ++ h1) l = node h l) by by apply node_app.
  all: split; [split; [transitivity (h ++ h1); [apply heap_le_app|apply set_parent_le; rewrite Hn, E; congruence]
                      |by apply set_parent_ok]|].
  all: intros j' [= <-]; unfold set_parent; rewrite node_alter, decide_True
         by (split; [done|rewrite length_app; lia]); simpl.
  all: apply aget_In; by rewrite aget_aupd_eq.
Qed.

(** A type of an interface that [l] inherits from. *)
Definition offers (h : heap) (l : nat) (x : string) (i : ident) : Prop :=
  exists j, inherits h l j /\ n_name (node h j) = x /\ has_type (id_name i) (node h j) = true.

Lemma offers_grows l h h' x i : good l h -> heap_le h h' -> offers h l x i -> offers h' l x i.
Proof.
  intros [Hh Hl] Hle (j & Hj & Hn & Ht). assert (Hr : j < length h) by by apply (inherits_in h l).
  destruct (proj2 Hle j Hr) as [N T _ _ _ _]. exists j. split_and!; [by apply (inherits_le h)|congruence|by apply T].
Qed.

Lemma offers_parent h l k m x i : (k, Some m) ∈ n_inheritance (node h l) -> offers h m x i -> offers h l x i.
Proof. intros Hk (j & Hj & H). exists j. split; [by apply (inherits_parent h l k m)|done]. Qed.

(** What the search answers: found is denoted, and the possibilities are
    interfaces that have the type. *)
Definition found_type (i : ident) (l : nat) (h : heap) (poss : list string) (r : bool * (heap * list string)) : Prop :=
  grows h r.2.1 /\ (r.1 = true -> denotes_type r.2.1 l i) /\
  forall x, x ∈ r.2.2 -> x ∈ poss \/ (unscoped i = true /\ offers r.2.1 l x i).

Lemma denotes_parent h l k m i : (k, Some m) ∈ n_inheritance (node h l) -> denotes_type h m i -> denotes_type h l i.
Proof.
  intros Hk [H|(Hg & Hn & Ho)]; [by left|right]. split_and!; [done|done|]. by apply (offers_parent h l k m).
Qed.

Lemma parent_good h l k m : good l h -> (k, Some m) ∈ n_inheritance (node h l) -> good m h.
Proof. intros [Hh Hl] Hk. split; [done|]. by apply (ok_parent h Hh l k). Qed.

Lemma store_grows_refl h : heap_ok h -> grows h h.
Proof. by split. Qed.

(** The search for a name with a scope changes nothing. *)
Lemma HasType_scoped fuel i l h poss r :
  good l h -> unscoped i = false -> rtxInterfaceHasType_recursive fuel s i l h poss = Ret r ->
  r.2 = (h, poss) /\ (r.1 = true -> denotes_type h l i).
Proof using Type.
  intros Hg Eu. revert l poss r Hg. induction fuel as [|fuel IH]; intros l poss r Hg; [done|]. simpl. rewrite Eu.
  destruct (id_global i) eqn:Eg; simpl.
  { intros [= <-]. split; [done|]. intros Hb. by left. }
  assert (Hsc : id_scope i <> "").
  { unfold unscoped in Eu. rewrite Eg in Eu. simpl in Eu. by destruct (String.eqb_spec (id_scope i) ""). }
  destruct (String.eqb_spec (id_scope i) (n_name (node h l))) as [En|En]; simpl.
  { intros [= <-]. split; [done|]. intros Hb. right. split_and!; [done|done|].
    exists l. split_and!; [apply rtc_refl|done|done]. }
  destruct (aget (id_scope i) (n_inheritance (node h l))) as [[j|]|] eqn:E.
  - intros [= <-]. split; [done|]. intros Hb. right. split_and!; [done|done|].
    apply aget_In in E. exists j. split_and!; [apply rtc_once; by exists (id_scope i)| |done].
    by apply (ok_parent h (proj1 Hg) l).
  - intros [= <-]. done.
  - destruct r as [b st']. intros H.
    assert (Hstep : forall p r, p ∈ map snd (n_inheritance (node h l)) ->
      match p with None => Ret (false, (h, poss)) | Some j => rtxInterfaceHasType_recursive fuel s i j h poss end = Ret r ->
      r.2 = (h, poss) /\ (r.1 = true -> denotes_type h l i)).
    { intros p r Hp Hr. apply list_elem_of_In, in_map_iff in Hp as ([k p'] & Hpk & Hk%list_elem_of_In). simpl in Hpk. subst p'.
      destruct p as [j|]; [|by injection Hr as <-].
      destruct (IH j poss r (parent_good h l k j Hg Hk) Hr) as [H1 H2]. split; [done|].
      intros Hb. by apply (denotes_parent h l k j), H2. }
    apply (cw_first_true _ (fun st => st = (h, poss))) in H as [-> H]; [|done|].
    + split; [done|]. intros Hb. destruct (H Hb) as (p & st0 & Hp & -> & Hr). by apply (Hstep p (true, (h, poss))).
    + intros p st r Hp -> Hr. by apply (Hstep p r).
Qed.

Lemma HasType_sound fuel i l h poss r :
  good l h -> rtxInterfaceHasType_recursive fuel s i l h poss = Ret r -> found_type i l h poss r.
Proof using Hs.
  destruct (unscoped i) eqn:Eu; intros Hg; [|intros [H1 H2]%HasType_scoped; [|done..]].
  2: { destruct r as [b st]. simpl in *. subst st. split_and!; [apply store_grows_refl, Hg|done|by left]. }
  revert l h poss r Hg. induction fuel as [|fuel IH]; intros l h poss r Hg; [done|]. simpl. rewrite Eu.
  intros ([h2 poss2] & H & [= <-])%cw_bind_Ret.
  apply (cw_foreach_inv _ (fun _ st => grows h st.1 /\ forall x, x ∈ st.2 -> x ∈ poss \/ offers st.1 l x i)) in H
    as [Hgr Hp].
  - split_and!; [done|done|]. intros x Hx. simpl in *. destruct (Hp x Hx); [by left|by right].
  - split; [apply store_grows_refl, Hg|]. intros x. simpl. destruct (has_type _ _) eqn:Et; [|by left].
    intros [Hx|Hx]%elem_of_app; [by left|right]. apply list_elem_of_singleton in Hx as ->.
    exists l. split_and!; [apply rtc_refl|done|done].
  - intros pre k rest [h3 p3] st' _ [Hgr Hp] (p & Hl & Hr)%cw_bind_Ret. simpl in *. destruct p as [o h4].
    assert (Hg3 : good l h3) by by apply (good_grows l h).
    destruct (load_parent_sound l k h3 o h4 Hg3 Hl) as [Hg4 Hin].
    assert (Hp4 : forall x, x ∈ p3 -> x ∈ poss \/ offers h4 l x i).
    { intros x [Hx|Hx]%Hp; [by left|right]. by apply (offers_grows l h3); [|apply Hg4|]. }
    destruct o as [j|]; [|injection Hr as <-; split; [by apply (store_grows_trans h h3)|done]].
    apply cw_bind_Ret in Hr as (r & Hr & [= <-]).
    assert (Hg4l : good l h4) by by apply (good_grows l h3).
    destruct (IH j h4 p3 r (parent_good h4 l k j Hg4l (Hin j eq_refl)) Hr) as (Hgr5 & _ & Hp5).
    split; [apply (store_grows_trans h h3); [done|by apply (store_grows_trans h3 h4)]|].
    intros x [Hx|[_ Ho]]%Hp5.
    + destruct (Hp4 x Hx) as [|Ho]; [by left|right]. by apply (offers_grows l h4); [|apply Hgr5|].
    + right. apply (offers_parent _ l k j); [|done].
      apply (proj2 (proj1 Hgr5) l (proj2 Hg4l)), Hin. done.
Qed.

(** The rules of the checks: the store grows, and what is accepted is what [P]
    says. *)
Definition sound {A} (P : heap -> A -> Prop) (h : heap) (r : bool * (A * heap)) : Prop :=
  grows h r.2.2 /\ (r.1 = true -> P r.2.2 r.2.1).

Lemma rtxInterfaceHasType_sound fuel i l h r :
  good l h -> rtxInterfaceHasType fuel s i l h = Ret r -> sound (fun h i => denotes_type h l i) h r.
Proof using Hs.
  intros Hg ([b [h1 poss]] & Hr & [= <-])%cw_bind_Ret.
  destruct (HasType_sound fuel i l h [] _ Hg Hr) as (Hgr & Hb & Hp). simpl in *.
  destruct b; [by split; [|auto]|].
  destruct (unique_names poss) as [|x [|y u]] eqn:Eu; [by split|split; [done|]|by split].
  intros _. simpl. assert (Hx : x ∈ poss) by (apply unique_names_in; rewrite Eu; by left).
  destruct (Hp x Hx) as [?%not_elem_of_nil|[Hun (j & Hj & Hn & Ht)]]; [done|].
  right. simpl. split_and!; [|rewrite <- Hn|by exists j].
  - unfold unscoped in Hun. by destruct (id_global i).
  - apply (ok_name h1 (proj2 Hgr)), (inherits_in h1 l); [apply Hgr| |done]. by apply (good_grows l h).
Qed.

Lemma check_param_sound fuel l i h r :
  good l h -> check_param fuel s l i h = Ret r -> sound (fun h i => denotes_type h l i) h r.
Proof using Hs.
  intros Hg ([b [i1 h1]] & Hr & H)%cw_bind_Ret. apply rtxInterfaceHasType_sound in Hr as [Hgr Hb]; [|done].
  simpl in *. destruct b; injection H as <-; [|by split]. split; [done|]. intros _. simpl.
  destruct (Hb eq_refl) as [[Hg1 Hn]|(Hg1 & Hn & Hj)]; [left|right]; simpl; rewrite Hg1; [done|].
  destruct (String.eqb_spec (id_scope i1) ""); done.
Qed.

(** The loop that all lists of declarations are checked by. *)
Lemma foreach_sound {A} (f : A -> heap -> cw_outcome (bool * (A * heap))) (P : heap -> A -> Prop) l xs h b0 r :
  stays l P -> (forall x h r, good l h -> f x h = Ret r -> sound P h r) -> good l h ->
  cw_foreach (fun x st => r <- f x st.2.2 ;; Ret (st.1 && r.1, (st.2.1 ++ [r.2.1], r.2.2))) xs (b0, ([], h)) = Ret r ->
  sound (fun h ys => b0 = true /\ Forall (P h) ys) h r.
Proof using Type.
  intros HP Hf Hg H.
  apply (cw_foreach_inv _ (fun _ r => sound (fun h ys => b0 = true /\ Forall (P h) ys) h r)) in H; [done| |].
  - split; [apply store_grows_refl, Hg|]. intros Hb. split; [done|by apply Forall_nil_2].
  - intros pre x rest [b [ys h1]] r' _ [Hgr Hys] ([b1 [y h2]] & Hx & [= <-])%cw_bind_Ret. simpl in *.
    assert (Hg1 : good l h1) by by apply (good_grows l h).
    destruct (Hf x h1 _ Hg1 Hx) as [Hgr2 Hy]. simpl in *. split; [by apply (store_grows_trans h h1)|].
    intros [Hb Hb1]%andb_prop. destruct (Hys Hb) as [Hb0 Hall]. split; [done|].
    apply Forall_app. split; [|apply Forall_singleton, Hy, Hb1].
    by apply (Forall_stays l P HP h1 h2); [|apply Hgr2|].
Qed.

Lemma check_params_sound fuel l ps h r :
  good l h -> check_params fuel s l ps h = Ret r -> sound (fun h ps => Forall (denotes_type h l) ps) h r.
Proof using Hs.
  intros Hg H. apply (foreach_sound _ (fun h => denotes_type h l) l) in H as [H1 H2]; [|apply denotes_type_stays| |done].
  - split; [done|]. intros Hb. by apply H2.
  - intros x h1 r1 Hg1 Hr. by apply check_param_sound in Hr.
Qed.

(** ** Pointcuts *)

(** A possibility is an entry of the table of an interface that [l] inherits
    from, under the name that is looked for. *)
Definition possible (h : heap) (l : nat) (name : string) (kd : string * seq_decl) : Prop :=
  exists j refs, inherits h l j /\ aget name (k_pointcuts (n_tables (node h j))) = Some refs /\ kd ∈ refs.

Definition found_pointcut (h : heap) (l : nat) (p : seq_proto) (poss : arr seq_decl)
    (r : bool * (seq_proto * arr seq_decl)) : Prop :=
  id_name (q_name r.2.1) = id_name (q_name p) /\ (r.1 = true -> denotes_pointcut h l r.2.1) /\
  forall kd, kd ∈ r.2.2 -> kd ∈ poss \/ possible h l (id_name (q_name p)) kd.

Lemma found_pointcut_parent h l k m p poss r :
  (k, Some m) ∈ n_inheritance (node h l) -> found_pointcut h m p poss r -> found_pointcut h l p poss r.
Proof using Type.
  intros Hk (H1 & H2 & H3). split_and!; [done| |].
  - intros [H|(j & refs & d & Hj & H)]%H2; [by left|right]. exists j, refs, d.
    split; [by apply (inherits_parent h l k m)|done].
  - intros kd [H|(j & refs & Hj & H)]%H3; [by left|right]. exists j, refs.
    split; [by apply (inherits_parent h l k m)|done].
Qed.

Lemma found_pointcut_trans h l p p1 poss poss1 r :
  id_name (q_name p1) = id_name (q_name p) ->
  (forall kd, kd ∈ poss1 -> kd ∈ poss \/ possible h l (id_name (q_name p)) kd) ->
  found_pointcut h l p1 poss1 r -> found_pointcut h l p poss r.
Proof using Type.
  intros Hn Hp (H1 & H2 & H3). rewrite Hn in *. split_and!; [done|done|].
  intros kd [H|H]%H3; [by apply Hp|by right].
Qed.

Lemma DefinesPointcut_sound typed h l p poss r :
  rtxTypeCheck_ItfDefinesPointcut typed p (node h l) poss = Ret r -> found_pointcut h l p poss r.
Proof using Type.
  unfold rtxTypeCheck_ItfDefinesPointcut.
  destruct (aget (id_name (q_name p)) (k_pointcuts (n_tables (node h l)))) as [refs|] eqn:E;
    [|intros [= <-]; split_and!; [done|done|by left]].
  destruct (negb typed && proto_is_qualified p).
  - rewrite full_name_Ret. simpl. set (p' := set_scope (n_name (node h l)) p).
    destruct (aget (seq_key p') refs) as [d|] eqn:Ed; intros [= <-]; (split_and!; [done| |]); simpl; [|..|by left].
    + intros _. right. exists l, refs, d. split_and!; [apply rtc_refl|done|done].
    + intros kd [->|Hin]%elem_of_aupd; [right|by left]. exists l, refs. split_and!; [apply rtc_refl|done|by apply aget_In].
    + done.
  - intros [= <-]. split_and!; [done|done|]. simpl.
    assert (H : forall rs, (forall kd, kd ∈ rs -> kd ∈ refs) -> forall poss0,
      (forall kd, kd ∈ poss0 -> kd ∈ poss \/ kd ∈ refs) -> forall kd,
      kd ∈ foldl (fun ps kd => if params_match p kd.2 then aupd kd.1 (fun _ => kd.2) ps else ps) poss0 rs ->
      kd ∈ poss \/ kd ∈ refs).
    { induction rs as [|[k d] rs IH]; intros Hrs poss0 H0 kd; simpl; [apply H0|].
      apply IH; [intros kd' Hin; apply Hrs; by right|]. simpl. destruct (params_match p d); [|done].
      intros kd' [->|Hin]%elem_of_aupd; [right; apply Hrs; by left|by apply H0]. }
    intros kd Hin. destruct (H refs (fun _ x => x) poss (fun kd x => or_introl x) kd Hin) as [|Hr]; [by left|right].
    exists l, refs. split_and!; [apply rtc_refl|done|done].
Qed.

Lemma empty_pointcut p poss r h l :
  rtxTypeCheck_ItfDefinesPointcut false p empty_node poss = Ret r -> found_pointcut h l p poss r.
Proof using Type. intros [= <-]. split_and!; [done|done|by left]. Qed.

Lemma CheckPointcut_rec_sound fuel h l p poss r :
  rtxTypeCheck_ItfCheckPointcut_recursive fuel h l p poss = Ret r -> found_pointcut h l p poss r.
Proof using Type.
  revert l p poss r. induction fuel as [|fuel IH]; intros l p poss r; [done|]. simpl.
  set (parent := fun (o : option nat) (st : seq_proto * arr seq_decl) => match o with
    | Some j => rtxTypeCheck_ItfCheckPointcut_recursive fuel h j st.1 st.2 | None => Ret (false, st) end).
  assert (Hpar : forall o st r, o ∈ map snd (n_inheritance (node h l)) -> parent o st = Ret r ->
    found_pointcut h l st.1 st.2 r).
  { intros o st r' Ho Hr. apply list_elem_of_In, in_map_iff in Ho as ([k o'] & Hko & Hk%list_elem_of_In).
    simpl in Hko. subst o'. destruct o as [j|]; [|injection Hr as <-; split_and!; [done|done|by left]].
    apply (found_pointcut_parent h l k j); [done|]. by apply IH. }
  (* the state of a loop over the parents *)
  pose (I := fun st : seq_proto * arr seq_decl => id_name (q_name st.1) = id_name (q_name p) /\
    forall kd, kd ∈ st.2 -> kd ∈ poss \/ possible h l (id_name (q_name p)) kd).
  assert (HI : forall o st r, o ∈ map snd (n_inheritance (node h l)) -> I st -> parent o st = Ret r -> I r.2).
  { intros o st r' Ho [H1 H2] Hr. destruct (found_pointcut_trans h l p st.1 poss st.2 r' H1 H2 (Hpar o st r' Ho Hr))
      as (H3 & _ & H4). by split. }
  destruct (unscoped (q_name p)).
  - intros ([b st] & Hd & (st' & Hf & [= <-])%cw_bind_Ret)%cw_bind_Ret.
    destruct (DefinesPointcut_sound false h l p poss _ Hd) as (H1 & _ & H3).
    assert (HIst : I st) by by split.
    apply (cw_foreach_inv _ (fun _ st => I st)) in Hf as [H4 H5]; [by split_and!|done|].
    intros pre o rest st1 st2 Hl Hst1 (r & Hr & [= <-])%cw_bind_Ret. apply (HI o st1 r); [|done|done].
    rewrite Hl. apply elem_of_app. right. by left.
  - destruct (id_global (q_name p)) eqn:Eg; simpl.
    { intros [= <-]. split_and!; [done| |by left]. intros Hb. left. by split. }
    destruct (_ && _); [|apply DefinesPointcut_sound].
    destruct (aget (id_scope (q_name p)) (n_inheritance (node h l))) as [[j|]|] eqn:E.
    + intros Hd%DefinesPointcut_sound. apply aget_In in E. by apply (found_pointcut_parent h l _ j _ _ _ E).
    + apply empty_pointcut.
    + destruct r as [b st]. intros [[H1 H2] Hb]%(cw_first_true _ I); [|by split; [|left]|done].
      split_and!; [done| |done]. simpl. intros ->. destruct (Hb eq_refl) as (o & st0 & Ho & H0 & Hr).
      by apply (Hpar o st0 (true, st)).
Qed.

Lemma CheckPointcut_sound fuel h l p r :
  heap_ok h -> rtxTypeCheck_ItfCheckPointcut fuel h l p = Ret r -> r.1 = true -> denotes_pointcut h l r.2.
Proof using Type.
  intros Hh ([b [p1 poss]] & Hr & [= <-])%cw_bind_Ret.
  apply CheckPointcut_rec_sound in Hr as (Hn & Hb & Hp). simpl in *. destruct b; [auto|].
  destruct poss as [|[k d] [|? ?]]; [done| |done]. intros _. simpl.
  destruct (Hp (k, d) (list_elem_of_here _ _)) as [?%not_elem_of_nil|(j & refs & Hj & Ha & Hin)]; [done|].
  destruct (ok_tables h Hh j _ refs k d Ha Hin) as [Hk Hname]. right.
  assert (Hex : exists d', aget k refs = Some d').
  { apply aget_Some_keys. unfold akeys. apply list_elem_of_In, in_map_iff. exists (k, d).
    split; [done|by apply list_elem_of_In]. }
  destruct Hex as [d' Hd']. exists j, refs, d'. rewrite <- Hname, <- Hk. by split_and!.
Qed.

(** ** Tables *)

Lemma AddTypeToList_proto_inv d a a' :
  rtxItfAddTypeToList_proto d a = Ret (Some a') ->
  let name := id_name (q_name (e_rtype d)) in
  (exists refs, aget name a' = Some refs /\ aget (seq_key (e_rtype d)) refs = Some d) /\
  (forall n refs k x, aget n a = Some refs -> aget k refs = Some x ->
     exists refs', aget n a' = Some refs' /\ aget k refs' = Some x) /\
  (forall n refs k x, aget n a' = Some refs -> (k, x) ∈ refs ->
     (n = name /\ k = seq_key (e_rtype d) /\ x = d) \/ exists refs', aget n a = Some refs' /\ (k, x) ∈ refs').
Proof using Type.
  intros H name. unfold rtxItfAddTypeToList_proto in H. rewrite full_name_Ret in H. simpl in H. fold name in H.
  destruct (findElement (seq_key (e_rtype d)) (default [] (aget name a))) eqn:Ef; [done|].
  apply findElement_false in Ef. injection H as <-. split_and!.
  - rewrite aget_aupd_eq. eexists. split; [done|]. by rewrite aget_aupd_eq.
  - intros n refs k x Hn Hk. destruct (decide (n = name)) as [->|Hne].
    + rewrite aget_aupd_eq. eexists. split; [done|]. rewrite Hn in Ef |- *. simpl in *.
      rewrite aget_aupd_ne; [done|]. congruence.
    + rewrite aget_aupd_ne by done. by exists refs.
  - intros n refs k x. destruct (decide (n = name)) as [->|Hne].
    + rewrite aget_aupd_eq. intros [= <-] [[= -> ->]|Hin]%elem_of_aupd; [by left|right].
      destruct (aget name a) as [refs'|]; [by exists refs'|by apply not_elem_of_nil in Hin].
    + rewrite aget_aupd_ne by done. intros Hn Hin. right. by exists refs.
Qed.

Lemma in_names_app x l y : in_names x (l ++ [y]) = in_names x l || (x == y).
Proof using Type. unfold in_names. rewrite existsb_app. simpl. by rewrite orb_false_r. Qed.

Lemma set_tables_node l f h : l < length h -> node (set_tables l f h) l =
  INode (n_name (node h l)) (f (n_tables (node h l))) (n_inheritance (node h l)).
Proof using Type. intros Hl. unfold set_tables. by rewrite node_alter, decide_True. Qed.

(** A table that gains an entry. *)
Lemma set_tables_grows l f h :
  good l h ->
  node_le (node h l) (INode (n_name (node h l)) (f (n_tables (node h l))) (n_inheritance (node h l))) ->
  tables_ok (f (n_tables (node h l))) -> grows h (set_tables l f h).
Proof using Type.
  intros [Hh Hl] Hn Ht. split; [by apply heap_le_alter|].
  apply heap_ok_alter; [done|done|done|]. intros k j _ Hin. by apply (ok_parent h Hh l).
Qed.

Lemma add_pointcut_sound l d h a :
  good l h -> rtxItfAddTypeToList_proto d (k_pointcuts (n_tables (node h l))) = Ret (Some a) ->
  grows h (set_tables l (set_pointcuts a) h) /\ registered_pointcut (set_tables l (set_pointcuts a) h) l (e_rtype d).
Proof using Type.
  intros Hg (H1 & H2 & H3)%AddTypeToList_proto_inv. split.
  - apply set_tables_grows; [done| |].
    + split; simpl; eauto.
    + intros n refs k x Hn Hin. destruct (H3 n refs k x Hn Hin) as [(-> & -> & ->)|(refs' & H4 & H5)]; [done|].
      by apply (ok_tables h (proj1 Hg) l n refs').
  - right. rewrite set_tables_node by apply Hg. simpl. destruct H1 as (refs & H4 & H5). by exists refs, d.
Qed.

Lemma add_sequence_sound l d h a :
  good l h -> rtxItfAddTypeToList_proto d (k_sequences (n_tables (node h l))) = Ret (Some a) ->
  grows h (set_tables l (set_sequences a) h) /\ registered_sequence (set_tables l (set_sequences a) h) l (e_rtype d).
Proof using Type.
  intros Hg (H1 & H2 & _)%AddTypeToList_proto_inv. split.
  - apply set_tables_grows; [done| |exact (ok_tables h (proj1 Hg) l)]. split; simpl; eauto.
  - unfold registered_sequence. rewrite set_tables_node by apply Hg. simpl. destruct H1 as (refs & H4 & H5). by exists refs, d.
Qed.

Lemma AddTypeToList_inv x l a : rtxItfAddTypeToList x l = Some a -> a = l ++ [x] /\ in_names x l = false.
Proof using Type. unfold rtxItfAddTypeToList. destruct (in_names x l); [done|]. by intros [= <-]. Qed.

Lemma add_type_sound l x h a :
  good l h -> rtxItfAddTypeToList x (k_types (n_tables (node h l))) = Some a ->
  grows h (set_tables l (set_types a) h) /\ has_type x (node (set_tables l (set_types a) h) l) = true.
Proof using Type.
  intros Hg [-> _]%AddTypeToList_inv. split.
  - apply set_tables_grows; [done| |exact (ok_tables h (proj1 Hg) l)]. split; simpl; eauto.
    intros y. unfold has_type. simpl. rewrite in_names_app. by intros ->.
  - rewrite set_tables_node by apply Hg. unfold has_type. simpl. by rewrite in_names_app, String.eqb_refl, orb_true_r.
Qed.

Lemma add_variable_sound l x h a :
  good l h -> rtxItfAddTypeToList x (k_variables (n_tables (node h l))) = Some a ->
  grows h (set_tables l (set_variables a) h) /\
  in_names x (k_variables (n_tables (node (set_tables l (set_variables a) h) l))) = true.
Proof using Type.
  intros Hg [-> _]%AddTypeToList_inv. split.
  - apply set_tables_grows; [done| |exact (ok_tables h (proj1 Hg) l)]. split; simpl; eauto.
    intros y Hy. rewrite in_names_app. by rewrite Hy.
  - rewrite set_tables_node by apply Hg. simpl. by rewrite in_names_app, String.eqb_refl, orb_true_r.
Qed.

(** ** Declarations *)

Lemma pointcut_sound fuel l q p h r :
  good l h -> pointcut_CheckTypesDeclarations fuel s l q p h = Ret r ->
  sound (fun h p => params_denote h l p /\ registered_pointcut h l p) h r.
Proof using Hs.
  intros Hg ([b [ps h1]] & Hr & H)%cw_bind_Ret. apply check_params_sound in Hr as [Hgr Hb]; [|done]. simpl in *.
  destruct b; simpl in H; [|by injection H as <-]. specialize (Hb eq_refl).
  destruct (id_global _ && _) eqn:Eg.
  - injection H as <-. split; [done|]. intros _. simpl. split; [done|left].
    apply andb_prop in Eg as [E1 E2]. simpl. by apply String.eqb_eq in E2.
  - apply cw_bind_Ret in H as (a & Ha & [= <-]). destruct a as [a|]; [|done].
    destruct (add_pointcut_sound l _ h1 a (good_grows l h h1 Hg Hgr) Ha) as [Hgr2 Hreg].
    split; [by apply (store_grows_trans h h1)|]. intros _. simpl in *. split; [|done].
    apply (params_denote_stays l h1); [by apply (good_grows l h)|apply Hgr2|done].
Qed.

Lemma check_type_item_sound fuel l x h r :
  good l h -> check_type_item fuel s l x h = Ret r -> sound (fun h x => ok_type_item h l x) h r.
Proof using Hs.
  intros Hg. destruct x as [p|p|p|p|i x|x]; simpl.
  - intros (r1 & Hr & [= <-])%cw_bind_Ret. by apply pointcut_sound in Hr.
  - intros (r1 & Hr & [= <-])%cw_bind_Ret. split; [apply store_grows_refl, Hg|].
    simpl. by apply (CheckPointcut_sound fuel h l p); [apply Hg|].
  - intros (r1 & Hr & [= <-])%cw_bind_Ret. by apply check_params_sound in Hr.
  - destruct (q_params p); [|intros [= <-]; split; [apply store_grows_refl, Hg|done]].
    intros (r1 & Hr & [= <-])%cw_bind_Ret. split; [apply store_grows_refl, Hg|].
    simpl. by apply (CheckPointcut_sound fuel h l p); [apply Hg|].
  - intros (r1 & Hr & [= <-])%cw_bind_Ret. by apply rtxInterfaceHasType_sound in Hr.
  - intros [= <-]. split; [apply store_grows_refl, Hg|done].
Qed.

Lemma body_sound fuel l body y h ok items y' h' :
  good l h -> cw_foreach (body_step fuel s l) body (true, ([], (y, h))) = Ret (ok, (items, (y', h'))) ->
  grows h h' /\ (ok = true -> Forall (ok_type_item h' l) items).
Proof using Hs.
  intros Hg H.
  apply (cw_foreach_inv _ (fun _ st => grows h st.2.2.2 /\
    (st.1 = true -> Forall (ok_type_item st.2.2.2 l) st.2.1))) in H; [done| |].
  - split; [apply store_grows_refl, Hg|]. intros _. by apply Forall_nil_2.
  - intros pre x rest [b [its [y1 h1]]] st _ [Hgr Hall] ([b1 [x1 h2]] & Hx & Hst)%cw_bind_Ret. simpl in *.
    assert (Hg1 : good l h1) by by apply (good_grows l h).
    destruct (check_type_item_sound fuel l x h1 _ Hg1 Hx) as [Hgr2 Hx1]. simpl in *.
    assert (Hgr3 : grows h h2) by by apply (store_grows_trans h h1).
    destruct b1; [|by injection Hst as <-]. apply cw_bind_Ret in Hst as (o & _ & [= <-]).
    destruct o as [y2|]; [|done]. split; [done|]. simpl. intros Hb.
    apply Forall_app. split; [|by apply Forall_singleton, Hx1].
    apply (Forall_stays l _ (ok_type_item_stays l) h1 h2); [done|apply Hgr2|by apply Hall].
Qed.

Lemma type_sound fuel l i body h r :
  good l h -> type_CheckTypesDeclarations fuel s l i body h = Ret r -> sound (fun h d => ok_mdecl h l d) h r.
Proof using Hs.
  intros Hg. unfold type_CheckTypesDeclarations.
  destruct (rtxItfAddTypeToList _ _) as [a|] eqn:Ea; [|intros [= <-]; split; [apply store_grows_refl, Hg|done]].
  intros ([ok [items [y h1]]] & Hf & [= <-])%cw_bind_Ret.
  destruct (add_type_sound l _ h a Hg Ea) as [Hgr0 Ht].
  assert (Hg0 : good l (set_tables l (set_types a) h)) by by apply (good_grows l h).
  apply body_sound in Hf as [Hgr Hall]; [|done]. split; [by apply (store_grows_trans h (set_tables l (set_types a) h))|].
  simpl. intros [Hok Hn%Nat.eqb_eq]%andb_prop. split_and!; [|by apply Hall|done].
  by apply (proj2 (proj1 Hgr) l (proj2 Hg0)).
Qed.

Lemma set_scope_id_name x i : id_name (set_scope_id x i) = id_name i.
Proof using Type. unfold set_scope_id. by destruct (id_global i). Qed.

(** The body of a builtin type is checked as that of a type of a name that was
    entered just before: it is never accepted. *)
Lemma builtintype_sound fuel l i body h r :
  good l h -> builtintype_CheckTypesDeclarations fuel s l i body h = Ret r -> sound (fun h d => ok_mdecl h l d) h r.
Proof using Hs.
  intros Hg. unfold builtintype_CheckTypesDeclarations.
  destruct (rtxItfAddTypeToList _ _) as [a|] eqn:Ea; [|intros [= <-]; split; [apply store_grows_refl, Hg|done]].
  destruct (add_type_sound l _ h a Hg Ea) as [Hgr0 Ht]. destruct body as [body|]; [|by intros [= <-]].
  intros (r1 & Hr & [= <-])%cw_bind_Ret.
  unfold type_CheckTypesDeclarations in Hr.
  assert (Hn : rtxItfAddTypeToList (id_name (set_scope_id (n_name (node (set_tables l (set_types a) h) l))
      (set_scope_id (n_name (node h l)) i))) (k_types (n_tables (node (set_tables l (set_types a) h) l))) = None).
  { unfold rtxItfAddTypeToList. unfold has_type in Ht. revert Ht. generalize (node (set_tables l (set_types a) h) l).
    intros n Ht. rewrite (set_scope_id_name (n_name n)). by rewrite Ht. }
  rewrite Hn in Hr. injection Hr as <-. by split.
Qed.

Lemma mdecl_sound fuel l d h r :
  good l h -> rtxItfCheckTypesDeclarations fuel s l d h = Ret r -> sound (fun h d => ok_mdecl h l d) h r.
Proof using Hs.
  intros Hg. destruct d as [q p body|i x|i body|i body|q p|p]; simpl.
  - intros ([b0 [ps h1]] & Hp & ([b1 [items h2]] & Hf & H)%cw_bind_Ret)%cw_bind_Ret.
    apply check_params_sound in Hp as [Hgr1 Hps]; [|done]. simpl in *.
    assert (Hg1 : good l h1) by by apply (good_grows l h).
    apply (foreach_sound _ (fun h x => ok_seq_item h l x) l) in Hf as [Hgr2 Hb]; [| |intros x h3 r3 Hg3|done].
    2: apply ok_seq_item_stays.
    2: { destruct x as [p3|q3 p3|]; simpl.
         - intros (r1 & Hr & [= <-])%cw_bind_Ret. split; [apply store_grows_refl, Hg3|].
           simpl. by apply (CheckPointcut_sound fuel h3 l p3); [apply Hg3|].
         - intros (r1 & Hr & [= <-])%cw_bind_Ret. by apply pointcut_sound in Hr.
         - intros [= <-]. split; [apply store_grows_refl, Hg3|done]. }
    simpl in *. assert (Hgr12 : grows h h2) by by apply (store_grows_trans h h1).
    destruct b1; simpl in H; [|by injection H as <-]. destruct (Hb eq_refl) as [Hb0 Hall].
    apply cw_bind_Ret in H as (a & Ha & [= <-]). destruct a as [a|]; [|done].
    assert (Hg2 : good l h2) by by apply (good_grows l h).
    destruct (add_sequence_sound l _ h2 a Hg2 Ha) as [Hgr3 Hreg].
    split; [by apply (store_grows_trans h h2)|]. intros _. simpl in *. split_and!; [| |done].
    + apply (Forall_stays l _ (denotes_type_stays l) h2); [done|apply Hgr3|].
      apply (Forall_stays l _ (denotes_type_stays l) h1); [done|apply Hgr2|by apply Hps].
    + by apply (Forall_stays l _ (ok_seq_item_stays l) h2); [|apply Hgr3|].
  - unfold variable_CheckTypesDeclarations. destruct (_ && _); [intros [= <-]; split; [apply store_grows_refl, Hg|done]|].
    intros ([b [i1 h1]] & Hr & H)%cw_bind_Ret. apply rtxInterfaceHasType_sound in Hr as [Hgr Hb]; [|done]. simpl in *.
    destruct b; simpl in H; [|by injection H as <-].
    destruct (rtxItfAddTypeToList x _) as [a|] eqn:Ea; injection H as <-; [|done].
    assert (Hg1 : good l h1) by by apply (good_grows l h).
    destruct (add_variable_sound l x h1 a Hg1 Ea) as [Hgr2 Hin]. split; [by apply (store_grows_trans h h1)|]. intros _. simpl.
    split; [|done]. by apply (denotes_type_stays l h1); [|apply Hgr2|apply Hb].
  - by apply type_sound.
  - by apply builtintype_sound.
  - intros (r1 & Hr & [= <-])%cw_bind_Ret. by apply pointcut_sound in Hr.
  - intros (r1 & Hr & [= <-])%cw_bind_Ret. split; [apply store_grows_refl, Hg|].
    simpl. by apply (CheckPointcut_sound fuel h l p); [apply Hg|].
Qed.

Lemma itf_sound fuel l body h r :
  good l h -> itf_CheckTypesDeclarations fuel s l body h = Ret r -> sound (fun h ds => Forall (ok_mdecl h l) ds) h r.
Proof using Hs.
  intros Hg H. apply (foreach_sound _ (fun h d => ok_mdecl h l d) l) in H as [H1 H2]; [|apply ok_mdecl_stays| |done].
  - split; [done|]. intros Hb. by apply H2.
  - intros d h1 r1 Hg1 Hr. by apply mdecl_sound in Hr.
Qed.

(** ** What is checked is what is declared *)

(** The check only completes names: with the scope of what they denote, or with
    that of the interface for what is declared. *)
Definition resolves (i i' : ident) : Prop :=
  id_name i' = id_name i /\ (id_scope i <> "" -> id_scope i' = id_scope i).

Definition same_pointcut (p p' : seq_proto) : Prop := id_name (q_name p') = id_name (q_name p).

Definition same_proto (p p' : seq_proto) : Prop :=
  same_pointcut p p' /\ Forall2 resolves (q_params p) (q_params p').

Definition same_item (x x' : type_item) : Prop :=
  match x, x' with
  | TPointcut p, TPointcut p' | TMethod p, TMethod p' => same_proto p p'
  | TChunk p, TChunk p' | TDecl p, TDecl p' => same_pointcut p p'
  | TAttribute i name, TAttribute i' name' => resolves i i' /\ name' = name
  | TUnknown type, TUnknown type' => type' = type
  | _, _ => False
  end.

Definition same_seq_item (x x' : seq_item) : Prop :=
  match x, x' with
  | SChunk p, SChunk p' => same_pointcut p p'
  | SPointcut q p, SPointcut q' p' => q' = q /\ same_proto p p'
  | SForbidden, SForbidden => True
  | _, _ => False
  end.

Definition same_decl (d d' : mdecl) : Prop :=
  match d, d' with
  | MSequence q p body, MSequence q' p' body' =>
      q' = q /\ same_proto p p' /\ Forall2 same_seq_item body body'
  | MVariable i x, MVariable i' x' => resolves i i' /\ x' = x
  | MType i body, MType i' body' => id_name i' = id_name i /\ Forall2 same_item body body'
  | MBuiltin i body, MBuiltin i' body' => id_name i' = id_name i /\ (body' = None <-> body = None)
  | MPointcut q p, MPointcut q' p' => q' = q /\ same_proto p p'
  | MChunk p, MChunk p' => same_pointcut p p'
  | _, _ => False
  end.

Lemma Forall2_refl {A} (R : A -> A -> Prop) l : (forall x, R x x) -> Forall2 R l l.
Proof using Type. intros H. induction l; by constructor. Qed.

Lemma Forall2_compose {A B C} (P : A -> B -> Prop) (Q : B -> C -> Prop) (R : A -> C -> Prop) xs ys zs :
  (forall x y z, P x y -> Q y z -> R x z) -> Forall2 P xs ys -> Forall2 Q ys zs -> Forall2 R xs zs.
Proof using Type.
  intros H Hp. revert zs. induction Hp as [|x y xs ys Hxy _ IH]; intros zs; [intros ?%Forall2_nil_inv_l; by subst|].
  intros (z & zs' & Hz & Hzs & ->)%Forall2_cons_inv_l. constructor; [by eapply H|by apply IH].
Qed.

Lemma same_proto_refl p : same_proto p p.
Proof using Type. split; [done|]. by apply Forall2_refl. Qed.

Lemma same_item_refl x : same_item x x.
Proof using Type. destruct x; simpl; [apply same_proto_refl|done|apply same_proto_refl|done..]. Qed.

Lemma HasType_resolves fuel i l h r :
  good l h -> rtxInterfaceHasType fuel s i l h = Ret r -> resolves i r.2.1.
Proof using Type.
  intros Hg ([b [h1 poss]] & Hr & [= <-])%cw_bind_Ret. destruct b; [done|].
  destruct (unscoped i) eqn:Eu.
  - destruct (unique_names poss) as [|x [|y u]]; [done| |done]. split; [done|]. intros Hn.
    unfold unscoped in Eu. apply andb_prop in Eu as [_ Eu%String.eqb_eq]. by rewrite Eu in Hn.
  - apply HasType_scoped in Hr as [[= _ ->] _]; done.
Qed.

Lemma check_param_resolves fuel l i h r :
  good l h -> check_param fuel s l i h = Ret r -> resolves i r.2.1.
Proof using Type.
  intros Hg ([b [i1 h1]] & Hr & H)%cw_bind_Ret. apply HasType_resolves in Hr; [|done]. simpl in *.
  destruct b; injection H as <-; done.
Qed.

Lemma CheckPointcut_same fuel h l p r :
  heap_ok h -> rtxTypeCheck_ItfCheckPointcut fuel h l p = Ret r -> same_pointcut p r.2.
Proof using Type.
  intros Hh ([b [p1 poss]] & Hr & [= <-])%cw_bind_Ret.
  apply CheckPointcut_rec_sound in Hr as (Hn & _ & Hp). simpl in *. destruct b; [done|].
  destruct poss as [|[k d] [|? ?]]; [done| |done].
  destruct (Hp (k, d) (list_elem_of_here _ _)) as [?%not_elem_of_nil|(j & refs & Hj & Ha & Hin)]; [done|].
  destruct (ok_tables h Hh j _ refs k d Ha Hin) as [_ E]. by symmetry.
Qed.

(** The loop that all lists of declarations are checked by, again. *)
Lemma foreach_same {A} (R : A -> A -> Prop) (f : A -> heap -> cw_outcome (bool * (A * heap))) l xs h b0 r :
  (forall x h r, good l h -> f x h = Ret r -> good l r.2.2 /\ R x r.2.1) -> good l h ->
  cw_foreach (fun x st => r <- f x st.2.2 ;; Ret (st.1 && r.1, (st.2.1 ++ [r.2.1], r.2.2))) xs (b0, ([], h)) = Ret r ->
  good l r.2.2 /\ Forall2 R xs r.2.1.
Proof using Type.
  intros Hf Hg. apply (cw_foreach_inv _ (fun pre r => good l r.2.2 /\ Forall2 R pre r.2.1)); [by split; [|constructor]|].
  intros pre x rest [b [ys h1]] r' _ [Hg1 Hys] ([b1 [y h2]] & Hx & [= <-])%cw_bind_Ret. simpl in *.
  destruct (Hf x h1 _ Hg1 Hx) as [Hg2 Hy]. split; [done|]. apply Forall2_app; [done|]. by constructor.
Qed.

Lemma sound_good {A} (P : heap -> A -> Prop) l h r : good l h -> sound P h r -> good l r.2.2.
Proof using Type. intros Hg [Hgr _]. by apply (good_grows l h). Qed.

Lemma check_params_same fuel l ps h r :
  good l h -> check_params fuel s l ps h = Ret r -> Forall2 resolves ps r.2.1.
Proof using Hs.
  intros Hg H. apply (foreach_same resolves _ l) in H; [apply H| |done]. intros x h1 r1 Hg1 Hr.
  split; [|by apply (check_param_resolves fuel l x h1)]. by apply (sound_good _ l h1 _ Hg1 (check_param_sound _ _ _ _ _ Hg1 Hr)).
Qed.

Lemma pointcut_same fuel l q p h r :
  good l h -> pointcut_CheckTypesDeclarations fuel s l q p h = Ret r -> same_proto p r.2.1.
Proof using Hs.
  intros Hg ([b [ps h1]] & Hr & H)%cw_bind_Ret. apply check_params_same in Hr; [|done]. simpl in *.
  assert (Hp : same_proto p (SeqProto (set_scope_id (n_name (node h l)) (q_name p)) ps)).
  { split; [apply set_scope_id_name|done]. }
  destruct b; simpl in H; [|by injection H as <-]. destruct (id_global _ && _); [by injection H as <-|].
  apply cw_bind_Ret in H as (a & _ & [= <-]). by destruct a.
Qed.

Lemma check_type_item_same fuel l x h r :
  good l h -> check_type_item fuel s l x h = Ret r -> same_item x r.2.1.
Proof using Hs.
  intros Hg. destruct x as [p|p|p|p|i x|x]; simpl.
  - intros (r1 & Hr & [= <-])%cw_bind_Ret. by apply pointcut_same in Hr.
  - intros (r1 & Hr & [= <-])%cw_bind_Ret. apply CheckPointcut_same in Hr; [done|apply Hg].
  - intros (r1 & Hr & [= <-])%cw_bind_Ret. split; [done|]. by apply check_params_same in Hr.
  - destruct (q_params p); [|by intros [= <-]].
    intros (r1 & Hr & [= <-])%cw_bind_Ret. apply CheckPointcut_same in Hr; [done|apply Hg].
  - intros (r1 & Hr & [= <-])%cw_bind_Ret. apply HasType_resolves in Hr; done.
  - by intros [= <-].
Qed.

Lemma type_same fuel l i body h r :
  good l h -> type_CheckTypesDeclarations fuel s l i body h = Ret r -> same_decl (MType i body) r.2.1.
Proof using Hs.
  intros Hg. unfold type_CheckTypesDeclarations.
  destruct (rtxItfAddTypeToList _ _) as [a|] eqn:Ea.
  2: { intros [= <-]. split; [apply set_scope_id_name|]. apply Forall2_refl, same_item_refl. }
  intros ([ok [items [y h1]]] & Hf & [= <-])%cw_bind_Ret. split; [apply set_scope_id_name|]. simpl.
  destruct (add_type_sound l _ h a Hg Ea) as [Hgr0 _].
  apply (cw_foreach_inv _ (fun pre st => good l st.2.2.2 /\ Forall2 same_item pre st.2.1)) in Hf; [apply Hf| |].
  - split; [by apply (good_grows l h)|constructor].
  - intros pre x rest [b [its [y1 h2]]] st _ [Hg2 Hits] ([b1 [x1 h3]] & Hx & Hst)%cw_bind_Ret. simpl in *.
    pose proof (sound_good _ l h2 _ Hg2 (check_type_item_sound _ _ _ _ _ Hg2 Hx)) as Hg3.
    apply check_type_item_same in Hx; [|done]. simpl in *.
    assert (H : Forall2 same_item (pre ++ [x]) (its ++ [x1])) by (apply Forall2_app; [done|by constructor]).
    destruct b1; [|by injection Hst as <-]. apply cw_bind_Ret in Hst as (o & _ & [= <-]). by destruct o.
Qed.

Lemma sequence_same fuel l q p body h r :
  good l h -> sequence_CheckTypesDeclarations fuel s l q p body h = Ret r -> same_decl (MSequence q p body) r.2.1.
Proof using Hs.
  intros Hg ([b0 [ps h1]] & Hp & ([b1 [items h2]] & Hf & H)%cw_bind_Ret)%cw_bind_Ret.
  pose proof (sound_good _ l h _ Hg (check_params_sound _ _ _ _ _ Hg Hp)) as Hg1.
  apply check_params_same in Hp; [|done]. simpl in *.
  apply (foreach_same same_seq_item _ l) in Hf as [_ Hitems]; [| |done].
  - destruct b1; simpl in H; [|by injection H as <-].
    apply cw_bind_Ret in H as (a & _ & [= <-]). destruct a; simpl; (split_and!; [done| |done]);
      (split; [apply set_scope_id_name|done]).
  - intros [p3|q3 p3|] h3 r3 Hg3; simpl; [intros (r1 & Hr & [= <-])%cw_bind_Ret..|by intros [= <-]].
    + split; [done|]. apply CheckPointcut_same in Hr; [done|apply Hg3].
    + split; [by apply (sound_good _ l h3 _ Hg3 (pointcut_sound _ _ _ _ _ _ Hg3 Hr))|].
      split; [done|]. by apply pointcut_same in Hr.
Qed.

Lemma mdecl_same fuel l d h r :
  good l h -> rtxItfCheckTypesDeclarations fuel s l d h = Ret r -> same_decl d r.2.1.
Proof using Hs.
  intros Hg. destruct d as [q p body|i x|i body|i body|q p|p]; simpl.
  - by apply sequence_same.
  - unfold variable_CheckTypesDeclarations. destruct (_ && _); [by intros [= <-]|].
    intros ([b [i1 h1]] & Hr & H)%cw_bind_Ret. apply HasType_resolves in Hr; [|done]. simpl in *.
    destruct b; simpl in H; [|by injection H as <-].
    destruct (rtxItfAddTypeToList x _); injection H as <-; done.
  - by apply type_same.
  - unfold builtintype_CheckTypesDeclarations.
    destruct (rtxItfAddTypeToList _ _); [|intros [= <-]; split; [apply set_scope_id_name|done]].
    destruct body; [|intros [= <-]; split; [apply set_scope_id_name|done]].
    intros (r1 & _ & [= <-])%cw_bind_Ret. split; [apply set_scope_id_name|]. by destruct (r1.2.1).
  - intros (r1 & Hr & [= <-])%cw_bind_Ret. split; [done|]. by apply pointcut_same in Hr.
  - intros (r1 & Hr & [= <-])%cw_bind_Ret. apply CheckPointcut_same in Hr; [done|apply Hg].
Qed.

Lemma itf_same fuel l body h r :
  good l h -> itf_CheckTypesDeclarations fuel s l body h = Ret r -> Forall2 same_decl body r.2.1.
Proof using Hs.
  intros Hg H. apply (foreach_same same_decl _ l) in H; [apply H| |done]. intros d h1 r1 Hg1 Hr.
  split; [|by apply mdecl_same in Hr]. by apply (sound_good _ l h1 _ Hg1 (mdecl_sound _ _ _ _ _ Hg1 Hr)).
Qed.

(** ** Files *)

(** The table of the interfaces of a file. *)
Definition itfs_ok (itfs : arr nat) (h : heap) : Prop :=
  forall k j, aget k itfs = Some j -> j < length h /\ n_name (node h j) = k.

(** The first interfaces of a store, by their names. *)
Definition named (names : list string) (h : heap) : Prop :=
  forall l x, names !! l = Some x -> l < length h /\ n_name (node h l) = x.

(** What the first pass keeps: it may replace a parent by another of its name. *)
Definition linked (itfs : arr nat) (names : list string) (h : heap) : Prop :=
  heap_ok h /\ itfs_ok itfs h /\ named names h.

Lemma set_parent_linked itfs names l k j h :
  linked itfs names h -> j < length h -> n_name (node h j) = k -> linked itfs names (set_parent l k j h).
Proof using Type.
  intros (H1 & H2 & H3) Hj Hk. assert (Hn : forall j', n_name (node (set_parent l k j h) j') = n_name (node h j')).
  { intros j'. unfold set_parent. rewrite node_alter. by destruct (decide _) as [[-> _]|]. }
  split_and!; [by apply set_parent_ok| |]; intros k' j' H'; unfold set_parent at 1; rewrite length_alter, Hn; eauto.
Qed.

Lemma walk_itf_linked itfs names l h r :
  linked itfs names h -> rtxItfCheckInheritance_walk_itf s itfs l h = Ret r -> linked itfs names r.2.
Proof using Hs.
  intros Hh ([b h1] & H & [= <-])%cw_bind_Ret. simpl.
  apply (cw_first_true _ (linked itfs names)) in H; [apply H|done|]. clear H h1 b.
  intros k h0 r' _ Hh0. clear Hh. rename h0 into h', Hh0 into Hh. destruct (aget k itfs) as [j|] eqn:Ek.
  - intros [= <-]. simpl. destruct Hh as (H1 & H2 & H3). destruct (H2 k j Ek) as [Hj Hk]. by apply set_parent_linked.
  - destruct (rtxLink_findInterface k s) as [e|] eqn:Ef; [|by intros [= <-]].
    intros (t & Ht & Ha)%cw_bind_Ret. destruct Hh as (H1 & H2 & H3).
    assert (Hl : load_itf k s = Ret (Some t)) by (unfold load_itf; by rewrite Ef, Ht).
    destruct (alloc_ok t k h' (Hs k t Hl) H1) as ((h1 & E1) & O1 & L1 & N1).
    destruct (alloc t h') as [j h2]. simpl in *. subst h2. injection Ha as <-. simpl.
    apply set_parent_linked; [|done|done].
    split_and!; [done| |]; intros k' j' H'; rewrite length_app; [destruct (H2 k' j' H') as [H4 H5]|
      destruct (H3 k' j' H') as [H4 H5]]; (rewrite node_app by done; split; [lia|done]).
Qed.

Lemma mid_nested_ind (P : mid_node -> Prop) :
  (forall n, match n with MWith body => Forall P body | _ => True end -> P n) -> forall n, P n.
Proof using Type.
  intros H. fix IH 1. intros n. apply H. destruct n as [l body|body|]; [exact I| |exact I].
  induction body as [|d body IHb]; [apply Forall_nil_2|]. apply Forall_cons_2; [apply IH|apply IHb].
Qed.

Lemma walk_linked itfs names m : forall h r, linked itfs names h -> rtxItfCheckInheritance_walk s itfs m h = Ret r -> linked itfs names r.2.
Proof using Hs.
  induction m as [m IH] using mid_nested_ind. intros h r Hh. destruct m as [l body|body|]; simpl.
  - by apply walk_itf_linked.
  - apply (cw_foreach_inv _ (fun _ st => linked itfs names st.2)); [done|].
    intros pre x rest st st' -> Hst (r1 & Hr & [= <-])%cw_bind_Ret. simpl. rewrite Forall_forall in IH.
    apply (IH x) with (h := st.2); [apply elem_of_app; right; by left|done|done].
  - by intros [= <-].
Qed.

(** A node of a block and what the check of its declarations makes of it. *)
Definition checked (h : heap) (n n' : mid_node) : Prop :=
  match n, n' with
  | MItf l body, MItf l' body' => l' = l /\ Forall2 same_decl body body' /\ Forall (ok_mdecl h l) body'
  | MWith body, MWith body' => body' = body
  | MRest, MRest => True
  | _, _ => False
  end.

Definition placed (k : nat) (n : mid_node) : Prop := match n with MItf l _ => l < k | _ => True end.

Lemma checked_grows h h1 h2 n n' :
  placed (length h) n -> grows h h1 -> heap_ok h1 -> grows h1 h2 -> checked h1 n n' -> checked h2 n n'.
Proof using Type.
  destruct n, n'; simpl; try done. intros Hl [[Hle _] _] Hh [Hgr _] (-> & H1 & H2). split_and!; [done..|].
  apply (Forall_stays _ _ (ok_mdecl_stays _) h1 h2); [split; [done|lia]|done|done].
Qed.

Lemma checked_all_grow h h1 h2 ns ns' :
  Forall (placed (length h)) ns -> grows h h1 -> heap_ok h1 -> grows h1 h2 ->
  Forall2 (checked h1) ns ns' -> Forall2 (checked h2) ns ns'.
Proof using Type.
  intros Hp H1 H2 H3. induction 1; constructor; apply Forall_cons in Hp as [? ?]; [|by auto].
  by apply (checked_grows h h1).
Qed.

Lemma types_walk_sound fuel block h r :
  Forall (placed (length h)) block -> heap_ok h ->
  rtxItfCheckTypesDeclarations_walk fuel s block h = Ret r -> r.1 = true ->
  heap_le h r.2.2 /\ Forall2 (checked r.2.2) block r.2.1.
Proof using Hs.
  intros Hb Hh H.
  apply (cw_foreach_inv _ (fun pre st => grows h st.2.2 /\ (st.1 = true -> Forall2 (checked st.2.2) pre st.2.1))) in H.
  - intros Ht. destruct H as [Hgr H]. split; [apply Hgr|by apply H].
  - split; [by split|]. constructor.
  - intros pre x rest [b [ns h1]] st' -> [Hgr Hall] Hx. simpl in *.
    apply Forall_app in Hb as [Hpre [Hx1 _]%Forall_cons].
    assert (Hkeep : forall h2 n', grows h1 h2 -> checked h2 x n' -> b = true ->
      Forall2 (checked h2) (pre ++ [x]) (ns ++ [n'])).
    { intros h2 n' Hgr2 Hn Hbt. apply Forall2_app; [|by constructor]. specialize (Hall Hbt).
      by apply (checked_all_grow h h1); [| |apply Hgr| |]. }
    destruct x as [l body|body|].
    + apply cw_bind_Ret in Hx as ([b1 [body1 h2]] & Hx & [= <-]). simpl.
      assert (Hg1 : good l h1) by by apply (good_grows l h).
      pose proof (itf_same _ _ _ _ _ Hg1 Hx) as Hsame. apply itf_sound in Hx as [Hgr2 Hf]; [|done]. simpl in *.
      split; [by apply (store_grows_trans h h1)|]. intros [Hbt Hb1]%andb_prop. apply Hkeep; [done| |done].
      split_and!; [done..|by apply Hf].
    + injection Hx as <-. split; [done|]. apply Hkeep; [|done]. apply store_grows_refl, Hgr.
    + injection Hx as <-. split; [done|]. apply Hkeep; [|done]. apply store_grows_refl, Hgr.
Qed.

Lemma src_nested_ind (P : src_node -> Prop) :
  (forall n, match n with OWith body => Forall P body | _ => True end -> P n) -> forall n, P n.
Proof using Type.
  intros H. fix IH 1. intros n. apply H. destruct n as [o|body|]; [exact I| |exact I].
  induction body as [|d body IHb]; [apply Forall_nil_2|]. apply Forall_cons_2; [apply IH|apply IHb].
Qed.

Fixpoint parsed_body (body : list src_node) (k : nat) : list mid_node * nat :=
  match body with
  | [] => ([], k)
  | n :: body => let '(n, k) := parsed n k in let '(ns, k) := parsed_body body k in (n :: ns, k)
  end.

Lemma parsed_with body k : parsed (OWith body) k = (MWith (parsed_body body k).1, (parsed_body body k).2).
Proof using Type.
  simpl. match goal with |- (let '(_, _) := ?f body k in _) = _ => assert (H : forall k, f body k = parsed_body body k) end.
  { induction body as [|n body IH]; intros k'; simpl; [done|]. destruct (parsed n k') as [m k1]. by rewrite IH. }
  rewrite H. by destruct (parsed_body body k).
Qed.

Lemma parsed_length n : forall k, (parsed n k).2 = k + length (interfaces_of n).
Proof using Type.
  assert (Hbody : forall body, Forall (fun n => forall k, (parsed n k).2 = k + length (interfaces_of n)) body ->
    forall k, (parsed_body body k).2 = k + length (flat_map interfaces_of body)).
  { induction body as [|x body IH]; intros HF k; simpl; [lia|]. apply Forall_cons in HF as [Hx HF].
    specialize (Hx k). destruct (parsed x k) as [m k1]. simpl in Hx. subst k1.
    specialize (IH HF (k + length (interfaces_of x))). destruct (parsed_body body _) as [ns k2]. simpl in *.
    rewrite length_app. lia. }
  induction n as [n IH] using src_nested_ind. intros k. destruct n as [o|body|]; [simpl; lia| |simpl; lia].
  rewrite parsed_with. by apply Hbody.
Qed.

(** A node that is parsed: interfaces refer to their places. *)
Definition stands (os : list itf_source) (o : src_node) (n : mid_node) : Prop :=
  match o, n with
  | OItf o, MItf l body => os !! l = Some o /\ body = o_body o
  | OWith _, MWith _ | ORest, MRest => True
  | _, _ => False
  end.

Lemma parsed_body_stands body : forall pre,
  Forall2 (stands (pre ++ flat_map interfaces_of body)) body (parsed_body body (length pre)).1.
Proof using Type.
  induction body as [|n body IH]; intros pre; simpl; [constructor|].
  pose proof (parsed_length n (length pre)) as Hn.
  assert (Hst : stands (pre ++ interfaces_of n ++ flat_map interfaces_of body) n (parsed n (length pre)).1).
  { destruct n as [o|b|]; [|by rewrite parsed_with|done]. simpl. split; [|done].
    by rewrite lookup_app_r, Nat.sub_diag by lia. }
  destruct (parsed n (length pre)) as [m k1]. simpl in *. subst k1.
  specialize (IH (pre ++ interfaces_of n)). rewrite length_app, <- app_assoc in IH.
  destruct (parsed_body body _) as [ns k2]. by constructor.
Qed.

Lemma file_placed os root ns h :
  (forall l o, os !! l = Some o -> l < length h /\ n_name (node h l) = o_name o) ->
  Forall2 (stands os) root ns -> Forall (placed (length h)) ns.
Proof using Type.
  intros Hos. induction 1 as [|o n root ns H _ IH]; constructor; [|done].
  destruct o, n; try done. simpl in *. by eapply Hos, H.
Qed.

Lemma parsed_node_none o k j : (k, Some j) ∉ n_inheritance (parsed_node o).
Proof using Type.
  unfold parsed_node. simpl. assert (H : forall ps (a : arr (option nat)), (k, Some j) ∉ a ->
    (k, Some j) ∉ foldl (fun a p => aupd p (fun _ => None) a) a ps).
  { induction ps as [|p ps IH]; intros a Ha; simpl; [done|]. apply IH. by intros [?|?]%elem_of_aupd. }
  apply H. apply not_elem_of_nil.
Qed.

Lemma parsed_interfaces_name os k j :
  aget k (parsed_interfaces os) = Some j -> exists o, os !! j = Some o /\ o_name o = k.
Proof using Type.
  unfold parsed_interfaces. assert (H : forall l a, (forall k j, aget k a = Some j -> exists o, os !! j = Some o /\ o_name o = k) ->
    (forall x, x ∈ l -> exists o, os !! x.1 = Some o /\ o_name o = x.2) ->
    forall k j, aget k (foldl (fun a il => aupd il.2 (fun _ => il.1) a) a l) = Some j -> exists o, os !! j = Some o /\ o_name o = k).
  { induction l as [|[i x] l IH]; intros a Ha Hl; simpl; [done|]. apply IH; [|intros y Hy; apply Hl; by right].
    intros k' j'. destruct (decide (k' = x)) as [->|Hk].
    - rewrite aget_aupd_eq. intros [= <-]. by apply (Hl (i, x)), list_elem_of_here.
    - rewrite aget_aupd_ne by done. apply Ha. }
  apply H; [done|]. intros x (i & o & -> & Ho)%elem_of_lookup_imap. by exists o.
Qed.

Lemma parsed_linked os :
  (forall o, o ∈ os -> o_name o <> "") -> linked (parsed_interfaces os) (map o_name os) (map parsed_node os).
Proof using Type.
  intros Hn. assert (Hnode : forall l, node (map parsed_node os) l =
    match os !! l with Some o => parsed_node o | None => empty_node end).
  { intros l. unfold node. change (map parsed_node os) with (parsed_node <$> os). rewrite list_lookup_fmap. by destruct (os !! l). }
  split_and!; [split| |].
  - intros l k j. rewrite Hnode. destruct (os !! l) as [o|]; [by intros ?%parsed_node_none|by intros ?%not_elem_of_nil].
  - intros l. rewrite length_map, Hnode. intros [o Ho]%lookup_lt_is_Some_2. rewrite Ho. simpl.
    apply Hn. apply list_elem_of_lookup. by exists l.
  - intros l name refs k d. rewrite Hnode. by destruct (os !! l).
  - intros k j (o & Ho & <-)%parsed_interfaces_name. rewrite length_map, Hnode, Ho.
    split; [by apply lookup_lt_Some in Ho|done].
  - intros l x. change (map o_name os) with (o_name <$> os). rewrite list_lookup_fmap, length_map, Hnode.
    intros (o & Ho & ->)%fmap_Some. split; [by apply lookup_lt_Some in Ho|by rewrite Ho].
Qed.

(** A node of an accepted file: of an interface, its declarations with the names
    completed; the interfaces in a [with] are as they were parsed. *)
Definition accepted (h : heap) (o : src_node) (n : mid_node) : Prop :=
  match o, n with
  | OItf o, MItf l body =>
      n_name (node h l) = o_name o /\ Forall2 same_decl (o_body o) body /\ Forall (ok_mdecl h l) body
  | OWith _, MWith _ | ORest, MRest => True
  | _, _ => False
  end.


End sound.

(** ** Inheritance as a tree *)

(** What a search sees from an interface: its name, its types, and its parents by
    key, of which one is missing where neither store nor cache has it. *)
#[warnings="-register-all"]
Inductive utree := UTree (name : string) (types : list string) (parents : arr (option utree)).

(** A node of the store or a tree on disk. *)
Inductive where_ := AtNode (l : nat) | AtTree (t : saved).

Definition saved_name (t : saved) : string := match t with Saved name _ _ => name end.
Definition saved_types (t : saved) : list string := match t with Saved _ tb _ => k_types tb end.
Definition saved_parents (t : saved) : arr (option saved) := match t with Saved _ _ inh => inh end.

(** How deep inheritance goes. *)
Fixpoint height (u : utree) : nat :=
  match u with
  | UTree _ _ ps => S (foldr (fun kp m => Nat.max (match kp.2 with Some u => height u | None => 0 end) m) 0 ps)
  end.

(** The interfaces of a tree that have a type, in the order of the search. *)
Fixpoint having (x : string) (u : utree) : list string :=
  match u with
  | UTree name types ps =>
      (if in_names x types then [name] else []) ++
      flat_map (fun kp => match kp.2 with Some u => having x u | None => [] end) ps
  end.

Section unfolding.
Context {D : Disk saved}.
Variable s : session.

(** The tree that inheritance unfolds to; a parent that is not loaded is that of
    the cache.  It is finite, so there is none for a cycle. *)
Inductive unfolds (h : heap) : where_ -> utree -> Prop :=
| unfolds_node l us :
    l < length h -> NoDup (akeys (n_inheritance (node h l))) ->
    parents_unfold h (map (fun kp => (kp.1, option_map AtNode kp.2)) (n_inheritance (node h l))) us ->
    unfolds h (AtNode l) (UTree (n_name (node h l)) (k_types (n_tables (node h l))) us)
| unfolds_tree t us :
    NoDup (akeys (saved_parents t)) ->
    parents_unfold h (map (fun kp => (kp.1, option_map AtTree kp.2)) (saved_parents t)) us ->
    unfolds h (AtTree t) (UTree (saved_name t) (saved_types t) us)
with parents_unfold (h : heap) : arr (option where_) -> arr (option utree) -> Prop :=
| unfold_nil : parents_unfold h [] []
| unfold_there k w es u us : unfolds h w u -> parents_unfold h es us ->
    parents_unfold h ((k, Some w) :: es) ((k, Some u) :: us)
| unfold_missing k es us : load_itf k s = Ret None -> parents_unfold h es us ->
    parents_unfold h ((k, None) :: es) ((k, None) :: us)
| unfold_cached k t es u us : load_itf k s = Ret (Some t) -> unfolds h (AtTree t) u -> parents_unfold h es us ->
    parents_unfold h ((k, None) :: es) ((k, Some u) :: us).

Scheme unfolds_mut := Induction for unfolds Sort Prop
  with parents_unfold_mut := Induction for parents_unfold Sort Prop.

(** The trees of one store are trees of the other. *)
Definition keeps (h h' : heap) : Prop := forall w u, unfolds h w u -> unfolds h' w u.

Definition is_tree (w : where_) : Prop := match w with AtTree _ => True | AtNode _ => False end.

Lemma unfolds_disk h h' t u : unfolds h (AtTree t) u -> unfolds h' (AtTree t) u.
Proof using Type.
  intros H. change (match AtTree t with AtTree t => unfolds h' (AtTree t) u | AtNode _ => True end).
  induction H using unfolds_mut with
    (P0 := fun es us _ => Forall (fun kw => match kw.2 with Some (AtNode _) => False | _ => True end) es ->
             parents_unfold h' es us); [done| |constructor|..].
  - apply unfolds_tree; [done|]. apply IHunfolds. apply Forall_forall. intros kw Hin.
    apply list_elem_of_In, in_map_iff in Hin as ([k [x|]] & <- & _); done.
  - intros [Hw He]%Forall_cons. destruct w; [done|]. constructor; auto.
  - intros [_ He]%Forall_cons. constructor; auto.
  - intros [_ He]%Forall_cons. eapply unfold_cached; eauto.
Qed.

Lemma keeps_app h h1 : keeps h (h ++ h1).
Proof using Type.
  intros w u H. induction H using unfolds_mut with (P0 := fun es us _ => parents_unfold (h ++ h1) es us);
    [|by constructor|by econstructor..].
  rewrite <- (node_app h h1 l) by done. apply unfolds_node; [rewrite length_app; lia| |]; by rewrite node_app.
Qed.

Lemma parents_unfold_keys h es us : parents_unfold h es us -> akeys us = akeys es.
Proof using Type. induction 1; simpl; f_equal; done. Qed.

(** Trees are put after what there is. *)
Lemma alloc_parents_app inh : forall h,
  Forall (fun kp => match kp.2 with Some t => forall h, h `prefix_of` (alloc t h).2 | None => True end) inh ->
  h `prefix_of` (alloc_parents inh h).2 /\ akeys (alloc_parents inh h).1 = akeys inh.
Proof using Type.
  induction inh as [|[k o] inh IH]; intros h HF; simpl; [done|]. apply Forall_cons in HF as [Ho HF]. simpl in Ho.
  destruct o as [t|].
  - specialize (Ho h). destruct (alloc t h) as [j h1]. destruct (IH h1 HF) as [H1 H2].
    destruct (alloc_parents inh h1) as [ps h2]. simpl in *. split; [by etrans|by rewrite H2].
  - destruct (IH h HF) as [H1 H2]. destruct (alloc_parents inh h) as [ps h2]. simpl in *. split; [done|by rewrite H2].
Qed.

Lemma alloc_app t : forall h, h `prefix_of` (alloc t h).2.
Proof using Type.
  induction t as [name tb inh IH] using saved_nested_ind. intros h. rewrite alloc_eq.
  destruct (alloc_parents_app inh h IH) as [H _]. destruct (alloc_parents inh h) as [ps h2]. simpl in *.
  etrans; [exact H|]. by apply prefix_app_r.
Qed.

(** The nodes that [alloc] adds unfold to what the tree does, in any store that
    has them. *)
Definition has_nodes (H h h' : heap) : Prop :=
  length h' <= length H /\ forall i, length h <= i < length h' -> node H i = node h' i.

Lemma has_nodes_split H h h1 h2 :
  h `prefix_of` h1 -> h1 `prefix_of` h2 -> has_nodes H h h2 -> has_nodes H h h1 /\ has_nodes H h1 h2.
Proof using Type.
  intros [k1 ->] [k2 ->] [H1 H2]. rewrite !length_app in *. split; split.
  - rewrite length_app. lia.
  - intros i. rewrite length_app. intros Hi. rewrite H2 by lia. apply node_app. rewrite length_app. lia.
  - rewrite !length_app. lia.
  - intros i. rewrite !length_app. intros Hi. apply H2. lia.
Qed.

Lemma alloc_parents_unfold inh : forall h0 h us H,
  Forall (fun kp => match kp.2 with Some t => forall h0 h u H, unfolds h0 (AtTree t) u ->
     has_nodes H h (alloc t h).2 -> unfolds H (AtNode (alloc t h).1) u | None => True end) inh ->
  parents_unfold h0 (map (fun kp => (kp.1, option_map AtTree kp.2)) inh) us ->
  has_nodes H h (alloc_parents inh h).2 ->
  parents_unfold H (map (fun kp => (kp.1, option_map AtNode kp.2)) (alloc_parents inh h).1) us.
Proof using Type.
  intros h0 h us H. revert h us. induction inh as [|[k o] inh IH]; intros h us HF Hu Hn; simpl.
  { inversion Hu; subst. constructor. }
  apply Forall_cons in HF as [Ho HF]. simpl in Ho, Hu, Hn.
  assert (Happ : forall h, h `prefix_of` (alloc_parents inh h).2).
  { intros h'. apply alloc_parents_app. apply Forall_forall. intros [k' [t'|]] _; simpl; [apply alloc_app|done]. }
  destruct o as [t|].
  - inversion Hu; subst. specialize (Ho h0 h u H). pose proof (alloc_app t h) as Ha.
    destruct (alloc t h) as [j h1]. specialize (IH h1). specialize (Happ h1).
    destruct (alloc_parents inh h1) as [ps h2]. simpl in *.
    destruct (has_nodes_split H h h1 h2 Ha Happ Hn) as [N1 N2]. constructor; [by apply Ho|by apply IH].
  - specialize (IH h). destruct (alloc_parents inh h) as [ps h2]. simpl in *. inversion Hu; subst.
    + constructor; [done|by apply IH].
    + eapply unfold_cached; [done|by apply (unfolds_disk h0)|by apply IH].
Qed.

Lemma alloc_unfolds t : forall h0 h u H,
  unfolds h0 (AtTree t) u -> has_nodes H h (alloc t h).2 -> unfolds H (AtNode (alloc t h).1) u.
Proof using Type.
  induction t as [name tb inh IH] using saved_nested_ind. intros h0 h u H Hu. rewrite alloc_eq.
  pose proof (alloc_parents_unfold inh h0 h) as Hpar.
  assert (Happ : h `prefix_of` (alloc_parents inh h).2 /\ akeys (alloc_parents inh h).1 = akeys inh).
  { apply alloc_parents_app. apply Forall_forall. intros [k' [t'|]] _; simpl; [apply alloc_app|done]. }
  destruct (alloc_parents inh h) as [ps h2]. simpl in *. destruct Happ as [Hpre Hkeys]. intros Hn.
  inversion Hu as [|t' us Hnd Hus]; subst. simpl in *.
  destruct (has_nodes_split H h h2 (h2 ++ [INode name tb ps]) Hpre ltac:(by eexists) Hn) as [N1 [N2 N3]].
  rewrite length_app in N2, N3. simpl in N2, N3.
  assert (Hnode : node H (length h2) = INode name tb ps).
  { rewrite N3 by lia. unfold node. by rewrite lookup_app_r, Nat.sub_diag by lia. }
  assert (E : UTree name (k_types tb) us = UTree (n_name (node H (length h2))) (k_types (n_tables (node H (length h2)))) us)
    by by rewrite Hnode.
  rewrite E. apply unfolds_node; [lia|rewrite Hnode; simpl; by rewrite Hkeys|].
  rewrite Hnode. simpl. by apply Hpar.
Qed.

(** Loading a parent changes what is in the store and not what it unfolds to. *)
Lemma set_parent_keeps h l k j t :
  aget k (n_inheritance (node h l)) = Some None -> load_itf k s = Ret (Some t) ->
  (forall u, unfolds (set_parent l k j h) (AtTree t) u -> unfolds (set_parent l k j h) (AtNode j) u) ->
  keeps h (set_parent l k j h).
Proof using Type.
  intros Hk Ht Hj w u H. set (h' := set_parent l k j h) in *.
  induction H as [i us Hi Hnd Hus IH|t' us Hnd Hus IH| | | |] using unfolds_mut with
    (P0 := fun es us _ => parents_unfold h' es us); [|by constructor|by econstructor..].
  destruct (decide (i = l)) as [->|Hil].
  - assert (Hn : node h' l = INode (n_name (node h l)) (n_tables (node h l))
      (aupd k (fun _ => Some j) (n_inheritance (node h l)))).
    { unfold h', set_parent. by rewrite node_alter, decide_True. }
    assert (E : UTree (n_name (node h l)) (k_types (n_tables (node h l))) us =
      UTree (n_name (node h' l)) (k_types (n_tables (node h' l))) us) by by rewrite Hn.
    rewrite E. apply unfolds_node; [unfold h', set_parent; by rewrite length_alter|rewrite Hn; simpl; by apply NoDup_akeys_aupd|].
    rewrite Hn. simpl. clear Hus Hnd E Hn. revert us IH Hk. generalize (n_inheritance (node h l)).
    induction a as [|[k0 o] a IHa]; intros us Hus Hk; simpl in *; [done|].
    destruct (String.eqb_spec k k0) as [->|Hne].
    + injection Hk as ->. simpl in *. inversion Hus; subst; [congruence|].
      constructor; [|done]. apply Hj. assert (t0 = t) as -> by congruence. done.
    + destruct o; simpl in *; inversion Hus; subst; [constructor|constructor|econstructor]; eauto.
  - assert (Hn : node h' i = node h i).
    { unfold h', set_parent. rewrite node_alter, decide_False; [done|]. intros [? _]. done. }
    rewrite <- Hn. rewrite <- Hn in IH, Hnd. apply unfolds_node; [unfold h', set_parent; by rewrite length_alter|done|].
    by rewrite Hn in IH |- *.
Qed.

#[local] Hint Extern 0 (keeps ?h ?h) => exact (fun w u Hu => Hu) : core.

Lemma keeps_trans h1 h2 h3 : keeps h1 h2 -> keeps h2 h3 -> keeps h1 h3.
Proof using Type. intros H1 H2 w u Hu. by apply H2, H1. Qed.

(** What is at a key of the node, and of its tree. *)
Lemma parents_unfold_at h es us k ou :
  parents_unfold h es us -> NoDup (akeys es) -> (k, ou) ∈ us ->
  match ou with
  | None => aget k es = Some None /\ load_itf k s = Ret None
  | Some u => (exists w, aget k es = Some (Some w) /\ unfolds h w u) \/
              (aget k es = Some None /\ exists t, load_itf k s = Ret (Some t) /\ unfolds h (AtTree t) u)
  end.
Proof using Type.
  intros H. induction H as [|k0 w es u us Hu H IH|k0 es us Hl H IH|k0 t es u us Hl Hu H IH]; intros Hnd Hin;
    [by apply not_elem_of_nil in Hin|..]; apply NoDup_cons in Hnd as [Hk Hnd]; simpl.
  all: pose proof (parents_unfold_keys h es us H) as Hkeys.
  all: apply elem_of_cons in Hin as [[= -> ->]|Hin];
    [rewrite String.eqb_refl
    |assert (Hne : k <> k0) by (intros ->; apply Hk; change (k0 ∈ akeys es); rewrite <- Hkeys; unfold akeys;
       apply list_elem_of_In, in_map_iff; exists (k0, ou); split; [done|by apply list_elem_of_In]);
     destruct (String.eqb_spec k k0); [done|by apply IH]].
  - left. by exists w.
  - done.
  - right. split; [done|]. by exists t.
Qed.

Lemma aget_map_snd {A B} (f : A -> B) k (a : arr (option A)) :
  aget k (map (fun kp => (kp.1, option_map f kp.2)) a) = option_map (option_map f) (aget k a).
Proof using Type. induction a as [|[k' x] a IH]; simpl; [done|]. by destruct (k == k'). Qed.

Lemma load_parent_unfolds h l name types us k ou :
  unfolds h (AtNode l) (UTree name types us) -> (k, ou) ∈ us ->
  exists p h', load_parent s l k h = Ret (p, h') /\ keeps h h' /\
    match ou with None => p = None | Some u => exists j, p = Some j /\ unfolds h' (AtNode j) u end.
Proof using Type.
  intros Hu Hin. inversion Hu as [l' us' Hl Hnd Hus E1 E2|]; subst.
  pose proof (parents_unfold_at h _ us k ou Hus) as H.
  assert (Hnd' : NoDup (akeys (map (fun kp => (kp.1, option_map AtNode kp.2)) (n_inheritance (node h l))))).
  { unfold akeys. rewrite map_map. simpl. exact Hnd. }
  specialize (H Hnd' Hin). rewrite aget_map_snd in H. unfold load_parent.
  assert (Hload : forall u t, aget k (n_inheritance (node h l)) = Some None -> load_itf k s = Ret (Some t) ->
    unfolds h (AtTree t) u -> exists p h', (o <- load_itf k s ;; Ret (match o with None => (None, h)
      | Some t => let '(j, h) := alloc t h in (Some j, set_parent l k j h) end)) = Ret (p, h') /\ keeps h h' /\
      exists j, p = Some j /\ unfolds h' (AtNode j) u).
  { intros u t Ek Hld Hut. rewrite Hld. simpl. pose proof (alloc_app t h) as [h1 Eh1].
    pose proof (alloc_unfolds t) as Ha. specialize (Ha h h). destruct (alloc t h) as [j h2]. simpl in *. subst h2.
    assert (Hn : node (h ++ h1) l = node h l) by by apply node_app.
    assert (Hhas : has_nodes (set_parent l k j (h ++ h1)) h (h ++ h1)).
    { split; [unfold set_parent; by rewrite length_alter|]. intros i Hi. unfold set_parent. rewrite node_alter, decide_False; [done|].
      intros [-> _]. lia. }
    exists (Some j), (set_parent l k j (h ++ h1)). split_and!; [done| |exists j; split; [done|by apply Ha]].
    apply (keeps_trans h (h ++ h1)); [apply keeps_app|]. apply (set_parent_keeps _ l k j t); [by rewrite Hn|done|].
    intros u' Hu'. apply Ha; [|done]. by apply (unfolds_disk (set_parent l k j (h ++ h1))). }
  destruct ou as [u|].
  - destruct H as [(w & Ha & Hw)|(Ha & t & Hld & Hut)]; (destruct (aget k (n_inheritance (node h l))) as [[j|]|] eqn:Ek; simpl in Ha; try done).
    + injection Ha as <-. exists (Some j), h. split_and!; [done|done|]. by exists j.
    + by apply (Hload u t).
  - destruct H as [Ha Hld]. destruct (aget k (n_inheritance (node h l))) as [[j|]|] eqn:Ek; simpl in Ha; try done.
    rewrite Hld. simpl. by exists None, h.
Qed.

Lemma HasType_unfolds i : unscoped i = true -> forall u fuel l h poss,
  height u <= fuel -> unfolds h (AtNode l) u ->
  exists h', rtxInterfaceHasType_recursive fuel s i l h poss = Ret (false, (h', poss ++ having (id_name i) u)) /\ keeps h h'.
Proof using Type.
  intros Hi. assert (Hind : forall n u, height u <= n -> forall fuel l h poss, height u <= fuel -> unfolds h (AtNode l) u ->
    exists h', rtxInterfaceHasType_recursive fuel s i l h poss = Ret (false, (h', poss ++ having (id_name i) u)) /\ keeps h h').
  2: { intros u fuel l h poss. by apply (Hind (height u)). }
  induction n as [|n IH]; intros [name types us] Hn; [simpl in Hn; lia|].
  intros [|fuel] l h poss Hf Hu; [simpl in Hf; lia|]. simpl. rewrite Hi.
  assert (Hkeys : akeys (n_inheritance (node h l)) = akeys us /\ n_name (node h l) = name /\ k_types (n_tables (node h l)) = types).
  { inversion Hu as [l' us' Hl Hnd Hus E1 E2|]; subst. split_and!; [|done|done].
    rewrite (parents_unfold_keys _ _ _ Hus). unfold akeys. by rewrite map_map. }
  destruct Hkeys as (-> & -> & Ht). unfold has_type. rewrite Ht.
  set (poss0 := if in_names (id_name i) types then poss ++ [name] else poss).
  assert (Hloop : forall vs hc pc, (forall kp, kp ∈ vs -> kp ∈ us) -> unfolds hc (AtNode l) (UTree name types us) ->
    exists h', cw_foreach (fun key st => p <- load_parent s l key st.1 ;;
       match p with (None, h) => Ret (h, st.2)
       | (Some j, h) => r <- rtxInterfaceHasType_recursive fuel s i j h st.2 ;; Ret r.2 end) (akeys vs) (hc, pc) =
      Ret (h', pc ++ flat_map (fun kp => match kp.2 with Some u => having (id_name i) u | None => [] end) vs) /\ keeps hc h').
  { induction vs as [|[k ou] vs IHv]; intros hc pc Hvs Huc; simpl; [exists hc; by rewrite app_nil_r|].
    assert (Hin : (k, ou) ∈ us) by (apply Hvs; by left).
    destruct (load_parent_unfolds hc l name types us k ou Huc Hin) as (p & h1 & -> & Hk1 & Hp). simpl.
    assert (Hvs' : forall kp, kp ∈ vs -> kp ∈ us) by (intros kp H; apply Hvs; by right).
    destruct ou as [u|].
    - destruct Hp as (j & -> & Huj).
      assert (Hh : height u <= n /\ height u <= fuel).
      { assert (Hle : height u <= foldr (fun kp m => Nat.max (match kp.2 with Some u => height u | None => 0 end) m) 0 us).
        { clear - Hin. induction us as [|[k0 o0] us IHu]; [by apply not_elem_of_nil in Hin|]. simpl.
          apply elem_of_cons in Hin as [[= <- <-]|Hin]; [simpl; lia|]. specialize (IHu Hin). lia. }
        simpl in Hn, Hf. lia. }
      destruct (IH u (proj1 Hh) fuel j h1 pc (proj2 Hh) Huj) as (h2 & -> & Hk2). simpl.
      destruct (IHv h2 (pc ++ having (id_name i) u) Hvs') as (h3 & -> & Hk3); [by apply Hk2, Hk1|].
      exists h3. rewrite app_assoc. split; [done|]. apply (keeps_trans hc h1); [done|by apply (keeps_trans h1 h2)].
    - subst p. simpl. destruct (IHv h1 pc Hvs') as (h3 & -> & Hk3); [by apply Hk1|].
      exists h3. split; [done|by apply (keeps_trans hc h1)]. }
  destruct (Hloop us h poss0 (fun kp H => H) Hu) as (h' & -> & Hk). exists h'. split; [|done]. simpl.
  unfold poss0. destruct (in_names (id_name i) types); [|done]. by rewrite <- app_assoc.
Qed.

Lemma in_names_spec x l : in_names x l = true <-> x ∈ l.
Proof using Type.
  unfold in_names. rewrite existsb_exists, list_elem_of_In. split; [by intros (y & Hy & <-%String.eqb_eq)|].
  intros H. exists x. by rewrite String.eqb_refl.
Qed.

Lemma unique_names_spec l : NoDup (unique_names l) /\ forall x, x ∈ unique_names l <-> x ∈ l.
Proof using Type.
  assert (H : forall u, NoDup u -> NoDup (foldl (fun u e => if in_names e u then u else u ++ [e]) u l) /\
    forall x, x ∈ foldl (fun u e => if in_names e u then u else u ++ [e]) u l <-> x ∈ u \/ x ∈ l).
  { induction l as [|e l IH]; intros u Hu; simpl.
    - split; [done|]. intros x. split; [by left|intros [H|H%not_elem_of_nil]; done].
    - destruct (in_names e u) eqn:E.
      + apply in_names_spec in E. destruct (IH u Hu) as [H1 H2]. split; [done|]. intros x. rewrite H2, elem_of_cons.
        split; [tauto|]. intros [H|[->|H]]; tauto.
      + assert (Hn : e ∉ u) by (intros Hin%in_names_spec; congruence).
        destruct (IH (u ++ [e])) as [H1 H2].
        { apply NoDup_app. split_and!; [done|by intros x Hx ->%list_elem_of_singleton|apply NoDup_singleton]. }
        split; [done|]. intros x. rewrite H2, elem_of_app, list_elem_of_singleton, elem_of_cons. tauto. }
  destruct (H [] (NoDup_nil_2)) as [H1 H2]. split; [done|]. intros x. unfold unique_names. rewrite H2.
  split; [intros [Hx%not_elem_of_nil|]; done|by right].
Qed.

(** C20: The search of a type without a scope ends within as many levels as
    the tree of inheritance is high, trees of the cache included, and is
    what the tree says: it succeeds exactly when the interfaces of the tree
    that have a type of the name all have one name, which becomes the scope;
    otherwise nothing changes. The parents it loads do not change any tree.
    *)
Theorem interface_type_resolution fuel i l h u :
  unfolds h (AtNode l) u -> height u <= fuel -> unscoped i = true ->
  exists b i' h', rtxInterfaceHasType fuel s i l h = Ret (b, (i', h')) /\ keeps h h' /\
    (b = true <-> exists x, forall y, y ∈ having (id_name i) u <-> y = x) /\
    (b = true -> id_scope i' ∈ having (id_name i) u /\ id_name i' = id_name i) /\ (b = false -> i' = i).
Proof using Type.
  intros Hu Hf Hi. unfold rtxInterfaceHasType.
  destruct (HasType_unfolds i Hi u fuel l h [] Hf Hu) as (h' & -> & Hk). simpl.
  destruct (unique_names_spec (having (id_name i) u)) as [Hnd Hin].
  destruct (unique_names (having (id_name i) u)) as [|x [|y us]] eqn:E.
  - exists false, i, h'. split_and!; [done|done| |done|done]. split; [done|].
    intros (x & Hx). assert (Hc : x ∈ having (id_name i) u) by by apply Hx. apply Hin in Hc. by apply not_elem_of_nil in Hc.
  - exists true, (Ident x (id_name i) (id_global i)), h'. split_and!; [done|done| |split; [|done]|done].
    + split; [|done]. intros _. exists x. intros y. rewrite <- Hin. apply list_elem_of_singleton.
    + simpl. apply Hin. by left.
  - exists false, i, h'. split_and!; [done|done| |done|done]. split; [done|].
    intros (z & Hz). apply NoDup_cons in Hnd as [Hn _]. exfalso. apply Hn.
    assert (Ex : x = z) by (apply Hz, Hin; by left). assert (Ey : y = z) by (apply Hz, Hin; right; by left).
    subst. by left.
Qed.

End unfolding.

(** ** What the check lets pass, and where it does not end *)

#[local] Existing Instance no_disk.

(** In an interface without parents the scope of a pointcut is not compared with
    the name of the interface: whatever it is, it is replaced. *)
Theorem foreign_scope_accepted fuel h l x p refs d :
  n_inheritance (node h l) = [] -> n_name (node h l) <> "" -> x <> "" ->
  id_global (q_name p) = false -> existsb unscoped (q_params p) = false ->
  aget (id_name (q_name p)) (k_pointcuts (n_tables (node h l))) = Some refs ->
  aget (seq_key (set_scope (n_name (node h l)) p)) refs = Some d ->
  rtxTypeCheck_ItfCheckPointcut (S fuel) h l (set_scope x p) = Ret (true, set_scope (n_name (node h l)) p).
Proof.
  intros Hinh Hname Hx Hg Hps Hr Hd. unfold rtxTypeCheck_ItfCheckPointcut. simpl.
  assert (Hu : unscoped (q_name (set_scope x p)) = false).
  { unfold unscoped. simpl. rewrite Hg. by destruct (String.eqb_spec x ""). }
  rewrite Hinh. simpl in Hu. rewrite Hu, Hg, andb_false_r. simpl.
  unfold rtxTypeCheck_ItfDefinesPointcut. simpl. rewrite Hr.
  unfold proto_is_qualified. simpl. rewrite Hps, Hu. simpl. rewrite full_name_Ret. simpl.
  unfold set_scope in Hd |- *. simpl in *. by rewrite Hd.
Qed.

Example foreign_scope_accepted_witness :
  rtxTypeCheck_ItfCheckPointcut 1
    [INode "LKM" (Tables [] [] [("p", [("LKM::p()", SeqDecl (SeqProto (scoped "LKM" "p") []) "provided")])] []) []]
    0 (SeqProto (scoped "Nowhere" "p") []) = Ret (true, SeqProto (scoped "LKM" "p") []).
Proof.
  apply (foreign_scope_accepted 0
    [INode "LKM" (Tables [] [] [("p", [("LKM::p()", SeqDecl (SeqProto (scoped "LKM" "p") []) "provided")])] []) []]
    0 "Nowhere" (SeqProto (scoped "LKM" "p") []) [("LKM::p()", SeqDecl (SeqProto (scoped "LKM" "p") []) "provided")]
    (SeqDecl (SeqProto (scoped "LKM" "p") []) "provided"));
    first [reflexivity|discriminate].
Defined.

(** The declaration that a file with such a chunk has, accepted; and a builtin
    type with a body, which no file may have. *)
Example odd_verdicts :
  map verdict [
    [lkm [] [MPointcut "provided" (proto_of "p" []); MChunk (SeqProto (scoped "Nowhere" "p") [])]];
    [lkm [] [insert_type; MBuiltin (bare "Bomb") (Some [the_decl])]];
    [lkm [] [insert_type; MType (bare "Bomb") [the_decl]]]
  ] = [Some true; Some false; Some true].
Proof. vm_compute. reflexivity. Qed.

(** A sequence with a parameter of a type that is nowhere, rejected; the same in a
    [with], accepted: its declarations are not visited. *)
Example with_unchecked :
  let bad := lkm [] [notype "a" [bare "Nothing"] []] in
  map verdict [[bad]; [OWith [bad]]] = [Some false; Some true].
Proof. vm_compute. reflexivity. Qed.

(** An interface that inherits from itself passes the check of inheritance; a
    name of a type without a scope is then looked for without an end. *)
Theorem self_inheritance_hangs fuel :
  check_source fuel MiddleCheck.fresh [lkm ["LKM"] [notype "a" [bare "T"] []]] = Short.
Proof.
  assert (H : forall fuel poss, rtxInterfaceHasType_recursive fuel MiddleCheck.fresh (bare "T") 0
    [INode "LKM" no_tables [("LKM", Some 0)]] poss = Short).
  { clear fuel. induction fuel as [|fuel IH]; intros poss; [reflexivity|].
    cbn -[rtxInterfaceHasType_recursive]. simpl. by rewrite IH. }
  cbv -[rtxInterfaceHasType_recursive] in H |- *. by rewrite H.
Qed.

(** Two interfaces in the cache, one the parent of the other, saved without it. *)
Definition two_disk : Disk saved := {|
  catPath := String.append; local_backlib_path := "lib/"; backlib_path := "";
  tree_at f := if f == "lib/Builtin.tree" then Some (Saved "Builtin" (Tables ["String"] [] [] []) [])
               else if f == "lib/Mid.tree" then Some (Saved "Mid" no_tables [("Builtin", None)]) else None
|}.

Definition two_interfaces : session :=
  Session (set_interfaces (map (fun x => (x, ItfEntry x (Some (x ++ ".tree")%string) [])) ["Builtin"; "Mid"]) empty_cache)
    empty_cache.

Definition verdict_two (body : list mdecl) : option bool :=
  match check_source (D := two_disk) 50 two_interfaces [lkm ["Mid"] body] with Ret r => Some r.1 | _ => None end.

(** Only the search for a name without a scope loads parents: a name with the
    scope of a grandparent is found after it, and not before. *)
Example scope_found_when_loaded :
  let qualified := MPointcut "provided" (proto_of "p" [scoped "Builtin" "String"]) in
  let other := MPointcut "provided" (proto_of "q" [bare "String"]) in
  map verdict_two [[qualified]; [qualified; other]; [other; qualified]] = [Some false; Some false; Some true].
Proof. vm_compute. reflexivity. Qed.

(** ** Witnesses *)

Lemma fresh_cache_ok : cache_ok MiddleCheck.fresh.
Proof. intros k t. discriminate. Qed.

Definition accepted_file : list src_node := nth 11 test_04 [].


(** A parent in the cache. *)
Definition string_tree : saved := Saved "Builtin" (Tables ["String"] [] [] []) [].

Definition one_disk : Disk saved := {|
  catPath := String.append; local_backlib_path := "lib/"; backlib_path := "";
  tree_at f := if f == "lib/Builtin.tree" then Some string_tree else None
|}.

Definition one_interface : session :=
  Session (set_interfaces [("Builtin", ItfEntry "Builtin" (Some "Builtin.tree") [])] empty_cache) empty_cache.

Definition child_store : heap := [INode "LKM" no_tables [("Builtin", None)]].

Definition child_tree : utree := UTree "LKM" [] [("Builtin", Some (UTree "Builtin" ["String"] []))].

Example interface_type_resolution_witness :
  unfolds (D := one_disk) one_interface child_store (AtNode 0) child_tree /\
  exists i' h', rtxInterfaceHasType (D := one_disk) 2 one_interface (bare "String") 0 child_store = Ret (true, (i', h')) /\
    id_scope i' ∈ ["Builtin"].
Proof.
  assert (Hu : unfolds (D := one_disk) one_interface child_store (AtNode 0) child_tree).
  { apply (unfolds_node (D := one_disk) one_interface child_store 0 [("Builtin", Some (UTree "Builtin" ["String"] []))]).
    - simpl. lia.
    - apply NoDup_singleton.
    - apply (unfold_cached (D := one_disk) one_interface child_store "Builtin" string_tree); [reflexivity| |constructor].
      apply (unfolds_tree (D := one_disk) one_interface child_store string_tree []); [apply NoDup_nil_2|constructor]. }
  split; [exact Hu|].
  destruct (interface_type_resolution (D := one_disk) one_interface 2 (bare "String") 0 child_store child_tree Hu)
    as (b & i' & h' & Hr & _ & Hb & Ht & _); [simpl; lia|reflexivity|].
  assert (E : b = true).
  { apply Hb. exists "Builtin". intros y. apply list_elem_of_singleton. }
  subst b. exists i', h'. split; [exact Hr|]. apply (Ht eq_refl).
Defined.
