(* ===== verification/BackCheck.v ===== *)
(** * The type check of the back end

    Model of src/rathaxes/compiler/passes/back/rtxTypeCheck.inc.cws, of
    typing/routines/rtxTypingRoutines_Back.inc.cws and of rtxInterfaceNameHasType
    of rtxTypingRoutines_Mid.inc.cws.  A template implements a type or a sequence
    of an interface by chunks of C with place holders; the check looks for what
    it implements, completes the names of its pointcuts, and compares it with
    the declaration, both ways.  It searches by FrontCheck.v for sequences and by
    MiddleCheck.v for types and pointcuts. *)
From Stdlib Require Import String.
From S2P Require Import Prelude CodeWorker ConfigMatcher LinkSession RegisterMask FrontCheck MiddleCheck.

Local Open Scope string_scope.
Local Open Scope list_scope.
Local Open Scope nat_scope.
Local Open Scope cw_scope.
Local Infix "==" := String.eqb (at level 70).

(** ** Trees of interfaces *)

(** A declaration of a type with the keys of its attributes; one of a
    sequence. *)
Record type_tree := TypeTree { yt_rtype : ident; yt_attributes : list string; yt_body : list type_item }.

Record seq_tree := SeqTree { st_decl : seq_decl; st_body : list seq_item }.

(** [ft_block]: the types of the body, in order. *)
Record full_tree := FullTree {
  ft_name : string; ft_types : arr type_tree; ft_variables : list string;
  ft_pointcuts : arr (arr seq_decl); ft_sequences : arr (arr seq_tree);
  ft_inheritance : arr (option saved); ft_block : list type_tree
}.

Definition ft_protos (t : full_tree) : arr (arr seq_decl) :=
  map (fun kv => (kv.1, map (fun kd => (kd.1, st_decl kd.2)) kv.2)) (ft_sequences t).

(** What the search of sequences reads, which is not the body, and what the
    searches of types and pointcuts read. *)
Definition front_tree (t : full_tree) : itf_tree := ItfTree (ft_name t) (ft_protos t) (akeys (ft_inheritance t)) [].

Definition saved_tree (t : full_tree) : saved :=
  Saved (ft_name t) (Tables (akeys (ft_types t)) (ft_variables t) (ft_pointcuts t) (ft_protos t)) (ft_inheritance t).

(** The same files, of which less is read. *)
Definition view_disk {A B} (f : A -> B) (D : Disk A) : Disk B := {|
  catPath := catPath; local_backlib_path := local_backlib_path; backlib_path := backlib_path;
  tree_at x := option_map f (tree_at x)
|}.

(** ** Templates *)

(** A place holder, by the type of its node.  The arguments of the call of a
    method are only counted (below).  [typed]: a parameter of the pointcut is a
    type, not a name. *)
Inductive placeholder :=
| PType (rtype : ident)
| PVar
| PMethodCall (rtype : ident) (chunk : string) (arity : nat)
| PSequenceCall (seqName : ident) (args : list ident)
| PPointcut (typed : bool) (p : seq_proto)
| PUnknown.

(** A C declaration of a chunk: [d_name] is empty where it has none. *)
Record cdecl := CDecl { d_name : string; d_storage : string }.

(** An element of the body of a template, by its keyword: chunk, decl or
    method. *)
Record chunk := Chunk {
  b_chunk_type : string; b_decl_type : string; b_pointcut : seq_proto;
  b_fields : list cdecl; b_holes : list placeholder
}.

Definition set_pointcut (p : seq_proto) (c : chunk) : chunk :=
  Chunk (b_chunk_type c) (b_decl_type c) p (b_fields c) (b_holes c).

(** [tp_type] is "type", "builtintype" or "sequence"; [tp_mapping]: the names that
    are mapped. *)
Record template := Template {
  tp_type : string; tp_rtype : seq_proto; tp_body : list chunk; tp_mapping : list string
}.

Definition set_tpl (p : seq_proto) (body : list chunk) (t : template) : template :=
  Template (tp_type t) p body (tp_mapping t).

Section back.
Context {D : Disk full_tree}.

Definition front_disk : Disk itf_tree := view_disk front_tree D.
Definition middle_disk : Disk saved := view_disk saved_tree D.

(** ** Searches *)

(** The interface of the type by name, or, without a name, those of the list: an
    interface that is not in the cache ends the search.  Each tree is loaded by
    itself. *)
Definition rtxInterfaceNameHasType (fuel : nat) (s : session) (i : ident) (rtypeItfName : string)
    (interface_list : list string) : cw_outcome (bool * ident) :=
  let search itfName possibilities :=
    t <- load_itf (D := middle_disk) itfName s ;;
    match t with
    | None => Ret (Some false, possibilities)
    | Some t =>
        let '(j, h) := alloc t [] in
        r <- rtxInterfaceHasType_recursive (D := middle_disk) fuel s i j h possibilities ;;
        Ret (if r.1 : bool then Some true else None, r.2.2)
    end in
  if negb (rtypeItfName == "") then
    r <- search rtypeItfName [] ;;
    Ret (bool_decide (r.1 = Some true), i)
  else
    r <- cw_first (fun itfName st =>
           r <- search itfName st.2 ;; Ret (bool_decide (is_Some r.1), r)) interface_list (None, []) ;;
    Ret (match r.2 with
         | (Some b, _) => (b, i)
         | (None, possibilities) =>
             match unique_names possibilities with
             | [x] => (true, Ident x (id_name i) (id_global i))
             | _ => (false, i)
             end
         end).

(** The tree of an interface, or nothing, as one place of a search. *)
Definition load_node (itfName : string) (s : session) : cw_outcome (option inode) :=
  t <- load_itf (D := middle_disk) itfName s ;;
  Ret (option_map (fun t => match t with
                            | Saved name tb inh => INode name tb (map (fun kp => (kp.1, None)) inh)
                            end) t).

(** In an interface and the parents of it, not theirs: a parent that is not in
    the cache ends the search. *)
Definition search_pointcut (typed : bool) (s : session) (itfName : string) (p : seq_proto) (possibilities : arr seq_decl)
    : cw_outcome (bool * (seq_proto * arr seq_decl)) :=
  t <- load_node itfName s ;;
  match t with
  | None => Ret (false, (p, possibilities))
  | Some itfTree =>
      r <- rtxTypeCheck_ItfDefinesPointcut typed p itfTree possibilities ;;
      if r.1 : bool then Ret (true, (set_scope itfName r.2.1, r.2.2))
      else
        r <- cw_first (fun name st =>
               t <- load_node name s ;;
               match t with
               | None => Ret (true, (false, st.2))
               | Some parentTree =>
                   r <- rtxTypeCheck_ItfDefinesPointcut typed st.2.1 parentTree st.2.2 ;;
                   Ret (if r.1 : bool then (true, (true, (set_scope name r.2.1, r.2.2))) else (false, (false, r.2)))
               end) (akeys (n_inheritance itfTree)) (false, r.2) ;;
        Ret r.2
  end.

Definition rtxTypeCheck_ItfNameDefinesPointcut_recursive (typed : bool) (s : session) (p : seq_proto) (itfName : string)
    (interface_list : list string) (possibilities : arr seq_decl) : cw_outcome (bool * (seq_proto * arr seq_decl)) :=
  if negb (itfName == "") then search_pointcut typed s itfName p possibilities
  else if negb (id_global (q_name p)) then
    r <- cw_first (fun name st =>
           t <- load_node name s ;;
           match t with
           | None => Ret (true, (false, st.2))
           | Some _ =>
               r <- (if name == "" then Ret (false, st.2) else search_pointcut typed s name st.2.1 st.2.2) ;;
               Ret (if r.1 : bool then (true, (true, (set_scope name r.2.1, r.2.2))) else (false, (false, r.2)))
           end) interface_list (false, (p, possibilities)) ;;
    Ret r.2
  else Ret (in_names (id_name (q_name p)) ["IMPLEMENTATION"; "CALL"], (p, possibilities)).

(** The possibilities by their values: that of a declaration, which is a tree, is
    empty. *)
Definition unique_by_value (possibilities : arr seq_decl) : arr seq_decl :=
  foldl (fun u kd => if findElement "" u then u else u ++ [("", kd.2)]) [] possibilities.

Definition rtxTypeCheck_ItfNameDefinesPointcut (typed : bool) (s : session) (p : seq_proto) (itfName : string)
    (interface_list : list string) : cw_outcome (bool * seq_proto) :=
  r <- rtxTypeCheck_ItfNameDefinesPointcut_recursive typed s p itfName interface_list [] ;;
  let '(found, (p, possibilities)) := r in
  Ret (if found : bool then (true, p)
       else match unique_by_value possibilities with
            | [(_, d)] => (true, e_rtype d)
            | _ => (false, p)
            end).

Definition rtxTypeCheck_GetType (s : session) (rtype : ident) : cw_outcome (option type_tree) :=
  t <- load_itf (D := D) (id_scope rtype) s ;;
  Ret (t ← t; List.find (fun entry => (id_name (yt_rtype entry) == id_name rtype) &&
                                      (id_scope (yt_rtype entry) == id_scope rtype)) (ft_block t)).

(** ** Chunks and declarations *)

Definition rtxTypeCheck_MatchPointcuts (qualifiedPointcut checkedPointcut : seq_proto) : bool :=
  (unscoped (q_name checkedPointcut) || (id_scope (q_name checkedPointcut) == id_scope (q_name qualifiedPointcut))) &&
  (length (q_params qualifiedPointcut) =? length (q_params checkedPointcut)) &&
  forallb (fun rt => param_matches rt.2 rt.1) (zip (q_params qualifiedPointcut) (q_params checkedPointcut)).

(** The pointcut of an element of the type that a chunk of this type is to
    implement. *)
Definition searched_type (chunk_type : string) (itfEntry : type_item) : option seq_proto :=
  match itfEntry with
  | TDecl p => if chunk_type == "decl" then Some p else None
  | TChunk p => if chunk_type == "chunk" then Some p else None
  | TMethod p => if chunk_type == "method" then Some p else None
  | _ => None
  end.

(** The answer and the pointcut, which becomes that of the interface. *)
Definition rtxTypeCheck_ItfTypeDefinesChunk (itfType : type_tree) (thePointcut : seq_proto) (chunk_type : string)
    : cw_outcome (bool * seq_proto) :=
  possibilities <- cw_foreach (fun itfEntry ps =>
      match searched_type chunk_type itfEntry with
      | Some p =>
          if (id_name (q_name p) == id_name (q_name thePointcut)) && rtxTypeCheck_MatchPointcuts p thePointcut
          then prototype <- full_name p ;; Ret (aupd prototype (fun _ => p) ps)
          else Ret ps
      | None => Ret ps
      end) (yt_body itfType) [] ;;
  Ret (match possibilities with [(_, p)] => (true, p) | _ => (false, thePointcut) end).

(** The first chunk of a body that a test accepts, given a pointcut. *)
Fixpoint give_pointcut (test : chunk -> bool) (p : seq_proto) (body : list chunk) : option (list chunk) :=
  match body with
  | [] => None
  | c :: body => if test c then Some (set_pointcut p c :: body) else body ← give_pointcut test p body; Some (c :: body)
  end.

(** The answer and the body. *)
Definition given (r : option (list chunk)) (body : list chunk) : bool * list chunk :=
  match r with Some body => (true, body) | None => (false, body) end.

(** An interface has qualified names; else the run ends. *)
Definition rtxTypeCheck_TemplateHasChunk (chunkRtype : seq_proto) (body : list chunk) : cw_outcome (bool * list chunk) :=
  if proto_is_qualified chunkRtype then
    Ret (given (give_pointcut (fun c => (id_name (q_name chunkRtype) == id_name (q_name (b_pointcut c))) &&
                                        rtxTypeCheck_MatchPointcuts chunkRtype (b_pointcut c)) chunkRtype body) body)
  else Error.

(** Of one full name. *)
Definition same_full_name (p q : seq_proto) : bool :=
  match full_name p, full_name q with Ret x, Ret y => x == y | _, _ => false end.

(** [rtxTypeCheck_TplTypeHasMethod] and [rtxTypeCheck_TplTypeHasDecl]: a chunk of
    this type with the full name. *)
Definition has_chunk_of (chunk_type : string) (p : seq_proto) (body : list chunk) : bool * list chunk :=
  given (give_pointcut (fun c => (b_chunk_type c == chunk_type) && (id_name (q_name (b_pointcut c)) == id_name (q_name p)) &&
                                 same_full_name (b_pointcut c) p) p body) body.

Definition rtxTypeCheck_TplTypeHasMethod := has_chunk_of "method".
Definition rtxTypeCheck_TplTypeHasDecl := has_chunk_of "decl".

(** A place holder against a pointcut; one with fewer parameters has no name for
    the next. *)
Definition hole_is (p : seq_proto) (hole : placeholder) : cw_outcome bool :=
  match hole with
  | PPointcut _ q =>
      if (id_name (q_name q) == id_name (q_name p)) && (id_scope (q_name q) == "") then
        r <- cw_first (fun ik _ =>
               match q_params q !! ik.1 with
               | None => Error
               | Some pRtype =>
                   nameTpl <- rtxRTypeName (TId pRtype) ;; nameItf <- rtxRTypeName (TId ik.2) ;;
                   Ret (negb (nameTpl == nameItf), tt)
               end) (imap pair (q_params p)) tt ;;
        Ret (negb r.1)
      else Ret (same_full_name q p)
  | _ => Ret false
  end.

Definition rtxTypeCheck_TemplateHasPointcut (p : seq_proto) (body : list chunk) : cw_outcome bool :=
  r <- cw_first (fun hole _ => b <- hole_is p hole ;; Ret (b, tt)) (flat_map b_holes body) tt ;; Ret r.1.

Definition rtxTypeCheck_TplTypeHasAttribute (name : string) (mapping : list string) : bool := in_names name mapping.

Definition builtin_pointcut (name : string) : seq_proto := SeqProto (Ident "" name true) [].

(** By the qualifier of the sequence. *)
Definition rtxTypeCheck_TemplateBuiltinItems (qualifier : string) (body : list chunk) : cw_outcome (bool * list chunk) :=
  if (qualifier == "required") || (qualifier == "optional")
  then b <- rtxTypeCheck_TemplateHasPointcut (builtin_pointcut "IMPLEMENTATION") body ;; Ret (b, body)
  else rtxTypeCheck_TemplateHasChunk (builtin_pointcut "CALL") body.

Definition rtxTypeCheck_TypeDecl (c : chunk) : bool :=
  (b_decl_type c == "enum") ||
  (forallb (fun decl => negb (d_name decl == "")) (b_fields c) &&
   existsb (fun decl => negb (d_storage decl == "typedef") && negb (d_name decl == "")) (b_fields c)).

(** ** Place holders *)

Definition rtxTypeCheck_ParametersMatch (rtype1 rtype2 : seq_proto) : bool :=
  same_full_name (SeqProto (Ident "" "InternalTest" true) (q_params rtype1))
                 (SeqProto (Ident "" "InternalTest" true) (q_params rtype2)).

(** [tplRtype]: the prototype of the template around, if any.  A call of a method
    means the first of its name and number of parameters: what the types of
    the arguments exclude is put in a list inside of the loop and removed by one
    outside of it, which is empty. *)
Definition rtxTypeCheck_CheckPlaceholder (fuel : nat) (s : session) (tplRtype : option seq_proto)
    (chunk_scope itfName : string) (interface_list : list string) (hole : placeholder)
    : cw_outcome (bool * placeholder) :=
  match hole with
  | PType rtype => t <- rtxTypeCheck_GetType s rtype ;; Ret (bool_decide (is_Some t), hole)
  | PVar => Ret (true, hole)
  | PMethodCall rtype name arity =>
      t <- rtxTypeCheck_GetType s rtype ;;
      Ret (match t with
           | None => false
           | Some t => existsb (fun x => match x with
                                         | TMethod p => (id_name (q_name p) == name) && (length (q_params p) =? arity)
                                         | _ => false
                                         end) (yt_body t)
           end, hole)
  | PSequenceCall seqName args =>
      let itfName := if id_scope seqName == "" then chunk_scope else id_scope seqName in
      r <- rtxTypeCheck_ItfNameDefinesSequence (D := front_disk) fuel s (SeqProto seqName args) itfName [] "" ;;
      Ret (r.1 && (r.2.2 == "provided"), hole)
  | PPointcut typed p =>
      if (id_scope (q_name p) == "") && id_global (q_name p) && (id_name (q_name p) == "IMPLEMENTATION") then
        match tplRtype with
        | Some rtype => Ret (rtxTypeCheck_ParametersMatch rtype p, hole)
        | None => Error
        end
      else
        r <- rtxTypeCheck_ItfNameDefinesPointcut typed s p itfName interface_list ;; Ret (r.1, PPointcut typed r.2)
  | PUnknown => Ret (false, hole)
  end.

(** ** Templates *)

Definition rtxTypeCheck_ItfTypeDefinesAttribute (itfType : type_tree) (attribute : string) : bool :=
  in_names attribute (yt_attributes itfType).

(** Each chunk is something of the type, which completes its pointcut. *)
Definition type_chunks (y : type_tree) (body : list chunk) : cw_outcome (bool * list chunk) :=
  cw_foreach (fun entry st =>
    r <- rtxTypeCheck_ItfTypeDefinesChunk y (b_pointcut entry) (b_chunk_type entry) ;;
    Ret (st.1 && (negb (b_chunk_type entry == "decl") || rtxTypeCheck_TypeDecl entry) && r.1,
         st.2 ++ [set_pointcut r.2 entry])) body (true, []).

Definition n_decls (body : list chunk) : nat := length (List.filter (fun c => b_chunk_type c == "decl") body).

(** One element of the type in the template. *)
Definition template_has (mapping : list string) (entry : type_item) (body : list chunk)
    : cw_outcome (bool * list chunk) :=
  match entry with
  | TPointcut p => b <- rtxTypeCheck_TemplateHasPointcut p body ;; Ret (b, body)
  | TChunk p => rtxTypeCheck_TemplateHasChunk p body
  | TMethod p => Ret (rtxTypeCheck_TplTypeHasMethod p body)
  | TDecl p => Ret (rtxTypeCheck_TplTypeHasDecl p body)
  | TAttribute _ name => Ret (rtxTypeCheck_TplTypeHasAttribute name mapping, body)
  | TUnknown _ => Ret (true, body)
  end.

Definition type_items (mapping : list string) (items : list type_item) (body : list chunk)
    : cw_outcome (bool * list chunk) :=
  cw_foreach (fun entry st => r <- template_has mapping entry st.2 ;; Ret (st.1 && r.1, r.2)) items (true, body).

(** A type that is found and is not in the table of the interface has no
    declaration to refer to: the run ends. *)
Definition TemplateSpec_type (fuel : nat) (s : session) (t : template) (interface_list : list string)
    : cw_outcome (bool * template) :=
  r <- rtxInterfaceNameHasType fuel s (q_name (tp_rtype t)) (id_scope (q_name (tp_rtype t))) interface_list ;;
  let '(found, name) := r in
  let tplRtype := SeqProto name (q_params (tp_rtype t)) in
  if negb found then Ret (false, set_tpl tplRtype (tp_body t) t)
  else
    itfTree <- load_itf (D := D) (id_scope name) s ;;
    match itfTree with
    | None => Ret (false, set_tpl tplRtype (tp_body t) t)
    | Some itfTree =>
        match aget (id_name name) (ft_types itfTree) with
        | None => Error
        | Some y =>
            known <- type_chunks y (tp_body t) ;;
            full <- type_items (tp_mapping t) (yt_body y) known.2 ;;
            Ret (known.1 && (n_decls (tp_body t) =? 1) && full.1 &&
                 forallb (rtxTypeCheck_ItfTypeDefinesAttribute y) (tp_mapping t), set_tpl tplRtype full.2 t)
        end
    end.

(** The test reads attributes of the node of the pointcut that its name has, not
    the node: they are empty. *)
Definition rtxTypeCheck_ChunkIsBuiltin (pointcut_global pointcut_scope pointcut_name : string)
    (specifier qualifier : string) : bool * bool :=
  if (pointcut_global == "true") && (pointcut_scope == "") && (pointcut_name == "CALL") && (specifier == "sequence")
  then if qualifier == "provided" then (true, false) else (false, true)
  else (false, false).

(** What the declaration of the sequence demands. *)
Definition sequence_item (item : seq_item) (body : list chunk) : cw_outcome (bool * list chunk) :=
  match item with
  | SChunk p => rtxTypeCheck_TemplateHasChunk p body
  | SPointcut qualifier p =>
      if qualifier == "provided" then b <- rtxTypeCheck_TemplateHasPointcut p body ;; Ret (b, body)
      else Ret (true, body)
  | SForbidden => Ret (true, body)
  end.

Definition sequence_items (items : list seq_item) (body : list chunk) : cw_outcome (bool * list chunk) :=
  cw_foreach (fun item st => r <- sequence_item item st.2 ;; Ret (st.1 && r.1, r.2)) items (true, body).

Definition check_holes (check : placeholder -> cw_outcome (bool * placeholder)) (holes : list placeholder)
    : cw_outcome (bool * list placeholder) :=
  cw_foreach (fun ph st => r <- check ph ;; Ret (st.1 && r.1, st.2 ++ [r.2])) holes (true, []).

(** A chunk of a sequence: its pointcut, then its place holders. *)
Definition sequence_chunk (fuel : nat) (s : session) (tplRtype : seq_proto) (itfName : string) (qualifier : string)
    (interface_list : list string) (c : chunk) : cw_outcome (bool * chunk) :=
  let '(builtin, error) := rtxTypeCheck_ChunkIsBuiltin "" "" "" "sequence" qualifier in
  if error : bool then Ret (false, c)
  else if builtin : bool then Ret (true, c)
  else
    let id := q_name (b_pointcut c) in
    r <- rtxTypeCheck_ItfNameDefinesPointcut false s (b_pointcut c)
           (if unscoped id then id_scope (q_name tplRtype) else id_scope id) interface_list ;;
    h <- check_holes (rtxTypeCheck_CheckPlaceholder fuel s (Some tplRtype) (id_scope (q_name r.2)) itfName interface_list)
           (b_holes c) ;;
    Ret (r.1 && h.1, Chunk (b_chunk_type c) (b_decl_type c) r.2 (b_fields c) h.2).

Definition sequence_chunks (fuel : nat) (s : session) (tplRtype : seq_proto) (itfName : string) (qualifier : string)
    (interface_list : list string) (body : list chunk) : cw_outcome (bool * list chunk) :=
  cw_foreach (fun c st =>
    r <- sequence_chunk fuel s tplRtype itfName qualifier interface_list c ;; Ret (st.1 && r.1, st.2 ++ [r.2]))
    body (true, []).

Definition TemplateSpec_sequence (fuel : nat) (s : session) (t : template) (interface_list : list string)
    : cw_outcome (bool * template) :=
  r <- rtxTypeCheck_ItfNameDefinesSequence (D := front_disk) fuel s (tp_rtype t) (id_scope (q_name (tp_rtype t)))
         interface_list "" ;;
  let '(found, (tplRtype, _)) := r in
  if negb found then Ret (false, set_tpl tplRtype (tp_body t) t)
  else
    tplFullName <- full_name tplRtype ;;
    itfTree <- load_itf (D := D) (id_scope (q_name tplRtype)) s ;;
    match itfTree with
    | None => Ret (false, set_tpl tplRtype (tp_body t) t)
    | Some itfTree =>
        match aget tplFullName (default [] (aget (id_name (q_name tplRtype)) (ft_sequences itfTree))) with
        | None => Error
        | Some itfTplNode =>
            let qualifier := e_qualifier (st_decl itfTplNode) in
            full <- sequence_items (st_body itfTplNode) (tp_body t) ;;
            builtin <- rtxTypeCheck_TemplateBuiltinItems qualifier full.2 ;;
            known <- sequence_chunks fuel s tplRtype (ft_name itfTree) qualifier interface_list builtin.2 ;;
            Ret (full.1 && builtin.1 && known.1, set_tpl tplRtype known.2 t)
        end
    end.

Definition rtxTypeCheck_Template (fuel : nat) (s : session) (t : template) (interfaces : list string)
    : cw_outcome (bool * template) :=
  if tp_type t == "sequence" then TemplateSpec_sequence fuel s t interfaces
  else if (tp_type t == "type") || (tp_type t == "builtintype") then TemplateSpec_type fuel s t interfaces
  else Error.

(** ** Files *)

(** [BRest]: an interface, a device or a configuration. *)
#[warnings="-register-all"]
Inductive tpl_node :=
| BTpl (t : template)
| BWith (interfaces : list string) (body : list tpl_node) (c_block : list placeholder)
| BRest
| BOther (type : string).

(** The place holders of the C block of a [with]: a pointcut there has no
    parameters, and its scope names the interface for those that follow. *)
Definition with_holes (fuel : nat) (s : session) (interfaces : list string) (c_block : list placeholder)
    : cw_outcome (bool * list placeholder) :=
  st <- cw_foreach (fun ph st =>
    let '(dummy_itf, ph) :=
      match ph with
      | PPointcut _ p => (id_scope (q_name p), PPointcut false (SeqProto (q_name p) []))
      | _ => (st.2.1, ph)
      end in
    r <- rtxTypeCheck_CheckPlaceholder fuel s None "" dummy_itf interfaces ph ;;
    Ret (st.1 && r.1, (dummy_itf, st.2.2 ++ [r.2]))) c_block (true, ("", [])) ;;
  Ret (st.1, st.2.2).

(** What a block answers is the number of its nodes that were rejected; [false] is
    the empty value, which the count is as long as there are none. *)
Definition block_answer (count : nat) : bool := negb (count =? 0).

Fixpoint rtxTpl_TypeCheckFor (fuel : nat) (s : session) (local_node : tpl_node) (interfaces : list string)
    {struct local_node} : cw_outcome (bool * tpl_node) :=
  match local_node with
  | BTpl t => r <- rtxTypeCheck_Template fuel s t interfaces ;; Ret (r.1, BTpl r.2)
  | BWith itfs body c_block =>
      st <- cw_foreach (fun item st =>
              r <- rtxTpl_TypeCheckFor fuel s item itfs ;;
              Ret (if r.1 : bool then st.1 else S st.1, st.2 ++ [r.2])) body (0, []) ;;
      h <- with_holes fuel s itfs c_block ;;
      Ret (block_answer st.1 && h.1, BWith itfs st.2 h.2)
  | BRest => Ret (true, BRest)
  | BOther _ => Error
  end.

(** On the root block. *)
Definition rtxTpl_TypeCheck (fuel : nat) (s : session) (block : list tpl_node) : cw_outcome (bool * list tpl_node) :=
  st <- cw_foreach (fun item st =>
          r <- rtxTpl_TypeCheckFor fuel s item [] ;;
          Ret (if r.1 : bool then st.1 else S st.1, st.2 ++ [r.2])) block (0, []) ;;
  Ret (block_answer st.1, st.2).

End back.

(** ** The tests of the repository *)

(** What the check of the middle end leaves of an interface, as it is saved:
    without the trees of its parents, which the searches then load. *)
Definition attributes_of (body : list type_item) : list string :=
  omap (fun x => match x with TAttribute _ name => Some name | _ => None end) body.

Definition types_of (body : list mdecl) : list type_tree :=
  omap (fun d => match d with
                 | MType rtype items => Some (TypeTree rtype (attributes_of items) items)
                 | MBuiltin rtype items => Some (TypeTree rtype (attributes_of (default [] items)) (default [] items))
                 | _ => None
                 end) body.

Definition sequences_of (body : list mdecl) : arr (arr seq_tree) :=
  foldl (fun a d => match d with
                    | MSequence qualifier p items =>
                        match full_name p with
                        | Ret k => aupd (id_name (q_name p))
                                     (fun o => aupd k (fun _ => SeqTree (SeqDecl p qualifier) items) (default [] o)) a
                        | _ => a
                        end
                    | _ => a
                    end) [] body.

Definition tree_of_itf (n : inode) (body : list mdecl) : full_tree :=
  FullTree (n_name n) (map (fun y => (id_name (yt_rtype y), y)) (types_of body)) (k_variables (n_tables n))
    (k_pointcuts (n_tables n)) (sequences_of body) (map (fun kp => (kp.1, None)) (n_inheritance n)) (types_of body).

Definition trees_of (r : bool * (list mid_node * heap)) : list full_tree :=
  omap (fun m => match m with MItf l body => Some (tree_of_itf (MiddleCheck.node r.2.2 l) body) | _ => None end) r.2.1.

Definition tree_file (name : string) : string := (name ++ ".tree")%string.

Definition disk_of (ts : list full_tree) : Disk full_tree := {|
  catPath := String.append; local_backlib_path := "lib/"; backlib_path := "";
  tree_at f := List.find (fun t => f == "lib/" ++ tree_file (ft_name t))%string ts
|}.

Definition session_of (ts : list full_tree) : session :=
  Session (set_interfaces (map (fun t => (ft_name t, ItfEntry (ft_name t) (Some (tree_file (ft_name t))) [])) ts)
             empty_cache) empty_cache.

(** The check of a file: of its interfaces, and if these are accepted of its
    templates. *)
Definition back_verdict (itfs : list itf_source) (block : list tpl_node) : option bool :=
  match check_source (D := no_disk) 50 fresh (map OItf itfs) with
  | Ret ((true, _) as r) =>
      match rtxTpl_TypeCheck (D := disk_of (trees_of r)) 50 (session_of (trees_of r)) (map (fun _ => BRest) itfs ++ block) with
      | Ret (b, _) => Some b
      | _ => None
      end
  | _ => None
  end.

(** tests/typing/05_A to 05_L, on templates of the type Bomb. *)
Definition number (scope : string) : ident := Ident scope "Number" false.

Definition builtin (body : list mdecl) : itf_source := ItfSource "Builtin" [] body.

Definition builtin_number : itf_source :=
  builtin [MBuiltin (bare "Number") None; MPointcut "provided" (proto_of "insert_types" [])].

Definition the_lkm (body : list mdecl) : itf_source := ItfSource "LKM" ["Builtin"] body.

Definition bomb_of (items : list type_item) : mdecl := MType (bare "Bomb") (TDecl (proto_of "insert_types" []) :: items).

Definition numeric : type_item := TAttribute (number "Builtin") "numeric".

Definition chunk_of (kind x : string) (ps : list ident) : chunk := Chunk kind "block" (proto_of x ps) [] [].

Definition decl_of (p : seq_proto) : chunk := Chunk "decl" "block" p [CDecl "i" "auto"] [].

Definition int_i : chunk := decl_of (proto_of "insert_types" []).

Definition with_lkm (ts : list template) : list tpl_node := [BWith ["LKM"] (map BTpl ts) []].

Definition bomb_tpl (name : ident) (body : list chunk) (mapping : list string) : template :=
  Template "type" (SeqProto name []) body mapping.

Definition lkm_bomb (body : list chunk) (mapping : list string) : list tpl_node :=
  with_lkm [bomb_tpl (scoped "LKM" "Bomb") body mapping].

Definition test_05 : list (list itf_source * list tpl_node) := [
  ([builtin [MBuiltin (bare "String") None; MPointcut "provided" (pouet_string "")];
    the_lkm [MBuiltin (bare "String") None; MPointcut "provided" (pouet_string "LKM")]], lkm_bomb [] []);
  ([builtin [MBuiltin (bare "String") None; MPointcut "provided" (proto_of "insert_types" []);
             bomb_of [TAttribute (bare "String") "s"]];
    the_lkm [MBuiltin (bare "String") None; bomb_of [TAttribute (scoped "LKM" "String") "s"]]],
   with_lkm [bomb_tpl (bare "Bomb") [] []]);
  ([builtin_number; the_lkm [bomb_of [TAttribute (number "") "num"]]], lkm_bomb [] ["num"]);
  ([builtin [MBuiltin (bare "Number") None; MPointcut "provided" (proto_of "insert_types" []);
             MPointcut "provided" (proto_of "insert_types" [number ""])];
    the_lkm [bomb_of [TAttribute (number "") "num"]]], lkm_bomb [decl_of (proto_of "insert_types" [number ""])] ["num"]);
  ([builtin_number; the_lkm [MPointcut "provided" (proto_of "insert_types" []);
      MType (bare "Bomb") [TDecl (SeqProto (scoped "Builtin" "insert_types") []); TAttribute (number "") "num"]]],
   lkm_bomb [decl_of (SeqProto (scoped "LKM" "insert_types") [])] ["num"]);
  ([builtin_number; the_lkm [bomb_of [numeric]]], lkm_bomb [int_i] ["num"]);
  ([builtin_number; the_lkm [bomb_of [numeric]]], lkm_bomb [int_i; chunk_of "chunk" "testMethod" [number ""]] ["numeric"]);
  ([builtin_number; the_lkm [bomb_of [TMethod (proto_of "testMethod" []); numeric]]],
   lkm_bomb [int_i; chunk_of "method" "testMethod" [number ""]] ["numeric"]);
  ([builtin_number; the_lkm [MBuiltin (bare "Number") None;
      bomb_of [TMethod (proto_of "testMethod" [number "Builtin"]); TMethod (proto_of "testMethod" [number "LKM"]); numeric]]],
   lkm_bomb [int_i; chunk_of "method" "testMethod" [number ""]] ["numeric"]);
  ([builtin_number; the_lkm [MPointcut "provided" (proto_of "testChunk" [number ""]); bomb_of [numeric]]],
   lkm_bomb [int_i; chunk_of "chunk" "testChunk" [number ""]] ["numeric"]);
  ([builtin_number; the_lkm [MPointcut "provided" (proto_of "testChunk" []);
      bomb_of [TChunk (proto_of "testChunk" []); numeric]]],
   lkm_bomb [int_i; chunk_of "chunk" "testChunk" [number ""]] ["numeric"]);
  ([builtin_number; the_lkm [MBuiltin (bare "Number") None; MPointcut "provided" (proto_of "testChunk" [number "Builtin"]);
      MPointcut "provided" (proto_of "testChunk" [number "LKM"]);
      bomb_of [TChunk (proto_of "testChunk" [number "Builtin"]); TChunk (proto_of "testChunk" [number "LKM"]); numeric]]],
   lkm_bomb [int_i; chunk_of "chunk" "testChunk" [number ""]] ["numeric"]);
  ([builtin_number; the_lkm [MBuiltin (bare "String") None; MPointcut "provided" (pouet_string "LKM");
      bomb_of [TChunk (pouet_string ""); TMethod (proto_of "Explode" [number ""]);
               TAttribute (bare "String") "s"; TAttribute (number "") "nb"]]],
   lkm_bomb [int_i; chunk_of "chunk" "pouet" [bare "String"]; chunk_of "method" "Explode" [number ""]] ["nb"; "s"])
].

Definition back_verdicts : list (list itf_source * list tpl_node) -> list (option bool) :=
  map (fun test => back_verdict test.1 test.2).

Example verdict_05 : back_verdicts test_05 = replicate 12 (Some false) ++ [Some true].
Proof. vm_compute. reflexivity. Qed.

(** tests/typing/02_A, 02_B and 02_D, on templates of sequences, and one that is
    accepted. *)
Definition something (scope : string) (ps : list ident) (body : list chunk) : template :=
  Template "sequence" (SeqProto (Ident scope "DoSomething" false) ps) body [].

Definition builtin_string : itf_source := builtin [MBuiltin (bare "String") None].

Definition do_something (ps : list ident) (items : list seq_item) : mdecl :=
  MSequence "provided" (proto_of "DoSomething" ps) items.

Definition test_pointcut : seq_proto := proto_of "test_pointcut" [].

Definition lkm_sequence : itf_source :=
  the_lkm [MPointcut "provided" test_pointcut; do_something [bare "String"] [SChunk test_pointcut]].

Definition implemented : list chunk :=
  [Chunk "chunk" "block" test_pointcut [] []; Chunk "chunk" "block" (SeqProto (Ident "" "CALL" true) []) [] []].

Definition test_02 : list (list itf_source * list tpl_node) := [
  ([builtin_string; the_lkm [MPointcut "provided" test_pointcut]], with_lkm [something "LKM" [] []]);
  ([builtin_string; lkm_sequence],
   with_lkm [something "LKM" [scoped "LKM" "String"] implemented; something "LKM" [scoped "LKM" "Context"] implemented]);
  ([builtin_string; ItfSource "Algo" ["Builtin"] [do_something [bare "String"] []];
    ItfSource "LKM" ["Builtin"; "Algo"] (o_body lkm_sequence)], with_lkm [something "" [bare "String"] []]);
  ([builtin_string; lkm_sequence], with_lkm [something "" [bare "String"] implemented])
].

Example verdict_02 : back_verdicts test_02 = [Some false; Some false; Some false; Some true].
Proof. vm_compute. reflexivity. Qed.
