(* ===== verification/BackSound.v ===== *)
(** * What the check of the back end promises

    Theorems about BackCheck.v.  A template of a type is accepted exactly when it
    conforms to the declaration of the type ([conforms]); an accepted template of
    a sequence has what the declaration that it resolves to demands, in order
    ([provides]), and place holders that refer to something; the verdict on a file, which counts rejected nodes and is read as
    a truth value, is that of its best block. *)
From Stdlib Require Import String.
From S2P Require Import Prelude CodeWorker ConfigMatcher LinkSession RegisterMask FrontCheck MiddleCheck MiddleSound BackCheck.

Local Open Scope string_scope.
Local Open Scope list_scope.
Local Open Scope nat_scope.
Local Open Scope cw_scope.
Local Infix "==" := String.eqb (at level 70).

(** ** Loops that collect an answer *)

(** A loop over a list with a body that never fails. *)
Lemma cw_foreach_Ret {A S} (f : A -> S -> S) (g : A -> S -> cw_outcome S) l s :
  (forall x s, g x s = Ret (f x s)) -> cw_foreach g l s = Ret (foldl (fun s x => f x s) s l).
Proof. intros H. revert s. induction l as [|x l IH]; intros s; simpl; [done|]. rewrite H. apply IH. Qed.

(** A loop that keeps what it is given, as long as all answer [true]. *)
Lemma cw_foreach_all {A B} (f : A -> B -> cw_outcome (bool * B)) l b ok r :
  (forall x r, x ∈ l -> f x b = Ret r -> r.2 = b) ->
  cw_foreach (fun x st => r <- f x st.2 ;; Ret (st.1 && r.1, r.2)) l (ok, b) = Ret (true, r) <->
  ok = true /\ r = b /\ (forall x, x ∈ l -> f x b = Ret (true, b)).
Proof.
  revert ok. induction l as [|x l IH]; intros ok Hf; simpl.
  - split; [intros [= -> ->]; split_and!; [done|done|by intros x ?%not_elem_of_nil]|by intros (-> & -> & _)].
  - destruct (f x b) as [[b1 b2]| |] eqn:E; simpl;
      [|split; [done|intros (_ & _ & H); specialize (H x (list_elem_of_here x l)); congruence]..].
    assert (Hb : b2 = b) by (apply (Hf x (b1, b2)); [by left|done]). subst b2. rewrite IH.
    + split.
      * intros ([-> ->]%andb_true_iff & -> & H). split_and!; [done|done|].
        intros z [->|Hz]%elem_of_cons; [done|by apply H].
      * intros (-> & -> & H). assert (E' := H x (list_elem_of_here x l)). rewrite E in E'. injection E' as ->.
        split_and!; [done|done|]. intros z Hz. apply H. by right.
    + intros z r' Hz. apply Hf. by right.
Qed.

(** ** Pointcuts *)

(** The pointcut [q] of a template may stand for [p]: what it leaves out, a scope
    of its own or of a parameter, is that of [p]. *)
Record fits (p q : seq_proto) : Prop := {
  fits_name : id_name (q_name q) = id_name (q_name p);
  fits_scope : (id_global (q_name q) = false /\ id_scope (q_name q) = "") \/
               id_scope (q_name q) = id_scope (q_name p);
  fits_params : Forall2 (fun i j => id_name j = id_name i /\
                  (id_global j = true \/ id_scope j = "" \/ id_scope j = id_scope i)) (q_params p) (q_params q)
}.

Lemma param_matches_spec j i : param_matches j i = true <->
  id_name j = id_name i /\ (id_global j = true \/ id_scope j = "" \/ id_scope j = id_scope i).
Proof. unfold param_matches. rewrite andb_true_iff, !orb_true_iff, !String.eqb_eq. tauto. Qed.

Lemma unscoped_spec i : unscoped i = true <-> id_global i = false /\ id_scope i = "".
Proof. unfold unscoped. by rewrite andb_true_iff, negb_true_iff, String.eqb_eq. Qed.

Lemma fits_spec p q :
  fits p q <-> id_name (q_name p) = id_name (q_name q) /\ rtxTypeCheck_MatchPointcuts p q = true.
Proof.
  assert (H : forall l k, (length l =? length k) && forallb (fun rt => param_matches rt.2 rt.1) (zip l k) = true <->
    Forall2 (fun i j => id_name j = id_name i /\
      (id_global j = true \/ id_scope j = "" \/ id_scope j = id_scope i)) l k).
  { induction l as [|i l IH]; intros [|j k]; simpl.
    - split; [by constructor|done].
    - split; [done|inversion 1].
    - split; [done|inversion 1].
    - rewrite Forall2_cons, <- IH, !andb_true_iff, param_matches_spec. tauto. }
  unfold rtxTypeCheck_MatchPointcuts. rewrite <- andb_assoc, andb_true_iff, H, orb_true_iff, unscoped_spec, String.eqb_eq.
  split; [intros [H1 H2 H3]; by split_and!|intros (H1 & H2 & H3); by split].
Qed.

Lemma fits_bool p q :
  (id_name (q_name p) == id_name (q_name q)) && rtxTypeCheck_MatchPointcuts p q = true <-> fits p q.
Proof. by rewrite fits_spec, andb_true_iff, String.eqb_eq. Qed.

(** A place holder for a pointcut by its name alone, and the parameters that it
    has like those of [p], up to the [n]th. *)
Definition named_as (p q : seq_proto) : Prop :=
  id_name (q_name q) = id_name (q_name p) /\ id_scope (q_name q) = "".

Definition like_params (n : nat) (p q : seq_proto) : Prop :=
  forall m i, m < n -> q_params p !! m = Some i ->
    exists j, q_params q !! m = Some j /\ rtxRTypeName (TId j) = rtxRTypeName (TId i).

(** A place holder for [p]: by its name and the names of the types of its
    parameters, of which it may have more, or by its full name. *)
Definition hole_fits (p : seq_proto) (hole : placeholder) : Prop :=
  exists typed q, hole = PPointcut typed q /\
    ((named_as p q /\ like_params (length (q_params p)) p q) \/ (~ named_as p q /\ seq_key q = seq_key p)).

(** One that lacks a parameter, after some that are like those of [p], ends the
    run. *)
Definition hole_short (p : seq_proto) (hole : placeholder) : Prop :=
  exists typed q, hole = PPointcut typed q /\ named_as p q /\
    exists n, n < length (q_params p) /\ q_params q !! n = None /\ like_params n p q.

Definition has_pointcut (p : seq_proto) (body : list chunk) : Prop :=
  exists n hole, flat_map b_holes body !! n = Some hole /\ hole_fits p hole /\
    forall m hole', m < n -> flat_map b_holes body !! m = Some hole' -> ~ hole_short p hole'.

(** The loop over the parameters, from the [k]th. *)
Definition walk_params (qs : list ident) (k : nat) (ps : list ident) : cw_outcome (bool * unit) :=
  cw_first (fun ik _ =>
    match qs !! ik.1 with
    | None => Error
    | Some pRtype =>
        nameTpl <- rtxRTypeName (TId pRtype) ;; nameItf <- rtxRTypeName (TId ik.2) ;;
        Ret (negb (nameTpl == nameItf), tt)
    end) (imap (fun n i => (k + n, i)) ps) tt.

Definition like_from (qs : list ident) (k : nat) (ps : list ident) (n : nat) : Prop :=
  forall m i, m < n -> ps !! m = Some i ->
    exists j, qs !! (k + m) = Some j /\ rtxRTypeName (TId j) = rtxRTypeName (TId i).

Lemma like_from_cons qs k i ps j n :
  qs !! k = Some j -> rtxRTypeName (TId j) = rtxRTypeName (TId i) ->
  like_from qs (S k) ps n -> like_from qs k (i :: ps) (S n).
Proof.
  intros Hj Hn H [|m] i' Hm Hi.
  - injection Hi as <-. exists j. by rewrite Nat.add_0_r.
  - rewrite <- Nat.add_succ_comm. apply (H m i'); [lia|done].
Qed.

Lemma walk_params_spec qs k ps :
  match walk_params qs k ps with
  | Ret (false, _) => like_from qs k ps (length ps)
  | Ret (true, _) => exists n i j, ps !! n = Some i /\ qs !! (k + n) = Some j /\
      rtxRTypeName (TId j) <> rtxRTypeName (TId i) /\ like_from qs k ps n
  | Error => exists n, n < length ps /\ qs !! (k + n) = None /\ like_from qs k ps n
  | Short => False
  end.
Proof.
  revert k. induction ps as [|i ps IH]; intros k; [by intros m ? ?; simpl in *; lia|].
  unfold walk_params. rewrite imap_cons. cbn [cw_first fst snd]. rewrite Nat.add_0_r.
  destruct (qs !! k) as [j|] eqn:Hj; cbn [cw_bind].
  2: { exists 0. rewrite Nat.add_0_r. split_and!; [simpl; lia|done|]. intros m ? ?; lia. }
  destruct (ident_name_Ret j) as [nj Enj], (ident_name_Ret i) as [ni Eni]. rewrite Enj, Eni. cbn [cw_bind fst snd].
  destruct (String.eqb_spec nj ni) as [->|Hne]; cbn [negb].
  2: { exists 0, i, j. rewrite Nat.add_0_r, Enj, Eni. split_and!; [done|done|congruence|]. intros m ? ?; lia. }
  assert (Eij : rtxRTypeName (TId j) = rtxRTypeName (TId i)) by congruence.
  rewrite (imap_ext _ (fun n x => (S k + n, x))) by (intros m x _; simpl; do 2 f_equal; lia).
  change (cw_first _ (imap (fun n x => (S k + n, x)) ps) tt) with (walk_params qs (S k) ps).
  specialize (IH (S k)). destruct (walk_params qs (S k) ps) as [[[] ?]| |]; [| | |done].
  - destruct IH as (n & i' & j' & H1 & H2 & H3 & H4). exists (S n), i', j'. rewrite <- Nat.add_succ_comm.
    split_and!; [done..|by apply (like_from_cons _ _ _ _ j)].
  - by apply (like_from_cons _ _ _ _ j).
  - destruct IH as (n & H1 & H2 & H3). exists (S n). rewrite <- Nat.add_succ_comm.
    split_and!; [simpl; lia|done|by apply (like_from_cons _ _ _ _ j)].
Qed.

(** What the test of one place holder says. *)
Lemma hole_is_spec p hole :
  match hole_is p hole with
  | Ret true => hole_fits p hole
  | Ret false => ~ hole_fits p hole /\ ~ hole_short p hole
  | Error => ~ hole_fits p hole /\ hole_short p hole
  | Short => False
  end.
Proof.
  destruct hole as [| | | |typed q|]; simpl; try (split; by intros (? & ? & ? & _)).
  assert (Hn : (id_name (q_name q) == id_name (q_name p)) && (id_scope (q_name q) == "") = true <-> named_as p q)
    by (unfold named_as; by rewrite andb_true_iff, !String.eqb_eq).
  destruct (_ && _).
  - assert (Hnamed := proj1 Hn eq_refl). change (imap pair (q_params p)) with (imap (fun n i => (0 + n, i)) (q_params p)).
    change (cw_first _ _ tt) with (walk_params (q_params q) 0 (q_params p)).
    pose proof (walk_params_spec (q_params q) 0 (q_params p)) as H.
    destruct (walk_params _ _ _) as [[[] ?]| |]; cbn [cw_bind fst negb]; [| | |done].
    + destruct H as (n & i & j & Hi & Hj & Hne & Hlike). simpl in Hj.
      assert (Hlt : n < length (q_params p)) by by eapply lookup_lt_Some. split.
      * intros (t' & q' & [= <- <-] & [[_ Hl]|[Hno _]]); [|done]. destruct (Hl n i Hlt Hi) as (j' & Hj' & He). congruence.
      * intros (t' & q' & [= <- <-] & _ & n' & Hn' & Hnone & Hl).
        assert (n < n' \/ n' <= n) as [Hl1|Hl1] by lia; [destruct (Hl n i Hl1 Hi) as (j' & Hj' & He); congruence|].
        apply lookup_ge_None in Hnone. apply lookup_lt_Some in Hj. lia.
    + exists typed, q. split; [done|]. by left.
    + split; [|exists typed, q; by split_and!]. destruct H as (n & Hlt & Hnone & Hlike). simpl in Hnone.
      intros (t' & q' & [= <- <-] & [[_ Hl]|[Hno _]]); [|done].
      destruct (lookup_lt_is_Some_2 _ _ Hlt) as [i Hi]. destruct (Hl n i Hlt Hi) as (j & Hj & _). congruence.
  - assert (Hno : ~ named_as p q) by by intros ?%Hn. unfold same_full_name. rewrite !full_name_Ret.
    destruct (String.eqb_spec (seq_key q) (seq_key p)) as [E|E].
    + exists typed, q. split; [done|]. by right.
    + split; [intros (t' & q' & [= <- <-] & [[? _]|[_ ?]]); done|by intros (t' & q' & [= <- <-] & ? & _)].
Qed.

Lemma HasPointcut_spec p body : rtxTypeCheck_TemplateHasPointcut p body = Ret true <-> has_pointcut p body.
Proof.
  unfold rtxTypeCheck_TemplateHasPointcut, has_pointcut. induction (flat_map b_holes body) as [|hole holes IH]; simpl.
  - split; [done|]. intros (n & ? & Hn & _). by rewrite lookup_nil in Hn.
  - pose proof (hole_is_spec p hole) as Hs. destruct (hole_is p hole) as [[]| |]; simpl; [| | |done].
    + split; [intros _|done]. exists 0, hole. split_and!; [done|done|]. intros m ? ?; lia.
    + rewrite IH. split.
      * intros (n & h & Hh & Hf & Hm). exists (S n), h. split_and!; [done|done|].
        intros [|m] h' Hlt Hh'; [injection Hh' as <-; apply Hs|]. apply (Hm m); [lia|done].
      * intros ([|n] & h & Hh & Hf & Hm); [injection Hh as <-; by destruct Hs|]. exists n, h. split_and!; [done|done|].
        intros m h' Hlt Hh'. apply (Hm (S m)); [lia|done].
    + split; [done|]. intros ([|n] & h & Hh & Hf & Hm); [injection Hh as <-; by destruct Hs|].
      destruct (Hm 0 hole ltac:(lia) eq_refl). apply Hs.
Qed.

(** ** Templates of types *)

(** What a chunk with this keyword and pointcut may stand for. *)
Definition candidate (y : type_tree) (kind : string) (pc p : seq_proto) : Prop :=
  exists x, x ∈ yt_body y /\ searched_type kind x = Some p /\ fits p pc.

(** It stands for one thing. *)
Definition stands_for (y : type_tree) (c : chunk) (p : seq_proto) : Prop :=
  forall q, candidate y (b_chunk_type c) (b_pointcut c) q <-> q = p.

(** What an element of the type demands of a template. *)
Definition demand (y : type_tree) (t : template) (x : type_item) : Prop :=
  match x with
  | TPointcut p => has_pointcut p (tp_body t)
  | TChunk p => exists c, c ∈ tp_body t /\ stands_for y c p
  | TMethod p => exists c, c ∈ tp_body t /\ b_chunk_type c = "method" /\ stands_for y c p
  | TDecl p => exists c, c ∈ tp_body t /\ b_chunk_type c = "decl" /\ stands_for y c p
  | TAttribute _ name => name ∈ tp_mapping t
  | TUnknown _ => True
  end.

(** What a decl declares: an enumeration, or declarations with names, one of a
    variable. *)
Definition decl_declares (c : chunk) : Prop :=
  b_decl_type c = "enum" \/
  ((forall d, d ∈ b_fields c -> d_name d <> "") /\ exists d, d ∈ b_fields c /\ d_storage d <> "typedef").

Lemma TypeDecl_spec c : rtxTypeCheck_TypeDecl c = true <-> decl_declares c.
Proof.
  unfold rtxTypeCheck_TypeDecl, decl_declares. rewrite orb_true_iff, andb_true_iff, String.eqb_eq, forallb_forall, existsb_exists.
  apply or_iff_compat_l. split.
  - intros [H1 (d & Hd & [Ht _]%andb_true_iff)].
    split; [intros d' Hd'; apply String.eqb_neq, negb_true_iff, H1; by apply list_elem_of_In|].
    exists d. split; [by apply list_elem_of_In|by apply String.eqb_neq, negb_true_iff].
  - intros [H1 (d & Hd & Ht)]. split; [intros d' Hd'; apply negb_true_iff, String.eqb_neq, H1; by apply list_elem_of_In|].
    exists d. split; [by apply list_elem_of_In|]. apply andb_true_iff.
    split; apply negb_true_iff, String.eqb_neq; [done|by apply H1].
Qed.

Record conforms (y : type_tree) (t : template) : Prop := {
  conf_known : forall c, c ∈ tp_body t -> exists p, stands_for y c p;
  conf_decl : n_decls (tp_body t) = 1;
  conf_fields : forall c, c ∈ tp_body t -> b_chunk_type c = "decl" -> decl_declares c;
  conf_full : forall x, x ∈ yt_body y -> demand y t x;
  conf_mapping : forall name, name ∈ tp_mapping t -> name ∈ yt_attributes y
}.

(** The chunks with the pointcuts they stand for. *)
Definition completes (y : type_tree) (body body' : list chunk) : Prop :=
  Forall2 (fun c c' => exists p, stands_for y c p /\ c' = set_pointcut p c) body body'.

Definition item_proto (x : type_item) : option seq_proto :=
  match x with TChunk p | TMethod p | TDecl p => Some p | _ => None end.

(** The prototypes of a type are told apart: those that match or have one full
    name are the same, and those of chunks are qualified. *)
Record told_apart (y : type_tree) : Prop := {
  apart_qualified : forall p, TChunk p ∈ yt_body y -> proto_is_qualified p = true;
  apart_same : forall x x' p q, x ∈ yt_body y -> x' ∈ yt_body y -> item_proto x = Some p -> item_proto x' = Some q ->
    id_name (q_name p) = id_name (q_name q) ->
    rtxTypeCheck_MatchPointcuts p q = true \/ seq_key p = seq_key q -> p = q
}.

Lemma searched_item kind x p : searched_type kind x = Some p -> item_proto x = Some p.
Proof. destruct x; simpl; intros H; try done; by destruct (_ == _). Qed.

Lemma same_full_name_true p q : same_full_name p q = true <-> seq_key p = seq_key q.
Proof. unfold same_full_name. rewrite !full_name_Ret. apply String.eqb_eq. Qed.

Lemma MatchPointcuts_refl p : rtxTypeCheck_MatchPointcuts p p = true.
Proof.
  unfold rtxTypeCheck_MatchPointcuts. rewrite String.eqb_refl, Nat.eqb_refl, orb_true_r. simpl.
  apply forallb_forall. intros [i j] Hin%list_elem_of_In. simpl.
  apply list_elem_of_lookup in Hin as [n Hn]. rewrite lookup_zip_with in Hn.
  destruct (q_params p !! n); simplify_eq/=. unfold param_matches. by rewrite !String.eqb_refl, !orb_true_r.
Qed.

Section types.
Context (y : type_tree) (Hy : told_apart y).

Definition candidate_in (items : list type_item) (kind : string) (pc p : seq_proto) : Prop :=
  exists x, x ∈ items /\ searched_type kind x = Some p /\
    id_name (q_name p) = id_name (q_name pc) /\ rtxTypeCheck_MatchPointcuts p pc = true.

Lemma candidate_eq kind pc p : candidate y kind pc p <-> candidate_in (yt_body y) kind pc p.
Proof using Type. unfold candidate, candidate_in. by setoid_rewrite fits_spec. Qed.

Definition collected (kind : string) (pc : seq_proto) (items : list type_item) (ps : arr seq_proto) : Prop :=
  NoDup (akeys ps) /\ (forall k p, (k, p) ∈ ps -> k = seq_key p /\ candidate_in items kind pc p) /\
  (forall p, candidate_in items kind pc p -> (seq_key p, p) ∈ ps).

Lemma candidate_in_snoc items x kind pc p :
  candidate_in (items ++ [x]) kind pc p <->
  candidate_in items kind pc p \/
  searched_type kind x = Some p /\ id_name (q_name p) = id_name (q_name pc) /\ rtxTypeCheck_MatchPointcuts p pc = true.
Proof.
  unfold candidate_in. split.
  - intros (z & [Hz| ->%list_elem_of_singleton]%elem_of_app & H); [left; by exists z|by right].
  - intros [(z & Hz & H)|H]; [exists z|exists x]; (split; [apply elem_of_app|done]); [by left|right; by left].
Qed.

Lemma collect kind pc :
  exists ps, cw_foreach (fun itfEntry ps =>
      match searched_type kind itfEntry with
      | Some p =>
          if (id_name (q_name p) == id_name (q_name pc)) && rtxTypeCheck_MatchPointcuts p pc
          then prototype <- full_name p ;; Ret (aupd prototype (fun _ => p) ps)
          else Ret ps
      | None => Ret ps
      end) (yt_body y) [] = Ret ps /\ collected kind pc (yt_body y) ps.
Proof using Hy.
  apply (cw_foreach_ind _ (collected kind pc)).
  { split_and!; [apply NoDup_nil_2|by intros k p ?%not_elem_of_nil|by intros p (x & ?%not_elem_of_nil & _)]. }
  intros done x rest ps Hl (Hnd & Hin & Hall).
  assert (Hskip : (forall p, searched_type kind x = Some p ->
    ~ (id_name (q_name p) = id_name (q_name pc) /\ rtxTypeCheck_MatchPointcuts p pc = true)) ->
    collected kind pc (done ++ [x]) ps).
  { intros Hno. split_and!; [done| |].
    - intros k p Hk. destruct (Hin k p Hk) as [-> Hc]. split; [done|]. apply candidate_in_snoc. by left.
    - intros p [Hc|(Hx & Hc)]%candidate_in_snoc; [by apply Hall|]. by destruct (Hno p Hx). }
  destruct (searched_type kind x) as [p|] eqn:Ex; [|exists ps; split; [done|by apply Hskip]].
  destruct (_ && _) eqn:E; [|exists ps; split; [done|]].
  2:{ apply Hskip. intros q [= <-] [Hn Hm]. rewrite Hn, String.eqb_refl, Hm in E. done. }
  rewrite full_name_Ret. simpl. eexists. split; [reflexivity|].
  apply andb_true_iff in E as [En%String.eqb_eq Em].
  assert (Hc : candidate_in (done ++ [x]) kind pc p) by (apply candidate_in_snoc; by right).
  split_and!.
  - by apply NoDup_akeys_aupd.
  - intros k q [[= -> ->]|Hk]%elem_of_aupd; [done|]. destruct (Hin k q Hk) as [-> Hq].
    split; [done|]. apply candidate_in_snoc. by left.
  - intros q [Hq|(Hx & _)]%candidate_in_snoc.
    + destruct (decide (seq_key q = seq_key p)) as [Ek|Ek]; 
        [|apply aget_In; rewrite aget_aupd_ne by done; by apply In_aget, Hall].
      assert (q = p) as ->; [|apply aget_In; by rewrite aget_aupd_eq].
      destruct Hq as (x' & Hx' & Hs & Hn & _).
      apply (apart_same y Hy x' x); [rewrite Hl; apply elem_of_app; by left|rewrite Hl; apply elem_of_app; right; by left|
        by apply (searched_item kind)|by apply (searched_item kind)|congruence|by right].
    + rewrite Ex in Hx. injection Hx as <-. apply aget_In. by rewrite aget_aupd_eq.
Qed.

(** The completion of one chunk, found or not. *)
Lemma ItfTypeDefinesChunk_spec kind pc :
  exists b q, rtxTypeCheck_ItfTypeDefinesChunk y pc kind = Ret (b, q) /\
    (b = true <-> exists p, forall q, candidate y kind pc q <-> q = p) /\
    (b = true -> forall p, candidate y kind pc p <-> p = q).
Proof using Hy.
  unfold rtxTypeCheck_ItfTypeDefinesChunk. destruct (collect kind pc) as (ps & -> & Hnd & Hin & Hall).
  setoid_rewrite candidate_eq. simpl.
  destruct ps as [|[k p] [|[k' p'] ps]].
  - exists false, pc. split_and!; [done| |done]. split; [done|]. intros (p & Hp).
    assert (Hc : (seq_key p, p) ∈ ([] : arr seq_proto)) by (apply Hall; by apply Hp). by apply not_elem_of_nil in Hc.
  - assert (Hu : forall q, candidate_in (yt_body y) kind pc q <-> q = p).
    { intros q. split; [|intros ->; apply (Hin k p); by left].
      intros Hq%Hall. apply list_elem_of_singleton in Hq. congruence. }
    exists true, p. split_and!; [done|split; [intros _; by exists p|done]|done].
  - exists false, pc. split_and!; [done| |done]. split; [done|]. intros (z & Hz).
    destruct (Hin k p) as [-> Hp%Hz]; [by left|]. destruct (Hin k' p') as [-> Hp'%Hz]; [right; by left|].
    subst. apply NoDup_cons in Hnd as [Hn _]. destruct Hn. by left.
Qed.

Lemma type_chunks_spec body :
  exists ok body', type_chunks y body = Ret (ok, body') /\
    (ok = true <-> forall c, c ∈ body -> (exists p, stands_for y c p) /\
                   (b_chunk_type c = "decl" -> rtxTypeCheck_TypeDecl c = true)) /\
    (ok = true -> completes y body body').
Proof using Hy.
  enough (exists st, type_chunks y body = Ret st /\
    (st.1 = true <-> forall c, c ∈ body -> (exists p, stands_for y c p) /\
                     (b_chunk_type c = "decl" -> rtxTypeCheck_TypeDecl c = true)) /\
    (st.1 = true -> completes y body st.2)) as ([ok body'] & H) by eauto.
  apply (cw_foreach_ind _ (fun body st =>
    (st.1 = true <-> forall c, c ∈ body -> (exists p, stands_for y c p) /\
                     (b_chunk_type c = "decl" -> rtxTypeCheck_TypeDecl c = true)) /\
    (st.1 = true -> completes y body st.2))).
  { split; [split; [by intros _ c ?%not_elem_of_nil|done]|by constructor]. }
  intros done c rest [ok body'] _ [Hok Hc]. simpl in Hok, Hc.
  destruct (ItfTypeDefinesChunk_spec (b_chunk_type c) (b_pointcut c)) as (b & q & -> & Hb & Hq). simpl.
  eexists. split; [reflexivity|]. simpl.
  assert (Hd : negb (b_chunk_type c == "decl") || rtxTypeCheck_TypeDecl c = true <->
               (b_chunk_type c = "decl" -> rtxTypeCheck_TypeDecl c = true)).
  { destruct (String.eqb_spec (b_chunk_type c) "decl"); simpl; [by split; auto|by split]. }
  split.
  - rewrite !andb_true_iff, Hok, Hd, Hb. split.
    + intros [[H1 H2] H3] c' [Hc'| ->%list_elem_of_singleton]%elem_of_app; [by apply H1|done].
    + intros H. split_and!; [|apply (H c)..]; [|apply elem_of_app; right; by left..].
      intros c' Hc'. apply H, elem_of_app. by left.
  - intros [[H1%Hc _]%andb_true_iff H3]%andb_true_iff. apply Forall2_app; [done|].
    constructor; [|by constructor]. exists q. split; [|done]. exact (Hq H3).
Qed.

Lemma give_pointcut_id test p body :
  (forall c, c ∈ body -> test c = true -> b_pointcut c = p) ->
  given (give_pointcut test p body) body = (existsb test body, body).
Proof using Type.
  intros H. assert (Hg : give_pointcut test p body = if existsb test body then Some body else None).
  { induction body as [|c body IH]; simpl; [done|]. destruct (test c) eqn:E; simpl.
    - rewrite <- (H c (list_elem_of_here c body) E). by destruct c.
    - rewrite IH; [by destruct (existsb test body)|]. intros c' Hc'. apply H. by right. }
  rewrite Hg. by destruct (existsb test body).
Qed.

Section completed.
Context (t : template) (body : list chunk) (Hc : completes y (tp_body t) body).

Lemma completed_item c : c ∈ body ->
  exists c0 x, c0 ∈ tp_body t /\ stands_for y c0 (b_pointcut c) /\ b_chunk_type c0 = b_chunk_type c /\
    x ∈ yt_body y /\ item_proto x = Some (b_pointcut c).
Proof using Hc.
  intros [i Hi]%list_elem_of_lookup.
  destruct (Forall2_lookup_r _ _ _ _ _ Hc Hi) as (c0 & H0 & p & Hp & ->). simpl.
  assert (H : candidate y (b_chunk_type c0) (b_pointcut c0) p) by by apply Hp.
  destruct H as (x & Hx & Hs%searched_item & _). exists c0, x. split_and!; [|done..].
  apply list_elem_of_lookup. by exists i.
Qed.

Lemma completed_of c0 p : c0 ∈ tp_body t -> stands_for y c0 p ->
  exists c, c ∈ body /\ b_pointcut c = p /\ b_chunk_type c = b_chunk_type c0.
Proof using Hc.
  intros [i Hi]%list_elem_of_lookup Hp.
  destruct (Forall2_lookup_l _ _ _ _ _ Hc Hi) as (c & H & q & Hq & ->).
  assert (q = p) as -> by (apply Hp, Hq; done).
  exists (set_pointcut p c0). split_and!; [apply list_elem_of_lookup; by exists i|done|done].
Qed.

Lemma completed_holes : flat_map b_holes body = flat_map b_holes (tp_body t).
Proof using Hc.
  revert Hc. unfold completes. generalize (tp_body t). intros l H.
  induction H as [|c c' l l' (p & _ & ->) _ IH]; simpl; [done|]. by rewrite IH.
Qed.

(** A search for a prototype of the type finds what is there, and changes
    nothing. *)
Lemma search_item x p (kind : string -> Prop) test :
  x ∈ yt_body y -> item_proto x = Some p ->
  (forall c, test c = true -> kind (b_chunk_type c) /\ id_name (q_name p) = id_name (q_name (b_pointcut c)) /\
     (rtxTypeCheck_MatchPointcuts p (b_pointcut c) = true \/ seq_key p = seq_key (b_pointcut c))) ->
  (forall c, kind (b_chunk_type c) -> b_pointcut c = p -> test c = true) ->
  given (give_pointcut test p body) body = (existsb test body, body) /\
  (existsb test body = true <-> exists c, c ∈ tp_body t /\ kind (b_chunk_type c) /\ stands_for y c p).
Proof using Hy Hc.
  intros Hx Hp Ht Hk.
  assert (Hs : forall c, c ∈ body -> test c = true -> b_pointcut c = p).
  { intros c (c0 & x' & _ & _ & _ & Hx' & Hp')%completed_item (_ & Hn & Hm)%Ht. symmetry.
    by apply (apart_same y Hy x x'). }
  split; [by apply give_pointcut_id|]. rewrite existsb_exists. split.
  - intros (c & Hin%list_elem_of_In & Hc1). assert (E := Hs c Hin Hc1). destruct (Ht c Hc1) as [Hk1 _].
    destruct (completed_item c Hin) as (c0 & x' & H0 & Hst & Hty & _). rewrite E in Hst. exists c0. by rewrite Hty.
  - intros (c0 & H0 & Hk0 & Hst). destruct (completed_of c0 p H0 Hst) as (c & Hin & E & Hty). exists c.
    split; [by apply list_elem_of_In|]. apply Hk; [by rewrite Hty|done].
Qed.

Lemma has_chunk_of_demand x p kind :
  x ∈ yt_body y -> item_proto x = Some p ->
  (has_chunk_of kind p body).2 = body /\
  ((has_chunk_of kind p body).1 = true <->
   exists c, c ∈ tp_body t /\ b_chunk_type c = kind /\ stands_for y c p).
Proof using Hy Hc.
  intros Hx Hp. unfold has_chunk_of.
  match goal with |- (given (give_pointcut ?f p body) body).2 = _ /\ _ =>
    destruct (search_item x p (fun k => k = kind) f Hx Hp) as [-> H]; [| |done] end.
  - intros c [[E%String.eqb_eq Hn%String.eqb_eq]%andb_true_iff Hf%same_full_name_true]%andb_true_iff.
    split_and!; [done|done|by right].
  - intros c E ->. rewrite E, !String.eqb_refl. by apply same_full_name_true.
Qed.

(** One element of the type: what the check of it answers. *)
Lemma template_has_demand x : x ∈ yt_body y ->
  (forall r, template_has (tp_mapping t) x body = Ret r -> r.2 = body) /\
  (template_has (tp_mapping t) x body = Ret (true, body) <-> demand y t x).
Proof using Hy Hc.
  intros Hx. destruct x as [p|p|p|p|rtype name|ty]; simpl.
  - rewrite <- HasPointcut_spec. unfold rtxTypeCheck_TemplateHasPointcut. rewrite completed_holes.
    destruct (cw_first _ _ _) as [[b u]| |]; simpl; [|done..].
    split; [by intros r [= <-]|]. split; [by intros [= ->]|by intros [= ->]].
  - unfold rtxTypeCheck_TemplateHasChunk. rewrite (apart_qualified y Hy p Hx).
    destruct (search_item (TChunk p) p (fun _ => True)
      (fun c => (id_name (q_name p) == id_name (q_name (b_pointcut c))) && rtxTypeCheck_MatchPointcuts p (b_pointcut c))
      Hx eq_refl) as [-> H].
    + intros c [E%String.eqb_eq Hm]%andb_true_iff. split_and!; [done|done|by left].
    + intros c _ ->. by rewrite String.eqb_refl, MatchPointcuts_refl.
    + split; [by intros r [= <-]|]. transitivity (exists c, c ∈ tp_body t /\ True /\ stands_for y c p).
      * rewrite <- H. split; [by intros [= ->]|by intros ->].
      * split; [intros (c & ? & _ & ?)|intros (c & ? & ?)]; by exists c.
  - destruct (has_chunk_of_demand (TMethod p) p "method" Hx eq_refl) as [H1 H2].
    unfold rtxTypeCheck_TplTypeHasMethod. destruct (has_chunk_of "method" p body) as [b body']; simpl in *. subst.
    split; [by intros r [= <-]|]. rewrite <- H2. split; [by intros [= ->]|by intros ->].
  - destruct (has_chunk_of_demand (TDecl p) p "decl" Hx eq_refl) as [H1 H2].
    unfold rtxTypeCheck_TplTypeHasDecl. destruct (has_chunk_of "decl" p body) as [b body']; simpl in *. subst.
    split; [by intros r [= <-]|]. rewrite <- H2. split; [by intros [= ->]|by intros ->].
  - split; [by intros r [= <-]|]. rewrite <- in_names_spec. unfold rtxTypeCheck_TplTypeHasAttribute.
    split; [by intros [= ->]|by intros ->].
  - split; [by intros r [= <-]|done].
Qed.

End completed.

End types.

Lemma completes_functional y body b1 b2 : completes y body b1 -> completes y body b2 -> b1 = b2.
Proof.
  unfold completes. intros H. revert b2. induction H as [|c c1 l l1 (p & Hp & ->) _ IH]; intros b2; inversion 1 as [|? c2 ? l2 (q & Hq & ->) H2]; subst; [done|].
  f_equal; [|by apply IH]. assert (p = q) as -> by (apply Hq, Hp; done). done.
Qed.

Lemma completes_all y body :
  (forall c, c ∈ body -> exists p, stands_for y c p) -> exists body', completes y body body'.
Proof.
  induction body as [|c body IH]; intros H; [exists []; constructor|].
  destruct (H c) as [p Hp]; [by left|]. destruct IH as [body' Hb]; [intros c' Hc'; apply H; by right|].
  exists (set_pointcut p c :: body'). constructor; [by exists p|done].
Qed.

Section back.
Context {D : Disk full_tree} (s : session).

Lemma mapping_known y mapping :
  forallb (rtxTypeCheck_ItfTypeDefinesAttribute y) mapping = true <-> forall a, a ∈ mapping -> a ∈ yt_attributes y.
Proof.
  rewrite forallb_forall. unfold rtxTypeCheck_ItfTypeDefinesAttribute.
  split; intros H a Ha; apply in_names_spec, H; by apply list_elem_of_In.
Qed.

(** The elements of the type, once the chunks are known. *)
Lemma type_items_demand y t body r :
  told_apart y -> completes y (tp_body t) body ->
  type_items (tp_mapping t) (yt_body y) body = Ret (true, r) <->
  r = body /\ forall x, x ∈ yt_body y -> demand y t x.
Proof.
  intros Hy Hc. unfold type_items. rewrite (cw_foreach_all (template_has (tp_mapping t)) (yt_body y) body true r).
  - split.
    + intros (_ & -> & H). split; [done|]. intros x Hx. by apply (template_has_demand y Hy t body Hc x Hx), H.
    + intros [-> H]. split_and!; [done|done|]. intros x Hx. by apply (template_has_demand y Hy t body Hc x Hx), H.
  - intros x r' Hx. by apply (template_has_demand y Hy t body Hc x Hx).
Qed.

Lemma TemplateSpec_type_iff fuel t interfaces name itfTree y t' :
  rtxInterfaceNameHasType fuel s (q_name (tp_rtype t)) (id_scope (q_name (tp_rtype t))) interfaces = Ret (true, name) ->
  load_itf (D := D) (id_scope name) s = Ret (Some itfTree) ->
  aget (id_name name) (ft_types itfTree) = Some y -> told_apart y ->
  TemplateSpec_type fuel s t interfaces = Ret (true, t') <->
  conforms y t /\
  exists body, completes y (tp_body t) body /\ t' = set_tpl (SeqProto name (q_params (tp_rtype t))) body t.
Proof using Type.
  intros Hn Hl Hty Hy. unfold TemplateSpec_type. rewrite Hn. simpl. rewrite Hl. simpl. rewrite Hty.
  destruct (type_chunks_spec y Hy (tp_body t)) as (ok & body & -> & Hok & Hc). simpl. rewrite cw_bind_Ret. split.
  - intros ([b r] & Hi & [= [[[E Hd%Nat.eqb_eq]%andb_true_iff Hb]%andb_true_iff Hm]%andb_true_iff <-]). simpl in Hb.
    subst b. assert (Hc' := Hc E). apply (type_items_demand y t body r Hy Hc') in Hi as [-> Hi].
    rewrite Hok in E. split; [|by exists body].
    split; [intros c Hin; by apply E|done|intros c Hin Hk; by apply TypeDecl_spec, (E c Hin)|done|
            exact (proj1 (mapping_known _ _) Hm)].
  - intros ([C1 C2 C3 C4 C5] & body' & Hb & ->).
    assert (E : ok = true) by (apply Hok; intros c Hin; split; [by apply C1|intros Hd; by apply TypeDecl_spec, C3]).
    rewrite (completes_functional y _ _ _ Hb (Hc E)). exists (true, body). split.
    + by apply (type_items_demand y t body body Hy (Hc E)).
    + rewrite E, C2. simpl. by rewrite (proj2 (mapping_known _ _) C5).
Qed.

(** C21: A template of a type whose declaration is found is accepted exactly
    when it conforms: each of its chunks stands for one prototype of the
    declaration, every chunk, method, decl, pointcut and attribute that is
    declared is there (a pointcut in a place holder for it, before which
    none of its name lacks a parameter), there is one decl, which is that of
    an enumeration or has a name in each of its declarations and one of them
    that is not a typedef, and only attributes are mapped; the template is
    then left with the pointcuts its chunks stand for. The prototypes of the
    declaration are to be told apart. *)
Theorem type_template_conforms fuel t interfaces name itfTree y :
  tp_type t = "type" \/ tp_type t = "builtintype" ->
  rtxInterfaceNameHasType fuel s (q_name (tp_rtype t)) (id_scope (q_name (tp_rtype t))) interfaces = Ret (true, name) ->
  load_itf (D := D) (id_scope name) s = Ret (Some itfTree) ->
  aget (id_name name) (ft_types itfTree) = Some y -> told_apart y ->
  (conforms y t <-> exists t', rtxTypeCheck_Template fuel s t interfaces = Ret (true, t')) /\
  (forall t', rtxTypeCheck_Template fuel s t interfaces = Ret (true, t') ->
     exists body, completes y (tp_body t) body /\ t' = set_tpl (SeqProto name (q_params (tp_rtype t))) body t).
Proof using Type.
  intros Ht Hn Hl Hty Hy. unfold rtxTypeCheck_Template.
  assert ((tp_type t == "sequence") = false) as -> by (destruct Ht as [->| ->]; done).
  assert ((tp_type t == "type") || (tp_type t == "builtintype") = true) as -> by (destruct Ht as [->| ->]; done).
  assert (H := fun t' => TemplateSpec_type_iff fuel t interfaces name itfTree y t' Hn Hl Hty Hy). split; [split|].
  - intros Hc. destruct (completes_all y (tp_body t) (conf_known _ _ Hc)) as [body Hb].
    eexists. apply H. split; [done|]. by exists body.
  - intros [t' Ht']. by destruct (proj1 (H t') Ht').
  - intros t' Ht'. by destruct (proj1 (H t') Ht').
Qed.

(** ** The verdict on a file *)

(** The count of a block is zero when every node is accepted. *)
Lemma block_count fuel itfs block k ns k' ns' :
  cw_foreach (fun item st =>
    r <- rtxTpl_TypeCheckFor fuel s item itfs ;;
    Ret (if r.1 : bool then st.1 else S st.1, st.2 ++ [r.2])) block (k, ns) = Ret (k', ns') ->
  (k' = 0 <-> k = 0 /\ forall n, n ∈ block -> exists n', rtxTpl_TypeCheckFor fuel s n itfs = Ret (true, n')) /\
  (k' <> 0 -> k = 0 -> exists n n', n ∈ block /\ rtxTpl_TypeCheckFor fuel s n itfs = Ret (false, n')).
Proof using Type.
  revert k ns. induction block as [|n block IH]; intros k ns; simpl.
  - intros [= -> ->]. split; [|done].
    split; [intros ->; split; [done|by intros n ?%not_elem_of_nil]|by intros [-> _]].
  - intros ([k1 ns1] & ([b n'] & Hn & [= <- <-])%cw_bind_Ret & Hf)%cw_bind_Ret.
    destruct (IH _ _ Hf) as [H1 H2]. simpl in H1. split.
    + rewrite H1. split.
      * intros [Hk H]. destruct b; [|done]. split; [done|]. intros m [->|Hm]%elem_of_cons; [by exists n'|by apply H].
      * intros [-> H]. destruct (H n) as [n1 E]; [by left|]. rewrite Hn in E. injection E as -> _.
        split; [done|]. intros m Hm. apply H. by right.
    + intros Hk' ->. destruct b; [|exists n, n'; split; [by left|done]].
      destruct (H2 Hk' eq_refl) as (m & m' & Hm & E). exists m, m'. split; [by right|done].
Qed.

(** A [with] of templates only. *)
Definition plain_with (itfs : list string) (ts : list template) : tpl_node := BWith itfs (map BTpl ts) [].

Lemma plain_with_answer fuel itfs ts interfaces b n' :
  rtxTpl_TypeCheckFor fuel s (plain_with itfs ts) interfaces = Ret (b, n') ->
  b = false <-> forall t, t ∈ ts -> exists t', rtxTypeCheck_Template fuel s t itfs = Ret (true, t').
Proof using Type.
  simpl. intros ([k ns] & Hf & [= <- _])%cw_bind_Ret. destruct (block_count _ _ _ _ _ _ _ Hf) as [Hk _].
  rewrite andb_true_r. unfold block_answer. rewrite negb_false_iff, Nat.eqb_eq, Hk. split.
  - intros [_ H] t Ht. destruct (H (BTpl t)) as [n1 Hn]; [apply list_elem_of_fmap; by exists t|].
    simpl in Hn. apply cw_bind_Ret in Hn as ([b t'] & Ht' & [= -> _]). by exists t'.
  - intros H. split; [done|]. intros n (t & -> & Ht)%list_elem_of_fmap. simpl.
    destruct (H t Ht) as [t' ->]. by eexists.
Qed.

(** C23: A file of interfaces and of blocks of templates is accepted exactly
    when all templates of one of its blocks are: rejected templates in
    another block are not reported, and a file without a block is rejected.
    *)
Theorem back_check_verdict fuel root b root' :
  rtxTpl_TypeCheck fuel s root = Ret (b, root') ->
  (forall n, n ∈ root -> n = BRest \/ exists itfs ts, n = plain_with itfs ts) ->
  b = true <-> exists itfs ts, plain_with itfs ts ∈ root /\
    forall t, t ∈ ts -> exists t', rtxTypeCheck_Template fuel s t itfs = Ret (true, t').
Proof using Type.
  intros ([k ns] & Hf & [= <- _])%cw_bind_Ret Hroot. destruct (block_count _ _ _ _ _ _ _ Hf) as [Hk Hall].
  unfold block_answer. rewrite negb_true_iff, Nat.eqb_neq. split.
  - intros Hn. destruct (Hall Hn eq_refl) as (n & n' & Hin & Hn').
    destruct (Hroot n Hin) as [->|(itfs & ts & ->)]; [done|].
    exists itfs, ts. split; [done|]. by apply (plain_with_answer _ _ _ _ _ _ Hn').
  - intros (itfs & ts & Hin & H) [_ Ha]%Hk. destruct (Ha _ Hin) as [n' Hn'].
    apply (plain_with_answer _ _ _ _ _ _ Hn') in H. done.
Qed.


(** ** The search of a pointcut *)

Lemma load_view {A} (f : full_tree -> A) x :
  load_itf (D := view_disk f D) x s = (t <- load_itf (D := D) x s ;; Ret (option_map f t)).
Proof using Type.
  unfold load_itf, rtxLink_LoadItem. destruct (rtxLink_findInterface x s) as [e|]; [|done].
  destruct (ie_tree_file e) as [file|]; [|done]. simpl.
  destruct (tree_at (catPath "./" file)); [done|]. simpl.
  destruct (tree_at (catPath local_backlib_path file)); [done|]. simpl.
  by destruct (tree_at (catPath backlib_path file)).
Qed.

Lemma load_view_Some {A} (f : full_tree -> A) x a :
  load_itf (D := view_disk f D) x s = Ret (Some a) -> exists t, load_itf (D := D) x s = Ret (Some t) /\ a = f t.
Proof using Type. rewrite load_view. intros ([t|] & Ht & [= <-])%cw_bind_Ret. by exists t. Qed.

Definition tree_node (t : full_tree) : inode :=
  INode (ft_name t) (Tables (akeys (ft_types t)) (ft_variables t) (ft_pointcuts t) (ft_protos t))
    (map (fun kp => (kp.1, None)) (ft_inheritance t)).

Lemma load_node_Some x n :
  load_node x s = Ret (Some n) -> exists t, load_itf (D := D) x s = Ret (Some t) /\ n = tree_node t.
Proof using Type.
  unfold load_node. intros ([t|] & Ht & [= <-])%cw_bind_Ret.
  apply load_view_Some in Ht as (t' & Ht & ->). by exists t'.
Qed.

Lemma akeys_emptied {A B} (a : arr A) : akeys (map (fun kp => (kp.1, None)) a : arr (option B)) = akeys a.
Proof. unfold akeys. rewrite map_map. by apply map_ext. Qed.

(** A declaration of a pointcut in a tree that [p] may stand for. *)
Definition pointcut_in (t : full_tree) (p : seq_proto) (kd : string * seq_decl) : Prop :=
  exists refs, aget (id_name (q_name p)) (ft_pointcuts t) = Some refs /\ kd ∈ refs /\
    (params_match p kd.2 = true \/ kd.1 = seq_key (set_scope (ft_name t) p)).

(** In one of the interfaces named or in a parent of it. *)
Definition pointcut_from (bases : list string) (p : seq_proto) (kd : string * seq_decl) : Prop :=
  exists base tb x t, base ∈ bases /\ load_itf (D := D) base s = Ret (Some tb) /\
    (x = base \/ x ∈ akeys (ft_inheritance tb)) /\ load_itf (D := D) x s = Ret (Some t) /\ pointcut_in t p kd.

(** The same but for the scope. *)
Definition rescoped (p p' : seq_proto) : Prop := p' = p \/ exists x, p' = set_scope x p.

Lemma rescoped_scope p p' x : rescoped p p' -> set_scope x p' = set_scope x p /\ rescoped p (set_scope x p').
Proof. intros [->|[z ->]]; (split; [done|]); right; by exists x. Qed.

Lemma rescoped_same p p' : rescoped p p' -> q_params p' = q_params p /\ id_name (q_name p') = id_name (q_name p).
Proof. by intros [->|[z ->]]. Qed.

(** What a search knows: the pointcut asked for, and possibilities that are
    declarations. *)
Definition searched (bases : list string) (p : seq_proto) (st : seq_proto * arr seq_decl) : Prop :=
  rescoped p st.1 /\ forall kd, kd ∈ st.2 -> pointcut_from bases p kd.

Definition search_result (bases : list string) (p : seq_proto) (r : bool * (seq_proto * arr seq_decl)) : Prop :=
  searched bases p r.2 /\ (r.1 = true -> exists kd, pointcut_from bases p kd).

Lemma defines_in typed t p p' ps r :
  rescoped p p' -> rtxTypeCheck_ItfDefinesPointcut typed p' (tree_node t) ps = Ret r ->
  rescoped p r.2.1 /\ (forall kd, kd ∈ r.2.2 -> kd ∈ ps \/ pointcut_in t p kd) /\
  (r.1 = true -> exists kd, pointcut_in t p kd).
Proof.
  intros Hp. destruct (rescoped_same p p' Hp) as [Eps En]. unfold rtxTypeCheck_ItfDefinesPointcut. simpl. rewrite En.
  destruct (aget (id_name (q_name p)) (ft_pointcuts t)) as [refs|] eqn:E; [|by intros [= <-]; split_and!; [|left|]].
  destruct (rescoped_scope p p' (ft_name t) Hp) as [Es Hs].
  destruct (negb typed && _).
  - rewrite full_name_Ret, Es. simpl. destruct (aget _ refs) as [d|] eqn:Ed; intros [= <-]; simpl.
    + assert (Hin : pointcut_in t p (seq_key (set_scope (ft_name t) p), d)).
      { exists refs. split_and!; [done|by apply aget_In|by right]. }
      split_and!; [by rewrite <- Es|intros kd [->|Hkd]%elem_of_aupd; [by right|by left]|by eexists].
    + split_and!; [by rewrite <- Es|by left|done].
  - intros [= <-]. simpl. split_and!; [done| |done].
    assert (H : forall rs ps0, (forall kd, kd ∈ rs -> kd ∈ refs) -> (forall kd, kd ∈ ps0 -> kd ∈ ps \/ pointcut_in t p kd) ->
      forall kd, kd ∈ foldl (fun ps kd => if params_match p' kd.2 then aupd kd.1 (fun _ => kd.2) ps else ps) ps0 rs ->
      kd ∈ ps \/ pointcut_in t p kd).
    { induction rs as [|[k d] rs IH]; intros ps0 Hrs H0; [done|]. simpl. apply IH; [intros kd Hkd; apply Hrs; by right|].
      destruct (params_match p' d) eqn:Em; [|done]. intros kd [->|Hkd]%elem_of_aupd; [right|by apply H0].
      exists refs. split_and!; [done|apply Hrs; by left|left]. unfold params_match in *. by rewrite <- Eps. }
    apply (H refs ps); [done|by left].
Qed.

Lemma search_pointcut_sound typed x p p' ps r bases :
  x ∈ bases -> searched bases p (p', ps) -> search_pointcut typed s x p' ps = Ret r -> search_result bases p r.
Proof using Type.
  intros Hx [Hp Hps] ([n|] & Hn & H)%cw_bind_Ret; [|by injection H as <-].
  apply load_node_Some in Hn as (tb & Htb & ->).
  assert (Hfrom : forall y t kd, (y = x \/ y ∈ akeys (ft_inheritance tb)) -> load_itf (D := D) y s = Ret (Some t) ->
    pointcut_in t p kd -> pointcut_from bases p kd) by (intros y t kd Hy Ht Hkd; by exists x, tb, y, t).
  apply cw_bind_Ret in H as ([b [p1 ps1]] & H1 & H).
  destruct (defines_in _ _ _ _ _ _ Hp H1) as (Hp1 & Hps1 & Hb). simpl in *.
  assert (Hps1' : forall kd, kd ∈ ps1 -> pointcut_from bases p kd).
  { intros kd [Hkd|Hkd]%Hps1; [by apply Hps|by apply (Hfrom x tb kd); [left| |]]. }
  destruct b.
  - injection H as <-. split; [split; [by apply rescoped_scope|done]|].
    intros _. destruct (Hb eq_refl) as [kd Hkd]. exists kd. by apply (Hfrom x tb kd); [left| |].
  - apply cw_bind_Ret in H as ([b2 st] & Hf & [= <-]). rewrite akeys_emptied in Hf.
    apply (cw_first_true _ (search_result bases p)) in Hf as [Hst _]; [done|by split|].
    intros y [b0 [p0 ps0]] r2 Hy [[Hp0 Hps0] Hb0] ([n|] & Hn & Hr)%cw_bind_Ret; [|by injection Hr as <-].
    apply load_node_Some in Hn as (t & Ht & ->). apply cw_bind_Ret in Hr as ([b3 [p3 ps3]] & H3 & [= <-]). simpl in *.
    destruct (defines_in _ _ _ _ _ _ Hp0 H3) as (Hp3 & Hps3 & Hb3). simpl in *.
    assert (Hps3' : forall kd, kd ∈ ps3 -> pointcut_from bases p kd).
    { intros kd [Hkd|Hkd]%Hps3; [by apply Hps0|by apply (Hfrom y t kd); [right| |]]. }
    destruct b3; (split; [split; [|done]|]); simpl; [by apply rescoped_scope| |done|done].
    intros _. destruct (Hb3 eq_refl) as [kd Hkd]. exists kd. by apply (Hfrom y t kd); [right| |].
Qed.


(** Pointcuts that every template may use. *)
Definition builtin_known (itfName : string) (p : seq_proto) : Prop :=
  itfName = "" /\ id_global (q_name p) = true /\ id_name (q_name p) ∈ ["IMPLEMENTATION"; "CALL"].

Definition pointcut_known (itfName : string) (interface_list : list string) (p : seq_proto) : Prop :=
  builtin_known itfName p \/ exists kd, pointcut_from (roots itfName interface_list) p kd.

Lemma pointcut_search_sound typed p itfName lst b p1 ps :
  rtxTypeCheck_ItfNameDefinesPointcut_recursive typed s p itfName lst [] = Ret (b, (p1, ps)) ->
  searched (roots itfName lst) p (p1, ps) /\ (b = true -> pointcut_known itfName lst p).
Proof using Type.
  unfold rtxTypeCheck_ItfNameDefinesPointcut_recursive, pointcut_known, roots.
  assert (H0 : forall bases, searched bases p (p, [])) by (intros bases; split; [by left|by intros kd ?%not_elem_of_nil]).
  destruct (String.eqb_spec itfName "") as [->|Hn]; simpl.
  - destruct (id_global (q_name p)) eqn:Eg; simpl.
    + intros [= <- <- <-]. split; [done|]. intros H. left. split_and!; [done|done|]. apply in_names_spec, H.
    + intros ([b0 [b1 st]] & Hf & [= -> ->])%cw_bind_Ret. simpl in *.
      apply (cw_first_true _ (search_result lst p)) in Hf as [[Hs Hb] _];
        [by split; [done|intros Hb'; right; apply Hb]|by split|].
      intros y [b2 [p0 ps0]] r Hy [Hs0 _] ([n|] & Hl & Hr)%cw_bind_Ret; [|injection Hr as <-; by split].
      apply cw_bind_Ret in Hr as ([b3 [p3 ps3]] & H3 & [= <-]). simpl in *.
      assert (Hs3 : search_result lst p (b3, (p3, ps3))).
      { destruct (y == ""); [injection H3 as <- <- <-; by split|].
        by apply (search_pointcut_sound typed y p p0 ps0 _ lst). }
      destruct Hs3 as [[Hp3 Hps3] Hb3]. simpl in *.
      destruct b3; (split; [split; [|done]|]); simpl; [by apply rescoped_scope|done|done|done].
  - intros H. apply (search_pointcut_sound typed itfName p p [] _ [itfName]) in H as [H1 H2]; [|by left|done].
    split; [done|]. intros Hb. right. by apply H2.
Qed.

Lemma unique_by_value_cons k d ps : unique_by_value ((k, d) :: ps) = [("", d)].
Proof.
  assert (H : forall u, findElement "" u = true ->
    foldl (fun u kd => if findElement "" u then u else u ++ [("", kd.2 : seq_decl)]) u ps = u).
  { induction ps as [|kd ps IH]; intros u Hu; [done|]. simpl. rewrite Hu. by apply IH. }
  by apply H.
Qed.

Lemma pointcut_check_sound typed p itfName lst p' :
  rtxTypeCheck_ItfNameDefinesPointcut typed s p itfName lst = Ret (true, p') -> pointcut_known itfName lst p.
Proof using Type.
  intros ([b [p1 ps]] & Hr & H)%cw_bind_Ret. apply pointcut_search_sound in Hr as [[_ Hps] Hb].
  destruct b; [by apply Hb|]. destruct ps as [|[k d] ps]; [done|].
  right. exists (k, d). apply Hps. by left.
Qed.

(** Of declarations that match, the first is taken: an ambiguous pointcut is not
    reported. *)
Theorem first_pointcut_taken typed p itfName lst p1 k d ps :
  rtxTypeCheck_ItfNameDefinesPointcut_recursive typed s p itfName lst [] = Ret (false, (p1, (k, d) :: ps)) ->
  rtxTypeCheck_ItfNameDefinesPointcut typed s p itfName lst = Ret (true, e_rtype d).
Proof using Type.
  unfold rtxTypeCheck_ItfNameDefinesPointcut. intros ->. cbn [cw_bind]. by rewrite unique_by_value_cons.
Qed.


(** ** Templates of sequences *)

(** The first chunk of [body] whose pointcut may stand for [p] gets that pointcut. *)
Definition chunk_given (p : seq_proto) (body body' : list chunk) : Prop :=
  exists b1 c b2, body = b1 ++ c :: b2 /\ fits p (b_pointcut c) /\ (forall c1, c1 ∈ b1 -> ~ fits p (b_pointcut c1)) /\
    body' = b1 ++ set_pointcut p c :: b2.

(** A template that has what the elements of the declaration of a sequence demand,
    one after the other, and how that completes its chunks. *)
Inductive provides : list seq_item -> list chunk -> list chunk -> Prop :=
| provides_nil body : provides [] body body
| provides_chunk p items body body1 body' :
    chunk_given p body body1 -> provides items body1 body' -> provides (SChunk p :: items) body body'
| provides_pointcut qualifier p items body body' :
    (qualifier = "provided" -> has_pointcut p body) -> provides items body body' ->
    provides (SPointcut qualifier p :: items) body body'
| provides_other items body body' : provides items body body' -> provides (SForbidden :: items) body body'.

(** The same for what the qualifier demands: the pointcut of the body, or the chunk
    of the call. *)
Definition provides_builtin (qualifier : string) (body body' : list chunk) : Prop :=
  if (qualifier == "required") || (qualifier == "optional")
  then has_pointcut (builtin_pointcut "IMPLEMENTATION") body /\ body' = body
  else chunk_given (builtin_pointcut "CALL") body body'.

Lemma give_pointcut_Some test p body body' :
  give_pointcut test p body = Some body' ->
  exists b1 c b2, body = b1 ++ c :: b2 /\ test c = true /\ (forall c1, c1 ∈ b1 -> test c1 = false) /\
    body' = b1 ++ set_pointcut p c :: b2.
Proof.
  revert body'. induction body as [|c body IH]; intros body'; simpl; [done|]. destruct (test c) eqn:E.
  - intros [= <-]. exists [], c, body. split_and!; [done..|by intros ? ?%not_elem_of_nil|done].
  - destruct (give_pointcut test p body) as [b|]; [|done]. intros [= <-].
    destruct (IH b eq_refl) as (b1 & c1 & b2 & -> & H1 & H2 & ->). exists (c :: b1), c1, b2.
    split_and!; [done..| |done]. intros c2 [->|Hc2]%elem_of_cons; [done|by apply H2].
Qed.

Lemma TemplateHasChunk_sound p body body' :
  rtxTypeCheck_TemplateHasChunk p body = Ret (true, body') -> chunk_given p body body'.
Proof.
  unfold rtxTypeCheck_TemplateHasChunk. destruct (proto_is_qualified p); [|done].
  destruct (give_pointcut _ p body) as [b|] eqn:E; [|done]. intros [= <-].
  apply give_pointcut_Some in E as (b1 & c & b2 & -> & H1%fits_bool & H2 & ->). exists b1, c, b2.
  split_and!; [done..| |done]. intros c1 Hc1 Hf%fits_bool. specialize (H2 c1 Hc1). simpl in H2. congruence.
Qed.

Lemma sequence_items_sound items body body' :
  sequence_items items body = Ret (true, body') -> provides items body body'.
Proof.
  unfold sequence_items. enough (H : forall ok, cw_foreach (fun item st => r <- sequence_item item st.2 ;;
    Ret (st.1 && r.1, r.2)) items (ok, body) = Ret (true, body') -> ok = true /\ provides items body body') by by intros [_ ?]%H.
  revert body. induction items as [|x items IH]; intros body ok; simpl; [intros [= -> ->]; by split; [|constructor]|].
  intros ([ok1 body1] & ([b body2] & Hx & [= <- <-])%cw_bind_Ret & Hrest)%cw_bind_Ret. simpl in Hrest.
  apply IH in Hrest as [[-> ->]%andb_true_iff Hrest]. split; [done|]. destruct x as [p|q p|]; simpl in Hx.
  - by apply (provides_chunk p items body body2); [apply TemplateHasChunk_sound|].
  - destruct (String.eqb_spec q "provided") as [->|Hq].
    + apply cw_bind_Ret in Hx as (b & Hb & [= -> <-]). apply provides_pointcut; [|done]. intros _. by apply HasPointcut_spec.
    + injection Hx as <-. by apply provides_pointcut.
  - injection Hx as <-. by apply provides_other.
Qed.

Lemma TemplateBuiltinItems_sound q body body' :
  rtxTypeCheck_TemplateBuiltinItems q body = Ret (true, body') -> provides_builtin q body body'.
Proof.
  unfold rtxTypeCheck_TemplateBuiltinItems, provides_builtin. destruct (_ || _); [|by apply TemplateHasChunk_sound].
  intros (b & Hb & [= -> <-])%cw_bind_Ret. split; [|done]. by apply HasPointcut_spec.
Qed.

(** ** The declaration of a sequence *)

(** A tree that has the name of its interface, and its sequences under their names
    and full names, in the scope of the interface. *)
Record well_named (x : string) (t : full_tree) : Prop := {
  wn_name : ft_name t = x;
  wn_keys : forall name refs, aget name (ft_sequences t) = Some refs -> NoDup (akeys refs);
  wn_entry : forall name refs k d, aget name (ft_sequences t) = Some refs -> (k, d) ∈ refs ->
    let p := e_rtype (st_decl d) in
    name = id_name (q_name p) /\ k = seq_key p /\ id_scope (q_name p) = x
}.

Definition trees_named : Prop := forall x t, load_itf (D := D) x s = Ret (Some t) -> well_named x t.

Lemma aget_protos t name : aget name (ft_protos t) =
  option_map (map (fun kd => (kd.1, st_decl kd.2))) (aget name (ft_sequences t)).
Proof using Type.
  unfold ft_protos. induction (ft_sequences t) as [|[k v] a IH]; simpl; [done|]. by destruct (name == k).
Qed.

Lemma aget_decls k (refs : arr seq_tree) :
  aget k (map (fun kd => (kd.1, st_decl kd.2)) refs) = option_map st_decl (aget k refs).
Proof using Type. induction refs as [|[k' d] refs IH]; simpl; [done|]. by destruct (k == k'). Qed.

(** A declaration that matches is an entry of the table. *)
Lemma matches_entry p t e : e ∈ matches p (front_tree t) ->
  exists refs k d, aget (id_name (q_name p)) (ft_sequences t) = Some refs /\ (k, d) ∈ refs /\ st_decl d = e /\
    (proto_is_qualified p = true -> k = seq_key (set_scope (ft_name t) p)).
Proof using Type.
  unfold matches. simpl. rewrite aget_protos.
  destruct (aget (id_name (q_name p)) (ft_sequences t)) as [refs|]; simpl; [|by intros ?%not_elem_of_nil].
  destruct (proto_is_qualified p).
  - rewrite aget_decls. destruct (aget _ refs) as [d|] eqn:E; simpl; [|by intros ?%not_elem_of_nil].
    intros ->%list_elem_of_singleton. eexists refs, _, d. split_and!; [done|by apply aget_In|done|done].
  - intros [Hin _]%list_elem_of_In%filter_In. rewrite map_map in Hin. apply in_map_iff in Hin as ([k d] & <- & Hin).
    exists refs, k, d. split_and!; [done|by apply list_elem_of_In|done|done].
Qed.

(** The declaration that the resolved prototype leads to is the one it was
    resolved to. *)
Lemma resolved_declaration rs itf p p' e itfTree d :
  trees_named -> declared_from (D := front_disk) s rs p e -> resolved (D := front_disk) s itf p p' e ->
  load_itf (D := D) (id_scope (q_name p')) s = Ret (Some itfTree) ->
  aget (seq_key p') (default [] (aget (id_name (q_name p')) (ft_sequences itfTree))) = Some d -> st_decl d = e.
Proof using Type.
  intros Hnamed (rt & x & t & _ & _ & _ & [_ Ht] & He) Hr Hl Hd.
  assert (H : exists x ft refs k d0, load_itf (D := D) x s = Ret (Some ft) /\ id_scope (q_name p') = x /\
    aget (id_name (q_name p')) (ft_sequences ft) = Some refs /\ (k, d0) ∈ refs /\ k = seq_key p' /\ st_decl d0 = e).
  { destruct Hr as [->|(-> & Hq & t1 & [_ Ht1] & He1)].
    - apply load_view_Some in Ht as (ft & Hft & ->).
      apply matches_entry in He as (refs & k & d0 & Hrefs & Hin & <- & _).
      destruct (wn_entry x ft (Hnamed x ft Hft) _ refs k d0 Hrefs Hin) as (En & Ek & Es).
      exists x, ft, refs, k, d0. split_and!; [done|done|by rewrite <- En|done..].
    - apply load_view_Some in Ht1 as (ft & Hft & ->).
      assert (He2 : e ∈ matches p (front_tree ft)) by (rewrite He1; by left).
      apply matches_entry in He2 as (refs & k & d0 & Hrefs & Hin & Ed & Ek).
      exists itf, ft, refs, k, d0. split_and!; [done..| |done].
      rewrite (Ek Hq). by rewrite (wn_name itf ft (Hnamed itf ft Hft)). }
  destruct H as (y & ft & refs & k & d0 & Hft & Hy & Hrefs & Hin & -> & <-). subst y.
  rewrite Hl in Hft. injection Hft as <-. rewrite Hrefs in Hd. simpl in Hd. f_equal.
  pose proof (In_aget _ _ _ (wn_keys _ _ (Hnamed _ _ Hl) _ refs Hrefs) Hin) as H0. congruence.
Qed.

(** A declaration of the type in the interface that its scope names. *)
Definition type_known (i : ident) (y : type_tree) : Prop :=
  exists t, load_itf (D := D) (id_scope i) s = Ret (Some t) /\ y ∈ ft_block t /\
    id_name (yt_rtype y) = id_name i /\ id_scope (yt_rtype y) = id_scope i.

(** A pointcut that stands for the body of the sequence, with the parameters of
    the template. *)
Definition implementation_of (tplRtype p : seq_proto) : Prop :=
  id_scope (q_name p) = "" /\ id_global (q_name p) = true /\ id_name (q_name p) = "IMPLEMENTATION" /\
  rtxTypeCheck_ParametersMatch tplRtype p = true.

(** What a place holder refers to. *)
Definition hole_known (tplRtype : seq_proto) (chunk_scope itfName : string) (interface_list : list string)
    (hole : placeholder) : Prop :=
  match hole with
  | PType i => exists y, type_known i y
  | PVar => True
  | PMethodCall i name arity => exists y p, type_known i y /\ TMethod p ∈ yt_body y /\
      id_name (q_name p) = name /\ length (q_params p) = arity
  | PSequenceCall i args => exists e,
      declared_from (D := front_disk) s (roots (if id_scope i == "" then chunk_scope else id_scope i) []) (SeqProto i args) e /\
      e_qualifier e = "provided"
  | PPointcut _ p => implementation_of tplRtype p \/ pointcut_known itfName interface_list p
  | PUnknown => False
  end.

Lemma GetType_sound i y : rtxTypeCheck_GetType s i = Ret (Some y) -> type_known i y.
Proof using Type.
  unfold rtxTypeCheck_GetType. intros ([t|] & Ht & [= H])%cw_bind_Ret.
  apply List.find_some in H as [Hin [Hn%String.eqb_eq Hs%String.eqb_eq]%andb_true_iff].
  exists t. split_and!; [done|by apply list_elem_of_In|done|done].
Qed.

Lemma CheckPlaceholder_sound fuel rtype scope itf lst hole hole' :
  rtxTypeCheck_CheckPlaceholder fuel s (Some rtype) scope itf lst hole = Ret (true, hole') ->
  hole_known rtype scope itf lst hole.
Proof using Type.
  destruct hole as [i| |i name n|i args|typed p|]; simpl.
  - intros ([y|] & Hy & H)%cw_bind_Ret; [|done]. exists y. by apply GetType_sound.
  - done.
  - intros ([y|] & Hy & H)%cw_bind_Ret; [|done]. injection H as H _. apply GetType_sound in Hy. apply existsb_exists in H as (x & Hin & Hx).
    apply list_elem_of_In in Hin. destruct x as [| |p| | |]; try done.
    apply andb_true_iff in Hx as [Hn%String.eqb_eq Hl%Nat.eqb_eq]. by exists y, p.
  - intros ([b [p' q']] & Hr & [= [-> Hq%String.eqb_eq]%andb_true_iff _])%cw_bind_Ret.
    apply name_defines_sound in Hr as [(e & He & ->) _]. by exists e.
  - destruct (_ && _) eqn:E.
    + intros [= H _]. left. apply andb_true_iff in E as [[Es%String.eqb_eq Eg]%andb_true_iff En%String.eqb_eq].
      by split_and!.
    + intros ([b p'] & Hr & [= -> _])%cw_bind_Ret. right. by apply pointcut_check_sound in Hr.
  - done.
Qed.

Lemma check_holes_sound check holes r :
  check_holes check holes = Ret r -> r.1 = true -> forall h, h ∈ holes -> exists h', check h = Ret (true, h').
Proof.
  apply (cw_foreach_inv _ (fun holes (r : bool * list placeholder) =>
    r.1 = true -> forall h, h ∈ holes -> exists h', check h = Ret (true, h'))); [by intros _ h ?%not_elem_of_nil|].
  intros done h rest [ok l] r' _ IH ([b h'] & Hh & [= <-])%cw_bind_Ret. simpl in *.
  intros [Ho ->]%andb_true_iff x [Hx| ->%list_elem_of_singleton]%elem_of_app; [by apply IH|by exists h'].
Qed.

(** Where the pointcut of a chunk is looked for. *)
Definition chunk_itf (tplRtype : seq_proto) (c : chunk) : string :=
  if unscoped (q_name (b_pointcut c)) then id_scope (q_name tplRtype) else id_scope (q_name (b_pointcut c)).

(** A chunk, as it was and as it is left. *)
Definition chunk_known (tplRtype : seq_proto) (itfName : string) (interface_list : list string) (c c' : chunk) : Prop :=
  pointcut_known (chunk_itf tplRtype c) interface_list (b_pointcut c) /\
  forall h, h ∈ b_holes c -> hole_known tplRtype (id_scope (q_name (b_pointcut c'))) itfName interface_list h.

Lemma sequence_chunk_sound fuel rtype itf q lst c c' :
  sequence_chunk fuel s rtype itf q lst c = Ret (true, c') -> chunk_known rtype itf lst c c'.
Proof using Type.
  unfold sequence_chunk. simpl.
  intros ([b p] & Hp & ([b1 hs] & Hh & [= [-> ->]%andb_true_iff <-])%cw_bind_Ret)%cw_bind_Ret. split.
  - by apply pointcut_check_sound in Hp.
  - intros h Hin. destruct (check_holes_sound _ _ _ Hh eq_refl h Hin) as [h' Hh'].
    by apply CheckPlaceholder_sound in Hh'.
Qed.

Lemma sequence_chunks_sound fuel rtype itf q lst body r :
  sequence_chunks fuel s rtype itf q lst body = Ret r -> r.1 = true -> Forall2 (chunk_known rtype itf lst) body r.2.
Proof using Type.
  apply (cw_foreach_inv _ (fun body (r : bool * list chunk) =>
    r.1 = true -> Forall2 (chunk_known rtype itf lst) body r.2)); [by constructor|].
  intros done c rest [ok l] r' _ IH ([b c'] & Hc & [= <-])%cw_bind_Ret. simpl in *.
  intros [Ho ->]%andb_true_iff. apply Forall2_app; [by apply IH|].
  constructor; [by apply sequence_chunk_sound in Hc|constructor].
Qed.

(** C22: An accepted template of a sequence is found a declaration, in an
    interface named or a parent of it, that its prototype resolves to, and
    the tree that the resolved prototype leads to: the declaration looked up
    there is that one, when the trees keep their sequences under their own
    names. The elements of the declaration are met one after the other: a
    chunk for each chunk, which is the first that fits it in name, scope and
    parameters and is given its pointcut, and a place holder for each
    pointcut that is provided; then, as the qualifier of the declaration
    asks, the pointcut of its body or the chunk of its call. Each chunk so
    completed has a pointcut that is declared, and its place holders refer
    to declared types, methods, pointcuts and provided sequences. *)
Theorem sequence_template_sound fuel t interfaces t' :
  tp_type t = "sequence" -> rtxTypeCheck_Template fuel s t interfaces = Ret (true, t') ->
  let itf := id_scope (q_name (tp_rtype t)) in
  let rtype := tp_rtype t' in
  exists e itfTree d body1 body2,
    declared_from (D := front_disk) s (roots itf interfaces) (tp_rtype t) e /\
    resolved (D := front_disk) s itf (tp_rtype t) rtype e /\
    load_itf (D := D) (id_scope (q_name rtype)) s = Ret (Some itfTree) /\
    aget (seq_key rtype) (default [] (aget (id_name (q_name rtype)) (ft_sequences itfTree))) = Some d /\
    (trees_named -> st_decl d = e) /\
    provides (st_body d) (tp_body t) body1 /\ provides_builtin (e_qualifier (st_decl d)) body1 body2 /\
    Forall2 (chunk_known rtype (ft_name itfTree) interfaces) body2 (tp_body t').
Proof using Type.
  intros Ht. unfold rtxTypeCheck_Template. rewrite Ht. simpl. unfold TemplateSpec_sequence.
  intros ([b [rtype q]] & Hr & H)%cw_bind_Ret. destruct b; simpl in H; [|done].
  apply name_defines_sound in Hr as [_ (e & He & Hres)]. rewrite full_name_Ret in H. simpl in H.
  apply cw_bind_Ret in H as ([itfTree|] & Hl & H); [|done].
  destruct (aget (seq_key rtype) _) as [d|] eqn:Ed; [|done].
  apply cw_bind_Ret in H as ([b1 body1] & Hi & H). apply cw_bind_Ret in H as ([b2 body2] & Hb & H).
  apply cw_bind_Ret in H as ([b3 body3] & Hc & [= [[-> ->]%andb_true_iff ->]%andb_true_iff <-]). simpl in *.
  exists e, itfTree, d, body1, body2. split_and!; [done|done|done|done| |by apply sequence_items_sound|
    by apply TemplateBuiltinItems_sound|by apply sequence_chunks_sound in Hc].
  intros Hnamed. by eapply resolved_declaration.
Qed.

End back.

(** ** What the check lets pass *)

Definition no_templates : list itf_source := [builtin_number; the_lkm [bomb_of [numeric]]].

Definition good_bomb : list tpl_node := lkm_bomb [int_i] ["numeric"].

Definition bad_bomb : list tpl_node := lkm_bomb [int_i] [].

(** One block that is good is enough, a file with no block is rejected, and so
    is a block of an accepted and a rejected template. *)
Example odd_back_verdicts :
  back_verdicts [(no_templates, good_bomb); (no_templates, bad_bomb); (no_templates, []);
                 (no_templates, bad_bomb ++ good_bomb);
                 (no_templates, with_lkm (map (bomb_tpl (scoped "LKM" "Bomb") [int_i]) [["numeric"]; []]))] =
  [Some true; Some false; Some false; Some true; Some false].
Proof. vm_compute. reflexivity. Qed.

(** A decl of an enumeration, with no declarations, or of a typedef next to a
    variable, but not of a typedef only. *)
Example enum_decl_accepted :
  back_verdicts (map (fun kf => (no_templates, lkm_bomb [Chunk "decl" kf.1 (proto_of "insert_types" []) kf.2 []] ["numeric"]))
    [("enum", []); ("block", [CDecl "t" "typedef"; CDecl "i" "auto"]); ("block", [CDecl "t" "typedef"])]) =
  [Some true; Some true; Some false].
Proof. vm_compute. reflexivity. Qed.

(** A chunk whose pointcut two interfaces declare. *)
Example ambiguous_pointcut_accepted :
  let both := MPointcut "provided" (proto_of "extra" []) in
  back_verdicts [([builtin [MBuiltin (bare "String") None; both];
                   the_lkm [MPointcut "provided" test_pointcut; both; do_something [bare "String"] [SChunk test_pointcut]]],
                  with_lkm [something "" [bare "String"] (Chunk "chunk" "block" (proto_of "extra" []) [] [] :: implemented)])] =
  [Some true].
Proof. vm_compute. reflexivity. Qed.

(** ** Witnesses *)

Definition trees_for (itfs : list itf_source) : list full_tree :=
  match check_source (D := no_disk) 50 MiddleCheck.fresh (map OItf itfs) with Ret r => trees_of r | _ => [] end.

Definition accepted_itfs : list itf_source := (nth 12 test_05 ([], [])).1.

Definition accepted_bomb : template :=
  bomb_tpl (scoped "LKM" "Bomb") [int_i; chunk_of "chunk" "pouet" [bare "String"]; chunk_of "method" "Explode" [number ""]]
    ["nb"; "s"].

Definition lkm_tree : full_tree := nth 1 (trees_for accepted_itfs) (FullTree "" [] [] [] [] [] []).

Definition bomb_type : type_tree := nth 1 (ft_block lkm_tree) (TypeTree (bare "") [] []).

Lemma bomb_told_apart : told_apart bomb_type.
Proof.
  split.
  - assert (H : Forall (fun x => match x with TChunk p => proto_is_qualified p = true | _ => True end) (yt_body bomb_type)).
    { vm_compute. repeat constructor. }
    intros p Hp. by apply (proj1 (Forall_forall _ _) H (TChunk p)).
  - assert (H : Forall (fun p => Forall (fun q => id_name (q_name p) = id_name (q_name q) ->
      rtxTypeCheck_MatchPointcuts p q = true \/ seq_key p = seq_key q -> p = q)
      (omap item_proto (yt_body bomb_type))) (omap item_proto (yt_body bomb_type))).
    { refine (bool_decide_unpack _ _). vm_compute. exact I. }
    intros x x' p q Hx Hx' Hp Hq. rewrite Forall_forall in H.
    assert (Hip : p ∈ omap item_proto (yt_body bomb_type)) by (apply list_elem_of_omap; by exists x).
    specialize (H p Hip). rewrite Forall_forall in H. apply H. apply list_elem_of_omap. by exists x'.
Qed.

Example type_template_conforms_witness :
  conforms bomb_type accepted_bomb /\
  exists body, completes bomb_type (tp_body accepted_bomb) body /\ length body = 3.
Proof.
  destruct (rtxTypeCheck_Template (D := disk_of (trees_for accepted_itfs)) 50 (session_of (trees_for accepted_itfs))
    accepted_bomb ["LKM"]) as [[b t']| |] eqn:E; pose proof E as E'; vm_compute in E'; [|discriminate E'..].
  injection E' as <- E'. clear E'.
  destruct (type_template_conforms (D := disk_of (trees_for accepted_itfs)) (session_of (trees_for accepted_itfs)) 50 accepted_bomb ["LKM"]
              (scoped "LKM" "Bomb") lkm_tree bomb_type (or_introl eq_refl)
              ltac:(vm_compute; reflexivity) ltac:(vm_compute; reflexivity) ltac:(vm_compute; reflexivity) bomb_told_apart)
    as [Hc Hb].
  split; [apply Hc; exists t'; exact E|]. destruct (Hb t' E) as (body & Hbody & _).
  exists body. split; [exact Hbody|]. by rewrite <- (Forall2_length _ _ _ Hbody).
Defined.

Definition two_blocks : list tpl_node := [BRest; BRest] ++ bad_bomb ++ good_bomb.

Example back_check_verdict_witness :
  exists itfs ts, plain_with itfs ts ∈ two_blocks /\
    forall t, t ∈ ts -> exists t',
      rtxTypeCheck_Template (D := disk_of (trees_for no_templates)) 50 (session_of (trees_for no_templates)) t itfs = Ret (true, t').
Proof.
  destruct (rtxTpl_TypeCheck (D := disk_of (trees_for no_templates)) 50 (session_of (trees_for no_templates)) two_blocks)
    as [[b root']| |] eqn:E; pose proof E as E'; vm_compute in E'; [|discriminate E'..]. injection E' as <- _.
  apply (back_check_verdict (D := disk_of (trees_for no_templates)) _ 50 two_blocks true root' E); [|reflexivity].
  intros n Hn. unfold two_blocks, bad_bomb, good_bomb, lkm_bomb, with_lkm in Hn. simpl in Hn.
  repeat (apply elem_of_cons in Hn as [->|Hn]; [first [left; reflexivity|right; eexists _, [_]; reflexivity]|]).
  destruct (not_elem_of_nil _ Hn).
Defined.

Definition sequence_itfs : list itf_source := [builtin_string; lkm_sequence].

Definition accepted_sequence : template := something "" [bare "String"] implemented.

(** The trees of these interfaces are well named. *)
Lemma well_named_all t :
  Forall (fun nr : string * arr seq_tree => NoDup (akeys nr.2) /\
    Forall (fun kd : string * seq_tree => nr.1 = id_name (q_name (e_rtype (st_decl kd.2))) /\
      kd.1 = seq_key (e_rtype (st_decl kd.2)) /\ id_scope (q_name (e_rtype (st_decl kd.2))) = ft_name t) nr.2)
    (ft_sequences t) ->
  well_named (ft_name t) t.
Proof.
  intros H. rewrite Forall_forall in H. split; [done| |].
  - intros name refs Hr%aget_In. apply (H _ Hr).
  - intros name refs k d Hr%aget_In Hin. destruct (H _ Hr) as [_ Hk]. rewrite Forall_forall in Hk. apply (Hk _ Hin).
Qed.

Lemma sequence_trees_named : trees_named (D := disk_of (trees_for sequence_itfs)) (session_of (trees_for sequence_itfs)).
Proof.
  assert (Hall : Forall (fun t => well_named (ft_name t) t) (trees_for sequence_itfs)).
  { assert (H : Forall (fun t => Forall (fun nr : string * arr seq_tree => NoDup (akeys nr.2) /\
      Forall (fun kd : string * seq_tree => nr.1 = id_name (q_name (e_rtype (st_decl kd.2))) /\
        kd.1 = seq_key (e_rtype (st_decl kd.2)) /\ id_scope (q_name (e_rtype (st_decl kd.2))) = ft_name t) nr.2)
      (ft_sequences t)) (trees_for sequence_itfs)).
    { refine (bool_decide_unpack _ _). vm_compute. exact I. }
    apply (Forall_impl _ _ _ H). intros t Ht. by apply well_named_all. }
  assert (Hn : map ft_name (trees_for sequence_itfs) = ["Builtin"; "LKM"]) by (vm_compute; reflexivity).
  destruct (trees_for sequence_itfs) as [|t1 [|t2 [|? ?]]]; try discriminate Hn. injection Hn as H1 H2.
  apply Forall_cons in Hall as [Ht1 [Ht2 _]%Forall_cons].
  intros x t. unfold load_itf, rtxLink_findInterface, session_of. simpl. rewrite H1, H2.
  destruct (String.eqb_spec x "Builtin") as [->|]; [|destruct (String.eqb_spec x "LKM") as [->|]]; [| |done];
    unfold rtxLink_LoadItem; simpl; rewrite ?H1, ?H2; simpl; intros [= <-].
  - by rewrite H1 in Ht1.
  - by rewrite H2 in Ht2.
Qed.

(** The sequence is provided and demands a chunk for its pointcut and one for its
    call. *)
Example sequence_template_sound_witness :
  exists t', rtxTypeCheck_Template (D := disk_of (trees_for sequence_itfs)) 50 (session_of (trees_for sequence_itfs))
               accepted_sequence ["LKM"] = Ret (true, t') /\
    exists e d body1 body2, resolved (D := front_disk (D := disk_of (trees_for sequence_itfs))) (session_of (trees_for sequence_itfs)) ""
        (tp_rtype accepted_sequence) (tp_rtype t') e /\
      st_decl d = e /\ provides (st_body d) (tp_body accepted_sequence) body1 /\
      provides_builtin (e_qualifier e) body1 body2.
Proof.
  destruct (rtxTypeCheck_Template (D := disk_of (trees_for sequence_itfs)) 50 (session_of (trees_for sequence_itfs))
    accepted_sequence ["LKM"]) as [[b t']| |] eqn:E; pose proof E as E'; vm_compute in E'; [|discriminate E'..].
  injection E' as <- _. exists t'. split; [reflexivity|].
  destruct (sequence_template_sound (D := disk_of (trees_for sequence_itfs)) _ 50 accepted_sequence ["LKM"] t' eq_refl E)
    as (e & itfTree & d & body1 & body2 & _ & Hr & _ & _ & Hd & Hp & Hb & _).
  specialize (Hd sequence_trees_named). subst e. exists (st_decl d), d, body1, body2. exact (conj Hr (conj eq_refl (conj Hp Hb))).
Defined.
